(* ===== verification/_CoqProject ===== *)
-Q . S2P
Prelude.v
GoStd.v
Store.v
Errors.v
Netip.v
NetipFacts.v
Ipnstate.v
Netmap.v
Authz.v
Sse.v
SseFacts.v
AtomicFile.v
Json.v
Crypto.v
Session.v
Wire.v
WireFacts.v
Api.v
ApiFacts.v
Conc.v
PollerBase.v
PollerFacts.v
FileStore.v
Groups.v
GroupsFacts.v
Guests.v
GuestsFacts.v
Poller.v
PollerSet.v
PollerKeep.v
PollerSeq.v
PollerFrame.v
PollerRun.v
PollerRunFacts.v
PollerConc.v
Router.v
RouterFacts.v
RouterProto.v
RouterLocks.v
DeadMan.v
HostKey.v
Transport.v
Ssh.v
Config.v
CommandLine.v
ConfigFacts.v
CommandLineFacts.v
System.v
SystemFacts.v
Requests.v
RequestsFacts.v
RequestsAuth.v
RequestsConfined.v
Main.v
MainFacts.v
Fixtures.v
PollerWitness.v
RouterWitness.v
SseWitness.v
StoreFixtures.v
StoreWitness.v
SystemWitness.v
RequestsWitness.v
Demo.v
DemoFacts.v
Tickers.v
DemoServer.v
DemoStop.v
MainWitness.v
Divergences.v
