(* ===== verification/Prelude.v ===== *)
(** * tsctl: a verification development

    tsctl is a web controller for the exit nodes of the routers of a tailnet.  It polls
    the routers over SSH, shows their state to the browsers that watch, and lets an
    administrator, or a guest bound to one zone, choose the exit node of a router.  A
    change is guarded by a dead-man's switch: a timer is armed on the router before the
    change and puts the previous selection back unless a keep-marker is written in time.

    This library models the program (the packages under src/internal and src/cmd/tsctl)
    by executable definitions translated from the source, and proves what makes it
    correct.  A comment [path:first-last, Symbol] before a definition names the lines it
    translates.

    ** The parts and how they interact

    A request goes through the middlewares of the API to a handler, which calls the
    poller, the zone store or the guest store; the poller calls the router client, which
    runs commands over SSH, and publishes each new snapshot to the hub, which streams it to
    the browsers, filtered by zone for guests; the hub tells the poller whether anyone
    watches.  The interfaces between the parts are type classes: [PollerEnv] (what the
    poller calls), [RouterRunner] (one command on a router), [ApiWorld] and the stores (what
    the API calls); System.v discharges them with the modelled parts.  The API is over an
    effect: the same handlers are state transformers in System.v, trees of operations and
    programs of atomic sections in Requests.v.

    - Shared: Prelude.v (state monad, automation, generic lemmas), GoStd.v (strings, time,
      sorting of the Go library), Errors.v (error values and their chains), Netip.v and
      NetipFacts.v (net/netip), Ipnstate.v (the status of tailscaled), Json.v (JSON trees),
      Crypto.v (SHA-256, HMAC, base64), Conc.v (programs of atomic sections, their
      interleavings, rely/guarantee).
    - Store.v: src/internal/store/types.go, the data.
    - Netmap.v: src/internal/netmap, the inventory and the identity of a caller.
    - Authz.v: src/internal/authz, subjects and what a guest sees.
    - Sse.v, SseFacts.v: src/internal/sse, the hub.  Goroutines are the components of one
      state and every channel operation is a step, so that a list of events is an
      interleaving.
    - AtomicFile.v, FileStore.v, Groups.v, Guests.v and their Facts: src/internal/groups
      and guests.  Both stores are instances of one file-backed store over a file system
      with an oracle of faults and the history of the disk's contents, for crashes.
    - PollerBase.v (pure functions), Poller.v (the operations), PollerRun.v (the loop):
      src/internal/poller.  An operation is a program whose atomic sections are what the
      code runs under its mutex.  Proofs: PollerFacts.v, PollerSet.v, PollerKeep.v,
      PollerSeq.v (operations alone), PollerConc.v (all interleavings), PollerFrame.v (what
      operations leave alone), PollerRunFacts.v (the loop with the hub).
    - Router.v, RouterFacts.v, RouterProto.v: the commands and the client of
      src/internal/router; DeadMan.v: the router at the other end; HostKey.v, Transport.v,
      Ssh.v: host keys, transports and sessions.
    - RouterLocks.v: the calls of the client as sequences of commands under one lock per
      router, and that they are the single transitions of Router.v.
    - Session.v, Wire.v, WireFacts.v, Api.v, ApiFacts.v: src/internal/api.
    - Config.v, ConfigFacts.v: src/cmd/tsctl/config.go and the options main.go derives;
      CommandLine.v, CommandLineFacts.v: durations, the flags, the environment.
    - System.v, SystemFacts.v: src/cmd/tsctl/main.go, the server as a whole, one request at
      a time: its start with every way it can fail, its state, its runs.
    - Requests.v: the server under concurrency, every request in a goroutine of its own and
      interleaved with the others at their critical sections.  RequestsFacts.v: a request
      alone is the one of System.v, and the invariants of all interleavings;
      RequestsAuth.v: complete mediation, for arbitrary answers; RequestsConfined.v: what
      those who are not an admin can do in an interleaving.
    - Main.v, MainFacts.v: the rest of src/cmd/tsctl: the dispatch of the command line, the
      spike, systemd, the health endpoint and the shutdown.
    - Demo.v, DemoFacts.v: src/internal/demo, the scripted backend and its zone store;
      DemoServer.v, DemoStop.v: runDemo of main.go, the poller and the API over it, and how
      it stops.
    - Tickers.v: the goroutines that follow a ticker, the watchdog's pings and the ticks of
      the demo world.
    - Fixtures.v, StoreFixtures.v and the Witness files: concrete instances at which the
      theorems are applied.  Divergences.v: concrete runs that differ from the comments.

    ** What the theorems show

    - The dead-man's switch: the protocol of a change ([ApplyExitNode_protocol]), that an
      unkept change reverts and a kept one stays, with lost commands and answers
      (DeadMan.v), that no armed timer is forgotten by the poller
      ([SetExitNode_loses_no_timer]), and that under every interleaving a change still
      waiting for its keep is never shown as done ([outstanding_change_never_ok]).
    - The server under concurrency: in every interleaving of requests and polls that
      invariant, the well-formedness of the stores and the agreement of memory and disk
      hold ([interleaved_server_ok]); a request touches nothing before it has shown who
      it is, whatever happens meanwhile ([complete_mediation]); those who are not an admin
      change no store, and those who were locked out change nothing
      ([powerless_requests]).  That every guest's zone exists is kept by one request at a
      time ([started_server_ok]) and not by interleaved ones ([guest_left_without_zone]).
    - The poller's operations on every outcome: [set_target_accepts],
      [set_reconcile_honest], [SetExitNode_alone], [Keep_outcomes],
      [set_commit_superseded].
    - The loop: polling follows the viewers and its rate is bounded (PollerRunFacts.v).
    - The stores: refinement of a finite map, agreement of memory and disk whatever
      fails, recovery from crashes, termination of the drawing of identifiers,
      authentication.
    - Security: sessions cannot be altered, requests are gated, a login hands out what the
      credentials are worth, a guest sees its zone only (also as noninterference) and
      changes only what its zone allows, host keys are pinned, clients fail closed, what
      reaches a router's shell is inert; and, of the whole server over arbitrary runs,
      [only_admins_administer], [disabled_guest_locked_out], [started_server_ok].
    - The router client: its calls interleave command by command and are still atomic
      ([client_calls_atomic]), which is what the poller's model takes them for.
    - The edges: what a browser reads back from the wire ([snapshot_wire_roundtrip]), and
      that the command line expresses every configuration ([command_line_roundtrip]).
    - The hub: it never blocks, every client that stays gets the last frame, and guests'
      streams are scoped.
    - Where a started server is reached and under which credentials
      ([started_surfaces]); the watchdog is fed in time ([watchdog_fed]).
    - The shutdown is ordered and completes by the process's own goroutines alone
      ([shutdown_ordered], [shutdown_completes]); the demo stops too ([demo_completes]).
    - The demo: its zone store agrees with the real one, it never claims a change it has
      not made (DemoFacts.v), and who is admitted to it ([demo_admits]).

    ** Choices, bounds and fuel

    Durations and times are nanoseconds in Z; the machine-width arithmetic of the source
    is written out where a value can reach it (the expiry and its conversion to int64 in
    Session.v, bytes and words in Crypto.v, the capped sizes of Ssh.v).  The counters
    setSeq and setGen are unbounded: they are uint64 and count the operations of one
    process.  Go maps are gmaps, or lists in an arbitrary order where the source iterates
    over them.  Two recursions are not structural.  The drawing of a fresh
    identifier runs on the list of random values still to come, and
    [groups_Create_terminates] says how many are enough; the terms of a duration are read
    with the length of the text as fuel, and [parse_terms_enough] says that more changes
    nothing.

    The dials of a poll run one after another, as in the code; other operations run
    between them.

    ** Parameters

    What is not in the repository is a parameter, with what the code relies on as named
    laws: the tables of Unicode, the JSON text layer, bcrypt, the ssh library, the parsing
    of known_hosts, tailscaled's local client, URL parsing, and the router's shell
    ([RouterShell] in DeadMan.v).  Each class of laws has an instance in the witness files.

    ** Not modelled

    The embedded assets, the usage texts and the log; what the tailscale node and the
    listeners do beyond coming up or failing.  In the hub the clock of the heartbeats, in
    the SSH client the deadline of a session.  Request bodies are JSON trees: their text,
    like all JSON text, is a parameter.  In an interleaving of requests a call of the router
    client is one section (RouterLocks.v says why it may be), and an event stream is not a
    request but a connection of the hub (Sse.v).
    Slices are values here, so the copies the source makes to keep its slices unshared
    (copyExitRef, cloneGroups) are identities. *)

From stdpp Require Export base tactics list gmap strings pretty sorting.
From Stdlib Require Export ZArith Lia Ascii String.

Declare Scope go_scope.
Delimit Scope go_scope with go.
Open Scope Z_scope.
Open Scope list_scope.

(** Left-to-right application, used for chains of record updates. *)
Notation "x '|>' f" := (f x)
  (at level 50, left associativity, only parsing) : go_scope.
Open Scope go_scope.

(** ** A state monad

    [M S A] is a computation over the state [S]; stdpp's [x ← m; k] notation
    sequences computations. *)
Definition M (S A : Type) : Type := S → A * S.

#[export] Instance M_ret {S} : MRet (M S) := λ A a s, (a, s).
#[export] Instance M_bind {S} : MBind (M S) :=
  λ A B k m s, let '(a, s') := m s in k a s'.

Definition gets {S A} (f : S → A) : M S A := λ s, (f s, s).
Definition modify {S} (f : S → S) : M S unit := λ s, (tt, f s).
Definition mwhen {S} (b : bool) (m : M S unit) : M S unit :=
  if b then m else mret tt.

Fixpoint mforeach {S A} (l : list A) (f : A → M S unit) : M S unit :=
  match l with
  | [] => mret tt
  | x :: l' => _ ← f x; mforeach l' f
  end.

(** ** Automation shared by the components *)

Create HintDb tsctl discriminated.

(** Split a boolean test of the goal or of a hypothesis into its cases. *)
Ltac case_bool :=
  match goal with
  | |- context [if ?b then _ else _] => destruct b eqn:?
  | H : context [if ?b then _ else _] |- _ => destruct b eqn:?
  end.

Ltac bool_to_prop :=
  repeat match goal with
  | H : andb _ _ = true |- _ => apply andb_true_iff in H as [? ?]
  | H : orb _ _ = false |- _ => apply orb_false_iff in H as [? ?]
  | H : negb _ = true |- _ => apply negb_true_iff in H
  | H : negb _ = false |- _ => apply negb_false_iff in H
  | H : String.eqb _ _ = true |- _ => apply String.eqb_eq in H
  | H : String.eqb _ _ = false |- _ => apply String.eqb_neq in H
  end.

(** ** Lists *)

Lemma find_some_elem {A} (f : A → bool) l x : List.find f l = Some x → x ∈ l ∧ f x = true.
Proof. intros H%List.find_some. by rewrite list_elem_of_In. Qed.

Lemma find_none_elem {A} (f : A → bool) l x : List.find f l = None → x ∈ l → f x = false.
Proof. intros H Hx. eapply List.find_none; [done | by apply list_elem_of_In]. Qed.

Lemma existsb_elem {A} (f : A → bool) l : existsb f l = true ↔ ∃ x, x ∈ l ∧ f x = true.
Proof. rewrite List.existsb_exists. by setoid_rewrite list_elem_of_In. Qed.

Lemma existsb_eqb_elem (s : string) l : existsb (λ c, String.eqb c s) l = true ↔ s ∈ l.
Proof.
  rewrite existsb_elem. setoid_rewrite String.eqb_eq. naive_solver.
Qed.

Lemma elem_of_flat_map {A B} (f : A → list B) l y :
  y ∈ flat_map f l ↔ ∃ x, x ∈ l ∧ y ∈ f x.
Proof. rewrite list_elem_of_In, in_flat_map. by setoid_rewrite list_elem_of_In. Qed.
