(* ===== verification/GoStd.v ===== *)
(** The fragments of Go's standard library the program computes with: time,
    [strings], [strconv], [unicode/utf8] and [sort].  A Go string is a byte
    string, so it is a Rocq [string]; the Unicode tables generated into the Go
    library are the fields of the class [UnicodeTables], and every algorithm
    over them is written out here. *)

From S2P Require Import Prelude.

(** ** [time] *)

(** An instant is the number of nanoseconds since Go's zero time (January 1,
    year 1, 00:00:00 UTC); a duration is an int64 number of nanoseconds. *)
Abbreviation Time := Z.
Abbreviation Duration := Z.

Definition zeroTime : Time := 0.
Definition Second : Duration := 1000000000.
Definition Millisecond : Duration := 1000000.
Definition maxDuration : Duration := 2 ^ 63 - 1.
Definition minDuration : Duration := - 2 ^ 63.

Definition IsZero (t : Time) : bool := t =? zeroTime.
(** [t.Add(d)]: exact, the instants the program handles are far from the ends
    of Go's range. *)
Definition Add (t : Time) (d : Duration) : Time := t + d.
(** [t.Sub(u)] saturates at the ends of the duration range. *)
Definition Sub (t u : Time) : Duration := Z.max minDuration (Z.min maxDuration (t - u)).
Definition After (t u : Time) : bool := u <? t.
Definition Milliseconds (d : Duration) : Z := Z.quot d Millisecond.

(** Seconds from year 1 to the Unix epoch; [Unix] floors, as Go's does. *)
Definition unixToInternal : Z := 62135596800.
Definition Unix (t : Time) : Z := t / Second - unixToInternal.

(** ** Bytes of a string *)

Definition byteZ (c : ascii) : Z := Z.of_N (N_of_ascii c).
Definition chars (s : string) : list ascii := list_ascii_of_string s.
Definition of_chars (l : list ascii) : string := string_of_list_ascii l.
(** [len(s)] *)
Definition len (s : string) : Z := Z.of_nat (String.length s).
Definition chr (z : Z) : ascii := ascii_of_N (Z.to_N z).

Lemma of_chars_chars s : of_chars (chars s) = s.
Proof. apply string_of_list_ascii_of_string. Qed.

Lemma chars_of_chars l : chars (of_chars l) = l.
Proof. apply list_ascii_of_string_of_list_ascii. Qed.

Lemma chars_app s t : chars (s +:+ t) = chars s ++ chars t.
Proof. induction s; simpl; [done | by f_equal]. Qed.

(** ** [strings]: prefixes, suffixes, searching *)

Definition HasPrefix (s p : string) : bool := String.prefix p s.
Definition HasSuffix (s p : string) : bool :=
  String.prefix (of_chars (rev (chars p))) (of_chars (rev (chars s))).
Definition TrimSuffix (s suf : string) : string :=
  if HasSuffix s suf
  then of_chars (take (List.length (chars s) - List.length (chars suf)) (chars s))
  else s.

(** [strings.Contains(s, "c")] for a one-byte needle. *)
Definition ContainsByte (s : string) (c : ascii) : bool :=
  existsb (Ascii.eqb c) (chars s).

(** [strings.IndexByte] *)
Fixpoint index_byte (c : ascii) (l : list ascii) : option nat :=
  match l with
  | [] => None
  | d :: l' => if Ascii.eqb c d then Some O else S <$> index_byte c l'
  end.
Definition IndexByte (s : string) (c : ascii) : option nat := index_byte c (chars s).

(** [strings.IndexAny] for a set of ASCII bytes: the first byte of [s] in it. *)
Fixpoint index_any (set l : list ascii) : option nat :=
  match l with
  | [] => None
  | d :: l' => if existsb (Ascii.eqb d) set then Some O else S <$> index_any set l'
  end.
Definition IndexAny (s set : string) : option nat := index_any (chars set) (chars s).

(** [strings.LastIndex]: the last position at which [sep] occurs. *)
Fixpoint last_index_from (i : nat) (sep s : string) : option nat :=
  match s with
  | EmptyString => if String.eqb sep "" then Some i else None
  | String _ s' =>
      match last_index_from (S i) sep s' with
      | Some j => Some j
      | None => if String.prefix sep s then Some i else None
      end
  end.
Definition LastIndex (s sep : string) : option nat := last_index_from 0 sep s.

Definition str_take (n : nat) (s : string) : string := of_chars (take n (chars s)).
Definition str_drop (n : nat) (s : string) : string := of_chars (drop n (chars s)).

(** [strings.Cut] for a one-byte separator. *)
Definition Cut (s : string) (sep : ascii) : string * string * bool :=
  match IndexByte s sep with
  | Some i => (str_take i s, str_drop (S i) s, true)
  | None => (s, ""%string, false)
  end.

(** [strings.Split] for a one-byte separator. *)
Fixpoint split_chars (sep : ascii) (acc l : list ascii) : list (list ascii) :=
  match l with
  | [] => [rev acc]
  | c :: l' => if Ascii.eqb c sep then rev acc :: split_chars sep [] l'
               else split_chars sep (c :: acc) l'
  end.
Definition Split (s : string) (sep : ascii) : list string :=
  map of_chars (split_chars sep [] (chars s)).

(** ** [strings.TrimSpace]

    Unicode white space, at the byte level: the six ASCII spaces and the UTF-8
    encodings of U+0085, U+00A0, U+1680, U+2000-U+200A, U+2028, U+2029, U+202F,
    U+205F and U+3000. *)
Definition space1 (c : ascii) : bool :=
  let b := byteZ c in ((9 <=? b) && (b <=? 13)) || (b =? 32).
Definition space2 (c1 c2 : ascii) : bool :=
  (byteZ c1 =? 194) && ((byteZ c2 =? 133) || (byteZ c2 =? 160)).
Definition space3 (c1 c2 c3 : ascii) : bool :=
  let b1 := byteZ c1 in let b2 := byteZ c2 in let b3 := byteZ c3 in
  ((b1 =? 225) && (b2 =? 154) && (b3 =? 128)) ||
  ((b1 =? 226) && (b2 =? 128) &&
     (((128 <=? b3) && (b3 <=? 138)) || (b3 =? 168) || (b3 =? 169) || (b3 =? 175))) ||
  ((b1 =? 226) && (b2 =? 129) && (b3 =? 159)) ||
  ((b1 =? 227) && (b2 =? 128) && (b3 =? 128)).

(** Drop the leading runes recognised by the three predicates. *)
Fixpoint trim_while (p1 : ascii → bool) (p2 : ascii → ascii → bool)
    (p3 : ascii → ascii → ascii → bool) (l : list ascii) : list ascii :=
  match l with
  | [] => []
  | a :: l1 =>
      if p1 a then trim_while p1 p2 p3 l1 else
      match l1 with
      | [] => l
      | b :: l2 =>
          if p2 a b then trim_while p1 p2 p3 l2 else
          match l2 with
          | [] => l
          | c :: l3 => if p3 a b c then trim_while p1 p2 p3 l3 else l
          end
      end
  end.

Definition trim_left : list ascii → list ascii := trim_while space1 space2 space3.
Definition trim_right (l : list ascii) : list ascii :=
  rev (trim_while space1 (λ b a, space2 a b) (λ c b a, space3 a b c) (rev l)).
Definition TrimSpace (s : string) : string :=
  of_chars (trim_right (trim_left (chars s))).

(** ** [unicode/utf8] and case folding *)

(** A decoded rune: a code point, or one invalid byte (which Go's decoder
    reports as U+FFFD of width one). *)
Inductive rune := Rune (r : Z) | RuneError (b : Z).
Definition rune_val (r : rune) : Z := match r with Rune r => r | RuneError _ => 65533 end.

Definition in_range (lo hi b : Z) : bool := (lo <=? b) && (b <=? hi).
Definition cont (b : Z) : bool := in_range 128 191 b.
Definition ok2 (b0 b1 : Z) : bool := in_range 194 223 b0 && cont b1.
Definition ok3 (b0 b1 b2 : Z) : bool :=
  cont b2 &&
  (((b0 =? 224) && in_range 160 191 b1) || ((b0 =? 237) && in_range 128 159 b1) ||
   ((in_range 225 236 b0 || in_range 238 239 b0) && cont b1)).
Definition ok4 (b0 b1 b2 b3 : Z) : bool :=
  cont b2 && cont b3 &&
  (((b0 =? 240) && in_range 144 191 b1) || ((b0 =? 244) && in_range 128 143 b1) ||
   (in_range 241 243 b0 && cont b1)).

(** The runes a [for range] loop over the string yields. *)
Fixpoint runes (l : list ascii) : list rune :=
  match l with
  | [] => []
  | c0 :: l0 =>
      let b0 := byteZ c0 in
      if b0 <? 128 then Rune b0 :: runes l0 else
      match l0 with
      | [] => [RuneError b0]
      | c1 :: l1 =>
          let b1 := byteZ c1 in
          if ok2 b0 b1 then Rune (Z.land b0 31 * 64 + Z.land b1 63) :: runes l1 else
          match l1 with
          | [] => RuneError b0 :: runes l0
          | c2 :: l2 =>
              let b2 := byteZ c2 in
              if ok3 b0 b1 b2
              then Rune (Z.land b0 15 * 4096 + Z.land b1 63 * 64 + Z.land b2 63) :: runes l2
              else
              match l2 with
              | [] => RuneError b0 :: runes l0
              | c3 :: l3 =>
                  let b3 := byteZ c3 in
                  if ok4 b0 b1 b2 b3
                  then Rune (Z.land b0 7 * 262144 + Z.land b1 63 * 4096
                             + Z.land b2 63 * 64 + Z.land b3 63) :: runes l3
                  else RuneError b0 :: runes l0
              end
          end
      end
  end.

(** UTF-8 encoding of a code point (what [utf8.AppendRune] appends). *)
Definition encode_rune (r : Z) : list ascii :=
  if r <? 128 then [chr r]
  else if r <? 2048 then [chr (192 + r / 64); chr (128 + r mod 64)]
  else if r <? 65536 then
    [chr (224 + r / 4096); chr (128 + (r / 64) mod 64); chr (128 + r mod 64)]
  else [chr (240 + r / 262144); chr (128 + (r / 4096) mod 64);
        chr (128 + (r / 64) mod 64); chr (128 + r mod 64)].

(** The Unicode tables generated into Go's [unicode] package: a representative
    of each simple-folding orbit ([unicode.SimpleFold] cycles through an
    orbit), the lower-case mapping and the printable runes ([strconv.IsPrint]). *)
Class UnicodeTables := {
  fold_orbit : Z → Z;
  to_lower : Z → Z;
  is_print : Z → bool;
}.

(** Tables that know ASCII only: the instance concrete examples use. *)
Definition ascii_lower (r : Z) : Z := if in_range 65 90 r then r + 32 else r.
Definition ascii_tables : UnicodeTables :=
  {| fold_orbit := ascii_lower; to_lower := ascii_lower; is_print := in_range 32 126 |}.

Section unicode.
Context `{UT : UnicodeTables}.

(** [strings.EqualFold]: equality of the folded rune sequences. *)
Definition fold_key (s : string) : list Z := map (fold_orbit ∘ rune_val) (runes (chars s)).
Definition EqualFold (s t : string) : bool := bool_decide (fold_key s = fold_key t).

(** [strings.ToLower] *)
Definition ToLower (s : string) : string :=
  of_chars (List.concat (map (encode_rune ∘ to_lower ∘ rune_val) (runes (chars s)))).

Lemma EqualFold_true s t : EqualFold s t = true ↔ fold_key s = fold_key t.
Proof. apply bool_decide_eq_true. Qed.

Lemma EqualFold_refl s : EqualFold s s = true.
Proof. by apply EqualFold_true. Qed.

Lemma EqualFold_sym s t : EqualFold s t = EqualFold t s.
Proof. apply bool_decide_ext. by split; intros ->. Qed.

Lemma EqualFold_trans s t u :
  EqualFold s t = true → EqualFold t u = true → EqualFold s u = true.
Proof. rewrite !EqualFold_true. by intros ->. Qed.
End unicode.

(** ** [strconv] *)

(** [%d] of a non-negative integer, and of any integer. *)
Definition itoa (z : Z) : string := pretty z.

Definition is_digit (c : ascii) : bool := in_range 48 57 (byteZ c).
Definition digit_val (c : ascii) : Z := byteZ c - 48.

Fixpoint digits_val (acc : Z) (l : list ascii) : option Z :=
  match l with
  | [] => Some acc
  | c :: l' => if is_digit c then digits_val (acc * 10 + digit_val c) l' else None
  end.

(** [strconv.Atoi]: an optional sign and at least one digit, in int64 range. *)
Definition Atoi (s : string) : option Z :=
  let '(neg, ds) := match chars s with
                    | c :: l => if Ascii.eqb c "-" then (true, l)
                                else if Ascii.eqb c "+" then (false, l)
                                else (false, c :: l)
                    | [] => (false, [])
                    end in
  match ds with
  | [] => None
  | _ => v ← digits_val 0 ds;
         let n := if neg : bool then - v else v in
         if (- 2 ^ 63 <=? n) && (n <? 2 ^ 63) then Some n else None
  end.

(** Lower-case hexadecimal digits. *)
Definition hex_digit (n : Z) : ascii := if n <? 10 then chr (48 + n) else chr (87 + n).

Fixpoint hex_fixed (n : nat) (z : Z) : list ascii :=
  match n with
  | O => []
  | S n' => hex_fixed n' (z / 16) ++ [hex_digit (z mod 16)]
  end.

(** [hex.EncodeToString]: two digits per byte. *)
Definition hex_encode (l : list Z) : string :=
  of_chars (List.concat (map (hex_fixed 2) l)).

(** [%x] of an unsigned integer: no leading zeros. *)
Fixpoint drop_zeros (l : list ascii) : list ascii :=
  match l with
  | c :: ((_ :: _) as l') => if Ascii.eqb c "0" then drop_zeros l' else l
  | _ => l
  end.
Definition hex_uint32 (z : Z) : string := of_chars (drop_zeros (hex_fixed 8 z)).

Section quote.
Context `{UT : UnicodeTables}.

Definition backslash : ascii := "092"%char.
Definition dquote : ascii := "034"%char.

Definition esc_x (b : Z) : list ascii := backslash :: "x"%char :: hex_fixed 2 b.
Definition quote_rune (r : rune) : list ascii :=
  match r with
  | RuneError b => esc_x b
  | Rune v =>
      if (v =? 34) || (v =? 92) then [backslash; chr v]
      else if is_print v then encode_rune v
      else if v =? 7 then [backslash; "a"%char]
      else if v =? 8 then [backslash; "b"%char]
      else if v =? 12 then [backslash; "f"%char]
      else if v =? 10 then [backslash; "n"%char]
      else if v =? 13 then [backslash; "r"%char]
      else if v =? 9 then [backslash; "t"%char]
      else if v =? 11 then [backslash; "v"%char]
      else if (v <? 32) || (v =? 127) then esc_x v
      else if v <? 65536 then backslash :: "u"%char :: hex_fixed 4 v
      else backslash :: "U"%char :: hex_fixed 8 v
  end.

(** [%q] of a string ([strconv.Quote]). *)
Definition quote (s : string) : string :=
  of_chars (dquote :: List.concat (map quote_rune (runes (chars s))) ++ [dquote]).
End quote.

(** ** [sort]

    Strings are ordered bytewise.  [sort.Strings] and [sort.Slice] are modelled
    by a merge sort; the order of elements the comparison does not separate is
    unspecified in Go, and the theorems use only the permutation and the
    sortedness. *)
Definition str_le (s t : string) : Prop := String.leb s t = true.
#[export] Instance str_le_dec s t : Decision (str_le s t) := decide (String.leb s t = true).

Lemma ascii_compare_lt_trans a b c :
  Ascii.compare a b = Lt → Ascii.compare b c = Lt → Ascii.compare a c = Lt.
Proof. unfold Ascii.compare. rewrite !N.compare_lt_iff. lia. Qed.

Lemma ascii_compare_eq a b : Ascii.compare a b = Eq → a = b.
Proof. apply Ascii.compare_eq_iff. Qed.

Lemma ascii_compare_refl a : Ascii.compare a a = Eq.
Proof. unfold Ascii.compare. apply N.compare_refl. Qed.

Lemma str_compare_refl s : String.compare s s = Eq.
Proof. induction s; simpl; [done | by rewrite ascii_compare_refl]. Qed.

Lemma str_compare_trans s t u :
  String.compare s t ≠ Gt → String.compare t u ≠ Gt → String.compare s u ≠ Gt.
Proof.
  revert t u. induction s as [|a s IH]; intros [|b t] [|c u]; simpl; try done.
  destruct (Ascii.compare a b) eqn:Hab; [| |done];
    destruct (Ascii.compare b c) eqn:Hbc; try done.
  - apply ascii_compare_eq in Hab, Hbc. subst. rewrite ascii_compare_refl. apply IH.
  - apply ascii_compare_eq in Hab as ->. by rewrite Hbc.
  - apply ascii_compare_eq in Hbc as ->. by rewrite Hab.
  - by rewrite (ascii_compare_lt_trans a b c).
Qed.

Lemma str_le_compare s t : str_le s t ↔ String.compare s t ≠ Gt.
Proof. unfold str_le, String.leb. by destruct (String.compare s t). Qed.

#[export] Instance str_le_trans : Transitive str_le.
Proof. intros s t u. rewrite !str_le_compare. apply str_compare_trans. Qed.

#[export] Instance str_le_total : Total str_le.
Proof.
  intros s t. rewrite !str_le_compare, (String.compare_antisym s t).
  destruct (String.compare t s); simpl; naive_solver.
Qed.

#[export] Instance str_le_refl : Reflexive str_le.
Proof. intros s. rewrite str_le_compare, str_compare_refl. done. Qed.

Definition sort_Strings (l : list string) : list string := merge_sort str_le l.

Lemma sort_Strings_perm l : sort_Strings l ≡ₚ l.
Proof. apply merge_sort_Permutation. Qed.

Lemma sort_Strings_sorted l : Sorted str_le (sort_Strings l).
Proof. apply Sorted_merge_sort, _. Qed.

(** Lists sorted by a key are determined by their elements when no two elements
    share the key. *)
Section sorted_by_key.
Context {A : Type} (key : A → string).
Definition key_le (a b : A) : Prop := str_le (key a) (key b).

Lemma str_le_antisym s t : str_le s t → str_le t s → s = t.
Proof.
  rewrite !str_le_compare, (String.compare_antisym s t). intros H1 H2.
  apply String.compare_eq_iff. destruct (String.compare t s) eqn:E; simpl in *; [|done..].
  by rewrite (String.compare_antisym s t), E.
Qed.

Lemma NoDup_key_inj l a b : NoDup (key <$> l) → a ∈ l → b ∈ l → key a = key b → a = b.
Proof.
  induction l as [| x l IH]; [by intros _ ?%not_elem_of_nil |].
  rewrite fmap_cons, NoDup_cons, !elem_of_cons. intros [Hx Hnd] [-> | Ha] [-> | Hb] E; auto.
  - destruct Hx. rewrite E. by apply list_elem_of_fmap_2.
  - destruct Hx. rewrite <- E. by apply list_elem_of_fmap_2.
Qed.

Lemma sorted_by_key_unique l l' :
  StronglySorted key_le l → StronglySorted key_le l' → l ≡ₚ l' → NoDup (key <$> l) → l = l'.
Proof.
  intros Hs. revert l'. induction Hs as [| a l Hs IH Ha]; intros l' Hs' Hp Hnd.
  - by apply Permutation_nil in Hp.
  - destruct l' as [| b l']; [symmetry in Hp; by apply Permutation_nil_cons in Hp |].
    apply StronglySorted_inv in Hs' as [Hs' Hb].
    assert (a = b) as ->.
    { assert (a ∈ b :: l') as Hin by (rewrite <- Hp; by left).
      assert (b ∈ a :: l) as Hin' by (rewrite Hp; by left).
      apply (NoDup_key_inj (a :: l)); [done | by left | done |].
      apply str_le_antisym.
      - apply elem_of_cons in Hin' as [-> | Hin']; [apply reflexivity |].
        by eapply Forall_forall in Ha.
      - apply elem_of_cons in Hin as [-> | Hin]; [apply reflexivity |].
        by eapply Forall_forall in Hb. }
    f_equal. apply IH; [done | by eapply Permutation_cons_inv |].
    by apply NoDup_cons in Hnd as [_ ?].
Qed.
End sorted_by_key.

(** ** Printing and reading integers *)

Lemma digits_val_app acc l1 l2 :
  digits_val acc (l1 ++ l2) = match digits_val acc l1 with
                              | Some v => digits_val v l2 | None => None end.
Proof.
  revert acc. induction l1 as [| c l1 IH]; intros acc; [done |]. simpl.
  destruct (is_digit c); [apply IH | done].
Qed.

Lemma pretty_digit x :
  (x < 10)%N → is_digit (pretty_N_char x) = true ∧ digit_val (pretty_N_char x) = Z.of_N x.
Proof.
  intros Hx. assert (x = 0 ∨ x = 1 ∨ x = 2 ∨ x = 3 ∨ x = 4 ∨ x = 5 ∨ x = 6 ∨ x = 7 ∨ x = 8 ∨ x = 9)%N
    as H by lia.
  repeat destruct H as [-> | H]; [done.. |]. by subst.
Qed.

Lemma pretty_N_go_digits x s :
  ∃ ds, chars (pretty_N_go x s) = ds ++ chars s ∧ forallb is_digit ds = true ∧
        ((0 < x)%N → ds ≠ []) ∧
        digits_val 0 ds = Some (Z.of_N x).
Proof.
  revert s. induction (N.lt_wf_0 x) as [x _ IH]; intros s.
  destruct (decide (x = 0%N)) as [-> | Hx]; [exists []; by rewrite pretty_N_go_0 |].
  rewrite pretty_N_go_step by lia.
  destruct (IH (x / 10)%N (N.div_lt x 10 ltac:(lia) ltac:(lia)) (String (pretty_N_char (x mod 10)) s))
    as (ds & Hc & Hd & _ & Hv).
  destruct (pretty_digit (x mod 10)%N) as [Hdig Hval]; [by apply N.mod_lt |].
  exists (ds ++ [pretty_N_char (x mod 10)]). split; [rewrite Hc, <- (assoc (++)); done |].
  split; [rewrite forallb_app, Hd; simpl; by rewrite Hdig |].
  split; [by destruct ds |].
  rewrite digits_val_app, Hv. simpl. rewrite Hdig, Hval. f_equal.
  rewrite (N.div_mod x 10) at 3 by lia. lia.
Qed.

(** The decimal digits of a non-negative integer, and their value. *)
Lemma itoa_digits z :
  0 <= z → forallb is_digit (chars (itoa z)) = true ∧ chars (itoa z) ≠ [] ∧
           digits_val 0 (chars (itoa z)) = Some z.
Proof.
  intros Hz. unfold itoa, pretty, pretty_Z. destruct z as [| p | p]; [done | | lia].
  destruct (pretty_N_go_digits (N.pos p) "") as (ds & Hc & Hd & Hne & Hv).
  unfold pretty, pretty_positive, pretty, pretty_N.
  destruct (decide _) as [E | _]; [lia |].
  rewrite Hc, app_nil_r. split; [done |]. split; [apply Hne; lia | exact Hv].
Qed.

Lemma Atoi_itoa n : 0 <= n < 2 ^ 63 → Atoi (itoa n) = Some n.
Proof.
  intros Hn. destruct (itoa_digits n) as (Hd & Hne & Hv); [lia |]. unfold Atoi.
  destruct (chars (itoa n)) as [| c l]; [done |].
  simpl in Hd. apply andb_true_iff in Hd as [Hc _].
  destruct (Ascii.eqb_spec c "-") as [-> |]; [done |].
  destruct (Ascii.eqb_spec c "+") as [-> |]; [done |].
  rewrite Hv. simpl. rewrite (proj2 (Z.leb_le _ _)), (proj2 (Z.ltb_lt _ _)) by lia. done.
Qed.

(** ** Trimming *)

Lemma trim_while_stop p1 p2 p3 c l :
  p1 c = false → (∀ b, p2 c b = false) → (∀ b d, p3 c b d = false) →
  trim_while p1 p2 p3 (c :: l) = c :: l.
Proof.
  intros H1 H2 H3. simpl. rewrite H1. destruct l as [| b [| d l]]; [done | |];
    by rewrite H2, ?H3.
Qed.

(** An ASCII byte that is not white space ends a trim from either side. *)
Definition solid (c : ascii) : bool := in_range 33 127 (byteZ c).

Lemma solid_bytes c : solid c = true → 33 <= byteZ c <= 127.
Proof. unfold solid, in_range. rewrite andb_true_iff, !Z.leb_le. lia. Qed.

Lemma solid_space1 c : solid c = true → space1 c = false.
Proof.
  intros H%solid_bytes. unfold space1.
  destruct (Z.leb_spec (byteZ c) 13); [lia |]. rewrite andb_false_r. apply Z.eqb_neq. lia.
Qed.

Lemma solid_neq c k : solid c = true → 128 <= k → (byteZ c =? k) = false.
Proof. intros H%solid_bytes Hk. apply Z.eqb_neq. lia. Qed.

Lemma solid_space2 c b : solid c = true → space2 c b = false ∧ space2 b c = false.
Proof.
  intros H. unfold space2. rewrite !(solid_neq c) by (done || lia). simpl.
  by rewrite andb_false_r.
Qed.

Lemma solid_space3 c b d : solid c = true → space3 c b d = false ∧ space3 b d c = false.
Proof.
  intros H. unfold space3. rewrite !(solid_neq c) by (done || lia).
  assert ((128 <=? byteZ c) = false) as -> by (apply Z.leb_gt; apply solid_bytes in H; lia).
  simpl. by rewrite !andb_false_r.
Qed.

Lemma trim_left_solid c l : solid c = true → trim_left (c :: l) = c :: l.
Proof.
  intros H. apply trim_while_stop; intros.
  - by apply solid_space1.
  - exact (proj1 (solid_space2 c b H)).
  - exact (proj1 (solid_space3 c b d H)).
Qed.

Lemma trim_right_solid c l : solid c = true → trim_right (l ++ [c]) = l ++ [c].
Proof.
  intros H. unfold trim_right. rewrite rev_app_distr. simpl rev at 2.
  change ([c] ++ rev l) with (c :: rev l). rewrite trim_while_stop.
  - simpl. by rewrite rev_involutive.
  - by apply solid_space1.
  - intros b. exact (proj2 (solid_space2 c b H)).
  - intros b d. exact (proj2 (solid_space3 c d b H)).
Qed.

Lemma trim_right_space l c : space1 c = true → trim_right (l ++ [c]) = trim_right l.
Proof. intros H. unfold trim_right. rewrite rev_app_distr. simpl. by rewrite H. Qed.

Lemma digit_solid c : is_digit c = true → solid c = true.
Proof. unfold is_digit, solid, in_range. rewrite !andb_true_iff, !Z.leb_le. lia. Qed.

(** Trimming keeps a solid string, with or without a trailing newline. *)
Lemma trim_solid l :
  forallb solid l = true → trim_right (trim_left l) = l ∧
  (l ≠ [] → trim_right (trim_left (l ++ [chr 10])) = l).
Proof.
  intros Hs. destruct l as [| c l]; [done |].
  assert (solid c = true) as Hc by (simpl in Hs; by apply andb_true_iff in Hs as [? _]).
  change ((c :: l) ++ [chr 10]) with (c :: (l ++ [chr 10])).
  rewrite !trim_left_solid by done. change (c :: (l ++ [chr 10])) with ((c :: l) ++ [chr 10]).
  rewrite trim_right_space by done.
  assert (trim_right (c :: l) = c :: l) as ->; [| done].
  destruct (exists_last (l := c :: l)) as (l' & d & E); [done |]. rewrite E in *.
  apply trim_right_solid. rewrite forallb_app in Hs.
  apply andb_true_iff in Hs as [_ Hd]. simpl in Hd. by rewrite andb_true_r in Hd.
Qed.

Lemma TrimSpace_itoa_nl n : 0 <= n → TrimSpace (itoa n +:+ of_chars [chr 10]) = itoa n.
Proof.
  intros Hn. destruct (itoa_digits n Hn) as (Hd & Hne & _). unfold TrimSpace.
  rewrite chars_app, chars_of_chars.
  assert (forallb solid (chars (itoa n)) = true) as Hs.
  { rewrite forallb_forall in *. auto using digit_solid. }
  rewrite (proj2 (trim_solid _ Hs) Hne). apply of_chars_chars.
Qed.

(** Trimming is idempotent. *)
Lemma trim_while_idem p1 p2 p3 l :
  trim_while p1 p2 p3 (trim_while p1 p2 p3 l) = trim_while p1 p2 p3 l.
Proof.
  assert (∀ n l, (List.length l <= n)%nat →
    trim_while p1 p2 p3 (trim_while p1 p2 p3 l) = trim_while p1 p2 p3 l) as H; [| by eapply H].
  clear l. induction n as [| n IH]; intros [| a l] Hn; try done; [simpl in Hn; lia |].
  simpl in Hn. cbn [trim_while]. destruct (p1 a) eqn:E1; [apply IH; lia |].
  destruct l as [| b l]; [simpl; by rewrite E1 |]. simpl in Hn.
  destruct (p2 a b) eqn:E2; [apply IH; lia |].
  destruct l as [| c l]; [simpl; by rewrite E1, E2 |]. simpl in Hn.
  destruct (p3 a b c) eqn:E3; [apply IH; lia |]. simpl. by rewrite E1, E2, E3.
Qed.

(** A prefix of a list that starts with no white space starts with none. *)
Lemma trim_while_prefix p1 p2 p3 l r :
  trim_while p1 p2 p3 (l ++ r) = l ++ r → trim_while p1 p2 p3 l = l.
Proof.
  assert (∀ l, (List.length (trim_while p1 p2 p3 l) <= List.length l)%nat) as Hlen.
  { assert (∀ n l, (List.length l <= n)%nat →
      (List.length (trim_while p1 p2 p3 l) <= List.length l)%nat) as H; [| intros; by eapply H].
    induction n as [| n IH]; intros [| a l'] Hn; try (simpl in *; lia). simpl in Hn.
    cbn [trim_while]. destruct (p1 a); [specialize (IH l'); simpl; lia |].
    destruct l' as [| b l']; [done |]. simpl in Hn.
    destruct (p2 a b); [specialize (IH l'); simpl; lia |].
    destruct l' as [| c l']; [done |]. simpl in Hn.
    destruct (p3 a b c); [specialize (IH l'); simpl; lia | done]. }
  intros H. destruct l as [| a l]; [done |]. cbn [app trim_while] in H |- *.
  destruct (p1 a).
  { apply (f_equal List.length) in H. specialize (Hlen (l ++ r)). simpl in H. lia. }
  destruct l as [| b l]; [done |]. cbn [app] in H. destruct (p2 a b).
  { apply (f_equal List.length) in H. specialize (Hlen (l ++ r)). simpl in H. lia. }
  destruct l as [| c l]; [done |]. cbn [app] in H. destruct (p3 a b c); [| done].
  apply (f_equal List.length) in H. specialize (Hlen (l ++ r)). simpl in H. lia.
Qed.

Lemma trim_while_suffix p1 p2 p3 l : ∃ r, l = r ++ trim_while p1 p2 p3 l.
Proof.
  assert (∀ n l, (List.length l <= n)%nat → ∃ r, l = r ++ trim_while p1 p2 p3 l) as H;
    [| by eapply H].
  clear l. induction n as [| n IH]; intros [| a l] Hn; try (by exists []); [simpl in Hn; lia |].
  simpl in Hn. cbn [trim_while]. destruct (p1 a).
  { destruct (IH l) as [r Hr]; [lia |]. exists (a :: r). simpl. by rewrite <- Hr. }
  destruct l as [| b l]; [by exists [] |]. simpl in Hn. destruct (p2 a b).
  { destruct (IH l) as [r Hr]; [lia |]. exists (a :: b :: r). simpl. by rewrite <- Hr. }
  destruct l as [| c l]; [by exists [] |]. simpl in Hn. destruct (p3 a b c); [| by exists []].
  destruct (IH l) as [r Hr]; [lia |]. exists (a :: b :: c :: r). simpl. by rewrite <- Hr.
Qed.

Lemma TrimSpace_idem s : TrimSpace (TrimSpace s) = TrimSpace s.
Proof.
  unfold TrimSpace. rewrite chars_of_chars. f_equal.
  set (l := trim_left (chars s)).
  assert (trim_left l = l) as Hl by apply trim_while_idem.
  assert (∃ r, l = trim_right l ++ r) as [r Hr].
  { unfold trim_right. set (p2 := λ b a, space2 a b). set (p3 := λ c b a, space3 a b c).
    destruct (trim_while_suffix space1 p2 p3 (rev l)) as [r Hr]. exists (rev r).
    rewrite <- rev_app_distr, <- Hr. by rewrite rev_involutive. }
  assert (trim_left (trim_right l) = trim_right l) as ->.
  { apply (trim_while_prefix _ _ _ _ r). rewrite <- Hr. exact Hl. }
  unfold trim_right. rewrite rev_involutive. f_equal. apply trim_while_idem.
Qed.
