(* ===== verification/Store.v ===== *)
(** [internal/store]: the snapshot data every other component reads, and the
    single-cell [Store] the snapshots are swapped through. *)

From S2P Require Import Prelude GoStd.

(** internal/store/types.go:14-20, NodeType. *)
Inductive NodeType := NodeExitNode | NodeRouter | NodeGeneric.

#[export] Instance NodeType_eq_dec : EqDecision NodeType.
Proof. solve_decision. Defined.

(** internal/store/types.go:24-36, NodeView. *)
Record NodeView := mkNodeView {
  nv_StableID : string;
  nv_Name : string;
  nv_Hostname : string;
  nv_TailscaleIPs : list string;
  nv_OS : string;
  nv_Online : bool;
  nv_LastSeen : Time;
  nv_ExitNodeOption : bool;
  nv_Tags : list string;
  nv_Type : NodeType;
  nv_IsSelf : bool;
}.

(** internal/store/types.go:40-44, ExitNodeRef. *)
Record ExitNodeRef := mkExitNodeRef {
  ref_StableID : string;
  ref_Name : string;
  ref_IP : string;
}.

(** internal/store/types.go:47-67, RouterState.  [RouterStateZero] is the zero value of the Go
    string type, which only a [RouterView] that was never built carries. *)
Inductive RouterState :=
| RouterStateZero
| RouterOK
| RouterPending
| RouterUnconfirmed
| RouterUnreachable
| RouterAwaitingKeep
| RouterUnprobed.

#[export] Instance RouterState_eq_dec : EqDecision RouterState.
Proof. solve_decision. Defined.

#[export] Instance ExitNodeRef_eq_dec : EqDecision ExitNodeRef.
Proof. solve_decision. Defined.

(** internal/store/types.go:73-77, RouterStats. *)
Record RouterStats := mkRouterStats {
  st_RxBytes : Z;
  st_TxBytes : Z;
  st_LastHandshake : Time;
}.

(** internal/store/types.go:85-90, RouterRuntime. *)
Record RouterRuntime := mkRouterRuntime {
  rt_Current : option ExitNodeRef;
  rt_Options : list ExitNodeRef;
  rt_Stats : RouterStats;
  rt_Online : bool;
}.

(** internal/store/types.go:97-129, RouterView. *)
Record RouterView := mkRouterView {
  rv_Node : NodeView;
  rv_CurrentExitNode : option ExitNodeRef;
  rv_Desired : option ExitNodeRef;
  rv_State : RouterState;
  rv_Stats : RouterStats;
  rv_Reachable : bool;
  rv_LastError : string;
  rv_LastConfirmedAt : Time;
  rv_DesiredSince : Time;
  rv_RevertAt : Time;
  rv_EgressOK : option bool;
  rv_EgressDetail : string;
  rv_EgressCheckedAt : Time;
}.

(** internal/store/types.go:137-143, ProbeResult. *)
Record ProbeResult := mkProbeResult {
  pr_OK : bool;
  pr_DurationMs : Z;
  pr_Output : string;
  pr_Error : string;
  pr_CheckedAt : Time;
}.

(** internal/store/types.go:153-158, Group. *)
Record Group := mkGroup {
  g_ID : string;
  g_Name : string;
  g_Consumers : list string;
  g_AllowedExitNodes : list string;
}.

(** internal/store/types.go:169-175, Guest. *)
Record Guest := mkGuest {
  gst_ID : string;
  gst_Label : string;
  gst_ZoneID : string;
  gst_Disabled : bool;
  gst_CreatedAt : Time;
}.

(** internal/store/types.go:181-187, GroupMember. *)
Record GroupMember := mkGroupMember {
  gm_StableID : string;
  gm_Name : string;
  gm_IP : string;
  gm_Online : bool;
  gm_Present : bool;
}.

(** internal/store/types.go:191-196, GroupView. *)
Record GroupView := mkGroupView {
  gv_ID : string;
  gv_Name : string;
  gv_Consumers : list GroupMember;
  gv_AllowedExitNodes : list GroupMember;
}.

(** internal/store/types.go:201-210, Snapshot. *)
Record Snapshot := mkSnapshot {
  snap_Nodes : list NodeView;
  snap_Routers : list RouterView;
  snap_Groups : list GroupView;
  snap_NetmapAt : Time;
  snap_NetmapErr : string;
  snap_BuiltAt : Time;
}.

(** ** Zero values and field updates *)

Definition zeroNodeView : NodeView :=
  mkNodeView "" "" "" [] "" false zeroTime false [] NodeGeneric false.
Definition zeroStats : RouterStats := mkRouterStats 0 0 zeroTime.
Definition zeroRuntime : RouterRuntime := mkRouterRuntime None [] zeroStats false.
Definition zeroRouterView : RouterView :=
  mkRouterView zeroNodeView None None RouterStateZero zeroStats false "" zeroTime zeroTime
    zeroTime None "" zeroTime.
Definition zeroProbeResult : ProbeResult := mkProbeResult false 0 "" "" zeroTime.
Definition zeroGroup : Group := mkGroup "" "" [] [].
Definition zeroGuest : Guest := mkGuest "" "" "" false zeroTime.

Definition set_Node x v := mkRouterView x (rv_CurrentExitNode v) (rv_Desired v) (rv_State v) (rv_Stats v) (rv_Reachable v) (rv_LastError v) (rv_LastConfirmedAt v) (rv_DesiredSince v) (rv_RevertAt v) (rv_EgressOK v) (rv_EgressDetail v) (rv_EgressCheckedAt v).
Definition set_CurrentExitNode x v := mkRouterView (rv_Node v) x (rv_Desired v) (rv_State v) (rv_Stats v) (rv_Reachable v) (rv_LastError v) (rv_LastConfirmedAt v) (rv_DesiredSince v) (rv_RevertAt v) (rv_EgressOK v) (rv_EgressDetail v) (rv_EgressCheckedAt v).
Definition set_Desired x v := mkRouterView (rv_Node v) (rv_CurrentExitNode v) x (rv_State v) (rv_Stats v) (rv_Reachable v) (rv_LastError v) (rv_LastConfirmedAt v) (rv_DesiredSince v) (rv_RevertAt v) (rv_EgressOK v) (rv_EgressDetail v) (rv_EgressCheckedAt v).
Definition set_State x v := mkRouterView (rv_Node v) (rv_CurrentExitNode v) (rv_Desired v) x (rv_Stats v) (rv_Reachable v) (rv_LastError v) (rv_LastConfirmedAt v) (rv_DesiredSince v) (rv_RevertAt v) (rv_EgressOK v) (rv_EgressDetail v) (rv_EgressCheckedAt v).
Definition set_Stats x v := mkRouterView (rv_Node v) (rv_CurrentExitNode v) (rv_Desired v) (rv_State v) x (rv_Reachable v) (rv_LastError v) (rv_LastConfirmedAt v) (rv_DesiredSince v) (rv_RevertAt v) (rv_EgressOK v) (rv_EgressDetail v) (rv_EgressCheckedAt v).
Definition set_Reachable x v := mkRouterView (rv_Node v) (rv_CurrentExitNode v) (rv_Desired v) (rv_State v) (rv_Stats v) x (rv_LastError v) (rv_LastConfirmedAt v) (rv_DesiredSince v) (rv_RevertAt v) (rv_EgressOK v) (rv_EgressDetail v) (rv_EgressCheckedAt v).
Definition set_LastError x v := mkRouterView (rv_Node v) (rv_CurrentExitNode v) (rv_Desired v) (rv_State v) (rv_Stats v) (rv_Reachable v) x (rv_LastConfirmedAt v) (rv_DesiredSince v) (rv_RevertAt v) (rv_EgressOK v) (rv_EgressDetail v) (rv_EgressCheckedAt v).
Definition set_LastConfirmedAt x v := mkRouterView (rv_Node v) (rv_CurrentExitNode v) (rv_Desired v) (rv_State v) (rv_Stats v) (rv_Reachable v) (rv_LastError v) x (rv_DesiredSince v) (rv_RevertAt v) (rv_EgressOK v) (rv_EgressDetail v) (rv_EgressCheckedAt v).
Definition set_DesiredSince x v := mkRouterView (rv_Node v) (rv_CurrentExitNode v) (rv_Desired v) (rv_State v) (rv_Stats v) (rv_Reachable v) (rv_LastError v) (rv_LastConfirmedAt v) x (rv_RevertAt v) (rv_EgressOK v) (rv_EgressDetail v) (rv_EgressCheckedAt v).
Definition set_RevertAt x v := mkRouterView (rv_Node v) (rv_CurrentExitNode v) (rv_Desired v) (rv_State v) (rv_Stats v) (rv_Reachable v) (rv_LastError v) (rv_LastConfirmedAt v) (rv_DesiredSince v) x (rv_EgressOK v) (rv_EgressDetail v) (rv_EgressCheckedAt v).
Definition set_EgressOK x v := mkRouterView (rv_Node v) (rv_CurrentExitNode v) (rv_Desired v) (rv_State v) (rv_Stats v) (rv_Reachable v) (rv_LastError v) (rv_LastConfirmedAt v) (rv_DesiredSince v) (rv_RevertAt v) x (rv_EgressDetail v) (rv_EgressCheckedAt v).
Definition set_EgressDetail x v := mkRouterView (rv_Node v) (rv_CurrentExitNode v) (rv_Desired v) (rv_State v) (rv_Stats v) (rv_Reachable v) (rv_LastError v) (rv_LastConfirmedAt v) (rv_DesiredSince v) (rv_RevertAt v) (rv_EgressOK v) x (rv_EgressCheckedAt v).
Definition set_EgressCheckedAt x v := mkRouterView (rv_Node v) (rv_CurrentExitNode v) (rv_Desired v) (rv_State v) (rv_Stats v) (rv_Reachable v) (rv_LastError v) (rv_LastConfirmedAt v) (rv_DesiredSince v) (rv_RevertAt v) (rv_EgressOK v) (rv_EgressDetail v) x.

(** ** The store cell

    [Store] holds one atomic pointer; a [Load] reads it and a [Store] replaces
    it.  The snapshots themselves are immutable. *)

(** internal/store/types.go:217-219, Store. *)
Record StoreCell := mkStore { store_ptr : Snapshot }.

(** internal/store/types.go:223-227, New. *)
Definition NewStore (now : Time) : StoreCell := mkStore (mkSnapshot [] [] [] zeroTime "" now).

(** internal/store/types.go:230-230, Store.Load. *)
Definition Load (s : StoreCell) : Snapshot := store_ptr s.

(** internal/store/types.go:233-233, Store.Store. *)
Definition StoreSnap (s : StoreCell) (snap : Snapshot) : StoreCell := mkStore snap.
