(* ===== verification/Errors.v ===== *)
(** Go error values of the program: the concrete error types of the packages,
    [fmt.Errorf] wrapping, and [errors.As] over the chain of an error. *)

From S2P Require Import Prelude GoStd.

(** internal/router/router.go:76-81, CommandError. *)
Record CommandError := mkCommandError {
  ce_Addr : string;
  ce_Cmd : string;
  ce_StderrText : string;
  ce_Exit : Z;
}.

(** internal/router/router.go:90-90, CommandError.Stderr. *)
Definition CommandError_Stderr (e : CommandError) : string := TrimSpace (ce_StderrText e).

(** internal/router/router.go:85-87, CommandError.Error. *)
Definition CommandError_Error (e : CommandError) : string :=
  "router " +:+ ce_Addr e +:+ ": " +:+ ce_Cmd e +:+ " exited " +:+ itoa (ce_Exit e)
  +:+ ": " +:+ CommandError_Stderr e.

(** An error value.  [ErrText] is an error without a cause ([errors.New], or an
    error of a library); [ErrWrap] is the result of [fmt.Errorf] with [%w], its
    message already rendered; [ErrNotExist] is a library error for which
    [errors.Is(err, fs.ErrNotExist)] holds; [ErrStatus] is the [*Error] of
    packages groups and guests; [ErrControl] is the poller's [controlError]. *)
Inductive error :=
| ErrText (msg : string)
| ErrNotExist (msg : string)
| ErrWrap (msg : string) (cause : error)
| ErrCommand (e : CommandError)
| ErrStatus (status : Z) (msg detail : string)
| ErrControl (status : Z) (msg detail stderr : string) (cause : option error).

(** [err.Error()] *)
Definition err_Error (e : error) : string :=
  match e with
  | ErrText m | ErrNotExist m | ErrWrap m _ | ErrStatus _ m _ | ErrControl _ m _ _ _ => m
  | ErrCommand c => CommandError_Error c
  end.

(** [fmt.Errorf("...: %w", err)] *)
Definition wrapf (prefix : string) (e : error) : error := ErrWrap (prefix +:+ err_Error e) e.

(** [errors.As(err, target)]: the first error of the chain [f] accepts. *)
Fixpoint errors_As {A} (f : error → option A) (e : error) : option A :=
  match f e with
  | Some a => Some a
  | None => match e with
            | ErrWrap _ c | ErrControl _ _ _ _ (Some c) => errors_As f c
            | _ => None
            end
  end.

Definition as_CommandError : error → option CommandError :=
  errors_As (λ e, match e with ErrCommand c => Some c | _ => None end).

(** The structural interfaces the API reads: who implements each method is
    internal/groups/groups.go:51-53, internal/guests/guests.go:74-76,
    internal/poller/poller.go:245-249 and internal/router/router.go:90. *)
Definition as_HTTPStatus : error → option Z :=
  errors_As (λ e, match e with
                  | ErrStatus s _ _ | ErrControl s _ _ _ _ => Some s | _ => None end).
Definition as_Detail : error → option string :=
  errors_As (λ e, match e with
                  | ErrStatus _ _ d | ErrControl _ _ d _ _ => Some d | _ => None end).
Definition as_Stderr : error → option string :=
  errors_As (λ e, match e with
                  | ErrCommand c => Some (CommandError_Stderr c)
                  | ErrControl _ _ _ s _ => Some s | _ => None end).
Definition is_NotExist (e : error) : bool :=
  match errors_As (λ e, match e with ErrNotExist _ => Some tt | _ => None end) e with
  | Some _ => true | None => false end.

Lemma as_CommandError_wrapf p e : as_CommandError (wrapf p e) = as_CommandError e.
Proof. done. Qed.

Lemma as_Stderr_wrapf p e : as_Stderr (wrapf p e) = as_Stderr e.
Proof. done. Qed.
