(* ===== verification/Netip.v ===== *)
(** Go's [net] and [net/netip], as far as the program uses them: splitting and
    joining host:port pairs, parsing an address, and printing one. *)

From S2P Require Import Prelude GoStd Errors.

(** ** [net.SplitHostPort] and [net.JoinHostPort] *)

Fixpoint last_byte_from (i : nat) (c : ascii) (l : list ascii) : option nat :=
  match l with
  | [] => None
  | d :: l' =>
      match last_byte_from (S i) c l' with
      | Some j => Some j
      | None => if Ascii.eqb c d then Some i else None
      end
  end.
(** [bytealg.LastIndexByteString] *)
Definition LastIndexByte (s : string) (c : ascii) : option nat := last_byte_from 0 c (chars s).

Definition AddrError (addr why : string) : error :=
  ErrText (if String.eqb addr "" then why else "address " +:+ addr +:+ ": " +:+ why).

Definition SplitHostPort (hostport : string) : error + string * string :=
  let missingPort := "missing port in address" in
  let tooManyColons := "too many colons in address" in
  match LastIndexByte hostport ":" with
  | None => inl (AddrError hostport missingPort)
  | Some i =>
      let finish (j k : nat) (host : string) : error + string * string :=
        if ContainsByte (str_drop j hostport) "[" then
          inl (AddrError hostport "unexpected '[' in address")
        else if ContainsByte (str_drop k hostport) "]" then
          inl (AddrError hostport "unexpected ']' in address")
        else inr (host, str_drop (S i) hostport) in
      if HasPrefix hostport "[" then
        match IndexByte hostport "]" with
        | None => inl (AddrError hostport "missing ']' in address")
        | Some e =>
            if Nat.eqb (S e) (String.length hostport) then inl (AddrError hostport missingPort)
            else if Nat.eqb (S e) i then finish 1%nat (S e) (str_drop 1 (str_take e hostport))
            else if HasPrefix (str_drop (S e) hostport) ":"
            then inl (AddrError hostport tooManyColons)
            else inl (AddrError hostport missingPort)
        end
      else
        let host := str_take i hostport in
        if ContainsByte host ":" then inl (AddrError hostport tooManyColons)
        else finish O O host
  end.

Definition JoinHostPort (host port : string) : string :=
  if ContainsByte host ":" then "[" +:+ host +:+ "]:" +:+ port else host +:+ ":" +:+ port.

(** ** [netip.Addr] *)

(** An IPv4 address is its four bytes; an IPv6 address its sixteen bytes and a
    zone. *)
Inductive Addr := Addr4 (bytes : list Z) | Addr6 (bytes : list Z) (zone : string).

Definition parseAddrError (inp msg at_ : string) : error :=
  ErrText ("ParseAddr(" +:+ inp +:+ "): " +:+ msg +:+
           (if String.eqb at_ "" then "" else " (at " +:+ at_ +:+ ")")).

Section netip.
Context `{UT : UnicodeTables}.

Definition addr_err (inp msg : string) (at_ : list ascii) : error :=
  parseAddrError (quote inp) msg (match at_ with [] => "" | _ => quote (of_chars at_) end).

(** [parseIPv4Fields]: [prev] is the byte before [s]. *)
Fixpoint ipv4_fields (inp : string) (prev : option ascii) (s : list ascii)
    (val digLen : Z) (fields : list Z) : error + list Z :=
  match s with
  | [] => if Z.of_nat (List.length fields) <? 3 then inl (addr_err inp "IPv4 address too short" [])
          else inr (fields ++ [val])
  | c :: rest =>
      if is_digit c then
        if (digLen =? 1) && (val =? 0) then
          inl (addr_err inp "IPv4 field has octet with leading zero" [])
        else
          let val' := val * 10 + digit_val c in
          if 255 <? val' then inl (addr_err inp "IPv4 field has value >255" [])
          else ipv4_fields inp (Some c) rest val' (digLen + 1) fields
      else if Ascii.eqb c "." then
        if bool_decide (prev = None) || bool_decide (rest = []) || bool_decide (prev = Some "."%char)
        then inl (addr_err inp "IPv4 field must have at least one digit" s)
        else if Z.of_nat (List.length fields) =? 3 then inl (addr_err inp "IPv4 address too long" [])
        else ipv4_fields inp (Some c) rest 0 0 (fields ++ [val])
      else inl (addr_err inp "unexpected character" s)
  end.

Definition parseIPv4 (s : string) : error + Addr :=
  match ipv4_fields s None (chars s) 0 0 [] with
  | inl e => inl e
  | inr fields => inr (Addr4 fields)
  end.

Definition hex_val (c : ascii) : option Z :=
  let b := byteZ c in
  if in_range 48 57 b then Some (b - 48)
  else if in_range 97 102 b then Some (b - 87)
  else if in_range 65 70 b then Some (b - 55)
  else None.

(** One hexadecimal group: its value, the number of digits and the rest. *)
Fixpoint hex_group (inp : string) (s0 : list ascii) (off acc : Z) (s : list ascii)
    : error + Z * Z * list ascii :=
  match s with
  | [] => inr (acc, off, [])
  | c :: rest =>
      match hex_val c with
      | None => inr (acc, off, s)
      | Some d =>
          let acc' := (acc * 16 + d) mod 2 ^ 32 in
          if 3 <? off then inl (addr_err inp "each group must have 4 or less digits" s0)
          else if 65535 <? acc' then inl (addr_err inp "IPv6 field has value >=2^16" s0)
          else hex_group inp s0 (off + 1) acc' rest
      end
  end.

(** The parser's result once every byte is consumed: [ip] holds the bytes read
    so far, [ellipsis] the position of the [::]. *)
Definition ipv6_finish (inp : string) (ip : list Z) (ellipsis : option nat) (zone : string)
    (s : list ascii) : error + Addr :=
  match s with
  | _ :: _ => inl (addr_err inp "trailing garbage after address" s)
  | [] =>
      let i := List.length ip in
      if Nat.ltb i 16 then
        match ellipsis with
        | None => inl (addr_err inp "address string too short" [])
        | Some e => inr (Addr6 (take e ip ++ repeat 0 (16 - i) ++ drop e ip) zone)
        end
      else match ellipsis with
           | Some _ => inl (addr_err inp "the :: must expand to at least one field of zeros" [])
           | None => inr (Addr6 ip zone)
           end
  end.

Definition starts_with (c : ascii) (l : list ascii) : bool :=
  match l with d :: _ => Ascii.eqb d c | [] => false end.

(** The trailing IPv4 form of an IPv6 address. *)
Definition ipv6_embedded (inp : string) (zone : string) (ip : list Z) (ellipsis : option nat)
    (s : list ascii) : error + Addr :=
  if bool_decide (ellipsis = None) && negb (Nat.eqb (List.length ip) 12) then
    inl (addr_err inp "embedded IPv4 address must replace the final 2 fields of the address" s)
  else if Nat.ltb 16 (List.length ip + 4) then
    inl (addr_err inp "too many hex fields to fit an embedded IPv4 at the end of the address" s)
  else
    match ipv4_fields inp None s 0 0 [] with
    | inl e => inl e
    | inr fields => ipv6_finish inp (ip ++ fields) ellipsis zone []
    end.

(** What follows a group that ended at byte [i]: nothing, or a colon and the
    next group; a second colon is the ellipsis. *)
Definition ipv6_next (inp : string) (i : nat) (ellipsis : option nat) (rest : list ascii)
    : error + option nat * option (list ascii) :=
  match rest with
  | [] => inr (ellipsis, None)
  | c :: rest1 =>
      if negb (Ascii.eqb c ":") then inl (addr_err inp "unexpected character, want colon" rest)
      else
      match rest1 with
      | [] => inl (addr_err inp "colon must be followed by more characters" rest)
      | c1 :: rest2 =>
          if Ascii.eqb c1 ":" then
            match ellipsis with
            | Some _ => inl (addr_err inp "multiple :: in address" rest1)
            | None => inr (Some i, match rest2 with [] => None | _ => Some rest2 end)
            end
          else inr (ellipsis, Some rest1)
      end
  end.

(** The loop of [parseIPv6]; [fuel] bounds the number of groups. *)
Fixpoint ipv6_loop (fuel : nat) (inp : string) (zone : string) (ip : list Z)
    (ellipsis : option nat) (s : list ascii) : error + Addr :=
  match fuel with
  | O => ipv6_finish inp ip ellipsis zone s
  | S fuel' =>
      if Nat.leb 16 (List.length ip) then ipv6_finish inp ip ellipsis zone s else
      match hex_group inp s 0 0 s with
      | inl e => inl e
      | inr (acc, off, rest) =>
          if off =? 0 then
            inl (addr_err inp "each colon-separated field must have at least one digit" s)
          else if starts_with "." rest then ipv6_embedded inp zone ip ellipsis s
          else
            let ip := ip ++ [acc / 256; acc mod 256] in
            match ipv6_next inp (List.length ip) ellipsis rest with
            | inl e => inl e
            | inr (ellipsis, None) => ipv6_finish inp ip ellipsis zone []
            | inr (ellipsis, Some s') => ipv6_loop fuel' inp zone ip ellipsis s'
            end
      end
  end.

Definition parseIPv6 (inp : string) : error + Addr :=
  let '(s, zone, hasZone) := Cut inp "%" in
  if hasZone && String.eqb zone "" then inl (addr_err inp "zone must be a non-empty string" [])
  else
    let l := chars s in
    if starts_with ":" l && starts_with ":" (tail l) then
      match drop 2 l with
      | [] => inr (Addr6 (repeat 0 16) zone)
      | rest => ipv6_loop 8 inp zone [] (Some O) rest
      end
    else ipv6_loop 8 inp zone [] None l.

(** [netip.ParseAddr]: the first of the three characters decides the family. *)
Fixpoint addr_family (l : list ascii) : option ascii :=
  match l with
  | [] => None
  | c :: l' => if Ascii.eqb c "." || Ascii.eqb c ":" || Ascii.eqb c "%" then Some c
               else addr_family l'
  end.
Definition ParseAddr (s : string) : error + Addr :=
  match addr_family (chars s) with
  | Some c =>
      if Ascii.eqb c "." then parseIPv4 s
      else if Ascii.eqb c ":" then parseIPv6 s
      else inl (addr_err s "missing IPv6 address" [])
  | None => inl (addr_err s "unable to parse IP" [])
  end.
End netip.

Definition Zone (a : Addr) : string := match a with Addr4 _ => "" | Addr6 _ z => z end.
Definition Is4 (a : Addr) : bool := match a with Addr4 _ => true | Addr6 _ _ => false end.
Definition Is4In6 (a : Addr) : bool :=
  match a with
  | Addr4 _ => false
  | Addr6 b _ => bool_decide (take 12 b = repeat 0 10 ++ [255; 255])
  end.
Definition Unmap (a : Addr) : Addr :=
  match a with
  | Addr6 b _ => if Is4In6 a then Addr4 (drop 12 b) else a
  | Addr4 _ => a
  end.
(** [IsLoopback] also unmaps a 4-in-6 address. *)
Definition IsLoopback (a : Addr) : bool :=
  match Unmap a with
  | Addr4 b => bool_decide (head b = Some 127)
  | Addr6 b _ => bool_decide (b = repeat 0 15 ++ [1])
  end.

(** ** [Addr.String] *)

Definition string4 (b : list Z) : string :=
  match b with
  | [a; b; c; d] => itoa a +:+ "." +:+ itoa b +:+ "." +:+ itoa c +:+ "." +:+ itoa d
  | _ => ""
  end.

Fixpoint words (b : list Z) : list Z :=
  match b with
  | h :: l :: rest => (h * 256 + l) :: words rest
  | _ => []
  end.

(** The number of leading zero words, and the first longest run of at least two. *)
Fixpoint zero_run (ws : list Z) : nat :=
  match ws with
  | w :: ws' => if w =? 0 then S (zero_run ws') else O
  | [] => O
  end.
Fixpoint best_run (i : nat) (ws : list Z) (best : nat * nat) : nat * nat :=
  match ws with
  | [] => best
  | _ :: ws' =>
      let l := zero_run ws in
      best_run (S i) ws'
        (if Nat.leb 2 l && Nat.ltb (snd best - fst best) l then (i, i + l)%nat else best)
  end.

Definition hex16 (w : Z) : string := hex_uint32 w.
Fixpoint join_words (first : bool) (ws : list Z) : string :=
  match ws with
  | [] => ""
  | w :: ws' => (if first then "" else ":") +:+ hex16 w +:+ join_words false ws'
  end.
Definition string6 (b : list Z) : string :=
  let ws := words b in
  let '(zs, ze) := best_run 0 ws (8, 8)%nat in
  if Nat.ltb zs 8
  then join_words true (take zs ws) +:+ "::" +:+ join_words true (drop ze ws)
  else join_words true ws.

Definition AddrString (a : Addr) : string :=
  match a with
  | Addr4 b => string4 b
  | Addr6 b z =>
      (if Is4In6 a then "::ffff:" +:+ string4 (drop 12 b) else string6 b) +:+
      (if String.eqb z "" then "" else "%" +:+ z)
  end.
