(* ===== verification/NetipFacts.v ===== *)
(** IPv4 literals: parsing and printing are inverse to each other, so a parsed
    and re-serialised address is made of digits and dots only; and the host:port
    helpers agree. *)

From S2P Require Import Prelude GoStd Errors Netip.

(** ** One octet *)

(** The value and the number of digits after reading [ds]; [None] for a leading
    zero or a value above 255. *)
Fixpoint octet_run (val digLen : Z) (ds : list ascii) : option (Z * Z) :=
  match ds with
  | [] => Some (val, digLen)
  | c :: ds' =>
      if (digLen =? 1) && (val =? 0) then None
      else if 255 <? val * 10 + digit_val c then None
      else octet_run (val * 10 + digit_val c) (digLen + 1) ds'
  end.

Lemma octet_run_snoc val dl ds c :
  octet_run val dl (ds ++ [c]) =
  match octet_run val dl ds with
  | Some (v, l) => octet_run v l [c]
  | None => None
  end.
Proof.
  revert val dl. induction ds as [| d ds IH]; intros val dl; [done |]. simpl.
  destruct (_ && _); [done |]. destruct (255 <? _); [done |]. apply IH.
Qed.

Definition octets : list Z := map Z.of_nat (seq 0 256).
Definition octet (b : Z) : Prop := 0 <= b < 256.

Lemma octets_spec (f : Z → bool) : forallb f octets = true → ∀ b, octet b → f b = true.
Proof.
  intros H b Hb. rewrite forallb_forall in H. apply H. apply in_map_iff.
  exists (Z.to_nat b). unfold octet in Hb. rewrite Z2Nat.id by lia. split; [done |].
  apply in_seq. lia.
Qed.

Definition octet_ok (b : Z) : bool :=
  bool_decide (octet_run 0 0 (chars (itoa b)) = Some (b, len (itoa b)))
  && forallb is_digit (chars (itoa b)) && negb (bool_decide (chars (itoa b) = [])).

(** Printing an octet and reading it back. *)
Lemma octet_print b :
  octet b →
  octet_run 0 0 (chars (itoa b)) = Some (b, len (itoa b)) ∧
  forallb is_digit (chars (itoa b)) = true ∧ chars (itoa b) ≠ [].
Proof.
  intros Hb.
  pose proof (octets_spec octet_ok ltac:(vm_compute; reflexivity) b Hb) as H.
  apply andb_true_iff in H as [H H3]. apply andb_true_iff in H as [H1 H2].
  split; [by apply bool_decide_eq_true in H1 |]. split; [done |].
  by apply negb_true_iff, bool_decide_eq_false in H3.
Qed.

(** The digit characters. *)
Definition digits : list ascii := map (λ n, chr (48 + Z.of_nat n)) (seq 0 10).

Definition digit_listed (n : nat) : bool :=
  implb (is_digit (ascii_of_nat n)) (existsb (Ascii.eqb (ascii_of_nat n)) digits).

Lemma is_digit_elem c : is_digit c = true → In c digits.
Proof.
  assert (forallb digit_listed (seq 0 256) = true) as H by (vm_compute; reflexivity).
  rewrite forallb_forall in H. intros Hc.
  pose proof (nat_ascii_bounded c).
  specialize (H (nat_of_ascii c) ltac:(apply in_seq; lia)). unfold digit_listed in H.
  rewrite ascii_nat_embedding, Hc in H. unfold implb in H.
  by apply existsb_exists in H as (d & Hd & ->%Ascii.eqb_eq).
Qed.

Definition short_ok (ds : list ascii) : bool :=
  match octet_run 0 0 ds with
  | Some (v, _) => bool_decide (chars (itoa v) = ds)
  | None => true
  end.

Lemma short_ok_all :
  forallb (λ a, short_ok [a] && forallb (λ b, short_ok [a; b] &&
    forallb (λ c, short_ok [a; b; c] && forallb (λ d,
      bool_decide (octet_run 0 0 [a; b; c; d] = None)) digits) digits) digits) digits = true.
Proof. vm_compute. reflexivity. Qed.

Lemma octet_run_app_None val dl ds es :
  octet_run val dl ds = None → octet_run val dl (ds ++ es) = None.
Proof.
  revert val dl. induction ds as [| d ds IH]; intros val dl; [done |]. simpl.
  destruct (_ && _); [done |]. destruct (255 <? _); [done |]. apply IH.
Qed.

(** Reading an octet and printing it back. *)
Lemma octet_read ds v l :
  octet_run 0 0 ds = Some (v, l) → forallb is_digit ds = true → ds ≠ [] → chars (itoa v) = ds.
Proof.
  intros Hrun Hd Hne. pose proof short_ok_all as H. rewrite forallb_forall in H.
  rewrite forallb_forall in Hd.
  destruct ds as [| a ds]; [done |].
  specialize (H a (is_digit_elem _ (Hd a ltac:(by left)))).
  apply andb_true_iff in H as [H1 H]. rewrite forallb_forall in H.
  assert (∀ l', short_ok l' = true → a :: ds = l' → chars (itoa v) = a :: ds) as Hshort.
  { intros l' Hl' <-. unfold short_ok in Hl'. rewrite Hrun in Hl'.
    by apply bool_decide_eq_true in Hl'. }
  destruct ds as [| b ds]; [by apply (Hshort [a]) |].
  specialize (H b (is_digit_elem _ (Hd b ltac:(simpl; auto)))).
  apply andb_true_iff in H as [H2 H]. rewrite forallb_forall in H.
  destruct ds as [| c ds]; [by apply (Hshort [a; b]) |].
  specialize (H c (is_digit_elem _ (Hd c ltac:(simpl; auto)))).
  apply andb_true_iff in H as [H3 H]. rewrite forallb_forall in H.
  destruct ds as [| d ds]; [by apply (Hshort [a; b; c]) |].
  specialize (H d (is_digit_elem _ (Hd d ltac:(simpl; auto)))).
  apply bool_decide_eq_true in H.
  pose proof (octet_run_app_None 0 0 [a; b; c; d] ds H) as Hnone.
  change ([a; b; c; d] ++ ds) with (a :: b :: c :: d :: ds) in Hnone. congruence.
Qed.

Lemma octet_run_bounds val dl ds v l :
  octet_run val dl ds = Some (v, l) → 0 <= val < 256 → forallb is_digit ds = true → octet v.
Proof.
  revert val dl. induction ds as [| c ds IH]; intros val dl; simpl; [by intros [= <- <-] |].
  intros Hrun Hv Hd. apply andb_true_iff in Hd as [Hc Hd].
  destruct (_ && _); [done |]. destruct (Z.ltb_spec 255 (val * 10 + digit_val c)); [done |].
  eapply IH; [done | | done]. unfold is_digit, in_range, digit_val in *.
  apply andb_true_iff in Hc as [?%Z.leb_le ?%Z.leb_le]. lia.
Qed.

(** ** A dotted quad *)

Fixpoint dotted (vs : list Z) : list ascii :=
  match vs with
  | [] => []
  | [v] => chars (itoa v)
  | v :: vs' => chars (itoa v) ++ "."%char :: dotted vs'
  end.

Lemma dotted_cons v vs : vs ≠ [] → dotted (v :: vs) = chars (itoa v) ++ "."%char :: dotted vs.
Proof. by destruct vs. Qed.

Lemma string4_dotted a b c d : chars (string4 [a; b; c; d]) = dotted [a; b; c; d].
Proof. unfold string4. rewrite !chars_app. done. Qed.

Definition quad (b : list Z) : Prop := List.length b = 4%nat ∧ Forall octet b.

Lemma quad_inv bs : quad bs → ∃ a b c d, bs = [a; b; c; d].
Proof.
  intros [H _]. destruct bs as [| a [| b [| c [| d [|]]]]]; simplify_eq/=. eauto.
Qed.

Lemma string4_chars bs : quad bs → chars (string4 bs) = dotted bs.
Proof. intros (a & b & c & d & ->)%quad_inv. apply string4_dotted. Qed.

Lemma is_digit_dot : is_digit "." = false.
Proof. done. Qed.

Section ipv4.
Context `{UT : UnicodeTables}.

(** Reading a run of digits. *)
Lemma ipv4_fields_digits inp prev ds rest val dl fields v l :
  forallb is_digit ds = true → octet_run val dl ds = Some (v, l) →
  ipv4_fields inp prev (ds ++ rest) val dl fields =
  ipv4_fields inp (match last ds with Some c => Some c | None => prev end) rest v l fields.
Proof.
  revert prev val dl. induction ds as [| c ds IH]; intros prev val dl; cbn [ipv4_fields app octet_run forallb].
  - by intros _ [= <- <-].
  - intros [Hc Hd]%andb_true_iff Hrun. rewrite Hc.
    destruct (_ && _); [done |]. destruct (255 <? _); [done |].
    rewrite (IH _ _ _ Hd Hrun). rewrite (last_cons c ds). by destruct (last ds).
Qed.

Lemma last_digit ds c : forallb is_digit ds = true → last ds = Some c → is_digit c = true.
Proof.
  intros Hd Hl. rewrite forallb_forall in Hd. apply Hd.
  apply list_elem_of_In. by apply last_Some_elem_of.
Qed.

Lemma ipv4_fields_print inp prev v vs fields :
  octet v → Forall octet vs → (List.length fields + List.length vs = 3)%nat →
  ipv4_fields inp prev (dotted (v :: vs)) 0 0 fields = inr (fields ++ v :: vs).
Proof.
  revert v prev fields. induction vs as [| v' vs IH]; intros v prev fields Hv Hvs Hlen;
    destruct (octet_print v Hv) as (Hrun & Hd & Hne).
  - rewrite <- (app_nil_r (dotted [v])). cbn [dotted].
    rewrite (ipv4_fields_digits inp prev _ [] 0 0 fields _ _ Hd Hrun). simpl.
    simpl in Hlen. rewrite Nat.add_0_r in Hlen. by rewrite Hlen.
  - rewrite dotted_cons by done.
    rewrite (ipv4_fields_digits inp prev _ _ 0 0 fields _ _ Hd Hrun).
    apply Forall_cons in Hvs as [Hv' Hvs]. simpl in Hlen.
    destruct (last (chars (itoa v))) as [c |] eqn:Hlast;
      [| apply last_None in Hlast; by destruct Hne].
    pose proof (last_digit _ _ Hd Hlast) as Hc.
    cbn [ipv4_fields]. rewrite is_digit_dot. simpl (Ascii.eqb _ _).
    assert (dotted (v' :: vs) ≠ []) as Hne'.
    { destruct (octet_print v' Hv') as (_ & _ & Hne').
      destruct vs; [done | rewrite dotted_cons by done]. by destruct (chars (itoa v')). }
    rewrite (bool_decide_eq_false_2 (Some c = None)) by done.
    rewrite (bool_decide_eq_false_2 (dotted (v' :: vs) = [])) by done.
    rewrite (bool_decide_eq_false_2 (Some c = Some "."%char)) by (intros [= ->]; done).
    simpl (_ || _). rewrite (proj2 (Z.eqb_neq _ _)) by lia.
    rewrite IH; [by rewrite <- (assoc (++)) | done | done | rewrite length_app; simpl; lia].
Qed.

Lemma ipv4_fields_inv inp s prev val dl fields cur b :
  octet_run 0 0 cur = Some (val, dl) → forallb is_digit cur = true →
  (cur = [] → prev = None ∨ prev = Some "."%char) →
  (s = [] → cur = [] → fields = []) → (List.length fields <= 3)%nat →
  ipv4_fields inp prev s val dl fields = inr b →
  ∃ vs, vs ≠ [] ∧ b = fields ++ vs ∧ dotted vs = cur ++ s ∧ List.length b = 4%nat ∧ Forall octet vs.
Proof.
  revert prev val dl fields cur. induction s as [| c s IH];
    intros prev val dl fields cur Hrun Hd Hprev Hend Hlen; cbn [ipv4_fields].
  - destruct (Z.ltb_spec (Z.of_nat (List.length fields)) 3) as [| Hge]; [done |].
    intros [= <-]. assert (cur ≠ []) as Hne.
    { intros Hc. by rewrite (Hend eq_refl Hc) in Hge. }
    exists [val]. split; [done |]. split; [done |].
    split; [rewrite app_nil_r; by apply (octet_read cur val dl) |].
    split; [rewrite length_app; simpl; lia |].
    repeat constructor; by eapply (octet_run_bounds 0 0 cur).
  - destruct (is_digit c) eqn:Hc.
    + destruct (_ && _) eqn:E1; [done |]. destruct (255 <? _) eqn:E2; [done |]. intros H.
      destruct (IH (Some c) (val * 10 + digit_val c) (dl + 1) fields (cur ++ [c]))
        as (vs & ? & ? & Hj & ? & ?); try done.
      * rewrite octet_run_snoc, Hrun. simpl. by rewrite E1, E2.
      * rewrite forallb_app, Hd. simpl. by rewrite Hc.
      * by destruct cur.
      * by destruct cur.
      * exists vs. rewrite Hj, <- (assoc (++)). done.
    + destruct (Ascii.eqb_spec c ".") as [-> |]; [| done].
      destruct (_ || _) eqn:E1; [done |]. destruct (_ =? 3) eqn:E2; [done |]. intros H.
      apply orb_false_iff in E1 as [[E1a E1b]%orb_false_iff E1c].
      apply bool_decide_eq_false in E1a, E1b, E1c. apply Z.eqb_neq in E2.
      assert (cur ≠ []) as Hne by (intros Hcur; destruct (Hprev Hcur); congruence).
      destruct (IH (Some "."%char) 0 0 (fields ++ [val]) []) as (vs & Hvs & -> & Hj & Hl & Hf);
        try done.
      * auto.
      * rewrite length_app. simpl. lia.
      * exists (val :: vs). split; [done |]. split; [by rewrite <- (assoc (++)) |].
        split; [rewrite dotted_cons, Hj by done; f_equal; by eapply octet_read |].
        split; [done |]. constructor; [by eapply (octet_run_bounds 0 0 cur) | done].
Qed.

Lemma dotted_family v vs :
  octet v → vs ≠ [] → addr_family (dotted (v :: vs)) = Some "."%char.
Proof.
  intros Hv Hvs. rewrite dotted_cons by done. destruct (octet_print v Hv) as (_ & Hd & _).
  revert Hd. generalize (chars (itoa v)) as ds. induction ds as [| c ds IH]; [done |].
  simpl. intros [Hc Hd]%andb_true_iff.
  destruct (Ascii.eqb_spec c "."); [by subst |]. destruct (Ascii.eqb_spec c ":"); [by subst |].
  destruct (Ascii.eqb_spec c "%"); [by subst |]. by apply IH.
Qed.

(** Parsing is the inverse of printing. *)
Lemma ParseAddr_string4 bs : quad bs → ParseAddr (string4 bs) = inr (Addr4 bs).
Proof.
  intros Hq. pose proof (string4_chars bs Hq) as Hc.
  destruct (quad_inv bs Hq) as (a & b & c & d & ->). destruct Hq as [_ Hf].
  apply Forall_cons in Hf as [Ha Hf]. unfold ParseAddr. rewrite Hc, dotted_family by done.
  unfold parseIPv4. by rewrite Hc, ipv4_fields_print.
Qed.

Lemma chars_inj s t : chars s = chars t → s = t.
Proof. intros H. rewrite <- (of_chars_chars s), <- (of_chars_chars t). by f_equal. Qed.

Lemma parseIPv4_inv s a : parseIPv4 s = inr a → ∃ bs, a = Addr4 bs ∧ quad bs ∧ s = string4 bs.
Proof.
  unfold parseIPv4. destruct (ipv4_fields _ _ _ _ _ _) as [e | bs] eqn:H; [done |].
  intros [= <-]. apply (ipv4_fields_inv s (chars s) None 0 0 [] [] bs) in H
    as (vs & _ & -> & Hj & Hl & Hf); try done; auto; try (simpl; lia).
  exists vs. split; [done |]. assert (quad vs) as Hq by done. split; [done |].
  apply chars_inj. rewrite string4_chars by done. by rewrite Hj.
Qed.

(** A byte of a printed IPv4 address is a digit or a dot. *)
Definition addr_char (c : ascii) : bool := is_digit c || Ascii.eqb c ".".

Lemma dotted_safe vs : Forall octet vs → forallb addr_char (dotted vs) = true.
Proof.
  assert (∀ v, octet v → forallb addr_char (chars (itoa v)) = true) as Hv.
  { intros v (_ & Hd & _)%octet_print. rewrite forallb_forall in *. intros c Hc.
    unfold addr_char. by rewrite (Hd c Hc). }
  induction 1 as [| v vs Ho _ IH]; [done |]. destruct vs as [| v' vs]; [by apply Hv |].
  rewrite dotted_cons by done. rewrite forallb_app, (Hv v Ho). simpl. exact IH.
Qed.

Lemma string4_safe bs : quad bs → forallb addr_char (chars (string4 bs)) = true.
Proof. intros Hq. rewrite string4_chars by done. apply dotted_safe, Hq. Qed.
End ipv4.

(** ** IPv6 *)

Section ipv6.
Context `{UT : UnicodeTables}.

Lemma hex_val_bounds c d : hex_val c = Some d → 0 <= d < 16.
Proof.
  unfold hex_val, in_range. repeat case_match; intros [= <-]; bool_to_prop;
    repeat match goal with H : (_ <=? _) = true |- _ => apply Z.leb_le in H end; lia.
Qed.

Lemma hex_group_bounds inp s0 off acc s v o rest :
  0 <= acc <= 65535 → hex_group inp s0 off acc s = inr (v, o, rest) → 0 <= v <= 65535.
Proof.
  revert off acc. induction s as [| c s IH]; intros off acc Hacc; simpl; [by intros [= <- <- <-] |].
  destruct (hex_val c) as [d |] eqn:Hd; [| by intros [= <- <- <-]].
  destruct (3 <? off); [done |]. destruct (Z.ltb_spec 65535 ((acc * 16 + d) mod 2 ^ 32)); [done |].
  apply IH. split; [apply Z.mod_pos_bound; lia | lia].
Qed.

Definition bytes_ok (n : nat) (b : list Z) : Prop := List.length b = n ∧ Forall octet b.

Lemma ipv6_finish_ok inp ip ellipsis zone s a :
  (List.length ip <= 16)%nat → Forall octet ip →
  ipv6_finish inp ip ellipsis zone s = inr a →
  ∃ b, a = Addr6 b zone ∧ bytes_ok 16 b.
Proof.
  unfold ipv6_finish. intros Hlen Hf. destruct s; [| done].
  destruct (Nat.ltb_spec (List.length ip) 16).
  - destruct ellipsis as [e |]; [| done]. intros [= <-]. eexists. split; [done |]. split.
    + rewrite !length_app, repeat_length, length_take, length_drop. lia.
    + apply Forall_app; split; [by apply Forall_take |].
      apply Forall_app; split; [| by apply Forall_drop].
      apply Forall_forall. intros x Hx%list_elem_of_In%repeat_spec. subst. unfold octet. lia.
  - destruct ellipsis; [done |]. intros [= <-]. exists ip. split; [done |]. split; [lia | done].
Qed.

Lemma ipv4_fields_quad inp s bs : ipv4_fields inp None s 0 0 [] = inr bs → quad bs.
Proof.
  intros H. apply (ipv4_fields_inv inp s None 0 0 [] [] bs) in H
    as (vs & _ & -> & _ & ? & ?); try done; auto; simpl; lia.
Qed.

Lemma ipv6_embedded_ok inp zone ip ellipsis s a :
  Forall octet ip → ipv6_embedded inp zone ip ellipsis s = inr a →
  ∃ b, a = Addr6 b zone ∧ bytes_ok 16 b.
Proof.
  unfold ipv6_embedded. intros Hf. destruct (_ && _); [done |].
  destruct (Nat.ltb_spec 16 (List.length ip + 4)); [done |].
  destruct (ipv4_fields _ _ _ _ _ _) as [e | fs] eqn:H4; [done |].
  apply ipv4_fields_quad in H4 as [Hl4 Hf4].
  apply ipv6_finish_ok; [rewrite length_app; lia |]. by apply Forall_app.
Qed.

Lemma ipv6_loop_ok fuel inp zone ip ellipsis s a :
  (∃ k, List.length ip = 2 * k ∧ k <= 8)%nat → Forall octet ip →
  ipv6_loop fuel inp zone ip ellipsis s = inr a →
  ∃ b, a = Addr6 b zone ∧ bytes_ok 16 b.
Proof.
  revert ip ellipsis s. induction fuel as [| fuel IH]; intros ip ellipsis s (k & Hk & Hle) Hf.
  { apply ipv6_finish_ok; [lia | done]. }
  cbn [ipv6_loop]. destruct (Nat.leb_spec 16 (List.length ip)) as [| Hlt].
  { apply ipv6_finish_ok; [lia | done]. }
  destruct (hex_group inp s 0 0 s) as [e | [[acc off] rest]] eqn:Hg; [done |].
  apply hex_group_bounds in Hg; [| lia]. destruct (off =? 0); [done |].
  destruct (starts_with _ rest); [by apply ipv6_embedded_ok |].
  set (ip' := ip ++ [acc / 256; acc mod 256]).
  assert (List.length ip' = 2 * (k + 1))%nat as Hl by (unfold ip'; rewrite length_app; simpl; lia).
  assert (Forall octet ip') as Hf'.
  { apply Forall_app. split; [done |]. pose proof (Z.mod_pos_bound acc 256 ltac:(lia)).
    pose proof (Z.div_lt_upper_bound acc 256 256). pose proof (Z.div_pos acc 256).
    apply Forall_cons; split; [unfold octet; lia |].
    apply Forall_cons; split; [unfold octet; lia | constructor]. }
  destruct (ipv6_next _ _ _ _) as [e | [ell [s' |]]]; [done | |].
  - apply IH; [exists (k + 1)%nat; lia | done].
  - apply ipv6_finish_ok; [lia | done].
Qed.

Lemma parseIPv6_ok s a : parseIPv6 s = inr a → ∃ b z, a = Addr6 b z ∧ bytes_ok 16 b.
Proof.
  unfold parseIPv6. destruct (Cut s "%") as [[h z] hz]. destruct (hz && _); [done |].
  assert (∀ ellipsis l, ipv6_loop 8 s z [] ellipsis l = inr a →
            ∃ b z, a = Addr6 b z ∧ bytes_ok 16 b) as Hloop.
  { intros ellipsis l H. apply ipv6_loop_ok in H as (b & ? & ?); [eauto | | constructor].
    exists 0%nat. simpl. lia. }
  cbv zeta. destruct (_ && _); [| apply Hloop].
  destruct (drop 2 (chars h)); [| apply Hloop]. intros [= <-].
  exists (repeat 0 16), z. split; [done |].
  split; [done |]. repeat constructor; unfold octet; lia.
Qed.

(** Whatever the input, the IPv4 form of a parsed address is a dotted quad. *)
Lemma ParseAddr_Unmap_quad s a bs : ParseAddr s = inr a → Unmap a = Addr4 bs → quad bs.
Proof.
  unfold ParseAddr. intros Hp Hu.
  assert (parseIPv4 s = inr a ∨ parseIPv6 s = inr a) as [H4 | H6].
  { destruct (addr_family (chars s)) as [c |]; [| done].
    destruct (Ascii.eqb c "."); [by left |]. destruct (Ascii.eqb c ":"); [by right | done]. }
  - apply parseIPv4_inv in H4 as (bs' & -> & Hq & _). by injection Hu as <-.
  - apply parseIPv6_ok in H6 as (b & z & -> & Hl & Hf). unfold Unmap in Hu.
    destruct (Is4In6 (Addr6 b z)); [| done]. injection Hu as <-. split.
    + rewrite length_drop. lia.
    + by apply Forall_drop.
Qed.
End ipv6.

(** ** Host and port *)

Definition lacks (c : ascii) (l : list ascii) : Prop := existsb (Ascii.eqb c) l = false.

Lemma lacks_app c l1 l2 : lacks c (l1 ++ l2) ↔ lacks c l1 ∧ lacks c l2.
Proof. unfold lacks. rewrite existsb_app. apply orb_false_iff. Qed.

Lemma lacks_cons c d l : lacks c (d :: l) ↔ c ≠ d ∧ lacks c l.
Proof. unfold lacks. simpl. by rewrite orb_false_iff, Ascii.eqb_neq. Qed.

Lemma last_byte_None i c l : lacks c l → last_byte_from i c l = None.
Proof.
  revert i. induction l as [| d l IH]; intros i; [done |]. rewrite lacks_cons. intros [Hd Hl].
  cbn [last_byte_from]. rewrite (IH _ Hl). by apply Ascii.eqb_neq in Hd as ->.
Qed.

Lemma last_byte_app i c l r :
  lacks c r → last_byte_from i c (l ++ c :: r) = Some (i + List.length l)%nat.
Proof.
  intros Hr. revert i. induction l as [| d l IH]; intros i; cbn [app last_byte_from].
  - rewrite last_byte_None, Ascii.eqb_refl by done. f_equal. simpl. lia.
  - rewrite IH. f_equal. simpl. lia.
Qed.

Lemma index_byte_app c l r : lacks c l → index_byte c (l ++ c :: r) = Some (List.length l).
Proof.
  induction l as [| d l IH]; simpl; [by rewrite Ascii.eqb_refl |].
  rewrite lacks_cons. intros [Hd%Ascii.eqb_neq Hl]. by rewrite Hd, IH.
Qed.

Lemma chars_drop n s : chars (str_drop n s) = drop n (chars s).
Proof. apply chars_of_chars. Qed.
Lemma chars_take n s : chars (str_take n s) = take n (chars s).
Proof. apply chars_of_chars. Qed.

Lemma length_chars s : String.length s = List.length (chars s).
Proof. induction s; simpl; congruence. Qed.

Lemma prefix_cons a b p s :
  String.prefix (String a p) (String b s) = if ascii_dec a b then String.prefix p s else false.
Proof. done. Qed.

Lemma prefix_one a s : String.prefix (String a "") (String a s) = true.
Proof. rewrite prefix_cons. destruct (ascii_dec a a); [by destruct s | done]. Qed.

Lemma HasPrefix_bracket s : lacks "[" (take 1 (chars s)) → HasPrefix s "[" = false.
Proof.
  destruct s as [| c s]; [done |]. intros [Hc _]%lacks_cons. unfold HasPrefix.
  rewrite prefix_cons. generalize (ascii_dec "[" c). by intros [? | ?].
Qed.

(** A host without brackets, joined with a port, is split into the same two. *)
Lemma SplitHostPort_Join h p :
  lacks "[" (chars h) → lacks "]" (chars h) →
  lacks "[" (chars p) → lacks "]" (chars p) → lacks ":" (chars p) →
  SplitHostPort (JoinHostPort h p) = inr (h, p).
Proof.
  intros Ho Hc Hpo Hpc Hpp. unfold JoinHostPort. destruct (ContainsByte h ":") eqn:Hcol.
  - set (s := "[" +:+ h +:+ "]:" +:+ p).
    assert (chars s = "["%char :: chars h ++ "]"%char :: ":"%char :: chars p) as Hs.
    { unfold s. by rewrite !chars_app. }
    unfold SplitHostPort, LastIndexByte, IndexByte, ContainsByte.
    rewrite !chars_drop, length_chars, Hs.
    change ("["%char :: chars h ++ "]"%char :: ":"%char :: chars p)
      with (("["%char :: chars h) ++ "]"%char :: ":"%char :: chars p).
    rewrite index_byte_app by (by apply lacks_cons).
    replace (("["%char :: chars h) ++ "]"%char :: ":"%char :: chars p)
      with ((("["%char :: chars h) ++ ["]"%char]) ++ ":"%char :: chars p)
      by (by rewrite <- (assoc (++))).
    rewrite last_byte_app by done.
    replace (HasPrefix s "[") with true by (unfold s, HasPrefix; symmetry; apply prefix_one).
    set (hd := ("["%char :: chars h) ++ ["]"%char]).
    assert (List.length hd = S (S (List.length (chars h)))) as Hl
      by (unfold hd; rewrite length_app; simpl; lia).
    rewrite length_app, Hl. simpl List.length.
    rewrite (proj2 (Nat.eqb_neq _ _)) by lia. rewrite (proj2 (Nat.eqb_eq _ _)) by lia.
    replace (drop 1 (hd ++ ":"%char :: chars p))
      with (chars h ++ "]"%char :: ":"%char :: chars p) by (unfold hd; by rewrite <- (assoc (++))).
    assert (chars (str_drop (S (S (List.length (chars h)))) s) = ":"%char :: chars p) as E2.
    { rewrite chars_drop, Hs. simpl.
      change ("]"%char :: ":"%char :: chars p) with (["]"%char] ++ ":"%char :: chars p).
      rewrite (assoc (++)). apply drop_app_length'. rewrite length_app. simpl. lia. }
    assert (lacks "[" (chars h ++ "]"%char :: ":"%char :: chars p)) as H1
      by (rewrite lacks_app, !lacks_cons; done).
    assert (lacks "]" (":"%char :: chars p)) as H2 by (rewrite lacks_cons; done).
    unfold lacks in H1, H2. rewrite H1, E2, H2. do 2 f_equal; apply chars_inj.
    + rewrite chars_drop, chars_take, Hs. simpl. rewrite take_app_length. done.
    + rewrite chars_drop, Hs. cbn [drop Nat.add]. 
      replace (chars h ++ "]"%char :: ":"%char :: chars p)
        with ((chars h ++ ["]"; ":"]%char) ++ chars p) by (by rewrite <- (assoc (++))).
      apply drop_app_length'. rewrite length_app. simpl. lia.
  - set (s := h +:+ ":" +:+ p).
    assert (chars s = chars h ++ ":"%char :: chars p) as Hs by (unfold s; by rewrite !chars_app).
    unfold SplitHostPort, LastIndexByte. rewrite Hs, last_byte_app by done. simpl (0 + _)%nat.
    rewrite (HasPrefix_bracket s).
    2: { rewrite Hs. destruct (chars h) as [| c l]; [done |]. apply lacks_cons in Ho as [? _].
         by apply lacks_cons. }
    assert (str_take (List.length (chars h)) s = h) as ->.
    { apply chars_inj. by rewrite chars_take, Hs, take_app_length. }
    rewrite Hcol. unfold ContainsByte. rewrite !chars_drop, Hs, !drop_0.
    assert (lacks "[" (chars h ++ ":"%char :: chars p)) as H1
      by (rewrite lacks_app, !lacks_cons; done).
    assert (lacks "]" (chars h ++ ":"%char :: chars p)) as H2
      by (rewrite lacks_app, !lacks_cons; done).
    unfold lacks in H1, H2. rewrite H1, H2. do 2 f_equal. apply chars_inj.
    rewrite chars_drop, Hs.
    replace (chars h ++ ":"%char :: chars p) with ((chars h ++ [":"%char]) ++ chars p)
      by (by rewrite <- (assoc (++))).
    apply drop_app_length'. rewrite length_app. simpl. lia.
Qed.
