(* ===== verification/Ipnstate.v ===== *)
(** The part of [tailscale.com/ipn/ipnstate] the program reads.  The package is
    not part of the repository: its types appear here as records of the fields
    the source uses, and its JSON decoding is a parameter.  A Go map is iterated
    in no particular order, so the peers are a list in an arbitrary order. *)

From S2P Require Import Prelude GoStd Errors Netip.

Record PeerStatus := mkPeerStatus {
  peer_ID : string;
  peer_DNSName : string;
  peer_HostName : string;
  peer_OS : string;
  peer_TailscaleIPs : list Addr;
  peer_Tags : list string;
  peer_Online : bool;
  peer_LastSeen : Time;
  peer_ExitNode : bool;
  peer_ExitNodeOption : bool;
  peer_RxBytes : Z;
  peer_TxBytes : Z;
  peer_LastHandshake : Time;
}.

(** The addresses of the prefixes of [ExitNodeStatus.TailscaleIPs]. *)
Record ExitNodeStatus := mkExitNodeStatus {
  ens_ID : string;
  ens_TailscaleIPs : list Addr;
}.

Record Status := mkStatus {
  st_Self : option PeerStatus;
  st_Peer : list (option PeerStatus);
  st_ExitNodeStatus : option ExitNodeStatus;
}.

(** [json.Unmarshal(raw, &st)] *)
Class StatusCodec := { unmarshal_status : string → error + Status }.
