(* ===== verification/Netmap.v ===== *)
(** [internal/netmap]: the inventory of the tailnet and the identity of a caller,
    from the answers of the tsnet node's local client. *)

From S2P Require Import Prelude GoStd Errors Store Netip Ipnstate.

(** internal/netmap/netmap.go:29-29, routerTag. *)
Definition routerTag : string := "tag:router".

(** internal/netmap/netmap.go:130-135, hasTag. *)
Definition hasTag (p : PeerStatus) (tag : string) : bool :=
  existsb (λ t, String.eqb t tag) (peer_Tags p).

(** internal/netmap/netmap.go:97-105, classify. *)
Definition classify (p : PeerStatus) : NodeType :=
  if hasTag p routerTag then NodeRouter
  else if peer_ExitNodeOption p then NodeExitNode
  else NodeGeneric.

(** internal/netmap/netmap.go:109-118, peerIPs. *)
Definition peerIPs (p : PeerStatus) : list string := map AddrString (peer_TailscaleIPs p).

(** internal/netmap/netmap.go:122-127, peerTags.  A copy; the model's lists are values. *)
Definition peerTags (p : PeerStatus) : list string := peer_Tags p.

(** internal/netmap/netmap.go:76-91, mapPeer. *)
Definition mapPeer (p : PeerStatus) : NodeView :=
  mkNodeView (peer_ID p) (TrimSuffix (peer_DNSName p) ".") (peer_HostName p) (peerIPs p)
    (peer_OS p) (peer_Online p) (peer_LastSeen p) (peer_ExitNodeOption p) (peerTags p)
    (classify p) false.

Definition mark_self (n : NodeView) : NodeView :=
  mkNodeView (nv_StableID n) (nv_Name n) (nv_Hostname n) (nv_TailscaleIPs n) (nv_OS n)
    (nv_Online n) (nv_LastSeen n) (nv_ExitNodeOption n) (nv_Tags n) (nv_Type n) true.

(** The order of [sort.Slice]. *)
Definition id_le (a b : NodeView) : Prop := key_le nv_StableID a b.
#[export] Instance id_le_dec a b : Decision (id_le a b) :=
  decide (str_le (nv_StableID a) (nv_StableID b)).
#[export] Instance id_le_total : Total id_le.
Proof. intros a b. apply (str_le_total (nv_StableID a) (nv_StableID b)). Qed.
#[export] Instance id_le_trans : Transitive id_le.
Proof. intros a b c. apply (str_le_trans (nv_StableID a) (nv_StableID b) (nv_StableID c)). Qed.

(** Self, then the peers in the order of the map's iteration. *)
Definition unsorted_inventory (st : Status) : list NodeView :=
  match st_Self st with Some self => [mark_self (mapPeer self)] | None => [] end ++
  map mapPeer (omap id (st_Peer st)).

(** internal/netmap/netmap.go:55-73, buildInventory. *)
Definition buildInventory (st : option Status) : list NodeView :=
  match st with
  | None => []
  | Some st => merge_sort id_le (unsorted_inventory st)
  end.

(** What [apitype.WhoIsResponse] says of a node and of a user profile. *)
Record WhoIsResponse := mkWhoIs {
  who_Node : option bool;              (* [Node.IsTagged()] *)
  who_UserProfile : option string;     (* [UserProfile.LoginName] *)
}.

(** [tailscale.com/client/local.Client] *)
Class LocalClient (W : Type) := {
  lc_Status : M W (option Status * option error);
  lc_WhoIs : string → M W (option WhoIsResponse * option error);
}.

Section mapper.
Context {W : Type} `{LC : LocalClient W}.

(** internal/netmap/netmap.go:43-49, Mapper.Inventory. *)
Definition Inventory : M W (list NodeView * option error) :=
  r ← lc_Status;
  match r with
  | (_, Some err) => mret ([], Some err)
  | (st, None) => mret (buildInventory st, None)
  end.

(** internal/netmap/netmap.go:142-159, Mapper.WhoIs. *)
Definition WhoIs (remoteAddr : string) : M W (string * bool * option error) :=
  r ← lc_WhoIs remoteAddr;
  match r with
  | (_, Some err) => mret ("", false, Some err)
  | (None, None) => mret ("", false, Some (ErrText "netmap: WhoIs returned a nil response"))
  | (Some resp, None) =>
      let tagged := match who_Node resp with Some t => t | None => false end in
      let login := match who_UserProfile resp with Some l => l | None => "" end in
      mret (login, tagged, None)
  end.
End mapper.

(** ** Facts *)

Lemma mark_self_id n : nv_StableID (mark_self n) = nv_StableID n.
Proof. done. Qed.

Lemma buildInventory_perm st : buildInventory (Some st) ≡ₚ unsorted_inventory st.
Proof. apply merge_sort_Permutation. Qed.

Lemma buildInventory_sorted st : StronglySorted (key_le nv_StableID) (buildInventory (Some st)).
Proof. apply Sorted_StronglySorted; [apply id_le_trans | apply Sorted_merge_sort, _]. Qed.

(** The inventory lists the node itself, marked, and every peer, unmarked,
    once each and in the order of the stable ids; a node is typed a router exactly
    when it carries the router tag, else an exit node exactly when it offers to be
    one; and the order in which the map of peers is iterated does not show as long
    as stable ids are distinct. *)
Theorem buildInventory_exact st st' :
  buildInventory (Some st) ≡ₚ
    (mark_self <$> (mapPeer <$> option_list (st_Self st))) ++ (mapPeer <$> omap id (st_Peer st)) ∧
  StronglySorted (key_le nv_StableID) (buildInventory (Some st)) ∧
  (∀ p, (nv_Type (mapPeer p) = NodeRouter ↔ routerTag ∈ peer_Tags p) ∧
        (nv_Type (mapPeer p) = NodeExitNode ↔ routerTag ∉ peer_Tags p ∧ peer_ExitNodeOption p = true)) ∧
  (NoDup (nv_StableID <$> unsorted_inventory st) →
   st_Self st' = st_Self st → st_Peer st ≡ₚ st_Peer st' →
   buildInventory (Some st') = buildInventory (Some st)).
Proof.
  split; [rewrite buildInventory_perm; unfold unsorted_inventory; by destruct (st_Self st) |].
  split; [apply buildInventory_sorted |]. split.
  - intros p. simpl. unfold classify, hasTag.
    pose proof (existsb_eqb_elem routerTag (peer_Tags p)) as H.
    destruct (existsb _ _), (peer_ExitNodeOption p); naive_solver.
  - intros Hnd Hself Hp.
    assert (unsorted_inventory st ≡ₚ unsorted_inventory st') as Hu.
    { unfold unsorted_inventory. rewrite Hself. f_equiv. apply Permutation_map. by rewrite Hp. }
    symmetry. apply (sorted_by_key_unique nv_StableID); [apply buildInventory_sorted.. | |].
    + by rewrite !buildInventory_perm.
    + by rewrite buildInventory_perm.
Qed.

Section identity.
Context {W : Type} `{LC : LocalClient W}.

(** The identity of a caller fails closed: an error or a missing answer of the
    local client is an error of [WhoIs], with no login and no tag; an identity is
    only what the client answered. *)
Theorem WhoIs_fail_closed addr w :
  let '(((login, tagged), err), _) := WhoIs addr w in
  match fst (lc_WhoIs addr w) with
  | (Some resp, None) =>
      err = None ∧ login = default "" (who_UserProfile resp) ∧ tagged = default false (who_Node resp)
  | _ => err ≠ None ∧ login = "" ∧ tagged = false
  end.
Proof.
  unfold WhoIs, mbind, M_bind, mret, M_ret.
  by destruct (lc_WhoIs addr w) as [[[resp |] [e |]] w'].
Qed.
End identity.
