(* ===== verification/Authz.v ===== *)
(** [internal/authz]: the request subject and the snapshot filter that scopes
    what a guest may read. *)

From S2P Require Import Prelude GoStd Store.

(** internal/authz/authz.go:27-31, Subject. *)
Record Subject := mkSubject {
  sub_Admin : bool;
  sub_GuestID : string;
  sub_ZoneID : string;
}.

Definition zeroSubject : Subject := mkSubject false "" "".

(** A Go [map[string]struct{}] filled by a loop over the members' StableIDs. *)
Definition member_ids (ms : list GroupMember) : gset string :=
  list_to_set (gm_StableID <$> ms).

(** internal/authz/authz.go:81-127, FilterSnapshotToZone. *)
Definition FilterSnapshotToZone (snap : Snapshot) (zoneID : string) : Snapshot :=
  let out := mkSnapshot [] [] [] (snap_NetmapAt snap) (snap_NetmapErr snap) (snap_BuiltAt snap) in
  match List.find (λ g, String.eqb (gv_ID g) zoneID) (snap_Groups snap) with
  | None => out
  | Some gv =>
      let consumers := member_ids (gv_Consumers gv) in
      let allowed := member_ids (gv_Consumers gv) ∪ member_ids (gv_AllowedExitNodes gv) in
      mkSnapshot
        (List.filter (λ n, bool_decide (nv_StableID n ∈ allowed)) (snap_Nodes snap))
        (List.filter (λ rv, bool_decide (nv_StableID (rv_Node rv) ∈ consumers))
           (snap_Routers snap))
        [gv]
        (snap_NetmapAt snap) (snap_NetmapErr snap) (snap_BuiltAt snap)
  end.

(** ** The request context

    A context carries the subject the middleware resolved and the check a
    long-lived stream repeats (type Revalidate): [V] is the type of that check, an
    action with a boolean result. *)
Record Ctx (V : Type) := mkCtx {
  ctx_subject : option Subject;
  ctx_revalidate : option V;
}.
Arguments mkCtx {V}.
Arguments ctx_subject {V}.
Arguments ctx_revalidate {V}.

Definition emptyCtx {V} : Ctx V := mkCtx None None.
(** internal/authz/authz.go:38-40, WithSubject. *)
Definition WithSubject {V} (ctx : Ctx V) (sub : Subject) : Ctx V :=
  mkCtx (Some sub) (ctx_revalidate ctx).
(** internal/authz/authz.go:62-64, WithRevalidate. *)
Definition WithRevalidate {V} (ctx : Ctx V) (fn : V) : Ctx V :=
  mkCtx (ctx_subject ctx) (Some fn).
(** internal/authz/authz.go:44-47, SubjectFromContext. *)
Definition SubjectFromContext {V} (ctx : Ctx V) : Subject * bool :=
  match ctx_subject ctx with Some s => (s, true) | None => (zeroSubject, false) end.
(** internal/authz/authz.go:67-70, RevalidateFromContext. *)
Definition RevalidateFromContext {V} (ctx : Ctx V) : option V := ctx_revalidate ctx.

(** ** What a guest may read *)

(** The zone a guest is bound to, and the node ids it may see and control. *)
Definition zone_view (snap : Snapshot) (zoneID : string) : option GroupView :=
  List.find (λ g, String.eqb (gv_ID g) zoneID) (snap_Groups snap).
Definition may_control (gv : GroupView) (id : string) : Prop :=
  id ∈ (gm_StableID <$> gv_Consumers gv).
Definition may_see (gv : GroupView) (id : string) : Prop :=
  may_control gv id ∨ id ∈ (gm_StableID <$> gv_AllowedExitNodes gv).

#[export] Instance may_control_dec gv id : Decision (may_control gv id).
Proof. unfold may_control. apply _. Defined.
#[export] Instance may_see_dec gv id : Decision (may_see gv id).
Proof. unfold may_see. apply _. Defined.

Lemma member_ids_elem ms id : id ∈ member_ids ms ↔ id ∈ (gm_StableID <$> ms).
Proof. unfold member_ids. by rewrite elem_of_list_to_set. Qed.

Lemma may_see_set gv id :
  id ∈ member_ids (gv_Consumers gv) ∪ member_ids (gv_AllowedExitNodes gv) ↔ may_see gv id.
Proof. rewrite elem_of_union, !member_ids_elem. done. Qed.

Lemma elem_of_filter_bool {A} (f : A → bool) l x :
  x ∈ List.filter f l ↔ x ∈ l ∧ f x = true.
Proof. by rewrite !list_elem_of_In, List.filter_In. Qed.

Lemma filter_filter_same {A} (f : A → bool) l :
  List.filter f (List.filter f l) = List.filter f l.
Proof. induction l as [| x l IH]; simpl; [done |]. destruct (f x) eqn:E; simpl; by rewrite ?E, ?IH. Qed.

(** The filter as a function of the zone's view and of what the zone may see. *)
Lemma FilterSnapshotToZone_eq snap z :
  FilterSnapshotToZone snap z =
  match zone_view snap z with
  | None => mkSnapshot [] [] [] (snap_NetmapAt snap) (snap_NetmapErr snap) (snap_BuiltAt snap)
  | Some gv =>
      let consumers := member_ids (gv_Consumers gv) in
      let allowed := member_ids (gv_Consumers gv) ∪ member_ids (gv_AllowedExitNodes gv) in
      mkSnapshot
        (List.filter (λ n, bool_decide (nv_StableID n ∈ allowed)) (snap_Nodes snap))
        (List.filter (λ rv, bool_decide (nv_StableID (rv_Node rv) ∈ consumers)) (snap_Routers snap))
        [gv] (snap_NetmapAt snap) (snap_NetmapErr snap) (snap_BuiltAt snap)
  end.
Proof. done. Qed.

(** C24: a guest sees the zone it is bound to and nothing else.  The nodes are
    exactly the inventory's nodes that are consumers or allowed exit nodes of the
    zone, the routers exactly those whose node is a consumer, the only group is
    the zone itself; a zone that is not in the snapshot shows nothing; the
    freshness fields are carried through; and filtering twice changes nothing. *)
Theorem FilterSnapshotToZone_exact snap z :
  let out := FilterSnapshotToZone snap z in
  snap_Groups out = option_list (zone_view snap z) ∧
  (∀ n, n ∈ snap_Nodes out ↔
     n ∈ snap_Nodes snap ∧ ∃ gv, zone_view snap z = Some gv ∧ may_see gv (nv_StableID n)) ∧
  (∀ rv, rv ∈ snap_Routers out ↔
     rv ∈ snap_Routers snap ∧
     ∃ gv, zone_view snap z = Some gv ∧ may_control gv (nv_StableID (rv_Node rv))) ∧
  (zone_view snap z = None → snap_Nodes out = [] ∧ snap_Routers out = []) ∧
  (snap_NetmapAt out, snap_NetmapErr out, snap_BuiltAt out) =
    (snap_NetmapAt snap, snap_NetmapErr snap, snap_BuiltAt snap) ∧
  FilterSnapshotToZone out z = out.
Proof.
  cbv zeta. rewrite (FilterSnapshotToZone_eq snap z).
  destruct (zone_view snap z) as [gv |] eqn:Hz; simpl.
  - split; [done |]. split.
    { intros n. rewrite elem_of_filter_bool, bool_decide_eq_true, may_see_set. naive_solver. }
    split.
    { intros rv. rewrite elem_of_filter_bool, bool_decide_eq_true, member_ids_elem. naive_solver. }
    split; [done |]. split; [done |].
    unfold FilterSnapshotToZone. simpl. apply List.find_some in Hz as [_ Hz]. rewrite Hz.
    simpl. by rewrite !filter_filter_same.
  - split; [done |]. split; [intros n; split; [by intros ?%not_elem_of_nil | naive_solver] |].
    split; [intros n; split; [by intros ?%not_elem_of_nil | naive_solver] |]. done.
Qed.

(** C25: a guest learns nothing about what is outside its zone: two snapshots
    that agree on the zone, on the nodes the zone may see and on the routers it
    may control are shown as the same snapshot. *)
Theorem FilterSnapshotToZone_noninterference snap snap' z gv :
  zone_view snap z = Some gv → zone_view snap' z = Some gv →
  (snap_NetmapAt snap, snap_NetmapErr snap, snap_BuiltAt snap) =
    (snap_NetmapAt snap', snap_NetmapErr snap', snap_BuiltAt snap') →
  List.filter (λ n, bool_decide (may_see gv (nv_StableID n))) (snap_Nodes snap) =
    List.filter (λ n, bool_decide (may_see gv (nv_StableID n))) (snap_Nodes snap') →
  List.filter (λ rv, bool_decide (may_control gv (nv_StableID (rv_Node rv)))) (snap_Routers snap) =
    List.filter (λ rv, bool_decide (may_control gv (nv_StableID (rv_Node rv)))) (snap_Routers snap') →
  FilterSnapshotToZone snap z = FilterSnapshotToZone snap' z.
Proof.
  intros Hz Hz' Ht Hn Hr. rewrite !FilterSnapshotToZone_eq, Hz, Hz'. simplify_eq.
  assert (∀ (l : list NodeView), List.filter (λ n, bool_decide (nv_StableID n ∈
      member_ids (gv_Consumers gv) ∪ member_ids (gv_AllowedExitNodes gv))) l =
    List.filter (λ n, bool_decide (may_see gv (nv_StableID n))) l) as En.
  { intros l. apply List.filter_ext. intros n. apply bool_decide_ext, may_see_set. }
  assert (∀ (l : list RouterView), List.filter (λ rv, bool_decide (nv_StableID (rv_Node rv) ∈
      member_ids (gv_Consumers gv))) l =
    List.filter (λ rv, bool_decide (may_control gv (nv_StableID (rv_Node rv)))) l) as Er.
  { intros l. apply List.filter_ext. intros rv. apply bool_decide_ext, member_ids_elem. }
  cbv zeta. rewrite !En, !Er, Hn, Hr. by f_equal.
Qed.
