(* ===== verification/Sse.v ===== *)
(** [internal/sse]: the hub that fans snapshots out to the connected browsers.

    The goroutines are the hub's [Run], one [ServeHTTP] per connection, the
    callers of [Broadcast], and the poller reading the transitions.  A state
    holds the channels and where each goroutine stands; an [event] is one atomic
    step of one of them (a channel operation, a read of the store), and
    [hub_event] says when it is possible and what it does.  A run of the hub is a
    sequence of events, in any order the guards allow. *)

From S2P Require Import Prelude GoStd Errors Store Authz.

(** ** The cap-1, latest-wins channel

    [send], [emit] and [Broadcast] are the same three selects on a channel of
    capacity one: try to send; if it is full, drop what it holds; send if there is
    room.  Between two selects the other goroutines run. *)
Inductive push (A : Type) :=
| PTry (x : A)
| PDrain (x : A)
| PPut (x : A).
Arguments PTry {A} x.
Arguments PDrain {A} x.
Arguments PPut {A} x.

(** The value a push in progress carries. *)
Definition push_value {A} (p : push A) : A :=
  match p with PTry x | PDrain x | PPut x => x end.

(** internal/sse/hub.go:116-131, Hub.send.  One select: the channel's content and the rest of
    the push. *)
Definition push_step {A} (p : push A) (ch : option A) : option A * option (push A) :=
  match p, ch with
  | PTry x, None => (Some x, None)
  | PTry x, Some y => (Some y, Some (PDrain x))
  | PDrain x, _ => (None, Some (PPut x))
  | PPut x, None => (Some x, None)
  | PPut x, Some y => (Some y, None)
  end.

(** internal/sse/hub.go:135-149, Hub.emit. *)
Definition emit_step : push Z → option Z → option Z * option (push Z) := push_step.

(** internal/sse/hub.go:153-168, Hub.Broadcast. *)
Definition broadcast_step :
  push Snapshot → option Snapshot → option Snapshot * option (push Snapshot) := push_step.

(** ** Writing a frame *)

(** The response of a connection: each operation may fail. *)
Class ResponseWriter (W : Type) := {
  rw_deadline : M W (option error);
  rw_write : string → M W (option error);
  rw_flush : M W (option error);
}.

(** A write that must succeed for the stream to go on. *)
Definition or_stop {W} (m : M W (option error)) (k : M W bool) : M W bool :=
  e ← m;
  match e with Some _ => mret false | None => k end.

Definition lf : string := of_chars [chr 10].

Section write.
Context {W : Type} `{RW : ResponseWriter W}.
Variable encode : Snapshot → error + string.

(** What a connection's filter does to a snapshot. *)
Definition scope (zone : option string) (snap : Snapshot) : Snapshot :=
  match zone with Some z => FilterSnapshotToZone snap z | None => snap end.

(** internal/sse/hub.go:258-286, Hub.writeFrame. *)
Definition writeFrame (zone : option string) (snap : Snapshot) : M W bool :=
  let snap := scope zone snap in
  match encode snap with
  | inl _ => mret true
  | inr data =>
      or_stop rw_deadline
        (or_stop (rw_write "data: ")
           (or_stop (rw_write data)
              (or_stop (rw_write (lf +:+ lf))
                 (or_stop rw_flush (mret true)))))
  end.

(** internal/sse/hub.go:230-246, Hub.ServeHTTP.  The heartbeat: [revalidate] is the check of a
    guest's stream; [false] ends the stream. *)
Definition heartbeat (revalidate : option (M W bool)) : M W bool :=
  valid ← match revalidate with Some fn => fn | None => mret true end;
  if negb valid then mret false
  else or_stop rw_deadline (or_stop (rw_write (": ping" +:+ lf +:+ lf)) (or_stop rw_flush (mret true))).
End write.

(** internal/sse/hub.go:190-200, Hub.ServeHTTP.  The filter of a connection: the zone of a guest,
    and the check its stream repeats. *)
Definition connection_scope {V} (ctx : Ctx V) : option string * option V :=
  let '(sub, ok) := SubjectFromContext ctx in
  if ok && negb (sub_Admin sub) then (Some (sub_ZoneID sub), RevalidateFromContext ctx) else (None, None).

(** ** The goroutines *)

(** Where a [ServeHTTP] stands: offering itself on [register], in its loop, in the
    deferred unregister, returned. *)
Inductive hpc := HReg | HServe | HLeave | HEnd.

#[export] Instance hpc_eq_dec : EqDecision hpc.
Proof. solve_decision. Defined.

(** internal/sse/hub.go:35-38, client.  With the handler's position, the frames it has taken from
    the channel, those it has written, and the last frame [Run] has sent it. *)
Record conn := mkConn {
  cn_zone : option string;
  cn_pc : hpc;
  cn_ch : option Snapshot;
  cn_got : list Snapshot;
  cn_out : list Snapshot;
  cn_sent : option Snapshot;
}.

(** What [Run] still has to do before its next select. *)
Inductive rop :=
| RLoad (c : nat)                   (* send(c, store.Load()) *)
| RSend (c : nat) (p : push Snapshot)
| REmit (p : push Z).

(** internal/sse/hub.go:41-51, Hub.  [h_run] is [None] once [Run] has returned; [h_calls] are the
    calls of [Broadcast] in progress; [h_seen] is the last value the poller received from the
    transitions. *)
Record hub := mkHub {
  h_store : Snapshot;
  h_conns : gmap nat conn;
  h_clients : gset nat;
  h_run : option (list rop);
  h_bc : option Snapshot;
  h_calls : list (push Snapshot);
  h_tr : option Z;
  h_seen : Z;
}.

(** internal/sse/hub.go:64-75, New. *)
Definition New (st : Snapshot) : hub := mkHub st ∅ ∅ (Some []) None [] None 0.

Definition set_conn (c : nat) (k : conn) (h : hub) : hub :=
  mkHub (h_store h) (<[c := k]> (h_conns h)) (h_clients h) (h_run h) (h_bc h) (h_calls h) (h_tr h) (h_seen h).
Definition set_run (r : option (list rop)) (h : hub) : hub :=
  mkHub (h_store h) (h_conns h) (h_clients h) r (h_bc h) (h_calls h) (h_tr h) (h_seen h).
Definition set_clients (cs : gset nat) (h : hub) : hub :=
  mkHub (h_store h) (h_conns h) cs (h_run h) (h_bc h) (h_calls h) (h_tr h) (h_seen h).
Definition set_bc (b : option Snapshot) (h : hub) : hub :=
  mkHub (h_store h) (h_conns h) (h_clients h) (h_run h) b (h_calls h) (h_tr h) (h_seen h).
Definition set_calls (l : list (push Snapshot)) (h : hub) : hub :=
  mkHub (h_store h) (h_conns h) (h_clients h) (h_run h) (h_bc h) l (h_tr h) (h_seen h).
Definition set_tr (t : option Z) (seen : Z) (h : hub) : hub :=
  mkHub (h_store h) (h_conns h) (h_clients h) (h_run h) (h_bc h) (h_calls h) t seen.
Definition set_store (s : Snapshot) (h : hub) : hub :=
  mkHub s (h_conns h) (h_clients h) (h_run h) (h_bc h) (h_calls h) (h_tr h) (h_seen h).

Definition set_pc (pc : hpc) (k : conn) : conn :=
  mkConn (cn_zone k) pc (cn_ch k) (cn_got k) (cn_out k) (cn_sent k).
Definition set_ch (ch : option Snapshot) (k : conn) : conn :=
  mkConn (cn_zone k) (cn_pc k) ch (cn_got k) (cn_out k) (cn_sent k).
Definition note_sent (s : Snapshot) (k : conn) : conn :=
  mkConn (cn_zone k) (cn_pc k) (cn_ch k) (cn_got k) (cn_out k) (Some s).
Definition take_frame (s : Snapshot) (k : conn) : conn :=
  mkConn (cn_zone k) (cn_pc k) None (cn_got k ++ [s]) (cn_out k ++ [scope (cn_zone k) s]) (cn_sent k).

(** One step of [Run] between two of its selects. *)
Definition run_rop (o : rop) (rest : list rop) (h : hub) : option hub :=
  match o with
  | RLoad c =>
      k ← h_conns h !! c;
      Some (h |> set_conn c (note_sent (h_store h) k)
              |> set_run (Some (RSend c (PTry (h_store h)) :: rest)))
  | RSend c p =>
      k ← h_conns h !! c;
      let '(ch, p') := push_step p (cn_ch k) in
      Some (h |> set_conn c (set_ch ch k)
              |> set_run (Some (match p' with Some p' => RSend c p' :: rest | None => rest end)))
  | REmit p =>
      let '(tr, p') := emit_step p (h_tr h) in
      Some (h |> set_tr tr (h_seen h)
              |> set_run (Some (match p' with Some p' => REmit p' :: rest | None => rest end)))
  end.

Inductive event :=
| ERegister (c : nat)               (* Run receives from register *)
| EUnregister (c : nat)             (* Run receives from unregister *)
| EFanout (order : list nat)        (* Run receives from broadcast; the map's iteration order *)
| ERun                              (* Run's next step within a case *)
| ECancel                           (* Run's context is done: it returns *)
| EConnect (c : nat) (zone : option string)   (* a request reaches ServeHTTP *)
| EFrame (c : nat) (ok : bool)      (* the handler takes a frame and writes it *)
| ELeave (c : nat)                  (* the handler's context, a failed write or a failed check *)
| EGone (c : nat)                   (* the hub is done *)
| ECall (s : Snapshot)              (* Broadcast is called *)
| ECaller (i : nat)                 (* its next select *)
| EPoll                             (* the poller receives a transition *)
| ESwap (s : Snapshot).             (* the store's snapshot is replaced *)

Definition guard_conn (c : nat) (pc : hpc) (h : hub) : option conn :=
  k ← h_conns h !! c; if bool_decide (cn_pc k = pc) then Some k else None.
Definition idle (h : hub) : bool :=
  match h_run h with Some [] => true | _ => false end.
Definition assert_ (b : bool) : option unit := if b then Some tt else None.

(** internal/sse/hub.go:84-112, Hub.Run. *)
Definition run_event (e : event) (h : hub) : option hub :=
  match e with
  | ERegister c =>
      _ ← assert_ (idle h);
      k ← guard_conn c HReg h;
      let clients := {[c]} ∪ h_clients h in
      Some (h |> set_conn c (set_pc HServe k) |> set_clients clients
              |> set_run (Some (RLoad c :: if bool_decide (size clients = 1%nat)
                                           then [REmit (PTry 1)] else [])))
  | EUnregister c =>
      _ ← assert_ (idle h);
      k ← guard_conn c HLeave h;
      let clients := h_clients h ∖ {[c]} in
      Some (h |> set_conn c (set_pc HEnd k) |> set_clients clients
              |> set_run (Some (if bool_decide (c ∈ h_clients h) && bool_decide (size clients = 0%nat)
                                then [REmit (PTry 0)] else [])))
  | EFanout order =>
      _ ← assert_ (idle h);
      snap ← h_bc h;
      _ ← assert_ (bool_decide (NoDup order) && bool_decide (list_to_set order = h_clients h));
      Some (mkHub (h_store h)
              (map_imap (λ c k, Some (if bool_decide (c ∈ h_clients h) then note_sent snap k else k)) (h_conns h))
              (h_clients h) (Some ((λ c, RSend c (PTry snap)) <$> order)) None (h_calls h) (h_tr h) (h_seen h))
  | ERun =>
      match h_run h with
      | Some (o :: rest) => run_rop o rest h
      | _ => None
      end
  | ECancel => _ ← assert_ (idle h); Some (set_run None h)
  | _ => None
  end.

(** internal/sse/hub.go:173-250, Hub.ServeHTTP. *)
Definition serve_event (e : event) (h : hub) : option hub :=
  match e with
  | EConnect c zone =>
      match h_conns h !! c with
      | Some _ => None
      | None => Some (set_conn c (mkConn zone HReg None [] [] None) h)
      end
  | EFrame c ok =>
      k ← guard_conn c HServe h;
      s ← cn_ch k;
      let k := take_frame s k in
      Some (set_conn c (if ok : bool then k else set_pc HLeave k) h)
  | ELeave c =>
      k ← h_conns h !! c;
      match cn_pc k with
      | HReg => Some (set_conn c (set_pc HEnd k) h)
      | HServe => Some (set_conn c (set_pc HLeave k) h)
      | _ => None
      end
  | EGone c =>
      k ← h_conns h !! c;
      match h_run h, cn_pc k with
      | None, HReg | None, HLeave => Some (set_conn c (set_pc HEnd k) h)
      | None, HServe => Some (set_conn c (set_pc HLeave k) h)
      | _, _ => None
      end
  | _ => None
  end.

Definition hub_event (e : event) (h : hub) : option hub :=
  match e with
  | ERegister _ | EUnregister _ | EFanout _ | ERun | ECancel => run_event e h
  | EConnect _ _ | EFrame _ _ | ELeave _ | EGone _ => serve_event e h
  | ECall s => Some (set_calls (h_calls h ++ [PTry s]) h)
  | ECaller i =>
      p ← h_calls h !! i;
      let '(bc, p') := broadcast_step p (h_bc h) in
      Some (h |> set_bc bc
              |> set_calls (match p' with Some p' => <[i := p']> (h_calls h)
                            | None => delete i (h_calls h) end))
  | EPoll => n ← h_tr h; Some (set_tr None n h)
  | ESwap s => Some (set_store s h)
  end.

Fixpoint hub_run (es : list event) (h : hub) : option hub :=
  match es with
  | [] => Some h
  | e :: es' => h' ← hub_event e h; hub_run es' h'
  end.
