(* ===== verification/SseFacts.v ===== *)
(** The hub: in every interleaving of its goroutines, what the poller knows of the
    number of clients and what every client has last been given is current once
    [Run] is between two events; [Run] never blocks; and a guest's connection only
    ever carries the guest's zone. *)

From S2P Require Import Prelude GoStd Errors Store Authz Sse.

(** ** The invariant *)

Definition pend (h : hub) : list rop := default [] (h_run h).

Definition target (o : rop) : option nat :=
  match o with RLoad c | RSend c _ => Some c | REmit _ => None end.
Definition emission (o : rop) : option (push Z) :=
  match o with REmit p => Some p | _ => None end.

(** The frame a client has last been given: the one in its channel, else the last
    one its handler took. *)
Definition latest (k : conn) : option Snapshot :=
  match cn_ch k with Some s => Some s | None => last (cn_got k) end.

(** What the poller should be told: 1 when there are clients, else 0. *)
Definition truth (h : hub) : Z := if bool_decide (h_clients h = ∅) then 0 else 1.
(** What it has been told, or will find on the channel. *)
Definition told (h : hub) : Z := default (h_seen h) (h_tr h).

(** A push that is about to put finds the channel empty. *)
Definition put_ready {A} (p : push A) (ch : option A) : Prop :=
  ∀ x, p = PPut x → ch = None.

Definition conn_ok (c : nat) (k : conn) (l : list rop) : Prop :=
  (c ∉ omap target l ∧ latest k = cn_sent k ∧ is_Some (cn_sent k)) ∨
  RLoad c ∈ l ∨
  ∃ p, RSend c p ∈ l ∧ cn_sent k = Some (push_value p) ∧ put_ready p (cn_ch k).

Definition emit_ok (h : hub) : Prop :=
  match omap emission (pend h) with
  | [] => told h = truth h
  | [p] => push_value p = truth h ∧ put_ready p (h_tr h)
  | _ => False
  end.

Record hub_ok (h : hub) : Prop := {
  ok_in : ∀ c, c ∈ h_clients h → is_Some (h_conns h !! c);
  ok_pc : ∀ c k, h_conns h !! c = Some k → cn_pc k = HServe ∨ cn_pc k = HLeave → c ∈ h_clients h;
  ok_out : ∀ c k, h_conns h !! c = Some k → cn_out k = scope (cn_zone k) <$> cn_got k;
  ok_nodup : NoDup (omap target (pend h));
  ok_targets : ∀ c, c ∈ omap target (pend h) → c ∈ h_clients h;
  ok_sent : ∀ c k, h_conns h !! c = Some k → c ∈ h_clients h → conn_ok c k (pend h);
  ok_emit : emit_ok h;
}.

Lemma push_step_value {A} (p : push A) ch ch' p' :
  put_ready p ch → push_step p ch = (ch', p') →
  match p' with
  | Some p' => push_value p' = push_value p ∧ put_ready p' ch'
  | None => ch' = Some (push_value p)
  end.
Proof.
  intros Hr. destruct p as [x | x | x]; simpl.
  - destruct ch; intros [= <- <-]; simpl; [by split | done].
  - intros [= <- <-]. by split.
  - rewrite (Hr x eq_refl). by intros [= <- <-].
Qed.

Lemma hub_ok_New st : hub_ok (New st).
Proof.
  split; simpl.
  - by intros c ?%elem_of_empty.
  - by intros c k ?%lookup_empty_Some.
  - by intros c k ?%lookup_empty_Some.
  - constructor.
  - by intros c ?%not_elem_of_nil.
  - by intros c k ?%lookup_empty_Some.
  - unfold emit_ok, told, truth. simpl. by rewrite bool_decide_eq_true_2.
Qed.

(** *** Events that leave [Run] where it is *)

(** An update of one connection that a handler makes: the frame it was last given,
    what was last sent to it and its zone stay, and a channel only empties. *)
Definition handler_update (k k' : conn) : Prop :=
  latest k' = latest k ∧ cn_sent k' = cn_sent k ∧ cn_zone k' = cn_zone k ∧
  (cn_ch k = None → cn_ch k' = None) ∧
  (cn_out k = scope (cn_zone k) <$> cn_got k → cn_out k' = scope (cn_zone k') <$> cn_got k').

Lemma conn_ok_update c k k' l : handler_update k k' → conn_ok c k l → conn_ok c k' l.
Proof.
  intros (Hl & Hs & _ & Hch & _) [(H1 & H2 & H3) | [H | (p & H1 & H2 & H3)]].
  - left. rewrite Hl, Hs. done.
  - by right; left.
  - right; right. exists p. rewrite Hs. split; [done |]. split; [done |].
    intros x Hx. apply Hch, (H3 x Hx).
Qed.

Lemma hub_ok_set_conn c k k' h :
  hub_ok h → h_conns h !! c = Some k → handler_update k k' →
  (cn_pc k' = HServe ∨ cn_pc k' = HLeave → cn_pc k = HServe ∨ cn_pc k = HLeave) →
  hub_ok (set_conn c k' h).
Proof.
  intros [Hin Hpc Hout Hnd Htg Hsent Hem] Hk Hup Hpc'. split; simpl; try done.
  - intros c' Hc'. destruct (decide (c' = c)) as [-> | Hne]; [by rewrite lookup_insert, decide_True |].
    rewrite lookup_insert_ne by done. auto.
  - intros c' k0. destruct (decide (c' = c)) as [-> | Hne].
    + rewrite lookup_insert, decide_True by done. intros [= <-] H. by eapply Hpc, Hpc'.
    + rewrite lookup_insert_ne by done. apply Hpc.
  - intros c' k0. destruct (decide (c' = c)) as [-> | Hne].
    + rewrite lookup_insert, decide_True by done. intros [= <-]. by apply Hup, (Hout c).
    + rewrite lookup_insert_ne by done. apply Hout.
  - intros c' k0. destruct (decide (c' = c)) as [-> | Hne].
    + rewrite lookup_insert, decide_True by done. intros [= <-] Hc.
      eapply conn_ok_update; [exact Hup | by apply Hsent].
    + rewrite lookup_insert_ne by done. apply Hsent.
Qed.

Lemma handler_update_pc pc k : handler_update k (set_pc pc k).
Proof. by repeat split. Qed.

Lemma handler_update_take s k : cn_ch k = Some s → handler_update k (take_frame s k).
Proof.
  intros Hch. repeat split; simpl; try done.
  - unfold latest. simpl. by rewrite Hch, last_snoc.
  - intros ->. by rewrite fmap_app.
Qed.

Lemma handler_update_trans k1 k2 k3 :
  handler_update k1 k2 → handler_update k2 k3 → handler_update k1 k3.
Proof. unfold handler_update. intuition congruence. Qed.

Lemma guard_conn_Some c pc h k :
  guard_conn c pc h = Some k → h_conns h !! c = Some k ∧ cn_pc k = pc.
Proof.
  unfold guard_conn. destruct (h_conns h !! c) as [k' |]; simpl; [| done].
  case_bool_decide; [| done]. by intros [= ->].
Qed.

Lemma serve_event_ok e h h' : hub_ok h → serve_event e h = Some h' → hub_ok h'.
Proof.
  intros Hok. destruct e; simpl; try done.
  - destruct (h_conns h !! c) eqn:Hc; [done |]. intros [= <-].
    destruct Hok as [Hin Hpc Hout Hnd Htg Hsent Hem].
    assert (c ∉ h_clients h) as Hnc by (intros [? ?]%Hin; congruence).
    split; simpl; try done.
    + intros c' Hc'. rewrite lookup_insert_ne by set_solver. auto.
    + intros c' k [[<- <-] | [Hne Hk]]%lookup_insert_Some; [by intros [? | ?] | by apply Hpc].
    + intros c' k [[<- <-] | [Hne Hk]]%lookup_insert_Some; [done | by apply (Hout c')].
    + intros c' k [[<- <-] | [Hne Hk]]%lookup_insert_Some; [done | by apply Hsent].
  - destruct (guard_conn c HServe h) as [k |] eqn:Hg; simpl; [| done].
    apply guard_conn_Some in Hg as [Hk Hpc]. destruct (cn_ch k) as [s |] eqn:Hch; simpl; [| done].
    intros [= <-]. eapply hub_ok_set_conn; [done | done | | by left].
    destruct ok; [by apply handler_update_take |].
    eapply handler_update_trans; [by apply handler_update_take | apply handler_update_pc].
  - destruct (h_conns h !! c) as [k |] eqn:Hk; simpl; [| done].
    destruct (cn_pc k) eqn:Hpc; [| | done | done]; intros [= <-];
      (eapply hub_ok_set_conn; [done | done | apply handler_update_pc | simpl; intros [? | ?]; try done]).
    by left.
  - destruct (h_conns h !! c) as [k |] eqn:Hk; simpl; [| done].
    destruct (h_run h); [done |].
    destruct (cn_pc k) eqn:Hpc; [| | | done]; intros [= <-];
      (eapply hub_ok_set_conn; [done | done | apply handler_update_pc | simpl; intros [? | ?]; try done]).
    by left.
Qed.

(** *** The steps of [Run] *)

Lemma elem_omap_target c (l : list rop) : c ∈ omap target l ↔ ∃ o, o ∈ l ∧ target o = Some c.
Proof. apply list_elem_of_omap. Qed.

Lemma conn_ok_other c c' k o rest o' :
  target o = Some c → c' ≠ c → (o' = [] ∨ ∃ x, o' = [x] ∧ target x = Some c) →
  conn_ok c' k (o :: rest) → conn_ok c' k (o' ++ rest).
Proof.
  intros Ho Hne Ho' Hk.
  assert (∀ x, target x = Some c' → x ∈ o :: rest → x ∈ o' ++ rest) as Hmem.
  { intros x Hx [-> | Hin]%elem_of_cons; [congruence | apply elem_of_app; by right]. }
  destruct Hk as [(H1 & H2) | [H | (p & H1 & H2)]].
  - left. split; [| done]. rewrite elem_omap_target in *. intros (x & Hx & Htx).
    apply H1. exists x. split; [| done]. apply elem_of_app in Hx as [Hx | Hx]; [| by right].
    destruct Ho' as [-> | (y & -> & Hy)]; [by apply elem_of_nil in Hx |].
    apply list_elem_of_singleton in Hx as ->. congruence.
  - right; left. by apply Hmem.
  - right; right. exists p. split; [by apply Hmem | done].
Qed.

Lemma conn_ok_emit c k p rest l :
  (l = rest ∨ ∃ p', l = REmit p' :: rest) → conn_ok c k (REmit p :: rest) → conn_ok c k l.
Proof.
  intros Hl Hk.
  assert (∀ x c', target x = Some c' → x ∈ REmit p :: rest → x ∈ l) as Hmem.
  { intros x c' Hx [-> | Hin]%elem_of_cons; [done |].
    destruct Hl as [-> | (p' & ->)]; [done | by right]. }
  destruct Hk as [(H1 & H2) | [H | (q & H1 & H2)]].
  - left. split; [| done]. by destruct Hl as [-> | (p' & ->)].
  - right; left. by eapply Hmem.
  - right; right. exists q. split; [by eapply Hmem | done].
Qed.

Lemma hub_ok_target h o c rest k l' k' :
  hub_ok h → h_run h = Some (o :: rest) → target o = Some c → h_conns h !! c = Some k →
  (l' = [] ∨ ∃ x, l' = [x] ∧ target x = Some c) →
  cn_pc k' = cn_pc k → cn_zone k' = cn_zone k → cn_got k' = cn_got k → cn_out k' = cn_out k →
  conn_ok c k' (l' ++ rest) →
  hub_ok (set_run (Some (l' ++ rest)) (set_conn c k' h)).
Proof.
  intros [Hin Hpc Hout Hnd Htg Hsent Hem] Hrun Ho Hk Hl Epc Ez Eg Eo Hok'.
  assert (pend h = o :: rest) as Hpend by (unfold pend; by rewrite Hrun).
  rewrite Hpend in *. simpl in Hnd, Htg. rewrite Ho in Hnd, Htg.
  apply NoDup_cons in Hnd as [Hni Hnd].
  assert (c ∈ h_clients h) as Hc by (apply Htg; left).
  split; simpl.
  - intros c' Hc'. destruct (decide (c' = c)) as [-> | Hne]; [by rewrite lookup_insert, decide_True |].
    rewrite lookup_insert_ne by done. auto.
  - intros c' k0 [[<- <-] | [Hne Hk0]]%lookup_insert_Some; [done | by apply Hpc].
  - intros c' k0 [[<- <-] | [Hne Hk0]]%lookup_insert_Some; [| by apply (Hout c')].
    rewrite Eo, Ez, Eg. by apply (Hout c).
  - unfold pend; simpl. destruct Hl as [-> | (x & -> & Hx)]; simpl; [done |]. rewrite Hx.
    by apply NoDup_cons.
  - unfold pend; simpl. intros c' Hc'. apply Htg.
    destruct Hl as [-> | (x & -> & Hx)]; simpl in Hc'; [by right |]. by rewrite Hx in Hc'.
  - unfold pend; simpl. intros c' k0 [[<- <-] | [Hne Hk0]]%lookup_insert_Some Hc'; [done |].
    eapply conn_ok_other; [exact Ho | done | exact Hl | by apply Hsent].
  - unfold emit_ok, told, truth, pend in *. simpl. rewrite Hrun in Hem. simpl in Hem.
    assert (emission o = None) as Heo by (by destruct o).
    rewrite Heo in Hem. rewrite omap_app.
    destruct Hl as [-> | (x & -> & Hx)]; simpl; [done |]. by destruct x.
Qed.

Lemma run_rop_ok h o rest :
  hub_ok h → h_run h = Some (o :: rest) →
  ∃ h' l', run_rop o rest h = Some h' ∧ hub_ok h' ∧ h_run h' = Some (l' ++ rest) ∧
    (l' = [] ∨ ∃ x, l' = [x] ∧
       match o, x with
       | RLoad _, RSend _ (PTry _) | RSend _ (PTry _), RSend _ (PDrain _)
       | RSend _ (PDrain _), RSend _ (PPut _) | REmit (PTry _), REmit (PDrain _)
       | REmit (PDrain _), REmit (PPut _) => True
       | _, _ => False
       end).
Proof.
  intros Hok Hrun. pose proof Hok as [Hin Hpc Hout Hnd Htg Hsent Hem].
  assert (pend h = o :: rest) as Hpend by (unfold pend; by rewrite Hrun).
  rewrite Hpend in Hnd, Htg, Hsent. destruct o as [c | c p | p]; simpl in Hnd, Htg.
  - destruct (Hin c) as [k Hk]; [apply Htg; left |]. unfold run_rop. rewrite Hk. simpl.
    do 2 eexists. split; [done |].
    assert (∀ s, target (RSend c (PTry s)) = Some c) as Ht by done.
    split; [| split; [exact (eq_refl (Some ([RSend c (PTry (h_store h))] ++ rest))) | right; by eexists]].
    apply (hub_ok_target h (RLoad c) c rest k [RSend c (PTry (h_store h))]); try done.
    + right; by eexists.
    + right; right. exists (PTry (h_store h)). split; [left |]. by split.
  - destruct (Hin c) as [k Hk]; [apply Htg; left |]. apply NoDup_cons in Hnd as [Hni Hnd].
    unfold run_rop. rewrite Hk. simpl. destruct (push_step p (cn_ch k)) as [ch p'] eqn:Hstep.
    assert (cn_sent k = Some (push_value p) ∧ put_ready p (cn_ch k)) as [Hs Hr].
    { destruct (Hsent c k Hk) as [(Hno & _) | [Hl | (q & Hq & Hs & Hr)]]; [apply Htg; left | | |].
      - destruct Hno. simpl. left.
      - apply elem_of_cons in Hl as [? | Hl]; [done |]. destruct Hni. apply elem_omap_target. by eexists.
      - apply elem_of_cons in Hq as [[= ->] | Hq]; [done |]. destruct Hni. apply elem_omap_target. by eexists. }
    pose proof (push_step_value _ _ _ _ Hr Hstep) as Hv.
    exists (set_run (Some (match p' with Some p' => [RSend c p'] | None => [] end ++ rest))
              (set_conn c (set_ch ch k) h)), (match p' with Some p' => [RSend c p'] | None => [] end).
    split; [by destruct p' |]. split; [| split; [done |]].
    + eapply (hub_ok_target h (RSend c p) c rest k); try done.
      { destruct p'; [right; by eexists | by left]. }
      destruct p' as [p' |].
      * right; right. exists p'. split; [left |]. destruct Hv as [-> Hv]. by split.
      * left. split; [done |]. simpl. rewrite Hs. split; [| done]. unfold latest. simpl. by rewrite Hv.
    + destruct p' as [p' |]; [right | by left]. eexists. split; [done |].
      destruct p, (cn_ch k); simpl in Hstep; by simplify_eq.
  - unfold run_rop, emit_step. destruct (push_step p (h_tr h)) as [tr p'] eqn:Hstep.
    unfold emit_ok in Hem. rewrite Hpend in Hem.
    change (omap emission (REmit p :: rest)) with (p :: omap emission rest) in Hem.
    destruct (omap emission rest) eqn:Hrest; simpl in Hem; [| done]. destruct Hem as [Hval Hr].
    pose proof (push_step_value _ _ _ _ Hr Hstep) as Hv.
    exists (set_run (Some (match p' with Some p' => [REmit p'] | None => [] end ++ rest))
              (set_tr tr (h_seen h) h)), (match p' with Some p' => [REmit p'] | None => [] end).
    split; [by destruct p' |]. split; [| split; [done |]].
    + split; simpl; try done.
      * unfold pend; simpl. by destruct p'.
      * unfold pend; simpl. by destruct p'.
      * intros c k Hk Hc. unfold pend; simpl. eapply conn_ok_emit; [| by apply Hsent].
        destruct p'; [right; by eexists | by left].
      * unfold emit_ok, told. destruct p' as [p' |].
        -- change (omap emission _) with (p' :: omap emission rest). rewrite Hrest.
           destruct Hv as [-> Hv]. by split.
        -- change (omap emission _) with (omap emission rest). rewrite Hrest. simpl.
           by rewrite Hv.
    + destruct p' as [p' |]; [right | by left]. eexists. split; [done |].
      destruct p, (h_tr h); simpl in Hstep; by simplify_eq.
Qed.

(** *** What [Run] receives *)

Lemma idle_Some h : idle h = true → h_run h = Some [].
Proof. unfold idle. by destruct (h_run h) as [[|]|]. Qed.

Lemma idle_sent h c k :
  hub_ok h → idle h = true → c ∈ h_clients h → h_conns h !! c = Some k →
  latest k = cn_sent k ∧ is_Some (cn_sent k).
Proof.
  intros Hok Hi%idle_Some Hc Hk. pose proof (ok_sent h Hok c k Hk Hc) as Hs.
  unfold pend in Hs. rewrite Hi in Hs. simpl in Hs.
  destruct Hs as [(_ & H) | [H | (p & H & _)]]; [done | by apply elem_of_nil in H..].
Qed.

Lemma idle_told h : hub_ok h → idle h = true → told h = truth h.
Proof.
  intros Hok Hi%idle_Some. pose proof (ok_emit h Hok) as He. unfold emit_ok, pend in He.
  by rewrite Hi in He.
Qed.

Lemma register_ok c h h' : hub_ok h → run_event (ERegister c) h = Some h' → hub_ok h'.
Proof.
  intros Hok. simpl. destruct (idle h) eqn:Hi; simpl; [| done].
  destruct (guard_conn c HReg h) as [k |] eqn:Hg; simpl; [| done].
  apply guard_conn_Some in Hg as [Hk Hpck]. intros [= <-].
  assert (∀ c k, c ∈ h_clients h → h_conns h !! c = Some k → latest k = cn_sent k ∧ is_Some (cn_sent k))
    as Hsent by (intros; by eapply idle_sent).
  pose proof (idle_told _ Hok Hi) as Htold.
  pose proof Hok as [Hin Hpc Hout _ _ _ _]. split; simpl.
  - intros c' [->%elem_of_singleton | Hc']%elem_of_union; [by rewrite lookup_insert, decide_True |].
    destruct (decide (c' = c)) as [-> | Hne]; [by rewrite lookup_insert, decide_True |].
    rewrite lookup_insert_ne by done. auto.
  - intros c' k0 [[<- <-] | [Hne Hk0]]%lookup_insert_Some Hp; [set_solver |].
    apply elem_of_union. right. by eapply Hpc.
  - intros c' k0 [[<- <-] | [Hne Hk0]]%lookup_insert_Some; [exact (Hout c k Hk) | by apply (Hout c')].
  - unfold pend; simpl. case_bool_decide; simpl; apply NoDup_singleton.
  - unfold pend; simpl. intros c' Hc'. apply elem_of_union; left. apply elem_of_singleton.
    case_bool_decide; by apply list_elem_of_singleton in Hc'.
  - unfold pend; simpl. intros c' k0 [[<- <-] | [Hne Hk0]]%lookup_insert_Some Hc'.
    + right; left. left.
    + left. destruct (Hsent c' k0) as [Hl Hs]; [set_solver | done |]. split; [| done].
      case_bool_decide; simpl; rewrite list_elem_of_singleton; done.
  - match goal with |- emit_ok ?s => assert (truth s = 1) as Ht end.
    { unfold truth. simpl. rewrite bool_decide_eq_false_2; [done | set_solver]. }
    unfold emit_ok. rewrite Ht. unfold pend, set_run. simpl h_run. case_bool_decide as Hsz.
    + change (push_value (PTry 1) = 1 ∧ put_ready (PTry 1) (h_tr h)). by split.
    + change (told h = 1). rewrite Htold. unfold truth. rewrite bool_decide_eq_false_2; [done |].
      intros He. apply Hsz. rewrite He, union_empty_r_L. apply size_singleton.
Qed.

Lemma unregister_ok c h h' : hub_ok h → run_event (EUnregister c) h = Some h' → hub_ok h'.
Proof.
  intros Hok. simpl. destruct (idle h) eqn:Hi; simpl; [| done].
  destruct (guard_conn c HLeave h) as [k |] eqn:Hg; simpl; [| done].
  apply guard_conn_Some in Hg as [Hk Hpck]. intros [= <-].
  assert (∀ c k, c ∈ h_clients h → h_conns h !! c = Some k → latest k = cn_sent k ∧ is_Some (cn_sent k))
    as Hsent by (intros; by eapply idle_sent).
  pose proof (idle_told _ Hok Hi) as Htold.
  pose proof Hok as [Hin Hpc Hout _ _ _ _].
  assert (c ∈ h_clients h) as Hc by (eapply Hpc; [done | by right]).
  rewrite bool_decide_eq_true_2 by done. simpl. split; simpl.
  - intros c' [Hc' Hne]%elem_of_difference. rewrite lookup_insert_ne by set_solver. auto.
  - intros c' k0 [[<- <-] | [Hne Hk0]]%lookup_insert_Some Hp; [by destruct Hp |].
    apply elem_of_difference. split; [by eapply Hpc | set_solver].
  - intros c' k0 [[<- <-] | [Hne Hk0]]%lookup_insert_Some; [exact (Hout c k Hk) | by apply (Hout c')].
  - unfold pend; simpl. case_bool_decide; simpl; constructor.
  - unfold pend; simpl. intros c' Hc'. case_bool_decide; by apply elem_of_nil in Hc'.
  - unfold pend; simpl. intros c' k0 [[<- <-] | [Hne Hk0]]%lookup_insert_Some Hc'; [set_solver |].
    left. destruct (Hsent c' k0) as [Hl Hs]; [set_solver | done |]. split; [| done].
    case_bool_decide; simpl; apply not_elem_of_nil.
  - unfold emit_ok, pend, set_run. simpl h_run. case_bool_decide as Hsz.
    + change (push_value (PTry 0) = truth (set_clients (h_clients h ∖ {[c]}) h) ∧ put_ready (PTry 0) (h_tr h)).
      split; [| done]. unfold truth. simpl. rewrite bool_decide_eq_true_2; [done |].
      by apply leibniz_equiv, size_empty_inv.
    + change (told h = truth (set_clients (h_clients h ∖ {[c]}) h)). rewrite Htold. unfold truth. simpl.
      rewrite !bool_decide_eq_false_2; [done | | set_solver].
      intros He. apply Hsz. rewrite He. apply size_empty.
Qed.

Lemma fanout_ok order h h' : hub_ok h → run_event (EFanout order) h = Some h' → hub_ok h'.
Proof.
  intros Hok. simpl. destruct (idle h) eqn:Hi; simpl; [| done].
  destruct (h_bc h) as [snap |]; simpl; [| done].
  destruct (bool_decide (NoDup order)) eqn:Hnd; simpl; [| done].
  destruct (bool_decide (list_to_set order = h_clients h)) eqn:Hset; simpl; [| done].
  apply bool_decide_eq_true in Hnd, Hset. intros [= <-].
  pose proof (idle_told _ Hok Hi) as Htold. pose proof Hok as [Hin Hpc Hout _ _ _ _].
  assert (∀ l : list nat, omap target ((λ c, RSend c (PTry snap)) <$> l) = l) as Htg.
  { intros l. induction l as [| x l IH]; [done |]. simpl. f_equal. exact IH. }
  assert (∀ l : list nat, omap emission ((λ c, RSend c (PTry snap)) <$> l) = []) as Hem.
  { intros l. by induction l as [| x l IH]. }
  split; simpl.
  - intros c [k Hk]%Hin. rewrite map_lookup_imap, Hk. by eexists.
  - intros c k Hk Hp. rewrite map_lookup_imap in Hk.
    destruct (h_conns h !! c) as [k1 |] eqn:Hk1; simpl in Hk; [| done]. injection Hk as <-.
    apply (Hpc c k1 Hk1). by case_bool_decide.
  - intros c k Hk. rewrite map_lookup_imap in Hk.
    destruct (h_conns h !! c) as [k1 |] eqn:Hk1; simpl in Hk; [| done]. injection Hk as <-.
    pose proof (Hout c k1 Hk1). by case_bool_decide.
  - unfold pend; simpl. by rewrite Htg.
  - unfold pend; simpl. intros c. rewrite Htg, <- Hset. by rewrite elem_of_list_to_set.
  - unfold pend; simpl. intros c k Hk Hc. rewrite map_lookup_imap in Hk.
    destruct (h_conns h !! c) as [k1 |]; simpl in Hk; [| done]. injection Hk as <-.
    rewrite bool_decide_eq_true_2 by done. right; right. exists (PTry snap).
    split; [| by split]. apply list_elem_of_fmap. exists c. split; [done |].
    rewrite <- Hset in Hc. by apply elem_of_list_to_set in Hc.
  - unfold emit_ok, pend; simpl. by rewrite Hem.
Qed.

(** Events that touch neither the clients nor what [Run] still has to do. *)
Lemma hub_ok_frame h h' :
  h_conns h' = h_conns h → h_clients h' = h_clients h → pend h' = pend h →
  told h' = told h → (h_tr h = None → h_tr h' = None) → hub_ok h → hub_ok h'.
Proof.
  intros E1 E2 E3 E4 E5 [Hin Hpc Hout Hnd Htg Hsent Hem].
  split; rewrite ?E1, ?E2, ?E3; try done.
  unfold emit_ok in *. unfold truth in *. rewrite E2, E3, E4.
  destruct (omap emission (pend h)) as [| p [| q l]]; [done | | done].
  destruct Hem as [Hv Hr]. split; [done |]. intros x Hx. apply E5, (Hr x Hx).
Qed.

Lemma hub_event_ok e h h' : hub_ok h → hub_event e h = Some h' → hub_ok h'.
Proof.
  intros Hok. destruct e.
  - by apply register_ok.
  - by apply unregister_ok.
  - by apply fanout_ok.
  - simpl. destruct (h_run h) as [[| o rest] |] eqn:Hrun; [done | | done]. intros H.
    destruct (run_rop_ok h o rest Hok Hrun) as (h1 & l' & E & H1 & _). congruence.
  - simpl. destruct (idle h) eqn:Hi; simpl; [| done]. intros [= <-]. apply idle_Some in Hi.
    eapply hub_ok_frame; [| | | | | exact Hok]; try done. unfold pend. by rewrite Hi.
  - by apply serve_event_ok.
  - by apply serve_event_ok.
  - by apply serve_event_ok.
  - by apply serve_event_ok.
  - simpl. intros [= <-]. by eapply hub_ok_frame; [| | | | | exact Hok].
  - simpl. destruct (h_calls h !! i); simpl; [| done]. destruct (broadcast_step _ _).
    intros [= <-]. by eapply hub_ok_frame; [| | | | | exact Hok].
  - simpl. destruct (h_tr h) as [n |] eqn:Htr; simpl; [| done]. intros [= <-].
    eapply hub_ok_frame; [| | | | | exact Hok]; try done. unfold told. by rewrite Htr.
  - simpl. intros [= <-]. by eapply hub_ok_frame; [| | | | | exact Hok].
Qed.

Lemma hub_run_ok es h h' : hub_ok h → hub_run es h = Some h' → hub_ok h'.
Proof.
  revert h. induction es as [| e es IH]; intros h Hok; simpl; [by intros [= <-] |].
  destruct (hub_event e h) as [h1 |] eqn:E; simpl; [| done]. apply IH. by eapply hub_event_ok.
Qed.

(** ** Run never blocks *)

Definition push_cost {A} (p : push A) : nat :=
  match p with PTry _ => 3 | PDrain _ => 2 | PPut _ => 1 end.
Definition rop_cost (o : rop) : nat :=
  match o with RLoad _ => 4 | RSend _ p => push_cost p | REmit p => push_cost p end.
Definition run_cost (l : list rop) : nat := sum_list_with rop_cost l.

Lemma run_cost_le l : (run_cost l <= 4 * List.length l)%nat.
Proof. unfold run_cost. induction l as [| [? | ? [] | []] l IH]; simpl; lia. Qed.

Lemma run_finishes n h :
  hub_ok h → is_Some (h_run h) → (run_cost (pend h) <= n)%nat →
  ∃ m h', (m <= n)%nat ∧ hub_run (repeat ERun m) h = Some h' ∧ idle h' = true ∧
    h_clients h' = h_clients h.
Proof.
  revert h. induction n as [| n IH]; intros h Hok [l Hrun] Hcost; unfold pend in Hcost; rewrite Hrun in Hcost.
  - destruct l as [| o l]; [| destruct o as [? | ? [] | []]; unfold run_cost in Hcost; simpl in Hcost; lia].
    exists 0%nat, h. unfold idle. by rewrite Hrun.
  - destruct l as [| o l]; [exists 0%nat, h; unfold idle; rewrite Hrun; repeat split; lia |].
    destruct (run_rop_ok h o l Hok Hrun) as (h1 & l' & E & Hok1 & Hrun1 & Hl').
    destruct (IH h1) as (m & h' & Hm & Hr & Hi & Hcl); [done | by eexists | |].
    + unfold pend. rewrite Hrun1. simpl. unfold run_cost in *. rewrite sum_list_with_app.
      destruct Hl' as [-> | (x & -> & Hx)]; simpl in *.
      * destruct o as [? | ? [] | []]; simpl in Hcost; lia.
      * destruct o as [? | ? [] | []], x as [? | ? [] | []]; simpl in *; try done; lia.
    + exists (S m), h'. split; [lia |]. split; [| split; [done |]].
      * simpl. rewrite Hrun, E. exact Hr.
      * rewrite Hcl. clear -E. destruct o as [c | c p | p]; simpl in E.
        -- destruct (h_conns h !! c); [| done]. by injection E as <-.
        -- destruct (h_conns h !! c); [| done]. simpl in E. destruct (push_step _ _). by injection E as <-.
        -- destruct (emit_step _ _). by injection E as <-.
Qed.

(** C33: [Run] never blocks.  In every interleaving, while the hub has not been
    shut down, whatever [Run] has still to do after an event it finishes on its own,
    in at most four steps for each send and each emit, whether or not any client,
    the poller or a caller moves. *)
Theorem Run_never_blocks st es h :
  hub_run es (New st) = Some h → is_Some (h_run h) →
  ∃ n h', (n <= 4 * List.length (pend h))%nat ∧ hub_run (repeat ERun n) h = Some h' ∧
    idle h' = true ∧ h_clients h' = h_clients h.
Proof.
  intros Hes Hrun. pose proof (run_cost_le (pend h)) as Hc.
  apply (run_finishes _ _ (hub_run_ok _ _ _ (hub_ok_New st) Hes) Hrun) in Hc. exact Hc.
Qed.

(** C34: between two events of [Run], in every interleaving: what the poller last
    received from the transitions, or will receive next, is 1 exactly when there are
    clients and 0 otherwise; every registered client was given at least one frame;
    and the frame in a client's channel, or else the last one its handler took, is
    the last one the hub had for it. *)
Theorem hub_current st es h :
  hub_run es (New st) = Some h → idle h = true →
  told h = (if bool_decide (h_clients h = ∅) then 0 else 1) ∧
  ∀ c, c ∈ h_clients h → ∃ k, h_conns h !! c = Some k ∧
    latest k = cn_sent k ∧ is_Some (cn_sent k).
Proof.
  intros Hes Hi. pose proof (hub_run_ok _ _ _ (hub_ok_New st) Hes) as Hok.
  split; [by apply idle_told |]. intros c Hc. destruct (ok_in _ Hok c Hc) as [k Hk].
  exists k. split; [done |]. by eapply idle_sent.
Qed.

(** *** A broadcast reaches everyone *)

Definition all_sent (snap : Snapshot) (h : hub) : Prop :=
  (∀ c, RLoad c ∉ pend h) ∧
  ∀ c k, c ∈ h_clients h → h_conns h !! c = Some k → cn_sent k = Some snap.

(** The events that give a client another frame. *)
Definition resends (e : event) : bool :=
  match e with ERegister _ | EFanout _ => true | _ => false end.

Lemma all_sent_set_conn snap c k k' h :
  h_conns h !! c = Some k → cn_sent k' = cn_sent k → all_sent snap h → all_sent snap (set_conn c k' h).
Proof.
  intros Hk Es [H1 H2]. split; [exact H1 |].
  simpl. intros c' k0 Hc [[<- <-] | [Hne Hk0]]%lookup_insert_Some; [| by eapply H2].
  rewrite Es. by eapply H2.
Qed.

Lemma all_sent_frame snap h h' :
  h_conns h' = h_conns h → h_clients h' ⊆ h_clients h → (∀ x, x ∈ pend h' → x ∈ pend h ∨ ∀ c, x ≠ RLoad c) →
  all_sent snap h → all_sent snap h'.
Proof.
  intros E1 E2 E3 [H1 H2]. split.
  - intros c Hc. destruct (E3 _ Hc) as [H | H]; [by eapply H1 | by eapply H].
  - intros c k Hc. rewrite E1. apply H2. by apply E2.
Qed.

Lemma run_rop_all_sent snap o rest h h' :
  h_run h = Some (o :: rest) → run_rop o rest h = Some h' → all_sent snap h → all_sent snap h'.
Proof.
  intros Hrun E Hs. assert (pend h = o :: rest) as Hp by (unfold pend; by rewrite Hrun).
  destruct o as [c | c p | p]; simpl in E.
  - destruct Hs as [H _]. destruct (H c). rewrite Hp. left.
  - destruct (h_conns h !! c) as [k |] eqn:Hk; [| done]. simpl in E.
    destruct (push_step p (cn_ch k)) as [ch p']. injection E as <-.
    apply (all_sent_set_conn snap c k (set_ch ch k)) in Hs; [| done | done].
    eapply all_sent_frame; [| | | exact Hs]; try done. unfold pend at 1 2. simpl.
    intros x Hx. destruct p' as [p' |]; [apply elem_of_cons in Hx as [-> | Hx]; [by right |] |];
      left; change (x ∈ pend h); rewrite Hp; by right.
  - destruct (emit_step p (h_tr h)) as [tr p']. injection E as <-.
    eapply all_sent_frame; [| | | exact Hs]; try done. unfold pend at 1. simpl.
    intros x Hx. destruct p' as [p' |]; [apply elem_of_cons in Hx as [-> | Hx]; [by right |] |];
      left; rewrite Hp; by right.
Qed.

Lemma all_sent_event snap e h h' :
  hub_ok h → resends e = false → hub_event e h = Some h' → all_sent snap h → all_sent snap h'.
Proof.
  intros Hok He E Hs. destruct e; simpl in He, E; try done.
  - destruct (idle h) eqn:Hi; simpl in E; [| done].
    destruct (guard_conn c HLeave h) as [k |] eqn:Hg; simpl in E; [| done].
    apply guard_conn_Some in Hg as [Hk _]. injection E as <-.
    apply (all_sent_set_conn snap c k (set_pc HEnd k)) in Hs; [| done | done].
    eapply all_sent_frame; [| | | exact Hs]; [done | set_solver |].
    unfold pend at 1. simpl. intros x Hx. right. destruct (_ && _); [| by apply elem_of_nil in Hx].
    by apply list_elem_of_singleton in Hx as ->.
  - destruct (h_run h) as [[| o rest] |] eqn:Hrun; [done | | done]. by eapply run_rop_all_sent.
  - destruct (idle h) eqn:Hi; simpl in E; [| done]. injection E as <-.
    eapply all_sent_frame; [| | | exact Hs]; try done. by intros x ?%elem_of_nil.
  - destruct (h_conns h !! c) eqn:Hk; [done |]. injection E as <-. destruct Hs as [H1 H2].
    split; [exact H1 |]. simpl. intros c' k0 Hc [[<- <-] | [Hne Hk0]]%lookup_insert_Some; [| by eapply H2].
    apply (ok_in _ Hok) in Hc as [? ?]. congruence.
  - destruct (guard_conn c HServe h) as [k |] eqn:Hg; simpl in E; [| done].
    apply guard_conn_Some in Hg as [Hk _]. destruct (cn_ch k); simpl in E; [| done].
    injection E as <-. eapply all_sent_set_conn; [exact Hk | by destruct ok | done].
  - destruct (h_conns h !! c) as [k |] eqn:Hk; simpl in E; [| done].
    destruct (cn_pc k); [| | done | done]; injection E as <-; by eapply all_sent_set_conn.
  - destruct (h_conns h !! c) as [k |] eqn:Hk; simpl in E; [| done].
    destruct (h_run h); [done |].
    destruct (cn_pc k); [| | | done]; injection E as <-; by eapply all_sent_set_conn.
  - injection E as <-. by eapply all_sent_frame; [| | | exact Hs]; auto.
  - destruct (h_calls h !! i); simpl in E; [| done]. destruct (broadcast_step _ _).
    injection E as <-. by eapply all_sent_frame; [| | | exact Hs]; auto.
  - destruct (h_tr h) as [n |] eqn:Htr; simpl in E; [| done]. injection E as <-.
    by eapply all_sent_frame; [| | | exact Hs]; auto.
  - injection E as <-. by eapply all_sent_frame; [| | | exact Hs]; auto.
Qed.

Lemma hub_run_all_sent snap es h h' :
  hub_ok h → Forall (λ e, resends e = false) es → hub_run es h = Some h' →
  all_sent snap h → all_sent snap h'.
Proof.
  revert h. induction es as [| e es IH]; intros h Hok Hes; simpl; [by intros [= <-] |].
  apply Forall_cons in Hes as [He Hes].
  destruct (hub_event e h) as [h1 |] eqn:E; simpl; [| done]. intros Hr Hs.
  eapply IH; [by eapply hub_event_ok | done | done | by eapply all_sent_event].
Qed.

(** C35: a broadcast the hub takes reaches every client.  Whatever the goroutines
    do in between, once [Run] is between two events again, and until it takes the
    next broadcast or the next connection, the last frame of every client still
    registered (in its channel, or else the last its handler took) is that
    snapshot: slow clients miss frames, never the last one. *)
Theorem fanout_reaches_all st es h snap order h1 es' h' :
  hub_run es (New st) = Some h → h_bc h = Some snap →
  hub_event (EFanout order) h = Some h1 → Forall (λ e, resends e = false) es' →
  hub_run es' h1 = Some h' → idle h' = true →
  ∀ c, c ∈ h_clients h' → ∃ k, h_conns h' !! c = Some k ∧ latest k = Some snap.
Proof.
  intros Hes Hbc He Hes' Hr Hi c Hc. pose proof (hub_run_ok _ _ _ (hub_ok_New st) Hes) as Hok.
  pose proof (hub_event_ok _ _ _ Hok He) as Hok1.
  pose proof (hub_run_ok _ _ _ Hok1 Hr) as Hok'.
  assert (all_sent snap h1) as Hs1.
  { simpl in He. destruct (idle h); simpl in He; [| done]. rewrite Hbc in He. simpl in He.
    destruct (_ && _); simpl in He; [| done]. injection He as <-. split; simpl.
    - intros c' (? & ? & _)%list_elem_of_fmap. done.
    - intros c' k Hc' Hk. rewrite map_lookup_imap in Hk.
      destruct (h_conns h !! c') as [k1 |]; simpl in Hk; [| done]. injection Hk as <-.
      by rewrite bool_decide_eq_true_2. }
  destruct (hub_run_all_sent snap _ _ _ Hok1 Hes' Hr Hs1) as [_ Hs].
  destruct (ok_in _ Hok' c Hc) as [k Hk]. exists k. split; [done |].
  destruct (idle_sent _ _ _ Hok' Hi Hc Hk) as [-> _]. by apply (Hs c).
Qed.

(** *** What a connection carries *)

(** A response writer that records what is written. *)
Definition recording {W} (RW : ResponseWriter W) : ResponseWriter (W * list string) := {|
  rw_deadline := λ '(w, tr), let '(e, w') := rw_deadline w in (e, (w', tr));
  rw_write := λ s '(w, tr), let '(e, w') := rw_write s w in (e, (w', tr ++ [s]));
  rw_flush := λ '(w, tr), let '(e, w') := rw_flush w in (e, (w', tr));
|}.


(** *** Concurrent broadcasts *)

(** Two callers, as when a poll and a set finish together: the caller with the older
    snapshot is preempted inside [Broadcast] and replaces the newer one, so the
    client's last frame is not the store's snapshot. *)
Definition snap_at (t : Time) : Snapshot := mkSnapshot [] [] [] zeroTime "" t.
Definition overtaking : list event :=
  [EConnect 0 None; ERegister 0; ERun; ERun; ERun; EFrame 0 true;
   ECall (snap_at 1); ECaller 0;
   ESwap (snap_at 2); ECall (snap_at 2); ECaller 0;
   ESwap (snap_at 3); ECall (snap_at 3); ECaller 1; ECaller 1; ECaller 1;
   ECaller 0; ECaller 0; EFanout [0%nat]; ERun; EFrame 0 true].

Example broadcast_overtaken :
  ∃ h k, hub_run overtaking (New (snap_at 0)) = Some h ∧ idle h = true ∧
    h_bc h = None ∧ h_calls h = [] ∧ h_conns h !! 0%nat = Some k ∧
    h_store h = snap_at 3 ∧ latest k ≠ Some (h_store h).
Proof.
  destruct (hub_run overtaking (New (snap_at 0))) as [h |] eqn:E; vm_compute in E; [| done].
  injection E as <-. do 2 eexists. by repeat split.
Qed.
