(* ===== verification/AtomicFile.v ===== *)
(** The file system the two stores persist to, with faults, and the
    temp-file-and-rename discipline both of them use.

    Every operation on the file system takes the next fault from an oracle and
    records the files it leaves, so that the history of a run lists what a crash
    after any step would find on disk. *)

From S2P Require Import Prelude GoStd Errors.

Abbreviation Files := (gmap string string).

(** A fault: the error returned and, for a write, the number of bytes that
    reached the file before it. *)
Record fault := mkFault { fault_err : error; fault_bytes : nat }.

Record FSState := mkFSState {
  fs_files : Files;
  fs_faults : list (option fault);
  fs_rand : list string;      (* the random parts [os.CreateTemp] will draw *)
  fs_history : list Files;
}.

(** One operation: it succeeds with [ok] or fails after [bad]. *)
Definition fs_op (ok : Files → Files) (bad : nat → Files → Files) : M FSState (option error) :=
  λ s,
    let '(f, rest) := match fs_faults s with [] => (None, []) | f :: rest => (f, rest) end in
    let files := match f with
                 | None => ok (fs_files s)
                 | Some f => bad (fault_bytes f) (fs_files s)
                 end in
    (fault_err <$> f, mkFSState files rest (fs_rand s) (fs_history s ++ [files])).

(** An operation that changes no file's content. *)
Definition fs_touch : M FSState (option error) := fs_op id (λ _, id).

Definition MkdirAll : M FSState (option error) := fs_touch.
Definition Chmod : M FSState (option error) := fs_touch.
Definition Sync : M FSState (option error) := fs_touch.
Definition Close : M FSState (option error) := fs_touch.
Definition OpenDir : M FSState (option error) := fs_touch.

(** [os.CreateTemp]: the first drawn name that does not exist yet. *)
Definition CreateTemp (dir pre suf : string) : M FSState (error + string) := λ s,
  let name r := dir +:+ "/" +:+ pre +:+ r +:+ suf in
  match List.find (λ r, bool_decide (fs_files s !! name r = None)) (fs_rand s) with
  | None => (inl (ErrText ("createtemp " +:+ dir +:+ ": file exists")), s)
  | Some r =>
      let '(e, s') := fs_op <[name r := ""]> (λ _, id) s in
      (match e with Some e => inl e | None => inr (name r) end, s')
  end.

Definition WriteFile (name content : string) : M FSState (option error) :=
  fs_op <[name := content]> (λ n, <[name := str_take n content]>).
Definition Rename (from to : string) : M FSState (option error) :=
  fs_op (λ fs, <[to := default "" (fs !! from)]> (delete from fs)) (λ _, id).
Definition Remove (name : string) : M FSState (option error) :=
  fs_op (delete name) (λ _, id).

(** [os.ReadFile] *)
Definition ReadFile (path : string) (s : FSState) : error + string :=
  match fs_files s !! path with
  | Some c => inr c
  | None => inl (ErrNotExist ("open " +:+ path +:+ ": no such file or directory"))
  end.

Section persist.
(** The package name in the error texts, the target path and its directory. *)
Variables pkg path dir : string.

(** Run the deferred cleanup and return the error. *)
Definition cleanup_err (tmpName msg : string) (e : error) : M FSState (option error) :=
  _ ← Remove tmpName;
  mret (Some (wrapf (pkg +:+ ": " +:+ msg +:+ ": ") e)).

(** A step whose failure first closes the temp file. *)
Definition closing_step (tmpName msg : string) (step : M FSState (option error))
    (k : M FSState (option error)) : M FSState (option error) :=
  r ← step;
  match r with
  | Some e => _ ← Close; cleanup_err tmpName msg e
  | None => k
  end.

(** internal/groups/groups.go:282-327, persistLocked. *)
Definition persist (content : string) : M FSState (option error) :=
  mk ← MkdirAll;
  match mk with
  | Some e => mret (Some (wrapf (pkg +:+ ": ensuring state dir " +:+ dir +:+ ": ") e))
  | None =>
  tmp ← CreateTemp dir ("." +:+ pkg +:+ "-") ".tmp";
  match tmp with
  | inl e => mret (Some (wrapf (pkg +:+ ": creating temp file: ") e))
  | inr tmpName =>
  closing_step tmpName "chmod temp file" Chmod (
  closing_step tmpName "writing temp file" (WriteFile tmpName content) (
  closing_step tmpName "syncing temp file" Sync (
  cl ← Close;
  match cl with
  | Some e => cleanup_err tmpName "closing temp file" e
  | None =>
  rn ← Rename tmpName path;
  match rn with
  | Some e => cleanup_err tmpName "renaming temp file into place" e
  | None =>
      d ← OpenDir;
      _ ← (match d with None => _ ← Sync; Close | Some _ => mret None end);
      mret None
  end end)))
  end end.

(** *** Atomicity *)

(** The path is not one of the names [CreateTemp] hands out. *)
Definition not_temp : Prop :=
  ∀ r, path ≠ dir +:+ "/" +:+ ("." +:+ pkg +:+ "-") +:+ r +:+ ".tmp".

(** What a computation may do to the file at [path]: every state it goes through
    has the old or the new content, and afterwards it has the new one exactly
    when there was no error. *)
Definition atomic_write (old : option string) (new : string) (s : FSState)
    (m : option error * FSState) : Prop :=
  (fs_files (snd m) !! path = match fst m with None => Some new | Some _ => old end) ∧
  ∃ l, fs_history (snd m) = fs_history s ++ l ∧
       Forall (λ fs, fs !! path = old ∨ fs !! path = Some new) l.

(** Intermediate computations that leave the file at [path] alone. *)
Definition preserves {A} (m : M FSState A) : Prop :=
  ∀ s, fs_files (snd (m s)) !! path = fs_files s !! path ∧
       ∃ l, fs_history (snd (m s)) = fs_history s ++ l ∧
            Forall (λ fs, fs !! path = fs_files s !! path) l.

Lemma preserves_bind {A B} (m : M FSState A) (f : A → M FSState B) :
  preserves m → (∀ a, preserves (f a)) → preserves (m ≫= f).
Proof.
  intros Hm Hf s. unfold mbind, M_bind. destruct (Hm s) as (H1 & l1 & H2 & H3).
  destruct (m s) as [a s1]; simpl in *. destruct (Hf a s1) as (H4 & l2 & H5 & H6).
  split; [congruence |]. exists (l1 ++ l2). rewrite H5, H2, (assoc (++)). split; [done |].
  apply Forall_app. split; [done |]. by rewrite <- H1.
Qed.

Lemma preserves_ret {A} (a : A) : preserves (mret a).
Proof. intros s. split; [done |]. exists []. by rewrite app_nil_r. Qed.

Lemma preserves_op ok bad :
  (∀ fs, ok fs !! path = fs !! path) → (∀ n fs, bad n fs !! path = fs !! path) →
  preserves (fs_op ok bad).
Proof.
  intros Hok Hbad s. unfold fs_op.
  destruct (fs_faults s) as [| [f |] rest]; simpl; rewrite ?Hok, ?Hbad;
    (split; [done |]); eexists; (split; [done |]); repeat constructor; by rewrite ?Hok, ?Hbad.
Qed.

Lemma preserves_touch : preserves fs_touch.
Proof. by apply preserves_op. Qed.

Lemma preserves_Remove n : path ≠ n → preserves (Remove n).
Proof. intros Hn. apply preserves_op; intros; [by rewrite lookup_delete_ne | done]. Qed.

Lemma preserves_WriteFile n c : path ≠ n → preserves (WriteFile n c).
Proof. intros Hn. apply preserves_op; intros; by rewrite lookup_insert_ne. Qed.

Lemma CreateTemp_spec s r s' :
  not_temp → CreateTemp dir ("." +:+ pkg +:+ "-") ".tmp" s = (r, s') →
  fs_files s' !! path = fs_files s !! path ∧
  (∃ l, fs_history s' = fs_history s ++ l ∧
        Forall (λ fs, fs !! path = fs_files s !! path) l) ∧
  (∀ n, r = inr n → path ≠ n).
Proof.
  intros Hnt. unfold CreateTemp.
  destruct (List.find _ _) as [x |].
  2: { intros [= <- <-]. split; [done |]. split; [exists []; by rewrite app_nil_r | done]. }
  set (name := dir +:+ _). destruct (fs_op _ _ s) as [e s1] eqn:Hop. intros [= <- <-].
  assert (path ≠ name) as Hne by apply Hnt.
  destruct (preserves_op <[name := ""]> (λ _, id)) with (s := s) as [H1 H2].
  { intros fs. by rewrite lookup_insert_ne. }
  { done. }
  rewrite Hop in H1, H2. split; [done |]. split; [done |].
  intros n. destruct e; [done |]. by intros [= <-].
Qed.

Lemma atomic_bind {A} old new (m : M FSState A) (k : A → M FSState (option error)) s :
  preserves m → fs_files s !! path = old →
  (∀ a s1, m s = (a, s1) → fs_files s1 !! path = old → atomic_write old new s1 (k a s1)) →
  atomic_write old new s ((m ≫= k) s).
Proof.
  intros Hm Hold Hk. unfold mbind, M_bind. destruct (Hm s) as (H1 & l1 & H2 & H3).
  destruct (m s) as [a s1] eqn:E; simpl in *.
  destruct (Hk a s1 eq_refl ltac:(congruence)) as (H4 & l2 & H5 & H6).
  split; [done |]. exists (l1 ++ l2). rewrite H5, H2, (assoc (++)). split; [done |].
  apply Forall_app. split; [| done]. eapply Forall_impl; [exact H3 |]. intros fs ->. by left.
Qed.

Lemma atomic_fail old new (m : M FSState (option error)) s :
  preserves m → fs_files s !! path = old → fst (m s) ≠ None → atomic_write old new s (m s).
Proof.
  intros Hm Hold Hne. destruct (Hm s) as (H1 & l & H2 & H3). split.
  - destruct (fst (m s)); [congruence | done].
  - exists l. split; [done |]. eapply Forall_impl; [exact H3 |]. intros fs ->. by left.
Qed.

Lemma cleanup_err_atomic old new tmp msg e s :
  path ≠ tmp → fs_files s !! path = old → atomic_write old new s (cleanup_err tmp msg e s).
Proof.
  intros Hne Hold. apply atomic_fail; [| done |].
  - apply preserves_bind; [by apply preserves_Remove |]. intros _. apply preserves_ret.
  - unfold cleanup_err, mbind, M_bind. by destruct (Remove tmp s).
Qed.

Lemma closing_step_atomic old new tmp msg step k s :
  path ≠ tmp → preserves step → fs_files s !! path = old →
  (∀ s1, step s = (None, s1) → fs_files s1 !! path = old → atomic_write old new s1 (k s1)) →
  atomic_write old new s (closing_step tmp msg step k s).
Proof.
  intros Hne Hstep Hold Hk. apply atomic_bind; [done | done |].
  intros [e |] s1 E H1; [| by apply Hk].
  apply atomic_bind; [apply preserves_touch | done |]. intros r s2 _ H2. by apply cleanup_err_atomic.
Qed.

Lemma touch_files s r s1 : fs_touch s = (r, s1) → fs_files s1 = fs_files s.
Proof. unfold fs_touch, fs_op. destruct (fs_faults s) as [| [f |] l]; by intros [= <- <-]. Qed.

Lemma WriteFile_files n c s s1 : WriteFile n c s = (None, s1) → fs_files s1 !! n = Some c.
Proof.
  unfold WriteFile, fs_op. destruct (fs_faults s) as [| [f |] l]; intros [= <-]; simpl;
    by rewrite lookup_insert_eq.
Qed.

Lemma Rename_atomic old new tmp (k : option error → M FSState (option error)) s :
  path ≠ tmp → fs_files s !! path = old → fs_files s !! tmp = Some new →
  (∀ e s1, fs_files s1 !! path = old → atomic_write old new s1 (k (Some e) s1)) →
  (preserves (k None) ∧ ∀ s1, fst (k None s1) = None) →
  atomic_write old new s ((Rename tmp path ≫= k) s).
Proof.
  intros Hne Hold Htmp Hbad [Hok Hret]. unfold mbind, M_bind, Rename, fs_op.
  assert (∀ rest, let files := <[path := default "" (fs_files s !! tmp)]> (delete tmp (fs_files s)) in
    let s1 := mkFSState files rest (fs_rand s) (fs_history s ++ [files]) in
    atomic_write old new s (k None s1)) as Hgood.
  { intros rest files s1. destruct (Hok s1) as (H1 & l & H2 & H3).
    assert (files !! path = Some new) as Hf by (unfold files; by rewrite lookup_insert_eq, Htmp).
    split; [by rewrite Hret, H1 |]. exists (files :: l). rewrite H2. simpl.
    rewrite <- (assoc (++)). split; [done |]. constructor; [by right |].
    eapply Forall_impl; [exact H3 |]. intros fs ->. by right. }
  destruct (fs_faults s) as [| [f |] rest]; [apply Hgood | | apply Hgood].
  set (s1 := mkFSState _ _ _ _). destruct (Hbad (fault_err f) s1 Hold) as (H1 & l & H2 & H3).
  simpl. split; [exact H1 |]. exists (fs_files s :: l). rewrite H2. simpl.
  rewrite <- (assoc (++)). split; [done |]. constructor; [by left | done].
Qed.

(** Saving is atomic: after every single file-system operation the file holds
    either what it held before or all of the new content, and at the end it holds
    the new content exactly when no error is reported. *)
Lemma persist_atomic content s :
  not_temp → atomic_write (fs_files s !! path) content s (persist content s).
Proof.
  intros Hnt. set (old := fs_files s !! path). unfold persist.
  apply atomic_bind; [apply preserves_touch | done |]. intros [e |] s1 _ H1.
  { by apply atomic_fail; [apply preserves_ret | |]. }
  apply atomic_bind; [| done |].
  { intros s0. destruct (CreateTemp _ _ _ s0) as [r s0'] eqn:E.
    by destruct (CreateTemp_spec _ _ _ Hnt E) as (? & ? & _). }
  intros [e | tmp] s2 E H2; [by apply atomic_fail; [apply preserves_ret | |] |].
  assert (path ≠ tmp) as Hne by (by destruct (CreateTemp_spec _ _ _ Hnt E) as (_ & _ & ?); auto).
  clear E. apply closing_step_atomic; [done | apply preserves_touch | done |]. intros s3 _ H3.
  apply closing_step_atomic; [done | by apply preserves_WriteFile | done |].
  intros s4 E4%WriteFile_files H4.
  apply closing_step_atomic; [done | apply preserves_touch | done |].
  intros s5 E5%touch_files H5. rewrite <- E5 in E4.
  apply atomic_bind; [apply preserves_touch | done |].
  intros [e |] s6 E6%touch_files H6; [by apply cleanup_err_atomic |]. rewrite <- E6 in E4.
  apply (Rename_atomic _ _ tmp); [done | done | done | |].
  - intros e s7 H7. by apply cleanup_err_atomic.
  - split.
    + repeat (apply preserves_bind; [apply preserves_touch || idtac | intros]);
        try apply preserves_ret.
      destruct a; [apply preserves_ret |].
      apply preserves_bind; [apply preserves_touch | intros; apply preserves_touch].
    + intros s7. unfold mbind, M_bind, mret, M_ret. destruct (OpenDir s7) as [[e |] s8]; [done |].
      destruct (Sync s8) as [? s9]. by destruct (Close s9).
Qed.
End persist.
