(* ===== verification/Json.v ===== *)
(** JSON, as the stores and the API use it: values, the mapping of Go structs to
    objects by their field tags, and the text layer.

    The mapping between structs and values is written out.  The text layer
    ([json.Marshal], [json.MarshalIndent], [json.Unmarshal], a decoder's first value and the RFC 3339 form of a time) is the
    class [JSONText]; a theorem that needs a text to decode to the value it was
    printed from says so for the value at hand. *)

From S2P Require Import Prelude GoStd Errors.

Inductive json :=
| JNull
| JBool (b : bool)
| JNum (lit : string)
| JStr (s : string)
| JArr (l : list json)
| JObj (fields : list (string * json)).

Class JSONText := {
  json_print : json → string;               (* MarshalIndent, by two blanks *)
  json_compact : json → string;             (* Marshal *)
  json_parse : string → error + json;       (* Unmarshal: the whole text is one value *)
  json_first : string → option (error + json);  (* Decoder.Decode: the first value; None is io.EOF *)
  time_format : Time → string;
  time_parse : string → option Time;
}.

(** The text of a value decodes to the value. *)
Definition text_faithful `{JSONText} (v : json) : Prop := json_parse (json_print v) = inr v.
Definition time_faithful `{JSONText} (t : Time) : Prop := time_parse (time_format t) = Some t.

(** ** Encoding *)

(** A [[]string] that was built with [append([]string(nil), ...)]: empty is nil. *)
Definition json_strings (l : list string) : json :=
  match l with [] => JNull | _ => JArr (JStr <$> l) end.

(** ** Decoding *)

Definition decode_error (what : string) : error :=
  ErrText ("json: cannot unmarshal value into Go " +:+ what).

Section decode.
Context `{UT : UnicodeTables}.

(** A string field: null leaves it alone. *)
Definition decode_string (old : string) (v : json) : error + string :=
  match v with
  | JStr s => inr s
  | JNull => inr old
  | _ => inl (decode_error "value of type string")
  end.

Definition decode_bool (old : bool) (v : json) : error + bool :=
  match v with
  | JBool b => inr b
  | JNull => inr old
  | _ => inl (decode_error "value of type bool")
  end.

Fixpoint decode_all {A} (f : json → error + A) (l : list json) : error + list A :=
  match l with
  | [] => inr []
  | v :: l' =>
      match f v, decode_all f l' with
      | inr x, inr xs => inr (x :: xs)
      | inl e, _ => inl e
      | _, inl e => inl e
      end
  end.

(** A slice: null is nil. *)
Definition decode_slice {A} (f : json → error + A) (v : json) : error + list A :=
  match v with
  | JNull => inr []
  | JArr l => decode_all f l
  | _ => inl (decode_error "value of slice type")
  end.

(** A struct: every field of the object whose name matches a tag (exactly or up
    to case folding) is stored in order, the others are ignored. *)
Definition decode_struct {A} (setters : list (string * (json → A → error + A))) (v : json) (a0 : A)
    : error + A :=
  match v with
  | JNull => inr a0
  | JObj fields =>
      foldl (λ acc '(k, v),
        match acc with
        | inl e => inl e
        | inr a =>
            let exact := List.find (λ '(t, _), String.eqb t k) setters in
            let folded := List.find (λ '(t, _), EqualFold t k) setters in
            match (match exact with Some x => Some x | None => folded end) with
            | Some (_, set) => set v a
            | None => inr a
            end
        end) (inr a0) fields
  | _ => inl (decode_error "struct")
  end.

Lemma decode_all_map {A} (f : json → error + A) (enc : A → json) l :
  (∀ x, f (enc x) = inr x) → decode_all f (map enc l) = inr l.
Proof. intros H. induction l as [| x l IH]; simpl; [done | by rewrite H, IH]. Qed.
Lemma decode_json_strings l : decode_slice (decode_string "") (json_strings l) = inr l.
Proof. destruct l as [| s l]; [done |]. by apply (decode_all_map (decode_string "") JStr (s :: l)). Qed.
End decode.
