(* ===== verification/Crypto.v ===== *)
(** The standard library's encodings and hashes the session cookie is made of:
    [encoding/binary] big-endian integers, [encoding/base64.RawURLEncoding],
    [crypto/sha256] and [crypto/hmac], on bytes as integers.  They are executable,
    and checked on published test vectors. *)

From S2P Require Import Prelude GoStd.

Definition is_byte (b : Z) : Prop := 0 <= b < 256.

(** The bytes of a Go string. *)
Definition bytes_of (s : string) : list Z := byteZ <$> chars s.
Definition of_bytes (l : list Z) : string := of_chars (chr <$> l).

(** ** Big-endian integers *)

Fixpoint be_bytes (n : nat) (z : Z) : list Z :=
  match n with
  | O => []
  | S n' => be_bytes n' (z / 256) ++ [z mod 256]
  end.
Definition be_val (l : list Z) : Z := foldl (λ acc b, acc * 256 + b) 0 l.

(** ** base64url without padding *)

Definition b64_char (v : Z) : ascii :=
  if v <? 26 then chr (65 + v)
  else if v <? 52 then chr (97 + (v - 26))
  else if v <? 62 then chr (48 + (v - 52))
  else if v =? 62 then "-"%char else "_"%char.

Definition b64_val (c : ascii) : option Z :=
  let v := byteZ c in
  if (65 <=? v) && (v <=? 90) then Some (v - 65)
  else if (97 <=? v) && (v <=? 122) then Some (v - 97 + 26)
  else if (48 <=? v) && (v <=? 57) then Some (v - 48 + 52)
  else if v =? 45 then Some 62
  else if v =? 95 then Some 63
  else None.

Fixpoint b64_digits (l : list Z) : list Z :=
  match l with
  | [] => []
  | [a] => [a / 4; (a mod 4) * 16]
  | [a; b] => [a / 4; (a mod 4) * 16 + b / 16; (b mod 16) * 4]
  | a :: b :: c :: l' =>
      a / 4 :: (a mod 4) * 16 + b / 16 :: (b mod 16) * 4 + c / 64 :: c mod 64 :: b64_digits l'
  end.

(** [EncodeToString] *)
Definition b64_encode (l : list Z) : string := of_chars (b64_char <$> b64_digits l).

(** The bytes of a sequence of digits; the spare bits of the last one are ignored, as the
    non-strict decoder does. *)
Fixpoint b64_bytes (l : list Z) : option (list Z) :=
  match l with
  | [] => Some []
  | [_] => None
  | [a; b] => Some [a * 4 + b / 16]
  | [a; b; c] => Some [a * 4 + b / 16; (b mod 16) * 16 + c / 4]
  | a :: b :: c :: d :: l' =>
      rest ← b64_bytes l';
      Some (a * 4 + b / 16 :: (b mod 16) * 16 + c / 4 :: (c mod 4) * 64 + d :: rest)
  end.

(** [DecodeString]: new lines are skipped, any other character outside the alphabet is an error. *)
Definition b64_decode (s : string) : option (list Z) :=
  digits ← mapM b64_val (List.filter (λ c, negb ((byteZ c =? 10) || (byteZ c =? 13))) (chars s));
  b64_bytes digits.

(** ** SHA-256 *)

Definition w32 (z : Z) : Z := z mod 2 ^ 32.
Definition rotr (x n : Z) : Z := Z.lor (Z.shiftr x n) (w32 (Z.shiftl x (32 - n))).
Definition not32 (x : Z) : Z := Z.lxor x (2 ^ 32 - 1).

(** The constants of FIPS 180-4: 32 bits of the fractional parts of the square and
    cube roots of the first primes. *)
Fixpoint root_bits (k n : Z) (bits : nat) (r : Z) : Z :=
  match bits with
  | O => r
  | S b => let r' := r + 2 ^ Z.of_nat b in root_bits k n b (if r' ^ k <=? n then r' else r)
  end.
Definition root_frac (k p : Z) : Z := w32 (root_bits k (p * 2 ^ (32 * k)) 37 0).
Definition primes_below (n : nat) : list Z :=
  List.filter (λ p, forallb (λ d, negb (p mod d =? 0)) (Z.of_nat <$> seq 2 (Z.to_nat p - 2)))
    (Z.of_nat <$> seq 2 (n - 2)).
Definition sha_k : list Z := Eval vm_compute in root_frac 3 <$> primes_below 312.

Record sha_state := mkSha { sa : Z; sb : Z; sc : Z; sd : Z; se : Z; sf : Z; sg : Z; sh : Z }.
Definition sha_init : sha_state := Eval vm_compute in
  match root_frac 2 <$> primes_below 20 with
  | [a; b; c; d; e; f; g; h] => mkSha a b c d e f g h
  | _ => mkSha 0 0 0 0 0 0 0 0
  end.

(** The message schedule, most recent word first. *)
Definition sha_next (ws : list Z) : Z :=
  let nth i := List.nth i ws 0 in
  let s0 := let x := nth 14%nat in Z.lxor (Z.lxor (rotr x 7) (rotr x 18)) (Z.shiftr x 3) in
  let s1 := let x := nth 1%nat in Z.lxor (Z.lxor (rotr x 17) (rotr x 19)) (Z.shiftr x 10) in
  w32 (nth 15%nat + s0 + nth 6%nat + s1).
Fixpoint sha_extend (n : nat) (ws : list Z) : list Z :=
  match n with O => ws | S n' => sha_extend n' (sha_next ws :: ws) end.

Definition sha_round (s : sha_state) (kw : Z * Z) : sha_state :=
  let '(k, w) := kw in
  let S1 := Z.lxor (Z.lxor (rotr (se s) 6) (rotr (se s) 11)) (rotr (se s) 25) in
  let ch := Z.lxor (Z.land (se s) (sf s)) (Z.land (not32 (se s)) (sg s)) in
  let t1 := w32 (sh s + S1 + ch + k + w) in
  let S0 := Z.lxor (Z.lxor (rotr (sa s) 2) (rotr (sa s) 13)) (rotr (sa s) 22) in
  let maj := Z.lxor (Z.lxor (Z.land (sa s) (sb s)) (Z.land (sa s) (sc s))) (Z.land (sb s) (sc s)) in
  mkSha (w32 (t1 + w32 (S0 + maj))) (sa s) (sb s) (sc s) (w32 (sd s + t1)) (se s) (sf s) (sg s).

Fixpoint be_words (l : list Z) : list Z :=
  match l with
  | a :: b :: c :: d :: l' => be_val [a; b; c; d] :: be_words l'
  | _ => []
  end.

Definition sha_block (s : sha_state) (block : list Z) : sha_state :=
  let ws := rev (sha_extend 48 (rev (be_words block))) in
  let r := foldl sha_round s (zip sha_k ws) in
  mkSha (w32 (sa s + sa r)) (w32 (sb s + sb r)) (w32 (sc s + sc r)) (w32 (sd s + sd r))
        (w32 (se s + se r)) (w32 (sf s + sf r)) (w32 (sg s + sg r)) (w32 (sh s + sh r)).

Fixpoint sha_blocks (n : nat) (s : sha_state) (l : list Z) : sha_state :=
  match n with
  | O => s
  | S n' => sha_blocks n' (sha_block s (take 64 l)) (drop 64 l)
  end.

Definition sha_pad (l : list Z) : list Z :=
  let n := List.length l in
  let zeros := Z.to_nat ((55 - Z.of_nat n) mod 64) in
  l ++ [128] ++ repeat 0 zeros ++ be_bytes 8 (8 * Z.of_nat n).

(** [sha256.Sum256] *)
Definition sha256 (l : list Z) : list Z :=
  let p := sha_pad l in
  let s := sha_blocks (List.length p / 64) sha_init p in
  flat_map (be_bytes 4) [sa s; sb s; sc s; sd s; se s; sf s; sg s; sh s].

(** [hmac.New(sha256.New, key)], written and summed *)
Definition hmac_sha256 (key msg : list Z) : list Z :=
  let key := if (64 <? List.length key)%nat then sha256 key else key in
  let key := key ++ repeat 0 (64 - List.length key) in
  let pad v := (λ b, Z.lxor b v) <$> key in
  sha256 (pad 0x5c ++ sha256 (pad 0x36 ++ msg)).

Definition hex_of (l : list Z) : string := hex_encode l.

(** FIPS 180-2, RFC 4231 test case 2 and RFC 4648. *)
Example sha256_abc :
  hex_of (sha256 (bytes_of "abc")) = "ba7816bf8f01cfea414140de5dae2223b00361a396177a9cb410ff61f20015ad".
Proof. vm_compute. reflexivity. Qed.
Example sha256_two_blocks :
  hex_of (sha256 (bytes_of "abcdbcdecdefdefgefghfghighijhijkijkljklmklmnlmnomnopnopq"))
  = "248d6a61d20638b8e5c026930c3e6039a33ce45964ff2167f6ecedd419db06c1".
Proof. vm_compute. reflexivity. Qed.
Example hmac_jefe :
  hex_of (hmac_sha256 (bytes_of "Jefe") (bytes_of "what do ya want for nothing?"))
  = "5bdcc146bf60754e6a042426089575c75a003f089d2739839dec58b964ec3843".
Proof. vm_compute. reflexivity. Qed.
Example base64_foobar : b64_encode (bytes_of "fooba") = "Zm9vYmE" ∧
  b64_decode "Zm9vYmE" = Some (bytes_of "fooba").
Proof. vm_compute. auto. Qed.

(** ** Facts *)

Lemma length_be_bytes n z : List.length (be_bytes n z) = n.
Proof. revert z. induction n as [| n IH]; intros z; simpl; [done |]. rewrite length_app, IH. simpl. lia. Qed.

Lemma be_bytes_bytes n z : Forall is_byte (be_bytes n z).
Proof.
  revert z. induction n as [| n IH]; intros z; simpl; [done |].
  apply Forall_app. split; [done |]. apply Forall_singleton. apply Z.mod_pos_bound. lia.
Qed.

Lemma be_val_app l b : be_val (l ++ [b]) = be_val l * 256 + b.
Proof. unfold be_val. by rewrite foldl_app. Qed.

Lemma be_val_bytes n z : be_val (be_bytes n z) = z mod 256 ^ Z.of_nat n.
Proof.
  revert z. induction n as [| n IH]; intros z.
  - simpl. by rewrite Z.mod_1_r.
  - cbn [be_bytes]. rewrite be_val_app, IH, Nat2Z.inj_succ, Z.pow_succ_r by lia.
    rewrite (Z.rem_mul_r z 256) by lia. lia.
Qed.

Lemma be_bytes_val l : Forall is_byte l → be_bytes (List.length l) (be_val l) = l.
Proof.
  induction l as [| b l IH] using rev_ind; intros Hl; [done |].
  apply Forall_app in Hl as [Hl Hb]. rewrite Forall_singleton in Hb. unfold is_byte in Hb.
  rewrite length_app, Nat.add_comm, be_val_app. cbn [Nat.add List.length be_bytes].
  f_equal; [| f_equal].
  - rewrite Z.div_add_l, (Z.div_small b) by lia. rewrite Z.add_0_r. by apply IH.
  - rewrite Z.add_comm, Z_mod_plus_full. by apply Z.mod_small.
Qed.

Lemma length_flat_be n l : List.length (flat_map (be_bytes n) l) = (List.length l * n)%nat.
Proof. induction l as [| x l IH]; simpl; [done |]. by rewrite length_app, length_be_bytes, IH. Qed.

Lemma flat_be_bytes n l : Forall is_byte (flat_map (be_bytes n) l).
Proof. induction l as [| x l IH]; simpl; [done |]. apply Forall_app. by split; [apply be_bytes_bytes |]. Qed.

Lemma length_sha256 l : List.length (sha256 l) = 32%nat.
Proof. apply length_flat_be. Qed.

Lemma length_hmac k m : List.length (hmac_sha256 k m) = 32%nat.
Proof. apply length_sha256. Qed.

Lemma hmac_bytes k m : Forall is_byte (hmac_sha256 k m).
Proof.
  apply flat_be_bytes.
Qed.

Lemma byteZ_chr v : is_byte v → byteZ (chr v) = v.
Proof.
  intros [H1 H2]. unfold byteZ, chr. rewrite N_ascii_embedding by lia. lia.
Qed.

Lemma chr_byteZ c : chr (byteZ c) = c.
Proof. unfold chr, byteZ. rewrite N2Z.id. apply ascii_N_embedding. Qed.

Lemma byteZ_byte c : is_byte (byteZ c).
Proof. unfold byteZ. pose proof (N_ascii_bounded c). red. lia. Qed.

Lemma of_bytes_of s : of_bytes (bytes_of s) = s.
Proof.
  unfold of_bytes, bytes_of. rewrite <- list_fmap_compose.
  rewrite (list_fmap_ext _ id); [rewrite list_fmap_id; apply of_chars_chars |].
  intros i c _. apply chr_byteZ.
Qed.

Lemma bytes_of_bytes l : Forall is_byte l → bytes_of (of_bytes l) = l.
Proof.
  intros Hl. unfold of_bytes, bytes_of. rewrite chars_of_chars, <- list_fmap_compose.
  rewrite <- (list_fmap_id l) at 2. apply list_fmap_ext. intros i b Hb.
  apply byteZ_chr. rewrite Forall_lookup in Hl. by eapply Hl.
Qed.

Lemma bytes_of_is_bytes s : Forall is_byte (bytes_of s).
Proof. apply Forall_forall. intros b (c & -> & _)%list_elem_of_fmap. apply byteZ_byte. Qed.

Lemma length_bytes_of s : List.length (bytes_of s) = String.length s.
Proof. unfold bytes_of. rewrite length_fmap. induction s; simpl; [done | by f_equal]. Qed.

(** *** base64 *)

Lemma b64_val_char v : 0 <= v < 64 →
  b64_val (b64_char v) = Some v ∧
  negb ((byteZ (b64_char v) =? 10) || (byteZ (b64_char v) =? 13)) = true.
Proof.
  intros Hv. assert (forallb (λ n, let v := Z.of_nat n in
    bool_decide (b64_val (b64_char v) = Some v) &&
    negb ((byteZ (b64_char v) =? 10) || (byteZ (b64_char v) =? 13))) (seq 0 64) = true) as H
    by (vm_compute; reflexivity).
  rewrite forallb_forall in H. specialize (H (Z.to_nat v)).
  rewrite Z2Nat.id in H by lia. apply andb_true_iff in H as [H1%bool_decide_eq_true H2]; [done |].
  apply in_seq. lia.
Qed.

Lemma b64_digits_range l : Forall is_byte l → Forall (λ v, 0 <= v < 64) (b64_digits l).
Proof.
  assert (∀ a, 0 <= a < 256 → 0 <= a / 4 < 64) as H4.
  { intros a Ha. split; [apply Z.div_pos; lia | apply Z.div_lt_upper_bound; lia]. }
  assert (∀ a b, 0 <= b < 256 → 0 <= (a mod 4) * 16 + b / 16 < 64) as H16.
  { intros a b Hb. pose proof (Z.mod_pos_bound a 4 ltac:(lia)).
    assert (0 <= b / 16 < 16); [| lia].
    split; [apply Z.div_pos; lia | apply Z.div_lt_upper_bound; lia]. }
  assert (∀ b c, 0 <= c < 256 → 0 <= (b mod 16) * 4 + c / 64 < 64) as H64.
  { intros b c Hc. pose proof (Z.mod_pos_bound b 16 ltac:(lia)).
    assert (0 <= c / 64 < 4); [| lia].
    split; [apply Z.div_pos; lia | apply Z.div_lt_upper_bound; lia]. }
  assert (∀ a, 0 <= (a mod 4) * 16 < 64) as H1 by (intros a; pose proof (Z.mod_pos_bound a 4 ltac:(lia)); lia).
  assert (∀ a, 0 <= (a mod 16) * 4 < 64) as H2 by (intros a; pose proof (Z.mod_pos_bound a 16 ltac:(lia)); lia).
  induction l as [l IH] using (induction_ltof1 _ (@List.length Z)). unfold ltof in IH.
  destruct l as [| a [| b [| c l]]]; intros Hl; rewrite ?Forall_cons in Hl; cbn [b64_digits].
  - done.
  - destruct Hl as [Ha _]. repeat constructor; by apply H4 || by apply H1.
  - destruct Hl as (Ha & Hb & _). repeat constructor; try (by apply H4); try (by apply H16); by apply H2.
  - destruct Hl as (Ha & Hb & Hc & Hl). repeat apply Forall_cons_2;
      [by apply H4 | by apply H16 | by apply H64 | apply Z.mod_pos_bound; lia |].
    apply IH; [simpl; lia | done].
Qed.

Lemma b64_bytes_digits l : Forall is_byte l → b64_bytes (b64_digits l) = Some l.
Proof.
  assert (∀ a r, 0 <= r < 16 → a / 4 * 4 + ((a mod 4) * 16 + r) / 16 = a) as E1.
  { intros a r Hr. rewrite Z.div_add_l, (Z.div_small r) by lia. pose proof (Z.div_mod a 4). lia. }
  assert (∀ x b r, 0 <= b < 256 → 0 <= r < 4 →
    ((x * 16 + b / 16) mod 16) * 16 + ((b mod 16) * 4 + r) / 4 = b) as E2.
  { intros x b r Hb Hr. rewrite Z.add_comm with (n := x * 16), Z_mod_plus_full.
    rewrite Z.div_add_l, (Z.div_small r) by lia. rewrite (Z.mod_small (b / 16)).
    - pose proof (Z.div_mod b 16). lia.
    - split; [apply Z.div_pos; lia | apply Z.div_lt_upper_bound; lia]. }
  assert (∀ x c, 0 <= c < 256 → ((x * 4 + c / 64) mod 4) * 64 + c mod 64 = c) as E3.
  { intros x c Hc. rewrite Z.add_comm with (n := x * 4), Z_mod_plus_full.
    rewrite (Z.mod_small (c / 64)).
    - pose proof (Z.div_mod c 64). lia.
    - split; [apply Z.div_pos; lia | apply Z.div_lt_upper_bound; lia]. }
  assert (∀ k b, 0 <= b < 256 → 256 = k * (256 / k) → 0 < k → 0 <= b / k < 256 / k) as Hq.
  { intros k b Hb Hk Hp. split; [apply Z.div_pos; lia | apply Z.div_lt_upper_bound; lia]. }
  induction l as [l IH] using (induction_ltof1 _ (@List.length Z)). unfold ltof in IH.
  destruct l as [| a [| b [| c l]]]; intros Hl; rewrite ?Forall_cons in Hl; cbn [b64_digits b64_bytes].
  - done.
  - pose proof (E1 a 0 ltac:(lia)) as H. rewrite Z.add_0_r in H. by rewrite H.
  - destruct Hl as (Ha & Hb & _). rewrite E1 by (apply (Hq 16 b); lia || done).
    pose proof (E2 (a mod 4) b 0 Hb ltac:(lia)) as H. rewrite Z.add_0_r in H. by rewrite H.
  - destruct Hl as (Ha & Hb & Hc & Hl). rewrite IH by (simpl; lia || done). simpl.
    rewrite E1 by (apply (Hq 16 b); lia || done). rewrite E2 by (done || apply (Hq 64 c); lia || done).
    by rewrite E3.
Qed.

Lemma b64_decode_encode l : Forall is_byte l → b64_decode (b64_encode l) = Some l.
Proof.
  intros Hl. unfold b64_decode, b64_encode. rewrite chars_of_chars.
  pose proof (b64_digits_range l Hl) as Hr.
  assert (mapM b64_val (List.filter (λ c, negb ((byteZ c =? 10) || (byteZ c =? 13)))
    (b64_char <$> b64_digits l)) = Some (b64_digits l)) as ->.
  { induction Hr as [| v vs Hv _ IH]; [done |]. destruct (b64_val_char v Hv) as [H1 H2].
    rewrite fmap_cons. cbn [List.filter]. rewrite H2. simpl. rewrite H1. simpl. by rewrite IH. }
  simpl. by apply b64_bytes_digits.
Qed.
