(* ===== verification/Session.v ===== *)
(** [internal/api]: the signed session cookie.

    The value is the base64url form of a signed region (expiry, nonce, role, the
    length of the guest id and the guest id) followed by the HMAC of the region. *)

From S2P Require Import Prelude GoStd Errors Authz Crypto.

(** internal/api/api.go:255-255, sessionTTL. *)
Definition sessionTTL : Duration := 7 * 24 * 3600 * Second.
(** internal/api/api.go:256-256, sessionExpiryLen. *)
Definition sessionExpiryLen : nat := 8.
(** internal/api/api.go:257-257, sessionNonceLen. *)
Definition sessionNonceLen : nat := 16.
(** internal/api/api.go:258-258, sessionRoleLen. *)
Definition sessionRoleLen : nat := 1.
(** internal/api/api.go:259-259, sessionGIDLenLen. *)
Definition sessionGIDLenLen : nat := 1.
(** internal/api/api.go:260-260, sessionMACLen. *)
Definition sessionMACLen : nat := 32.
(** internal/api/api.go:263-263, sessionHeaderLen. *)
Definition sessionHeaderLen : nat :=
  sessionExpiryLen + sessionNonceLen + sessionRoleLen + sessionGIDLenLen.

(** internal/api/api.go:271-271, roleAdmin. *)
Definition roleAdmin : Z := 0.
(** internal/api/api.go:272-272, roleGuest. *)
Definition roleGuest : Z := 1.

(** [int64] of a [uint64]. *)
Definition to_int64 (z : Z) : Z := if z <? 2 ^ 63 then z else z - 2 ^ 64.

(** The signed region: expiry(8) || nonce(16) || role(1) || guestIDLen(1) || guestID. *)
Definition signed_region (expiry : Z) (nonce : list Z) (role : Z) (gid : list Z) : list Z :=
  be_bytes 8 expiry ++ nonce ++ [role] ++ [Z.of_nat (List.length gid)] ++ gid.

Section session.
(** The process's session secret. *)
Variable secret : list Z.

(** internal/api/api.go:399-403, API.sessionMAC. *)
Definition sessionMAC (signed : list Z) : list Z := hmac_sha256 secret signed.

(** internal/api/api.go:374-396, API.newSessionValue.  [nonce] is what [rand.Read] returns. *)
Definition newSessionValue (sub : Subject) (now : Time) (nonce : error + list Z) : error + string :=
  let '(role, gid) := if sub_Admin sub then (roleAdmin, []) else (roleGuest, bytes_of (sub_GuestID sub)) in
  if (255 <? List.length gid)%nat then inl (ErrText "guest id too long for session cookie")
  else
    match nonce with
    | inl e => inl e
    | inr nonce =>
        let signed := signed_region (Unix (Add now sessionTTL)) nonce role gid in
        inr (b64_encode (signed ++ sessionMAC signed))
    end.

(** internal/api/api.go:410-448, API.parseSession.  [None] for the value: no such cookie. *)
Definition parseSession (cookie : option string) (now : Time) : option Subject :=
  match cookie with
  | None => None
  | Some value =>
      if String.eqb value "" then None else
      match b64_decode value with
      | None => None
      | Some raw =>
          if (List.length raw <? sessionHeaderLen + sessionMACLen)%nat then None else
          let gidLen := Z.to_nat (List.nth (sessionExpiryLen + sessionNonceLen + sessionRoleLen) raw 0) in
          let signedLen := (sessionHeaderLen + gidLen)%nat in
          if negb (Nat.eqb (List.length raw) (signedLen + sessionMACLen)) then None else
          let signed := take signedLen raw in
          let mac := drop signedLen raw in
          if negb (bool_decide (mac = sessionMAC signed)) then None else
          let expiry := to_int64 (be_val (take sessionExpiryLen signed)) in
          if expiry <=? Unix now then None else
          let role := List.nth (sessionExpiryLen + sessionNonceLen) signed 0 in
          if role =? roleAdmin then
            if Nat.eqb gidLen 0 then Some (mkSubject true "" "") else None
          else if role =? roleGuest then
            if Nat.eqb gidLen 0 then None
            else Some (mkSubject false (of_bytes (drop sessionHeaderLen signed)) "")
          else None
      end
  end.
End session.

(** ** Facts *)

(** What a cookie says of a subject: its role and its id, not its zone. *)
Definition cookie_subject (sub : Subject) : Subject :=
  if sub_Admin sub then mkSubject true "" "" else mkSubject false (sub_GuestID sub) "".
Definition cookie_role (sub : Subject) : Z := if sub_Admin sub then roleAdmin else roleGuest.
Definition cookie_gid (sub : Subject) : list Z :=
  if sub_Admin sub then [] else bytes_of (sub_GuestID sub).

(** The signed region of a subject's cookie. *)
Definition region_of (sub : Subject) (expiry : Z) (nonce : list Z) : list Z :=
  signed_region expiry nonce (cookie_role sub) (cookie_gid sub).

(** A subject a cookie can carry: an admin, or a guest with a short non-empty id. *)
Definition cookie_ok (sub : Subject) : Prop :=
  sub = cookie_subject sub ∧ (sub_Admin sub = true ∨ (0 < String.length (sub_GuestID sub) <= 255)%nat).

Lemma b64_bytes_are_bytes l bs : Forall (λ v, 0 <= v < 64) l → b64_bytes l = Some bs → Forall is_byte bs.
Proof.
  revert bs. induction l as [l IH] using (induction_ltof1 _ (@List.length Z)). unfold ltof in IH.
  intros bs Hl. unfold is_byte.
  assert (∀ a b, 0 <= a < 64 → 0 <= b < 64 → 0 <= a * 4 + b / 16 < 256) as H1.
  { intros a b Ha Hb. assert (0 <= b / 16 < 4); [| lia].
    split; [apply Z.div_pos; lia | apply Z.div_lt_upper_bound; lia]. }
  assert (∀ b c, 0 <= c < 64 → 0 <= (b mod 16) * 16 + c / 4 < 256) as H2.
  { intros b c Hc. pose proof (Z.mod_pos_bound b 16 ltac:(lia)).
    assert (0 <= c / 4 < 16); [| lia].
    split; [apply Z.div_pos; lia | apply Z.div_lt_upper_bound; lia]. }
  assert (∀ c d, 0 <= d < 64 → 0 <= (c mod 4) * 64 + d < 256) as H3.
  { intros c d Hd. pose proof (Z.mod_pos_bound c 4 ltac:(lia)). lia. }
  destruct l as [| a [| b [| c [| d l]]]]; rewrite ?Forall_cons in Hl; cbn [b64_bytes]; intros E.
  - by injection E as <-.
  - done.
  - injection E as <-. destruct Hl as (Ha & Hb & _). constructor; [by apply H1 | constructor].
  - injection E as <-. destruct Hl as (Ha & Hb & Hc & _).
    constructor; [by apply H1 | constructor; [by apply H2 | constructor]].
  - destruct (b64_bytes l) as [rest |] eqn:Hr; simpl in E; [| done]. injection E as <-.
    destruct Hl as (Ha & Hb & Hc & Hd & Hl).
    repeat apply Forall_cons_2; [by apply H1 | by apply H2 | by apply H3 |].
    eapply IH; [| exact Hl | done]. simpl. lia.
Qed.

Lemma b64_val_range c v : b64_val c = Some v → 0 <= v < 64.
Proof.
  unfold b64_val. intros H.
  repeat match type of H with (if ?b then _ else _) = _ => destruct b eqn:? end; try done;
    injection H as <-; rewrite ?andb_true_iff, ?Z.leb_le in *; lia.
Qed.

Lemma b64_decode_bytes s bs : b64_decode s = Some bs → Forall is_byte bs.
Proof.
  unfold b64_decode. generalize (List.filter (λ c, negb ((byteZ c =? 10) || (byteZ c =? 13))) (chars s)).
  intros cs. destruct (mapM b64_val cs) as [ds |] eqn:Hm; simpl; [| done].
  apply b64_bytes_are_bytes. apply mapM_Some_1 in Hm. clear s.
  induction Hm as [| c v cs' ds' Hc _ IH]; [done |]. constructor; [by eapply b64_val_range | done].
Qed.

Lemma length_signed_region expiry nonce role gid :
  List.length nonce = 16%nat →
  List.length (signed_region expiry nonce role gid) = (26 + List.length gid)%nat.
Proof. intros Hn. unfold signed_region. rewrite !length_app, length_be_bytes, Hn. simpl. lia. Qed.

Lemma region_fields expiry nonce role gid rest :
  List.length nonce = 16%nat →
  let r := signed_region expiry nonce role gid ++ rest in
  List.nth 25 r 0 = Z.of_nat (List.length gid) ∧ List.nth 24 r 0 = role ∧
  take 8 r = be_bytes 8 expiry ∧ drop 26 (signed_region expiry nonce role gid) = gid.
Proof.
  intros Hn. cbv zeta. unfold signed_region.
  pose proof (length_be_bytes 8 expiry) as Hl. revert Hl. generalize (be_bytes 8 expiry).
  intros e Hl. do 8 (destruct e as [| ? e]; [done |]). destruct e; [| done].
  do 16 (destruct nonce as [| ? nonce]; [done |]). destruct nonce; [| done]. done.
Qed.

Lemma parse_region secret expiry nonce role gid now v :
  List.length nonce = 16%nat → (List.length gid <= 255)%nat → v ≠ "" →
  let signed := signed_region expiry nonce role gid in
  b64_decode v = Some (signed ++ sessionMAC secret signed) →
  parseSession secret (Some v) now =
    if to_int64 (expiry mod 2 ^ 64) <=? Unix now then None
    else if role =? roleAdmin then
      if Nat.eqb (List.length gid) 0 then Some (mkSubject true "" "") else None
    else if role =? roleGuest then
      if Nat.eqb (List.length gid) 0 then None else Some (mkSubject false (of_bytes gid) "")
    else None.
Proof.
  intros Hn Hg Hv signed Hd. unfold parseSession.
  destruct (String.eqb_spec v ""); [done |]. rewrite Hd. cbv zeta.
  pose proof (length_signed_region expiry nonce role gid Hn) as Hls. fold signed in Hls.
  pose proof (length_hmac secret signed) as Hlm. fold (sessionMAC secret signed) in Hlm.
  destruct (region_fields expiry nonce role gid (sessionMAC secret signed) Hn) as (F1 & F2 & F3 & F4).
  fold signed in F1, F2, F3, F4. clearbody signed.
  rewrite length_app, Hls, Hlm.
  change (sessionHeaderLen + sessionMACLen)%nat with 58%nat.
  replace (_ <? _)%nat with false by (symmetry; apply Nat.ltb_ge; lia).
  change (sessionExpiryLen + sessionNonceLen + sessionRoleLen)%nat with 25%nat. rewrite F1, Nat2Z.id.
  change (sessionHeaderLen + List.length gid)%nat with (26 + List.length gid)%nat.
  unfold sessionMACLen. rewrite Nat.eqb_refl. cbn [negb].
  rewrite <- Hls, take_app_length, drop_app_length.
  rewrite bool_decide_eq_true_2 by done. cbn [negb].
  assert (take sessionExpiryLen signed = be_bytes 8 expiry) as ->.
  { rewrite <- F3, take_app_le; [done |]. rewrite Hls. unfold sessionExpiryLen. lia. }
  rewrite be_val_bytes. change (256 ^ Z.of_nat 8) with (2 ^ 64).
  change (sessionExpiryLen + sessionNonceLen)%nat with 24%nat.
  assert (List.nth 24 signed 0 = role) as ->.
  { rewrite <- F2, app_nth1; [done |]. rewrite Hls. lia. }
  change sessionHeaderLen with 26%nat. by rewrite F4.
Qed.

Lemma cookie_gid_length sub : cookie_ok sub → (List.length (cookie_gid sub) <= 255)%nat.
Proof.
  intros [_ H]. unfold cookie_gid. destruct (sub_Admin sub); [simpl; lia |].
  rewrite length_bytes_of. by destruct H as [? | [_ ?]].
Qed.

Lemma parse_region_of secret sub expiry nonce now v :
  cookie_ok sub → List.length nonce = 16%nat → v ≠ "" →
  b64_decode v = Some (region_of sub expiry nonce ++ sessionMAC secret (region_of sub expiry nonce)) →
  parseSession secret (Some v) now =
    if to_int64 (expiry mod 2 ^ 64) <=? Unix now then None else Some sub.
Proof.
  intros Hok Hn Hv Hd. unfold region_of in Hd.
  erewrite parse_region; [| exact Hn | by apply cookie_gid_length | exact Hv | exact Hd].
  destruct (_ <=? _); [done |]. destruct Hok as [Heq Hlen].
  unfold cookie_role, cookie_gid. destruct (sub_Admin sub) eqn:Ha.
  - rewrite Heq. unfold cookie_subject. by rewrite Ha.
  - change (roleGuest =? roleAdmin) with false. change (roleGuest =? roleGuest) with true.
    rewrite length_bytes_of, of_bytes_of. destruct Hlen as [? | [Hl _]]; [done |].
    destruct (Nat.eqb_spec (String.length (sub_GuestID sub)) 0); [lia |].
    rewrite Heq at 2. unfold cookie_subject. by rewrite Ha.
Qed.

(** C27: a session lasts until its expiry, and only the session cookie's subject comes
    out of it: a cookie minted for a subject is accepted as that subject (its role
    and id; the zone is not in the cookie) at every time before the expiry, seven
    days after it was minted, and refused from then on. *)
Theorem session_roundtrip secret sub now nonce now' :
  cookie_ok sub → List.length nonce = 16%nat → Forall is_byte nonce →
  0 <= Unix (Add now sessionTTL) < 2 ^ 63 →
  ∃ v, newSessionValue secret sub now (inr nonce) = inr v ∧
    parseSession secret (Some v) now' =
      if Unix (Add now sessionTTL) <=? Unix now' then None else Some sub.
Proof.
  intros Hok Hn Hb Hexp.
  exists (b64_encode (region_of sub (Unix (Add now sessionTTL)) nonce ++
    sessionMAC secret (region_of sub (Unix (Add now sessionTTL)) nonce))). split.
  - unfold newSessionValue, region_of, cookie_role. pose proof (cookie_gid_length sub Hok) as Hl.
    unfold cookie_gid in *. destruct (sub_Admin sub); [done |].
    replace (255 <? _)%nat with false; [done |]. symmetry. apply Nat.ltb_ge. lia.
  - set (e := Unix (Add now sessionTTL)) in *.
    assert (Forall is_byte (region_of sub e nonce ++ sessionMAC secret (region_of sub e nonce))) as Hbytes.
    { apply Forall_app. split; [| apply hmac_bytes]. unfold region_of, signed_region.
      rewrite !Forall_app, !Forall_singleton. split; [apply be_bytes_bytes |]. split; [done |].
      pose proof (cookie_gid_length sub Hok). split; [unfold cookie_role; by destruct (sub_Admin sub) |].
      split; [unfold is_byte; lia |]. unfold cookie_gid. destruct (sub_Admin sub); [done | apply bytes_of_is_bytes]. }
    pose proof (b64_decode_encode _ Hbytes) as Hd.
    rewrite (parse_region_of secret sub e nonce now' _ Hok Hn); [| | exact Hd].
    + rewrite Z.mod_small by lia. unfold to_int64. by destruct (Z.ltb_spec e (2 ^ 63)); [| lia].
    + intros Hv. rewrite Hv in Hd. change (b64_decode "") with (Some (@nil Z)) in Hd.
      apply (f_equal (option_map (@List.length Z))) in Hd. cbn [option_map] in Hd.
      rewrite length_app in Hd. unfold region_of in Hd at 1.
      rewrite length_signed_region in Hd by done. done.
Qed.

Lemma region_split l :
  (26 <= List.length l)%nat → Forall is_byte l →
  ∃ expiry nonce role n gid, l = be_bytes 8 expiry ++ nonce ++ [role] ++ [n] ++ gid ∧
    List.length nonce = 16%nat ∧ Forall is_byte nonce ∧ 0 <= expiry < 2 ^ 64 ∧ Forall is_byte (role :: n :: gid).
Proof.
  intros Hl Hb. exists (be_val (take 8 l)), (take 16 (drop 8 l)).
  assert (List.length (take 8 l) = 8%nat) as H8 by (rewrite length_take; lia).
  assert (Forall is_byte (take 8 l)) as Hb8 by (by apply Forall_take).
  pose proof (be_bytes_val _ Hb8) as He. rewrite H8 in He.
  assert (l = take 8 l ++ take 16 (drop 8 l) ++ drop 24 l) as Hs.
  { rewrite <- (take_drop 8 l) at 1. f_equal. rewrite <- (take_drop 16 (drop 8 l)) at 1.
    by rewrite drop_drop. }
  assert (Forall is_byte (drop 24 l)) as Hb24 by (by apply Forall_drop).
  assert (List.length (drop 24 l) = (List.length l - 24)%nat) as H24 by apply length_drop.
  destruct (drop 24 l) as [| role [| n gid]]; [simpl in H24; lia | simpl in H24; lia |].
  exists role, n, gid. rewrite He. split; [exact Hs |].
  split; [rewrite length_take, length_drop; lia |].
  split; [by apply Forall_take, Forall_drop |]. split; [| done].
  rewrite <- He at 1 2. rewrite He. pose proof (be_val_bytes 8 (be_val (take 8 l))) as Hm.
  rewrite He in Hm. rewrite Hm. apply Z.mod_pos_bound. lia.
Qed.

Lemma parse_inv secret v now sub :
  parseSession secret (Some v) now = Some sub →
  v ≠ "" ∧ ∃ expiry nonce role gid, List.length nonce = 16%nat ∧ Forall is_byte nonce ∧
    0 <= expiry < 2 ^ 64 ∧ (List.length gid <= 255)%nat ∧ Forall is_byte gid ∧
    let signed := signed_region expiry nonce role gid in
    b64_decode v = Some (signed ++ sessionMAC secret signed).
Proof.
  unfold parseSession. destruct (String.eqb_spec v "") as [| Hvne]; [done |].
  destruct (b64_decode v) as [raw |] eqn:Hd; [| done]. cbv zeta.
  apply b64_decode_bytes in Hd as Hraw.
  change (sessionHeaderLen + sessionMACLen)%nat with 58%nat.
  destruct (Nat.ltb_spec (List.length raw) 58) as [| Hlen]; [done |].
  change (sessionExpiryLen + sessionNonceLen + sessionRoleLen)%nat with 25%nat.
  set (gl := Z.to_nat (List.nth 25 raw 0)).
  change (sessionHeaderLen + gl)%nat with (26 + gl)%nat. unfold sessionMACLen.
  destruct (Nat.eqb_spec (List.length raw) (26 + gl + 32)) as [Hl |]; [| done]. cbn [negb].
  destruct (bool_decide (drop (26 + gl) raw = sessionMAC secret (take (26 + gl) raw))) eqn:Hm; [| done].
  apply bool_decide_eq_true in Hm. intros _. split; [done |].
  assert (List.length (take (26 + gl) raw) = 26 + gl)%nat as Hs by (rewrite length_take; lia).
  destruct (region_split (take (26 + gl) raw)) as (e & nonce & role & n & gid & Hsp & Hn & Hbn & He & Hbg);
    [lia | by apply Forall_take |].
  rewrite !Forall_cons in Hbg. destruct Hbg as (_ & Hbn1 & Hbg).
  assert (List.length gid = gl) as Hg.
  { rewrite Hsp, !length_app, length_be_bytes, Hn in Hs. simpl in Hs. lia. }
  assert (n = Z.of_nat gl) as Hng.
  { assert (n = List.nth 25 (take (26 + gl) raw) 0) as Hnth.
    { rewrite Hsp. pose proof (length_be_bytes 8 e) as H8. revert H8. generalize (be_bytes 8 e). intros b H8.
      do 8 (destruct b as [| ? b]; [done |]). destruct b; [| done].
      do 16 (destruct nonce as [| ? nonce]; [done |]). destruct nonce; [| done]. done. }
    assert (List.nth 25 (take (26 + gl) raw) 0 = List.nth 25 raw 0) as Hnth2.
    { rewrite <- (take_drop (26 + gl) raw) at 2. rewrite app_nth1; [done | lia]. }
    unfold gl. rewrite <- Hnth2, <- Hnth. unfold is_byte in Hbn1. lia. }
  exists e, nonce, role, gid. split; [done |]. split; [done |]. split; [done |].
  assert (0 <= n < 256) by done. split; [lia |]. split; [done |]. cbv zeta.
  assert (signed_region e nonce role gid = take (26 + gl) raw) as ->.
  { rewrite Hsp. unfold signed_region. by rewrite Hg, Hng. }
  by rewrite <- Hm, take_drop.
Qed.

Lemma region_inj sub sub' e e' n n' :
  cookie_ok sub → cookie_ok sub' → List.length n = 16%nat → List.length n' = 16%nat →
  0 <= e < 2 ^ 64 → 0 <= e' < 2 ^ 64 →
  region_of sub e n = region_of sub' e' n' → sub = sub' ∧ e = e' ∧ n = n'.
Proof.
  intros [Hs Hl] [Hs' Hl'] Hn Hn' He He' E. unfold region_of, signed_region in E.
  apply app_inj_1 in E as [E1 E]; [| by rewrite !length_be_bytes].
  apply app_inj_1 in E as [E2 E]; [| congruence]. injection E as E3 E4 E5.
  split; [| split; [| done]].
  - rewrite Hs, Hs'. unfold cookie_subject, cookie_role, cookie_gid in *.
    destruct (sub_Admin sub), (sub_Admin sub'); try done.
    rewrite <- (of_bytes_of (sub_GuestID sub)), <- (of_bytes_of (sub_GuestID sub')). by rewrite E5.
  - apply (f_equal be_val) in E1. rewrite !be_val_bytes in E1.
    change (256 ^ Z.of_nat 8) with (2 ^ 64) in E1. rewrite !Z.mod_small in E1 by lia. done.
Qed.

(** C26: a session cannot be altered.  A cookie is accepted as a subject exactly when
    it decodes to a signed region followed by the HMAC of the whole region under the
    process's secret, the region spelling out that very subject and an expiry in the
    future; and two different subjects never have the same region, so changing the
    role, the id or the expiry changes what has to be signed. *)
Theorem parseSession_exact secret v now sub :
  (parseSession secret (Some v) now = Some sub ↔
   v ≠ "" ∧ cookie_ok sub ∧ ∃ expiry nonce,
     List.length nonce = 16%nat ∧ Forall is_byte nonce ∧ 0 <= expiry < 2 ^ 64 ∧
     b64_decode v = Some (region_of sub expiry nonce ++ sessionMAC secret (region_of sub expiry nonce)) ∧
     Unix now < to_int64 expiry) ∧
  (∀ sub' e e' n n', cookie_ok sub → cookie_ok sub' → List.length n = 16%nat → List.length n' = 16%nat →
     0 <= e < 2 ^ 64 → 0 <= e' < 2 ^ 64 →
     region_of sub e n = region_of sub' e' n' → sub = sub' ∧ e = e' ∧ n = n').
Proof.
  split; [| by apply region_inj]. split.
  - intros H. pose proof (parse_inv _ _ _ _ H) as (Hv & e & nonce & role & gid & Hn & Hbn & He & Hg & Hbg & Hd).
    rewrite (parse_region _ _ _ _ _ _ _ Hn Hg Hv Hd), Z.mod_small in H by lia.
    destruct (Z.leb_spec (to_int64 e) (Unix now)) as [| Hexp]; [done |].
    split; [done |].
    assert (cookie_ok sub ∧ role = cookie_role sub ∧ gid = cookie_gid sub) as (Hok & -> & ->).
    { destruct (Z.eqb_spec role roleAdmin) as [-> |].
      - destruct gid; [| done]. injection H as <-. split; [split; [done | by left] | done].
      - destruct (Z.eqb_spec role roleGuest) as [-> |]; [| done].
        destruct (Nat.eqb_spec (List.length gid) 0); [done |]. injection H as <-.
        unfold cookie_ok, cookie_role, cookie_gid. simpl. rewrite bytes_of_bytes by done.
        split; [| done]. split; [done |]. right.
        rewrite <- length_bytes_of, bytes_of_bytes by done. lia. }
    split; [done |]. exists e, nonce. done.
  - intros (Hv & Hok & e & nonce & Hn & _ & He & Hd & Hexp).
    rewrite (parse_region_of _ _ _ _ _ _ Hok Hn Hv Hd), Z.mod_small by lia.
    destruct (Z.leb_spec (to_int64 e) (Unix now)); [lia | done].
Qed.
