(* ===== verification/Wire.v ===== *)
(** The wire shapes of [internal/api]: the DTOs, as the JSON values they are
    encoded to, and the rendering of times. *)

From S2P Require Import Prelude GoStd Errors Store Json.

(** ** Times *)

(** The proleptic Gregorian date of a day number counted from January 1, year 1. *)
Definition civil (day : Z) : Z * Z * Z :=
  let z := day + 306 in
  let era := z / 146097 in
  let doe := z mod 146097 in
  let yoe := (doe - doe / 1460 + doe / 36524 - doe / 146096) / 365 in
  let doy := doe - (365 * yoe + yoe / 4 - yoe / 100) in
  let mp := (5 * doy + 2) / 153 in
  let d := doy - (153 * mp + 2) / 5 + 1 in
  let m := if mp <? 10 then mp + 3 else mp - 9 in
  (era * 400 + yoe + (if m <=? 2 then 1 else 0), m, d).

Definition digits2 (z : Z) : string := (if z <? 10 then "0" else "") +:+ itoa z.
Definition digits4 (z : Z) : string :=
  (if z <? 10 then "000" else if z <? 100 then "00" else if z <? 1000 then "0" else "") +:+ itoa z.

(** [t.UTC().Format(time.RFC3339)] *)
Definition format_rfc3339 (t : Time) : string :=
  let secs := t / Second in
  let '(y, m, d) := civil (secs / 86400) in
  let s := secs mod 86400 in
  digits4 y +:+ "-" +:+ digits2 m +:+ "-" +:+ digits2 d +:+ "T" +:+ digits2 (s / 3600) +:+ ":"
  +:+ digits2 (s mod 3600 / 60) +:+ ":" +:+ digits2 (s mod 60) +:+ "Z".

(** internal/api/api.go:1303-1308, rfc3339. *)
Definition rfc3339 (t : Time) : string := if IsZero t then "" else format_rfc3339 t.

(** The Unix epoch, a leap day and the last second of a century. *)
Example rfc3339_epoch : rfc3339 (unixToInternal * Second) = "1970-01-01T00:00:00Z".
Proof. vm_compute. reflexivity. Qed.
Example rfc3339_leap :
  rfc3339 ((unixToInternal + 951782400) * Second) = "2000-02-29T00:00:00Z" ∧
  rfc3339 ((unixToInternal + 4102444799) * Second) = "2099-12-31T23:59:59Z".
Proof. vm_compute. auto. Qed.

(** ** DTOs *)

(** internal/store/types.go:16-20, NodeType. *)
Definition type_string (t : NodeType) : string :=
  match t with NodeExitNode => "exit-node" | NodeRouter => "router" | NodeGeneric => "generic" end.

(** internal/store/types.go:49-67, RouterState. *)
Definition state_string (s : RouterState) : string :=
  match s with
  | RouterStateZero => ""
  | RouterOK => "ok"
  | RouterPending => "pending"
  | RouterUnconfirmed => "unconfirmed"
  | RouterUnreachable => "unreachable"
  | RouterAwaitingKeep => "awaiting-keep"
  | RouterUnprobed => "unprobed"
  end.

Definition jstrs (l : list string) : json := JArr (JStr <$> l).
Definition jint (z : Z) : json := JNum (itoa z).
(** A string field tagged [omitempty]. *)
Definition omit_str (name s : string) : list (string * json) :=
  if String.eqb s "" then [] else [(name, JStr s)].

(** The types of the wire, each with the JSON value its field tags make of it; a nil slice is made
    empty before it is encoded. *)

(** internal/api/api.go:1039-1050, NodeDTO. *)
Record NodeDTO := mkNodeDTO {
  nd_StableID : string;
  nd_Name : string;
  nd_Hostname : string;
  nd_TailscaleIPs : list string;
  nd_OS : string;
  nd_Online : bool;
  nd_LastSeen : string;
  nd_ExitNodeOption : bool;
  nd_Tags : list string;
  nd_Type : string;
}.
(** internal/api/api.go:1039-1050, NodeDTO.  Its JSON tags. *)
Definition node_json (n : NodeDTO) : json :=
  JObj [("stableID", JStr (nd_StableID n)); ("name", JStr (nd_Name n));
        ("hostname", JStr (nd_Hostname n)); ("tailscaleIPs", jstrs (nd_TailscaleIPs n));
        ("os", JStr (nd_OS n)); ("online", JBool (nd_Online n));
        ("lastSeen", JStr (nd_LastSeen n)); ("exitNodeOption", JBool (nd_ExitNodeOption n));
        ("tags", jstrs (nd_Tags n)); ("type", JStr (nd_Type n))].

(** internal/api/api.go:1053-1057, ExitNodeRefDTO. *)
Record ExitNodeRefDTO := mkExitNodeRefDTO { ed_StableID : string; ed_Name : string; ed_IP : string }.
(** internal/api/api.go:1053-1057, ExitNodeRefDTO.  Its JSON tags; a nil pointer is null. *)
Definition exitRef_json (r : option ExitNodeRefDTO) : json :=
  match r with
  | None => JNull
  | Some r => JObj [("stableID", JStr (ed_StableID r)); ("name", JStr (ed_Name r)); ("ip", JStr (ed_IP r))]
  end.

(** internal/api/api.go:1060-1064, RouterStatsDTO. *)
Record RouterStatsDTO := mkRouterStatsDTO { sd_RxBytes : Z; sd_TxBytes : Z; sd_LastHandshake : string }.
(** internal/api/api.go:1060-1064, RouterStatsDTO.  Its JSON tags. *)
Definition stats_json (s : RouterStatsDTO) : json :=
  JObj [("rxBytes", jint (sd_RxBytes s)); ("txBytes", jint (sd_TxBytes s));
        ("lastHandshake", JStr (sd_LastHandshake s))].

(** internal/api/api.go:1067-1084, RouterViewDTO. *)
Record RouterViewDTO := mkRouterViewDTO {
  rd_Node : NodeDTO;
  rd_CurrentExitNode : option ExitNodeRefDTO;
  rd_Desired : option ExitNodeRefDTO;
  rd_State : string;
  rd_Stats : RouterStatsDTO;
  rd_Reachable : bool;
  rd_LastError : string;
  rd_LastConfirmedAt : string;
  rd_RevertAt : string;
  rd_EgressOK : option bool;
  rd_EgressDetail : string;
  rd_EgressCheckedAt : string;
}.
(** internal/api/api.go:1067-1084, RouterViewDTO.  Its JSON tags. *)
Definition routerView_json (rv : RouterViewDTO) : json :=
  JObj ([("node", node_json (rd_Node rv)); ("currentExitNode", exitRef_json (rd_CurrentExitNode rv));
         ("desired", exitRef_json (rd_Desired rv)); ("state", JStr (rd_State rv));
         ("stats", stats_json (rd_Stats rv)); ("reachable", JBool (rd_Reachable rv));
         ("lastError", JStr (rd_LastError rv)); ("lastConfirmedAt", JStr (rd_LastConfirmedAt rv))] ++
        omit_str "revertAt" (rd_RevertAt rv) ++
        match rd_EgressOK rv with Some b => [("egressOk", JBool b)] | None => [] end ++
        omit_str "egressDetail" (rd_EgressDetail rv) ++
        omit_str "egressCheckedAt" (rd_EgressCheckedAt rv)).

(** internal/api/api.go:1087-1092, GroupDTO. *)
Record GroupDTO := mkGroupDTO {
  zd_ID : string;
  zd_Name : string;
  zd_Consumers : list string;
  zd_AllowedExitNodes : list string;
}.
(** internal/api/api.go:1087-1092, GroupDTO.  Its JSON tags. *)
Definition group_json (g : GroupDTO) : json :=
  JObj [("id", JStr (zd_ID g)); ("name", JStr (zd_Name g)); ("consumers", jstrs (zd_Consumers g));
        ("allowedExitNodes", jstrs (zd_AllowedExitNodes g))].

(** internal/api/api.go:1095-1101, GroupMemberDTO. *)
Record GroupMemberDTO := mkGroupMemberDTO {
  md_StableID : string;
  md_Name : string;
  md_IP : string;
  md_Online : bool;
  md_Present : bool;
}.
(** internal/api/api.go:1095-1101, GroupMemberDTO.  Its JSON tags. *)
Definition member_json (m : GroupMemberDTO) : json :=
  JObj [("stableID", JStr (md_StableID m)); ("name", JStr (md_Name m)); ("ip", JStr (md_IP m));
        ("online", JBool (md_Online m)); ("present", JBool (md_Present m))].

(** internal/api/api.go:1105-1110, GroupViewDTO. *)
Record GroupViewDTO := mkGroupViewDTO {
  vd_ID : string;
  vd_Name : string;
  vd_Consumers : list GroupMemberDTO;
  vd_AllowedExitNodes : list GroupMemberDTO;
}.
(** internal/api/api.go:1105-1110, GroupViewDTO.  Its JSON tags. *)
Definition groupView_json (g : GroupViewDTO) : json :=
  JObj [("id", JStr (vd_ID g)); ("name", JStr (vd_Name g));
        ("consumers", JArr (member_json <$> vd_Consumers g));
        ("allowedExitNodes", JArr (member_json <$> vd_AllowedExitNodes g))].

(** internal/api/api.go:1113-1120, SnapshotDTO. *)
Record SnapshotDTO := mkSnapshotDTO {
  sn_Nodes : list NodeDTO;
  sn_Routers : list RouterViewDTO;
  sn_Groups : list GroupViewDTO;
  sn_NetmapAt : string;
  sn_NetmapErr : string;
  sn_BuiltAt : string;
}.
(** internal/api/api.go:1113-1120, SnapshotDTO.  Its JSON tags. *)
Definition snapshot_json (s : SnapshotDTO) : json :=
  JObj [("nodes", JArr (node_json <$> sn_Nodes s)); ("routers", JArr (routerView_json <$> sn_Routers s));
        ("groups", JArr (groupView_json <$> sn_Groups s)); ("netmapAt", JStr (sn_NetmapAt s));
        ("netmapErr", JStr (sn_NetmapErr s)); ("builtAt", JStr (sn_BuiltAt s))].

(** internal/api/api.go:1123-1127, NodesResponse. *)
Record NodesResponse := mkNodesResponse {
  nr_Nodes : list NodeDTO;
  nr_BuiltAt : string;
  nr_NetmapErr : string;
}.
(** internal/api/api.go:1123-1127, NodesResponse.  Its JSON tags. *)
Definition nodesResponse_json (r : NodesResponse) : json :=
  JObj [("nodes", JArr (node_json <$> nr_Nodes r)); ("builtAt", JStr (nr_BuiltAt r));
        ("netmapErr", JStr (nr_NetmapErr r))].

(** internal/api/api.go:1132-1136, MeResponse. *)
Record MeResponse := mkMeResponse { me_Role : string; me_ZoneID : string; me_ZoneName : string }.
(** internal/api/api.go:1132-1136, MeResponse.  Its JSON tags. *)
Definition me_json (m : MeResponse) : json :=
  JObj [("role", JStr (me_Role m)); ("zoneId", JStr (me_ZoneID m)); ("zoneName", JStr (me_ZoneName m))].

(** internal/api/api.go:1140-1146, GuestDTO. *)
Record GuestDTO := mkGuestDTO {
  td_ID : string;
  td_Label : string;
  td_ZoneID : string;
  td_Disabled : bool;
  td_CreatedAt : string;
}.
(** internal/api/api.go:1140-1146, GuestDTO.  Its JSON tags. *)
Definition guest_json (g : GuestDTO) : json :=
  JObj [("id", JStr (td_ID g)); ("label", JStr (td_Label g)); ("zoneId", JStr (td_ZoneID g));
        ("disabled", JBool (td_Disabled g)); ("createdAt", JStr (td_CreatedAt g))].

(** ** From the store's types *)

(** internal/api/api.go:1148-1169, nodeDTO. *)
Definition nodeDTO (n : NodeView) : NodeDTO :=
  mkNodeDTO (nv_StableID n) (nv_Name n) (nv_Hostname n) (nv_TailscaleIPs n) (nv_OS n) (nv_Online n)
    (rfc3339 (nv_LastSeen n)) (nv_ExitNodeOption n) (nv_Tags n) (type_string (nv_Type n)).

(** internal/api/api.go:1171-1177, nodeDTOs. *)
Definition nodeDTOs (ns : list NodeView) : list NodeDTO := nodeDTO <$> ns.

(** internal/api/api.go:1179-1184, exitRefDTO. *)
Definition exitRefDTO (r : option ExitNodeRef) : option ExitNodeRefDTO :=
  match r with
  | None => None
  | Some r => Some (mkExitNodeRefDTO (ref_StableID r) (ref_Name r) (ref_IP r))
  end.

(** internal/api/api.go:1186-1205, routerViewDTO. *)
Definition routerViewDTO (rv : RouterView) : RouterViewDTO :=
  mkRouterViewDTO (nodeDTO (rv_Node rv)) (exitRefDTO (rv_CurrentExitNode rv))
    (exitRefDTO (rv_Desired rv)) (state_string (rv_State rv))
    (mkRouterStatsDTO (st_RxBytes (rv_Stats rv)) (st_TxBytes (rv_Stats rv))
       (rfc3339 (st_LastHandshake (rv_Stats rv))))
    (rv_Reachable rv) (rv_LastError rv) (rfc3339 (rv_LastConfirmedAt rv)) (rfc3339 (rv_RevertAt rv))
    (rv_EgressOK rv) (rv_EgressDetail rv) (rfc3339 (rv_EgressCheckedAt rv)).

(** internal/api/api.go:1208-1223, groupDTO. *)
Definition groupDTO (g : Group) : GroupDTO :=
  mkGroupDTO (g_ID g) (g_Name g) (g_Consumers g) (g_AllowedExitNodes g).

(** internal/api/api.go:1225-1231, groupDTOs. *)
Definition groupDTOs (gs : list Group) : list GroupDTO := groupDTO <$> gs.

(** internal/api/api.go:1234-1242, guestDTO. *)
Definition guestDTO (g : Guest) : GuestDTO :=
  mkGuestDTO (gst_ID g) (gst_Label g) (gst_ZoneID g) (gst_Disabled g) (rfc3339 (gst_CreatedAt g)).

(** internal/api/api.go:1244-1250, guestDTOs. *)
Definition guestDTOs (gs : list Guest) : list GuestDTO := guestDTO <$> gs.

(** internal/api/api.go:1252-1264, groupMemberDTOs. *)
Definition groupMemberDTOs (ms : list GroupMember) : list GroupMemberDTO :=
  (λ m, mkGroupMemberDTO (gm_StableID m) (gm_Name m) (gm_IP m) (gm_Online m) (gm_Present m)) <$> ms.

(** internal/api/api.go:1266-1277, groupViewDTOs. *)
Definition groupViewDTOs (gvs : list GroupView) : list GroupViewDTO :=
  (λ gv, mkGroupViewDTO (gv_ID gv) (gv_Name gv) (groupMemberDTOs (gv_Consumers gv))
           (groupMemberDTOs (gv_AllowedExitNodes gv))) <$> gvs.

(** internal/api/api.go:1279-1292, snapshotDTO. *)
Definition snapshotDTO (s : Snapshot) : SnapshotDTO :=
  mkSnapshotDTO (nodeDTOs (snap_Nodes s)) (routerViewDTO <$> snap_Routers s)
    (groupViewDTOs (snap_Groups s)) (rfc3339 (snap_NetmapAt s)) (snap_NetmapErr s)
    (rfc3339 (snap_BuiltAt s)).

(** internal/store/types.go:137-143, ProbeResult.  Its JSON tags. *)
Definition probe_json `{JSONText} (r : ProbeResult) : json :=
  JObj ([("ok", JBool (pr_OK r))] ++
        (if pr_DurationMs r =? 0 then [] else [("durationMs", jint (pr_DurationMs r))]) ++
        omit_str "output" (pr_Output r) ++ omit_str "error" (pr_Error r) ++
        [("checkedAt", JStr (time_format (pr_CheckedAt r)))]).

(** internal/api/api.go:1296-1298, EncodeSnapshot.  Encoding these values cannot fail. *)
Definition EncodeSnapshot `{JSONText} (s : Snapshot) : error + string :=
  inr (json_compact (snapshot_json (snapshotDTO s))).
