(* ===== verification/WireFacts.v ===== *)
(** What a reader of the wire gets back: every time to the second, and every field of a
    snapshot that is sent. *)

From S2P Require Import Prelude GoStd Errors Store Json Wire.

(** ** Calendar *)

(** The day number of a proleptic Gregorian date, counted from January 1, year 1. *)
Definition days_of (y m d : Z) : Z :=
  let y := y - (if m <=? 2 then 1 else 0) in
  let mp := if m <=? 2 then m + 9 else m - 3 in
  let yoe := y mod 400 in
  y / 400 * 146097 + (yoe * 365 + yoe / 4 - yoe / 100 + ((153 * mp + 2) / 5 + d - 1)) - 306.

(** The date of a day leads back to the day, and is the date of a year of four digits. *)
Lemma civil_days day :
  0 <= day < 3652059 →
  let '(y, m, d) := civil day in
  days_of y m d = day ∧ 1 <= y <= 9999 ∧ 1 <= m <= 12 ∧ 1 <= d <= 31.
Proof.
  intros Hday. unfold civil.
  set (z := day + 306). set (era := z / 146097). set (doe := z mod 146097).
  set (yoe := (doe - doe / 1460 + doe / 36524 - doe / 146096) / 365).
  set (doy := doe - (365 * yoe + yoe / 4 - yoe / 100)). set (mp := (5 * doy + 2) / 153).
  assert (Hz : z = era * 146097 + doe ∧ 0 <= doe < 146097) by (subst era doe; clearbody z; Z.to_euclidean_division_equations; lia).
  assert (Hy : 0 <= yoe < 400 ∧ 0 <= doy <= 365)
    by (subst doy yoe; clearbody doe; clear - Hz; destruct Hz as [_ Hz];
        split; Z.to_euclidean_division_equations; lia).
  assert (Hm : 0 <= mp <= 11 ∧ 0 <= doy - (153 * mp + 2) / 5 <= 30 ∧ (10 <= mp ↔ 306 <= doy))
    by (subst mp; clearbody doy; clear - Hy; Z.to_euclidean_division_equations; lia).
  clearbody mp. set (m := if mp <? 10 then mp + 3 else mp - 9).
  assert (Hmp : 1 <= m <= 12 ∧ (if m <=? 2 then m + 9 else m - 3) = mp ∧
                ((if m <=? 2 then 1 else 0) = if 10 <=? mp then 1 else 0))
    by (subst m; repeat case_match; lia).
  destruct Hmp as (Hm12 & Hmp & Hind). clearbody m. unfold days_of. rewrite Hmp, Hind.
  assert (Hyear : era * 400 + yoe + (if 10 <=? mp then 1 else 0) - (if 10 <=? mp then 1 else 0) = yoe + era * 400)
    by lia.
  rewrite Hyear, Z.div_add, Z.mod_add, (Z.div_small yoe), (Z.mod_small yoe) by lia.
  split; [subst doy; lia |]. split; [| split; [done | lia]].
  assert (Hstart : doe = doy + (365 * yoe + yoe / 4 - yoe / 100)) by (subst doy; lia).
  clearbody doy yoe doe era. subst z. destruct (Z.leb_spec 10 mp); Z.to_euclidean_division_equations; lia.
Qed.

(** ** Times *)

(** The number in [n] columns from [i]. *)
Definition num_at (i n : nat) (l : list ascii) : option Z := digits_val 0 (take n (drop i l)).

(** A reader of the time format of the wire. *)
Definition read_columns (l : list ascii) : option Time :=
  y ← num_at 0 4 l; m ← num_at 5 2 l; d ← num_at 8 2 l;
  h ← num_at 11 2 l; n ← num_at 14 2 l; s ← num_at 17 2 l;
  Some ((days_of y m d * 86400 + h * 3600 + n * 60 + s) * Second).
Definition read_time (s : string) : option Time :=
  match chars s with [] => Some zeroTime | l => read_columns l end.

(** [n] columns that hold the number [z]. *)
Definition holds (n : nat) (z : Z) (s : string) : bool :=
  (List.length (chars s) =? n)%nat && bool_decide (digits_val 0 (chars s) = Some z).

Fixpoint all_from (z : Z) (n : nat) (f : Z → bool) : bool :=
  match n with O => true | S n' => f z && all_from (z + 1) n' f end.
Lemma all_from_sound n f z0 z :
  all_from z0 n f = true → z0 <= z < z0 + Z.of_nat n → f z = true.
Proof.
  revert z0. induction n as [| n IH]; intros z0; simpl; [lia |].
  intros [H0 Hn]%andb_true_iff Hz. destruct (decide (z = z0)) as [-> |]; [done |].
  apply (IH (z0 + 1)); [done | lia].
Qed.

Lemma holds_digits2 z : 0 <= z < 100 → holds 2 z (digits2 z) = true.
Proof. apply (all_from_sound 100 (λ z, holds 2 z (digits2 z)) 0). vm_compute. reflexivity. Qed.

(** The four columns of a year: two pairs of columns. *)
Lemma holds_digits4 z : 0 <= z < 10000 → holds 4 z (digits4 z) = true.
Proof. apply (all_from_sound 10000 (λ z, holds 4 z (digits4 z)) 0). vm_compute. reflexivity. Qed.

Lemma holds_inv n z s :
  holds n z s = true → List.length (chars s) = n ∧ digits_val 0 (chars s) = Some z.
Proof. by intros [->%Nat.eqb_eq H%bool_decide_eq_true]%andb_true_iff. Qed.

Lemma read_columns_text Y M D H N S y m d h n s :
  holds 4 y Y = true → holds 2 m M = true → holds 2 d D = true →
  holds 2 h H = true → holds 2 n N = true → holds 2 s S = true →
  read_time (Y +:+ "-" +:+ M +:+ "-" +:+ D +:+ "T" +:+ H +:+ ":" +:+ N +:+ ":" +:+ S +:+ "Z")
  = Some ((days_of y m d * 86400 + h * 3600 + n * 60 + s) * Second).
Proof.
  intros [Ly Vy]%holds_inv [Lm Vm]%holds_inv [Ld Vd]%holds_inv [Lh Vh]%holds_inv [Ln Vn]%holds_inv
    [Ls Vs]%holds_inv.
  unfold read_time. rewrite !chars_app.
  destruct (chars Y) as [| ? [| ? [| ? [| ? []]]]]; try done.
  destruct (chars M) as [| ? [| ? []]]; try done. destruct (chars D) as [| ? [| ? []]]; try done.
  destruct (chars H) as [| ? [| ? []]]; try done. destruct (chars N) as [| ? [| ? []]]; try done.
  destruct (chars S) as [| ? [| ? []]]; try done.
  cbn [app]. unfold read_columns, num_at. cbn [take drop list_ascii_of_string chars app].
  by rewrite Vy, Vm, Vd, Vh, Vn, Vs.
Qed.

(** A time of the wire reads back as that time, to the second. *)
Lemma read_time_rfc3339 t :
  0 <= t < 3652059 * 86400 * Second → read_time (rfc3339 t) = Some (t - t mod Second).
Proof.
  intros Ht. unfold rfc3339, IsZero. destruct (Z.eqb_spec t zeroTime) as [-> | Hne]; [done |].
  unfold format_rfc3339. set (secs := t / Second). set (s := secs mod 86400).
  assert (Hs : 0 <= secs < 3652059 * 86400 ∧ t - t mod Second = secs * Second)
    by (subst secs; unfold Second in *; Z.to_euclidean_division_equations; lia).
  assert (Hd : 0 <= secs / 86400 < 3652059 ∧ 0 <= s < 86400 ∧ secs = secs / 86400 * 86400 + s)
    by (subst s; clearbody secs; Z.to_euclidean_division_equations; lia).
  assert (Hh : 0 <= s / 3600 < 100 ∧ 0 <= s mod 3600 / 60 < 100 ∧ 0 <= s mod 60 < 100 ∧
               s = s / 3600 * 3600 + s mod 3600 / 60 * 60 + s mod 60)
    by (clearbody s; Z.to_euclidean_division_equations; lia).
  destruct Hs as [_ ->], Hd as (Hd & _ & Hsecs), Hh as (Hh & Hn & Hss & Hsum).
  pose proof (civil_days _ Hd) as Hc. destruct (civil (secs / 86400)) as [[y m] d].
  destruct Hc as (Hdays & Hy & Hm & Hdd).
  rewrite (read_columns_text _ _ _ _ _ _ y m d (s / 3600) (s mod 3600 / 60) (s mod 60));
    [| apply holds_digits4; lia | apply holds_digits2; lia ..].
  rewrite Hdays. f_equal. lia.
Qed.

(** ** Readers

    A reader of an object takes the fields it knows; a missing field is the zero value. *)

Definition field (name : string) (v : json) : json :=
  match v with
  | JObj fs => default JNull (snd <$> List.find (λ f, String.eqb (fst f) name) fs)
  | _ => JNull
  end.
Definition read_string (v : json) : option string :=
  match v with JStr s => Some s | JNull => Some "" | _ => None end.
Definition read_bool (v : json) : option bool :=
  match v with JBool b => Some b | JNull => Some false | _ => None end.
Definition read_int (v : json) : option Z :=
  match v with JNum lit => Atoi lit | JNull => Some 0 | _ => None end.
Definition read_list {A} (read : json → option A) (v : json) : option (list A) :=
  match v with JArr l => mapM read l | JNull => Some [] | _ => None end.
Definition read_option {A} (read : json → option A) (v : json) : option (option A) :=
  match v with JNull => Some None | _ => Some <$> read v end.
Definition read_instant (v : json) : option Time := s ← read_string v; read_time s.

Definition read_type (s : string) : NodeType :=
  if String.eqb s "exit-node" then NodeExitNode else if String.eqb s "router" then NodeRouter else NodeGeneric.
Definition read_state (s : string) : option RouterState :=
  List.find (λ x, String.eqb (state_string x) s)
    [RouterStateZero; RouterOK; RouterPending; RouterUnconfirmed; RouterUnreachable; RouterAwaitingKeep;
     RouterUnprobed].

Definition read_node (v : json) : option NodeView :=
  id ← read_string (field "stableID" v); name ← read_string (field "name" v);
  host ← read_string (field "hostname" v); ips ← read_list read_string (field "tailscaleIPs" v);
  os ← read_string (field "os" v); online ← read_bool (field "online" v);
  seen ← read_instant (field "lastSeen" v); exit ← read_bool (field "exitNodeOption" v);
  tags ← read_list read_string (field "tags" v); type ← read_string (field "type" v);
  Some (mkNodeView id name host ips os online seen exit tags (read_type type) false).
Definition read_ref (v : json) : option ExitNodeRef :=
  id ← read_string (field "stableID" v); name ← read_string (field "name" v);
  ip ← read_string (field "ip" v); Some (mkExitNodeRef id name ip).
Definition read_stats (v : json) : option RouterStats :=
  rx ← read_int (field "rxBytes" v); tx ← read_int (field "txBytes" v);
  hs ← read_instant (field "lastHandshake" v); Some (mkRouterStats rx tx hs).
Definition read_router (v : json) : option RouterView :=
  node ← read_node (field "node" v); current ← read_option read_ref (field "currentExitNode" v);
  desired ← read_option read_ref (field "desired" v);
  state ← (s ← read_string (field "state" v); read_state s);
  stats ← read_stats (field "stats" v); reachable ← read_bool (field "reachable" v);
  err ← read_string (field "lastError" v); confirmed ← read_instant (field "lastConfirmedAt" v);
  revert ← read_instant (field "revertAt" v); ok ← read_option read_bool (field "egressOk" v);
  detail ← read_string (field "egressDetail" v); checked ← read_instant (field "egressCheckedAt" v);
  Some (mkRouterView node current desired state stats reachable err confirmed zeroTime revert ok detail checked).
Definition read_member (v : json) : option GroupMember :=
  id ← read_string (field "stableID" v); name ← read_string (field "name" v);
  ip ← read_string (field "ip" v); online ← read_bool (field "online" v);
  present ← read_bool (field "present" v); Some (mkGroupMember id name ip online present).
Definition read_zone (v : json) : option GroupView :=
  id ← read_string (field "id" v); name ← read_string (field "name" v);
  consumers ← read_list read_member (field "consumers" v);
  allowed ← read_list read_member (field "allowedExitNodes" v); Some (mkGroupView id name consumers allowed).
Definition read_snapshot (v : json) : option Snapshot :=
  nodes ← read_list read_node (field "nodes" v); routers ← read_list read_router (field "routers" v);
  zones ← read_list read_zone (field "groups" v); at_ ← read_instant (field "netmapAt" v);
  err ← read_string (field "netmapErr" v); built ← read_instant (field "builtAt" v);
  Some (mkSnapshot nodes routers zones at_ err built).

(** ** What is sent

    Times are cut to the second; a node's self mark and the instant a selection was asked for stay
    in the process. *)

Definition secs (t : Time) : Time := t - t mod Second.
Definition sent_node (n : NodeView) : NodeView :=
  mkNodeView (nv_StableID n) (nv_Name n) (nv_Hostname n) (nv_TailscaleIPs n) (nv_OS n) (nv_Online n)
    (secs (nv_LastSeen n)) (nv_ExitNodeOption n) (nv_Tags n) (nv_Type n) false.
Definition sent_stats (s : RouterStats) : RouterStats :=
  mkRouterStats (st_RxBytes s) (st_TxBytes s) (secs (st_LastHandshake s)).
Definition sent_router (rv : RouterView) : RouterView :=
  mkRouterView (sent_node (rv_Node rv)) (rv_CurrentExitNode rv) (rv_Desired rv) (rv_State rv)
    (sent_stats (rv_Stats rv)) (rv_Reachable rv) (rv_LastError rv) (secs (rv_LastConfirmedAt rv)) zeroTime
    (secs (rv_RevertAt rv)) (rv_EgressOK rv) (rv_EgressDetail rv) (secs (rv_EgressCheckedAt rv)).
Definition sent (s : Snapshot) : Snapshot :=
  mkSnapshot (sent_node <$> snap_Nodes s) (sent_router <$> snap_Routers s) (snap_Groups s)
    (secs (snap_NetmapAt s)) (snap_NetmapErr s) (secs (snap_BuiltAt s)).

(** Times of the years 1 to 9999, and counters of 64 bits. *)
Definition time_ok (t : Time) : Prop := 0 <= t < 3652059 * 86400 * Second.
Definition int64 (z : Z) : Prop := - 2 ^ 63 <= z < 2 ^ 63.
Definition node_ok (n : NodeView) : Prop := time_ok (nv_LastSeen n).
Definition router_ok (rv : RouterView) : Prop :=
  node_ok (rv_Node rv) ∧ int64 (st_RxBytes (rv_Stats rv)) ∧ int64 (st_TxBytes (rv_Stats rv)) ∧
  time_ok (st_LastHandshake (rv_Stats rv)) ∧ time_ok (rv_LastConfirmedAt rv) ∧ time_ok (rv_RevertAt rv) ∧
  time_ok (rv_EgressCheckedAt rv).
Definition snapshot_ok (s : Snapshot) : Prop :=
  Forall node_ok (snap_Nodes s) ∧ Forall router_ok (snap_Routers s) ∧
  time_ok (snap_NetmapAt s) ∧ time_ok (snap_BuiltAt s).

(** ** Round trips *)

Lemma Atoi_int64 z : int64 z → Atoi (itoa z) = Some z.
Proof.
  intros Hz. unfold int64 in Hz. destruct (decide (0 <= z)); [apply Atoi_itoa; lia |].
  unfold Atoi. assert (chars (itoa z) = "-"%char :: chars (itoa (- z))) as ->.
  { unfold itoa, pretty, pretty_Z. destruct z; [lia | lia | done]. }
  destruct (itoa_digits (- z)) as (_ & Hne & Hv); [lia |]. rewrite Ascii.eqb_refl.
  destruct (chars (itoa (- z))); [done |]. rewrite Hv. simpl.
  rewrite Z.opp_involutive, (proj2 (Z.leb_le _ _)), (proj2 (Z.ltb_lt _ _)) by lia. done.
Qed.

Lemma read_list_map {A B} (read : json → option B) (enc : A → json) (f : A → B) l :
  Forall (λ x, read (enc x) = Some (f x)) l → read_list read (JArr (enc <$> l)) = Some (f <$> l).
Proof. intros H. by apply mapM_Some, Forall2_fmap, Forall_Forall2_diag. Qed.
Lemma read_strings l : read_list read_string (jstrs l) = Some l.
Proof.
  unfold jstrs. rewrite (read_list_map read_string JStr id); [by rewrite list_fmap_id |].
  apply Forall_true. reflexivity.
Qed.
Lemma read_instant_rfc3339 t : time_ok t → read_instant (JStr (rfc3339 t)) = Some (secs t).
Proof. intros Ht. by apply read_time_rfc3339. Qed.

Lemma read_int_jint z : int64 z → read_int (jint z) = Some z.
Proof. apply Atoi_int64. Qed.
Lemma read_state_string st : read_state (state_string st) = Some st.
Proof. by destruct st. Qed.
Lemma read_type_string t : read_type (type_string t) = t.
Proof. by destruct t. Qed.

#[local] Arguments read_instant : simpl never.
#[local] Arguments read_list : simpl never.
#[local] Arguments read_int : simpl never.
#[local] Arguments read_state : simpl never.
#[local] Arguments jstrs : simpl never.
#[local] Arguments jint : simpl never.

Lemma read_node_json n : node_ok n → read_node (node_json (nodeDTO n)) = Some (sent_node n).
Proof.
  intros Hn. unfold read_node. simpl. rewrite read_strings. simpl.
  rewrite (read_instant_rfc3339 _ Hn). simpl. rewrite read_strings. simpl. by rewrite read_type_string.
Qed.

Lemma read_ref_json r : read_option read_ref (exitRef_json (exitRefDTO r)) = Some r.
Proof. by destruct r as [[]|]. Qed.

Lemma read_member_json m :
  read_member (member_json (mkGroupMemberDTO (gm_StableID m) (gm_Name m) (gm_IP m) (gm_Online m) (gm_Present m))) = Some m.
Proof. by destruct m. Qed.

Lemma read_stats_json st :
  int64 (st_RxBytes st) → int64 (st_TxBytes st) → time_ok (st_LastHandshake st) →
  read_stats (stats_json (mkRouterStatsDTO (st_RxBytes st) (st_TxBytes st) (rfc3339 (st_LastHandshake st))))
  = Some (sent_stats st).
Proof.
  intros H1 H2 H3. unfold read_stats. simpl. rewrite (read_int_jint _ H1). simpl.
  rewrite (read_int_jint _ H2). simpl. by rewrite (read_instant_rfc3339 _ H3).
Qed.

#[local] Arguments read_node : simpl never.
#[local] Arguments read_stats : simpl never.
#[local] Arguments read_option : simpl never.
#[local] Arguments node_json : simpl never.
#[local] Arguments stats_json : simpl never.
#[local] Arguments exitRef_json : simpl never.

Lemma read_router_json rv :
  router_ok rv → read_router (routerView_json (routerViewDTO rv)) = Some (sent_router rv).
Proof.
  intros (Hn & Hrx & Htx & Hhs & Hc & Hr & He).
  pose proof (read_instant_rfc3339 _ Hr) as Rr. pose proof (read_instant_rfc3339 _ He) as Re.
  unfold read_router, routerView_json, omit_str.
  cbn [rd_RevertAt rd_EgressOK rd_EgressDetail rd_EgressCheckedAt routerViewDTO].
  destruct (String.eqb_spec (rfc3339 (rv_RevertAt rv)) "") as [Er | _];
    [rewrite Er in Rr; injection Rr as Zr |];
  (destruct (String.eqb_spec (rfc3339 (rv_EgressCheckedAt rv)) "") as [Ee | _];
    [rewrite Ee in Re; injection Re as Ze |]);
  destruct (String.eqb_spec (rv_EgressDetail rv) "") as [Ed |]; destruct (rv_EgressOK rv) eqn:Eo; simpl;
  rewrite (read_node_json _ Hn); simpl; rewrite !read_ref_json; simpl; rewrite read_state_string; simpl;
  rewrite (read_stats_json _ Hrx Htx Hhs); simpl; rewrite (read_instant_rfc3339 _ Hc); simpl;
  rewrite ?Rr; simpl; rewrite ?Re; unfold sent_router; by rewrite Eo, ?Ed, <- ?Zr, <- ?Ze.
Qed.

(** The one-line text of a value decodes to the value. *)
Definition compact_faithful `{JSONText} (v : json) : Prop := json_parse (json_compact v) = inr v.

Lemma read_zone_json gv :
  read_zone (groupView_json (mkGroupViewDTO (gv_ID gv) (gv_Name gv) (groupMemberDTOs (gv_Consumers gv))
    (groupMemberDTOs (gv_AllowedExitNodes gv)))) = Some gv.
Proof.
  unfold read_zone, groupMemberDTOs. simpl. rewrite <- !list_fmap_compose.
  rewrite !(read_list_map read_member _ id) by (apply Forall_true, read_member_json).
  simpl. rewrite !list_fmap_id. by destruct gv.
Qed.

(** The JSON value that a snapshot becomes is read back as what is sent of the snapshot. *)
Lemma read_snapshot_json s :
  snapshot_ok s → read_snapshot (snapshot_json (snapshotDTO s)) = Some (sent s).
Proof.
  intros (Hn & Hr & Ha & Hb). unfold read_snapshot, snapshot_json, snapshotDTO. simpl.
  unfold nodeDTOs. rewrite <- !list_fmap_compose.
  rewrite (read_list_map read_node _ sent_node); [| eapply Forall_impl; [exact Hn | apply read_node_json]]. simpl.
  rewrite (read_list_map read_router _ sent_router); [| eapply Forall_impl; [exact Hr | apply read_router_json]]. simpl.
  unfold groupViewDTOs. rewrite <- list_fmap_compose.
  rewrite (read_list_map read_zone _ id) by (apply Forall_true, read_zone_json). simpl. rewrite list_fmap_id.
  rewrite (read_instant_rfc3339 _ Ha). simpl. by rewrite (read_instant_rfc3339 _ Hb).
Qed.

(** C32: nothing is lost on the wire.  The text of a frame or of a REST answer is the text of a JSON
    value; for every snapshot whose times lie in the years 1 to 9999 and whose counters are 64-bit
    integers, a reader who parses that text and takes the documented fields gets the snapshot back:
    every node, router and resolved zone, in order, with the absent and the empty told apart where the
    program tells them apart (no selection, no egress check, a failed egress check), counters exactly
    and every time to the second.  Only a node's self mark and the instant a selection was asked for
    are not sent. *)
Theorem snapshot_wire_roundtrip `{JSONText} s :
  snapshot_ok s →
  compact_faithful (snapshot_json (snapshotDTO s)) →
  ∃ text, EncodeSnapshot s = inr text ∧
    match json_parse text with inr v => read_snapshot v | inl _ => None end = Some (sent s).
Proof.
  intros Hs Hp. eexists. split; [reflexivity |]. rewrite Hp. by apply read_snapshot_json.
Qed.
