(* ===== verification/Api.v ===== *)
(** [internal/api]: the middleware, the handlers and the routes, over the
    interfaces they are injected with. *)

From S2P Require Import Prelude GoStd Errors Store Netip Authz Json Session Wire.

(** ** Requests and responses *)

Record Request := mkRequest {
  r_Method : string;
  r_Host : string;
  r_RemoteAddr : string;
  r_Header : list (string * string);      (* canonical names *)
  r_Cookies : list (string * string);
  r_Path : list string;                   (* the segments of the cleaned path *)
  r_Body : string;
}.

(** [r.Header.Get] and [r.Cookie] *)
Definition assoc_first (l : list (string * string)) (k : string) : option string :=
  snd <$> List.find (λ kv, String.eqb (fst kv) k) l.
Definition HeaderGet (r : Request) (k : string) : string := default "" (assoc_first (r_Header r) k).
Definition Cookie (r : Request) (k : string) : option string := assoc_first (r_Cookies r) k.

Record SetCookie := mkSetCookie {
  sck_Name : string;
  sck_Value : string;
  sck_HttpOnly : bool;
  sck_Expires : option Time;
  sck_MaxAge : Z;
}.

Inductive Body := BJson (v : json) | BPlain (s : string) | BEmpty.
Record Response := mkResponse {
  rs_Status : Z;
  rs_Cookies : list SetCookie;
  rs_Body : Body;
}.

(** internal/api/api.go:1342-1348, writeJSON. *)
Definition writeJSON (status : Z) (v : json) : Response := mkResponse status [] (BJson v).

(** internal/api/api.go:1351-1353, writeErr. *)
Definition writeErr (status : Z) (msg : string) : Response :=
  writeJSON status (JObj [("error", JStr msg)]).

(** internal/api/api.go:1356-1362, writeErrDetail. *)
Definition writeErrDetail (status : Z) (errMsg detail stderr : string) : Response :=
  writeJSON status (JObj [("detail", JStr detail); ("error", JStr errMsg); ("stderr", JStr stderr)]).

(** ** What the API consumes

    The interfaces, and the handlers below, are over an effect [T]: a state transformer [M W]
    when a request is served alone, a tree of operations when requests are interleaved
    (Requests.v). *)

(** internal/api/api.go:48-50, WhoIser. *)
Class WhoIser (T : Type → Type) := { who_WhoIs : string → T (string * bool * option error)%type }.

(** internal/api/api.go:57-72, Controller. *)
Class Controller (T : Type → Type) := {
  ctl_SetExitNode : string → string → T (RouterView * option error)%type;
  ctl_Keep : string → T (RouterView * option error)%type;
  ctl_Probe : string → T (ProbeResult * option error)%type;
  ctl_RefreshGroups : T unit;
}.

(** internal/api/api.go:79-85, GroupStore. *)
Class GroupStore (T : Type → Type) := {
  gs_List : T (list Group);
  gs_Get : string → T (option Group);
  gs_Create : Group → T (error + Group)%type;
  gs_Update : string → Group → T (error + Group)%type;
  gs_Delete : string → T (error + unit)%type;
}.

(** internal/api/api.go:94-101, GuestStore. *)
Class GuestStore (T : Type → Type) := {
  gu_List : T (list Guest);
  gu_Get : string → T (option Guest);
  gu_Create : string → string → string → T (error + Guest)%type;
  gu_SetDisabled : string → bool → T (error + Guest)%type;
  gu_Delete : string → T (error + unit)%type;
  gu_Authenticate : string → string → T (option Guest);
}.

(** The snapshot cell, the clock and the random source of the process, and the
    delay of a failed login. *)
Class ApiWorld (T : Type → Type) := {
  aw_Load : T Snapshot;
  aw_Now : T Time;
  aw_Rand : nat → T (error + list Z)%type;
  aw_Sleep : Duration → T unit;
}.

(** [url.Parse]: the host of a URL, or [None] for an error. *)
Class URLParser := { url_Parse_Host : string → option string }.

(** internal/api/api.go:122-132, API.  The two stores may be absent. *)
Record API := mkAPI {
  api_groups : bool;
  api_guests : bool;
  api_owner : string;
  api_uiPassword : string;
  api_sessionSecret : list Z;
  api_allowedHosts : gset string;
}.

(** internal/api/api.go:277-277, loginFailDelay. *)
Definition loginFailDelay : Duration := 500 * Millisecond.

(** internal/api/api.go:833-840, containsStr. *)
Definition containsStr (ss : list string) (s : string) : bool :=
  existsb (λ x, String.eqb x s) ss.

(** internal/api/api.go:954-960, asHTTPStatus. *)
Definition asHTTPStatus (e : error) : option Z := as_HTTPStatus e.

(** internal/api/api.go:940-951, writeGroupErr. *)
Definition writeGroupErr (e : error) : Response :=
  writeErrDetail (default 422 (asHTTPStatus e)) (err_Error e) (default "" (as_Detail e)) "".

(** internal/api/api.go:676-697, handleSetExitNode.  The mapping of a controller error, shared by
    the three router handlers. *)
Definition writeControlErr (e : error) : Response :=
  writeErrDetail (default 502 (as_HTTPStatus e)) (err_Error e)
    (default "" (as_Detail e)) (default "" (as_Stderr e)).

Section api.
Context `{UT : UnicodeTables} `{JT : JSONText} `{UP : URLParser}.

(** [strings.Trim(s, "[]")] *)
Definition is_bracket (c : ascii) : bool := Ascii.eqb c "["%char || Ascii.eqb c "]"%char.
Fixpoint trim_left (l : list ascii) : list ascii :=
  match l with c :: l' => if is_bracket c then trim_left l' else l | [] => [] end.
Definition trim_brackets (s : string) : string :=
  of_chars (rev (trim_left (rev (trim_left (chars s))))).

(** internal/api/api.go:1311-1320, normalizeHost. *)
Definition normalizeHost (h : string) : string :=
  let h := ToLower (TrimSpace h) in
  if String.eqb h "" then ""
  else
    let h := match SplitHostPort h with inr (host, _) => host | inl _ => h end in
    trim_brackets h.

(** internal/api/api.go:143-165, New.  The allowlist and the fields; [secret] is the random
    session secret ([None]: the random source failed, and the process panics). *)
Definition New (owner uiPassword : string) (allowedHosts : list string) (groups guests : bool)
    (secret : error + list Z) : option API :=
  let allowed := list_to_set (List.filter (λ n, negb (String.eqb n "")) (map normalizeHost allowedHosts)) in
  match secret with
  | inl _ => None
  | inr secret => Some (mkAPI groups guests owner uiPassword secret allowed)
  end.

(** internal/api/api.go:1322-1329, API.hostAllowed. *)
Definition hostAllowed (a : API) (host : string) : bool :=
  let h := normalizeHost host in
  if String.eqb h "" then false else bool_decide (h ∈ api_allowedHosts a).

(** Decoding a request body: at most [limit] bytes, the first JSON value; an empty body leaves
    the zero value. *)
Definition decode_body {A} (limit : nat) (decode : json → error + A) (zero : A) (r : Request) : error + A :=
  match json_first (str_take limit (r_Body r)) with
  | None => inr zero
  | Some (inl e) => inl e
  | Some (inr v) => decode v
  end.
Definition str_field {A} (name : string) (set : string → A → A) (get : A → string)
    : string * (json → A → error + A) :=
  (name, λ v a, sum_map id (λ s, set s a) (decode_string (get a) v)).

Context {T : Type → Type} `{MR : MRet T} `{MB : MBind T}.
Context `{WI : !WhoIser T} `{CT : !Controller T} `{GS : !GroupStore T} `{GU : !GuestStore T}
  `{AW : !ApiWorld T}.
Variable a : API.

(** A handler: the request, the context the middleware left, the response. *)
Definition Handler : Type := Request → Ctx (T bool) → T Response.

(** internal/api/api.go:236-244, API.RequireHost. *)
Definition RequireHost (next : Handler) : Handler := λ r ctx,
  if negb (hostAllowed a (r_Host r)) then mret (writeErr 403 "bad Host header")
  else next r ctx.

(** internal/api/api.go:546-563, API.RequireCSRF.  The refusal of a state-changing request. *)
Definition csrf_error (r : Request) : option string :=
  let origin := HeaderGet r "Origin" in
  let sfs := HeaderGet r "Sec-Fetch-Site" in
  let hdr := HeaderGet r "X-Tsctl-Csrf" in
  if negb (String.eqb origin "") &&
     match url_Parse_Host origin with
     | None => true
     | Some h => negb (EqualFold (normalizeHost h) (normalizeHost (r_Host r)))
     end then Some "bad Origin"
  else if negb (String.eqb sfs "") && negb (String.eqb sfs "same-origin") && negb (String.eqb sfs "none")
  then Some "cross-site request blocked"
  else
    match Cookie r "tsctl_csrf" with
    | None => Some "invalid CSRF token"
    | Some c =>
        if String.eqb hdr "" || String.eqb c "" || negb (String.eqb hdr c)
        then Some "invalid CSRF token" else None
    end.
(** internal/api/api.go:540-566, API.RequireCSRF. *)
Definition RequireCSRF (next : Handler) : Handler := λ r ctx,
  if String.eqb (r_Method r) "GET" || String.eqb (r_Method r) "HEAD" then next r ctx
  else match csrf_error r with
       | Some msg => mret (writeErr 403 msg)
       | None => next r ctx
       end.

(** Reads of the stores that may be absent. *)
Definition groups_Get (id : string) : T (option Group) :=
  if api_groups a then gs_Get id else mret None.
Definition guests_Get (id : string) : T (option Guest) :=
  if api_guests a then gu_Get id else mret None.

(** internal/api/api.go:337-342, API.resolveSubject.  The tailnet path. *)
Definition is_owner (r : Request) : T bool :=
  if String.eqb (api_owner a) "" then mret false
  else
    '(login, tagged, err) ← who_WhoIs (r_RemoteAddr r);
    mret (match err with
          | None => negb tagged && negb (String.eqb login "") && String.eqb login (api_owner a)
          | Some _ => false
          end).

(** internal/api/api.go:336-367, API.resolveSubject. *)
Definition resolveSubject (r : Request) : T (option Subject) :=
  owner ← is_owner r;
  if owner : bool then mret (Some (mkSubject true "" ""))
  else
    now ← aw_Now;
    match parseSession (api_sessionSecret a) (Cookie r "tsctl_session") now with
    | None => mret None
    | Some sub =>
        if sub_Admin sub then mret (Some sub)
        else
          g ← guests_Get (sub_GuestID sub);
          match g with
          | None => mret None
          | Some g =>
              if gst_Disabled g then mret None
              else
                z ← groups_Get (gst_ZoneID g);
                match z with
                | None => mret None
                | Some _ => mret (Some (mkSubject false (gst_ID g) (gst_ZoneID g)))
                end
          end
    end.

(** internal/api/api.go:290-307, API.RequireAuth. *)
Definition RequireAuth (next : Handler) : Handler := λ r ctx,
  sub ← resolveSubject r;
  match sub with
  | None => mret (writeErr 401 "login required")
  | Some sub =>
      let ctx := WithSubject ctx sub in
      let ctx := WithRevalidate ctx (s ← resolveSubject r; mret (bool_decide (is_Some s))) in
      next r ctx
  end.

(** internal/api/api.go:314-323, API.RequireAdmin. *)
Definition RequireAdmin (next : Handler) : Handler := λ r ctx,
  let '(sub, ok) := SubjectFromContext ctx in
  if negb ok || negb (sub_Admin sub) then mret (writeErr 403 "admin only")
  else next r ctx.

(** internal/api/api.go:790-817, API.authorizeRouterWrite.  [None] allows; otherwise the refusal. *)
Definition authorizeRouterWrite (ctx : Ctx (T bool)) (routerID target : string) : T (option Response) :=
  let forbidden := mret (Some (writeErr 403 "forbidden")) in
  let '(sub, ok) := SubjectFromContext ctx in
  if negb ok then forbidden
  else if sub_Admin sub then mret None
  else
    g ← groups_Get (sub_ZoneID sub);
    match g with
    | None => forbidden
    | Some g =>
        if negb (containsStr (g_Consumers g) routerID) then forbidden
        else if negb (String.eqb target "") && negb (containsStr (g_AllowedExitNodes g) target) then forbidden
        else mret None
    end.

(** internal/api/api.go:821-830, API.routerInZone. *)
Definition routerInZone (zoneID routerID : string) : T bool :=
  g ← groups_Get zoneID;
  mret (match g with Some g => containsStr (g_Consumers g) routerID | None => false end).

Definition not_found (id : string) : Response :=
  writeErrDetail 404 "router not found" ("no router with id " +:+ id) "".
Definition bad_body (e : error) : Response :=
  writeErrDetail 400 "invalid request body" (err_Error e) "".
Definition ok_body : json := JObj [("ok", JBool true)].

(** ** Sessions *)

(** internal/api/api.go:461-464, API.handleLogin. *)
Record login_body := mkLogin { lb_Label : string; lb_Password : string }.
Definition decode_login (v : json) : error + login_body :=
  decode_struct [str_field "label" (λ s b, mkLogin s (lb_Password b)) lb_Label;
                 str_field "password" (λ s b, mkLogin (lb_Label b) s) lb_Password] v (mkLogin "" "").

Definition login_failed : T (Response + Subject)%type :=
  _ ← aw_Sleep loginFailDelay; mret (inl (writeErr 401 "invalid credentials")).

(** internal/api/api.go:472-500, API.handleLogin.  The subject the credentials stand for. *)
Definition login_subject (b : login_body) : T (Response + Subject)%type :=
  if String.eqb (TrimSpace (lb_Label b)) "" then
    if String.eqb (api_uiPassword a) "" then mret (inl (writeErr 404 "password login is disabled"))
    else if negb (String.eqb (lb_Password b) (api_uiPassword a)) then login_failed
    else mret (inr (mkSubject true "" ""))
  else if negb (api_guests a) then login_failed
  else
    g ← gu_Authenticate (lb_Label b) (lb_Password b);
    match g with
    | None => login_failed
    | Some g => mret (inr (mkSubject false (gst_ID g) (gst_ZoneID g)))
    end.

(** internal/api/api.go:460-516, API.handleLogin. *)
Definition handleLogin : Handler := λ r ctx,
  match decode_body 4096 decode_login (mkLogin "" "") r with
  | inl e => mret (bad_body e)
  | inr body =>
      s ← login_subject body;
      match s with
      | inl resp => mret resp
      | inr sub =>
          now ← aw_Now;
          nonce ← aw_Rand sessionNonceLen;
          match newSessionValue (api_sessionSecret a) sub now nonce with
          | inl _ => mret (writeErr 500 "could not create session")
          | inr val =>
              now' ← aw_Now;
              mret (mkResponse 200
                [mkSetCookie "tsctl_session" val true (Some (Add now' sessionTTL)) (sessionTTL / Second)]
                (BJson ok_body))
          end
      end
  end.

(** internal/api/api.go:520-531, API.handleLogout. *)
Definition handleLogout : Handler := λ r ctx,
  mret (mkResponse 200 [mkSetCookie "tsctl_session" "" true None (-1)] (BJson ok_body)).

(** internal/api/api.go:1332-1338, randomToken. *)
Definition randomToken : T (error + string)%type :=
  b ← aw_Rand 32%nat;
  mret (sum_map id hex_encode b).

(** internal/api/api.go:572-587, API.handleCSRF. *)
Definition handleCSRF : Handler := λ r ctx,
  tok ← randomToken;
  match tok with
  | inl _ => mret (writeErr 500 "could not generate CSRF token")
  | inr tok =>
      mret (mkResponse 200 [mkSetCookie "tsctl_csrf" tok false None 0] (BJson (JObj [("token", JStr tok)])))
  end.

(** ** Reads *)

(** internal/api/api.go:593-611, API.handleMe. *)
Definition handleMe : Handler := λ r ctx,
  let '(sub, ok) := SubjectFromContext ctx in
  if negb ok then mret (writeErr 401 "login required")
  else if sub_Admin sub then mret (writeJSON 200 (me_json (mkMeResponse "admin" "" "")))
  else
    g ← groups_Get (sub_ZoneID sub);
    let zoneName := match g with Some g => g_Name g | None => "" end in
    mret (writeJSON 200 (me_json (mkMeResponse "guest" (sub_ZoneID sub) zoneName))).

(** internal/api/api.go:617-632, API.handleNodes. *)
Definition handleNodes : Handler := λ r ctx,
  let '(sub, ok) := SubjectFromContext ctx in
  if negb ok then mret (writeErr 401 "login required")
  else
    snap ← aw_Load;
    let snap := if sub_Admin sub then snap else FilterSnapshotToZone snap (sub_ZoneID sub) in
    mret (writeJSON 200 (nodesResponse_json
            (mkNodesResponse (nodeDTOs (snap_Nodes snap)) (rfc3339 (snap_BuiltAt snap)) (snap_NetmapErr snap)))).

(** internal/api/api.go:637-656, API.handleRouter. *)
Definition handleRouter (id : string) : Handler := λ r ctx,
  let '(sub, ok) := SubjectFromContext ctx in
  if negb ok then mret (writeErr 401 "login required")
  else
    allowed ← (if sub_Admin sub then mret true else routerInZone (sub_ZoneID sub) id);
    if negb allowed then mret (not_found id)
    else
      snap ← aw_Load;
      match List.find (λ rv, String.eqb (nv_StableID (rv_Node rv)) id) (snap_Routers snap) with
      | Some rv => mret (writeJSON 200 (routerView_json (routerViewDTO rv)))
      | None => mret (not_found id)
      end.

(** ** Router operations *)

(** Run [k] when the write is allowed. *)
Definition authorized (ctx : Ctx (T bool)) (routerID target : string) (k : T Response) : T Response :=
  refusal ← authorizeRouterWrite ctx routerID target;
  match refusal with Some resp => mret resp | None => k end.
Definition respond {A} (dto : A → json) (res : A * option error) : T Response :=
  match res with
  | (_, Some e) => mret (writeControlErr e)
  | (v, None) => mret (writeJSON 200 (dto v))
  end.

Definition decode_exit_node (v : json) : error + string :=
  decode_struct [str_field "exitNode" (λ s _, s) id] v "".

(** internal/api/api.go:661-700, API.handleSetExitNode. *)
Definition handleSetExitNode (id : string) : Handler := λ r ctx,
  match decode_body 4096 decode_exit_node "" r with
  | inl e => mret (bad_body e)
  | inr exitNode =>
      authorized ctx id exitNode (res ← ctl_SetExitNode id exitNode; respond (λ rv, routerView_json (routerViewDTO rv)) res)
  end.

(** internal/api/api.go:706-734, API.handleKeep. *)
Definition handleKeep (id : string) : Handler := λ r ctx,
  authorized ctx id "" (res ← ctl_Keep id; respond (λ rv, routerView_json (routerViewDTO rv)) res).

(** internal/api/api.go:741-771, API.handleProbe. *)
Definition handleProbe (id : string) : Handler := λ r ctx,
  authorized ctx id "" (res ← ctl_Probe id; respond probe_json res).

(** ** Zones *)

(** internal/api/api.go:846-846, groupReqLimit. *)
Definition groupReqLimit : nat := Z.to_nat 65536.

(** internal/api/api.go:849-853, groupRequest. *)
Definition decode_group_request (v : json) : error + Group :=
  decode_struct
    [str_field "name" (λ s g, mkGroup "" s (g_Consumers g) (g_AllowedExitNodes g)) g_Name;
     ("consumers", λ v g, sum_map id (λ l, mkGroup "" (g_Name g) l (g_AllowedExitNodes g))
                            (decode_slice (decode_string "") v));
     ("allowedExitNodes", λ v g, sum_map id (λ l, mkGroup "" (g_Name g) (g_Consumers g) l)
                                   (decode_slice (decode_string "") v))] v zeroGroup.

(** internal/api/api.go:928-935, decodeGroupBody. *)
Definition decodeGroupBody (r : Request) : error + Group :=
  decode_body groupReqLimit decode_group_request zeroGroup r.

(** internal/api/api.go:856-858, API.handleListGroups. *)
Definition handleListGroups : Handler := λ r ctx,
  gs ← gs_List; mret (writeJSON 200 (JArr (group_json <$> groupDTOs gs))).

(** internal/api/api.go:862-878, API.handleCreateGroup. *)
Definition handleCreateGroup : Handler := λ r ctx,
  match decodeGroupBody r with
  | inl e => mret (bad_body e)
  | inr body =>
      res ← gs_Create body;
      match res with
      | inl e => mret (writeGroupErr e)
      | inr g => _ ← ctl_RefreshGroups; mret (writeJSON 201 (group_json (groupDTO g)))
      end
  end.

(** internal/api/api.go:882-899, API.handleUpdateGroup. *)
Definition handleUpdateGroup (id : string) : Handler := λ r ctx,
  match decodeGroupBody r with
  | inl e => mret (bad_body e)
  | inr body =>
      res ← gs_Update id body;
      match res with
      | inl e => mret (writeGroupErr e)
      | inr g => _ ← ctl_RefreshGroups; mret (writeJSON 200 (group_json (groupDTO g)))
      end
  end.

(** internal/api/api.go:906-923, API.handleDeleteGroup. *)
Definition handleDeleteGroup (id : string) : Handler := λ r ctx,
  guests ← (if api_guests a then gu_List else mret []);
  if existsb (λ g, String.eqb (gst_ZoneID g) id) guests then
    mret (writeErrDetail 409 "zone in use"
      "a guest is assigned to this zone; delete or reassign the guest first" "")
  else
    res ← gs_Delete id;
    match res with
    | inl e => mret (writeGroupErr e)
    | inr _ => _ ← ctl_RefreshGroups; mret (mkResponse 204 [] BEmpty)
    end.

(** ** Guests *)

(** internal/api/api.go:965-965, guestReqLimit. *)
Definition guestReqLimit : nat := Z.to_nat 16384.

Record guest_body := mkGuestBody { gb_Label : string; gb_ZoneID : string; gb_Password : string }.
Definition decode_guest_body (v : json) : error + guest_body :=
  decode_struct
    [str_field "label" (λ s b, mkGuestBody s (gb_ZoneID b) (gb_Password b)) gb_Label;
     str_field "zoneId" (λ s b, mkGuestBody (gb_Label b) s (gb_Password b)) gb_ZoneID;
     str_field "password" (λ s b, mkGuestBody (gb_Label b) (gb_ZoneID b) s) gb_Password]
    v (mkGuestBody "" "" "").

(** internal/api/api.go:970-972, API.handleListGuests. *)
Definition handleListGuests : Handler := λ r ctx,
  gs ← gu_List; mret (writeJSON 200 (JArr (guest_json <$> guestDTOs gs))).

(** internal/api/api.go:978-1005, API.handleCreateGuest. *)
Definition handleCreateGuest : Handler := λ r ctx,
  match decode_body guestReqLimit decode_guest_body (mkGuestBody "" "" "") r with
  | inl e => mret (bad_body e)
  | inr body =>
      let zoneID := TrimSpace (gb_ZoneID body) in
      if negb (api_groups a) then
        mret (writeErrDetail 422 "invalid guest" "no zones are configured" "")
      else
        z ← gs_Get zoneID;
        match z with
        | None => mret (writeErrDetail 422 "invalid guest" ("no zone with id " +:+ gb_ZoneID body) "")
        | Some _ =>
            res ← gu_Create (gb_Label body) zoneID (gb_Password body);
            match res with
            | inl e => mret (writeGroupErr e)
            | inr g => mret (writeJSON 201 (guest_json (guestDTO g)))
            end
        end
  end.

Definition decode_disabled (v : json) : error + bool :=
  decode_struct [("disabled", λ v b, decode_bool b v)] v false.

(** internal/api/api.go:1010-1024, API.handleSetGuestDisabled. *)
Definition handleSetGuestDisabled (id : string) : Handler := λ r ctx,
  match decode_body guestReqLimit decode_disabled false r with
  | inl e => mret (bad_body e)
  | inr disabled =>
      res ← gu_SetDisabled id disabled;
      match res with
      | inl e => mret (writeGroupErr e)
      | inr g => mret (writeJSON 200 (guest_json (guestDTO g)))
      end
  end.

(** internal/api/api.go:1028-1034, API.handleDeleteGuest. *)
Definition handleDeleteGuest (id : string) : Handler := λ r ctx,
  res ← gu_Delete id;
  match res with
  | inl e => mret (writeGroupErr e)
  | inr _ => mret (mkResponse 204 [] BEmpty)
  end.

(** ** Routes *)

(** [http.ServeMux]: a pattern is a method and a path whose segments are literals or
    wildcards; a wildcard stands for one non-empty segment. *)
Inductive Seg := Lit (s : string) | Wild.
Record Pattern := mkPattern {
  pt_method : string;
  pt_path : list Seg;
  pt_handler : list string → Handler;     (* of the segments the wildcards stand for *)
}.

Fixpoint match_path (segs : list Seg) (path : list string) : option (list string) :=
  match segs, path with
  | [], [] => Some []
  | Lit s :: segs', x :: path' => if String.eqb x s then match_path segs' path' else None
  | Wild :: segs', x :: path' =>
      if String.eqb x "" then None else cons x <$> match_path segs' path'
  | _, _ => None
  end.
(** A GET pattern also matches HEAD. *)
Definition method_matches (pattern m : string) : bool :=
  String.eqb pattern m || (String.eqb pattern "GET" && String.eqb m "HEAD").
Definition path_matches (r : Request) (p : Pattern) : bool :=
  bool_decide (is_Some (match_path (pt_path p) (r_Path r))).
Definition pattern_matches (r : Request) (p : Pattern) : bool :=
  method_matches (pt_method p) (r_Method r) && path_matches r p.
Definition run_pattern (p : Pattern) : Handler := λ r,
  pt_handler p (default [] (match_path (pt_path p) (r_Path r))) r.

(** The pattern that matches the request; one that matches the path but not the method is 405,
    none is 404.  No two of the program's patterns match the same request. *)
Definition mux (ps : list Pattern) : Handler := λ r ctx,
  match List.find (pattern_matches r) ps with
  | Some p => run_pattern p r ctx
  | None =>
      mret (if existsb (path_matches r) ps then mkResponse 405 [] (BPlain "Method Not Allowed")
            else mkResponse 404 [] (BPlain "404 page not found"))
  end.

Definition when {A} (b : bool) (l : list A) : list A := if b then l else [].
Definition id_of (h : string → Handler) : list string → Handler := λ ids, h (List.hd "" ids).

(** internal/api/api.go:184-218, API.Routes.  The data mux. *)
Definition data_patterns : list Pattern :=
  [mkPattern "GET" [Lit "api"; Lit "nodes"] (λ _, handleNodes);
   mkPattern "GET" [Lit "api"; Lit "routers"; Wild] (id_of handleRouter);
   mkPattern "POST" [Lit "api"; Lit "routers"; Wild; Lit "exit-node"] (id_of handleSetExitNode);
   mkPattern "POST" [Lit "api"; Lit "routers"; Wild; Lit "keep"] (id_of handleKeep);
   mkPattern "POST" [Lit "api"; Lit "routers"; Wild; Lit "probe"] (id_of handleProbe);
   mkPattern "GET" [Lit "api"; Lit "me"] (λ _, handleMe)] ++
  when (api_groups a)
    [mkPattern "GET" [Lit "api"; Lit "groups"] (λ _, RequireAdmin handleListGroups);
     mkPattern "POST" [Lit "api"; Lit "groups"] (λ _, RequireAdmin handleCreateGroup);
     mkPattern "PUT" [Lit "api"; Lit "groups"; Wild] (λ ids, RequireAdmin (id_of handleUpdateGroup ids));
     mkPattern "DELETE" [Lit "api"; Lit "groups"; Wild] (λ ids, RequireAdmin (id_of handleDeleteGroup ids))] ++
  when (api_guests a)
    [mkPattern "GET" [Lit "api"; Lit "guests"] (λ _, RequireAdmin handleListGuests);
     mkPattern "POST" [Lit "api"; Lit "guests"] (λ _, RequireAdmin handleCreateGuest);
     mkPattern "POST" [Lit "api"; Lit "guests"; Wild; Lit "disabled"]
       (λ ids, RequireAdmin (id_of handleSetGuestDisabled ids));
     mkPattern "DELETE" [Lit "api"; Lit "guests"; Wild] (λ ids, RequireAdmin (id_of handleDeleteGuest ids))].

(** internal/api/api.go:220-224, API.Routes.  The bootstrap endpoints. *)
Definition bootstrap_patterns : list Pattern :=
  [mkPattern "GET" [Lit "api"; Lit "csrf"] (λ _, handleCSRF);
   mkPattern "POST" [Lit "api"; Lit "login"] (λ _, handleLogin);
   mkPattern "POST" [Lit "api"; Lit "logout"] (λ _, handleLogout)].

(** internal/api/api.go:220-226, API.Routes.  The outer mux: a bootstrap endpoint, or anything
    else under /api/ behind [RequireAuth]. *)
Definition api_mux : Handler := λ r ctx,
  match List.find (pattern_matches r) bootstrap_patterns with
  | Some p => run_pattern p r ctx
  | None =>
      match r_Path r with
      | x :: rest =>
          if negb (String.eqb x "api") then mret (mkResponse 404 [] (BPlain "404 page not found"))
          else match rest with
               | [] => mret (mkResponse 301 [] BEmpty)
               | _ => RequireAuth (mux data_patterns) r ctx
               end
      | [] => mret (mkResponse 404 [] (BPlain "404 page not found"))
      end
  end.

(** internal/api/api.go:177-229, API.Routes. *)
Definition Routes : Handler := RequireHost (RequireCSRF api_mux).
End api.

(** ** Served alone

    The names of this file at the effect [M W] of a request that nothing interrupts, for the
    files that reason about one state [W]. *)
Module OnState.
Abbreviation who_WhoIs := (Api.who_WhoIs (T := M _)).
Abbreviation ctl_SetExitNode := (Api.ctl_SetExitNode (T := M _)).
Abbreviation ctl_Keep := (Api.ctl_Keep (T := M _)).
Abbreviation ctl_Probe := (Api.ctl_Probe (T := M _)).
Abbreviation ctl_RefreshGroups := (Api.ctl_RefreshGroups (T := M _)).
Abbreviation gs_List := (Api.gs_List (T := M _)).
Abbreviation gs_Get := (Api.gs_Get (T := M _)).
Abbreviation gs_Create := (Api.gs_Create (T := M _)).
Abbreviation gs_Update := (Api.gs_Update (T := M _)).
Abbreviation gs_Delete := (Api.gs_Delete (T := M _)).
Abbreviation gu_List := (Api.gu_List (T := M _)).
Abbreviation gu_Get := (Api.gu_Get (T := M _)).
Abbreviation gu_Create := (Api.gu_Create (T := M _)).
Abbreviation gu_SetDisabled := (Api.gu_SetDisabled (T := M _)).
Abbreviation gu_Delete := (Api.gu_Delete (T := M _)).
Abbreviation gu_Authenticate := (Api.gu_Authenticate (T := M _)).
Abbreviation aw_Load := (Api.aw_Load (T := M _)).
Abbreviation aw_Now := (Api.aw_Now (T := M _)).
Abbreviation aw_Rand := (Api.aw_Rand (T := M _)).
Abbreviation aw_Sleep := (Api.aw_Sleep (T := M _)).
Abbreviation Handler := (Api.Handler (T := M _)).
Abbreviation Pattern := (Api.Pattern (T := M _)).
Abbreviation groups_Get := (Api.groups_Get (T := M _)).
Abbreviation guests_Get := (Api.guests_Get (T := M _)).
Abbreviation is_owner := (Api.is_owner (T := M _)).
Abbreviation resolveSubject := (Api.resolveSubject (T := M _)).
Abbreviation RequireAuth := (Api.RequireAuth (T := M _)).
Abbreviation RequireAdmin := (Api.RequireAdmin (T := M _)).
Abbreviation login_subject := (Api.login_subject (T := M _)).
Abbreviation authorized := (Api.authorized (T := M _)).
Abbreviation respond := (Api.respond (T := M _)).
Abbreviation handleLogin := (Api.handleLogin (T := M _)).
Abbreviation handleMe := (Api.handleMe (T := M _)).
Abbreviation handleNodes := (Api.handleNodes (T := M _)).
Abbreviation handleRouter := (Api.handleRouter (T := M _)).
Abbreviation handleDeleteGroup := (Api.handleDeleteGroup (T := M _)).
Abbreviation handleCreateGuest := (Api.handleCreateGuest (T := M _)).
Abbreviation handleSetGuestDisabled := (Api.handleSetGuestDisabled (T := M _)).
Abbreviation data_patterns := (Api.data_patterns (T := M _)).
Abbreviation bootstrap_patterns := (Api.bootstrap_patterns (T := M _)).
Abbreviation run_pattern := (Api.run_pattern (T := M _)).
Abbreviation mux := (Api.mux (T := M _)).
Abbreviation api_mux := (Api.api_mux (T := M _)).
Abbreviation Routes := (Api.Routes (T := M _)).
End OnState.
