(* ===== verification/ApiFacts.v ===== *)
(** The API's security: what the middleware lets through, who a request is, and
    what a guest or an unauthenticated caller can change. *)

From S2P Require Import Prelude GoStd Errors Store Netip Authz Json Session Wire Api.
Import Api.OnState.

Section facts.
Context `{UT : UnicodeTables} `{JT : JSONText} `{UP : URLParser}.
Context {W : Type} `{WI : !WhoIser (M W)} `{CT : !Controller (M W)} `{GS : !GroupStore (M W)} `{GU : !GuestStore (M W)}
  `{AW : !ApiWorld (M W)}.
Variable a : API.

(** ** The gate *)

Definition reading (r : Request) : bool := String.eqb (r_Method r) "GET" || String.eqb (r_Method r) "HEAD".

(** A path of the API that is not one of the bootstrap endpoints. *)
Definition data_path (r : Request) : Prop :=
  ∃ x l, r_Path r = "api" :: x :: l ∧
    ∀ p, p ∈ Api.bootstrap_patterns (T := M W) a → pattern_matches r p = false.

Lemma csrf_error_None r :
  csrf_error r = None ↔
  (HeaderGet r "Origin" = "" ∨ ∃ h, url_Parse_Host (HeaderGet r "Origin") = Some h ∧
     EqualFold (normalizeHost h) (normalizeHost (r_Host r)) = true) ∧
  HeaderGet r "Sec-Fetch-Site" ∈ [""; "same-origin"; "none"] ∧
  HeaderGet r "X-Tsctl-Csrf" ≠ "" ∧ Cookie r "tsctl_csrf" = Some (HeaderGet r "X-Tsctl-Csrf").
Proof.
  unfold csrf_error. set (o := HeaderGet r "Origin"). set (s := HeaderGet r "Sec-Fetch-Site").
  set (h := HeaderGet r "X-Tsctl-Csrf"). rewrite !elem_of_cons, elem_of_nil.
  assert (negb (String.eqb o "") && match url_Parse_Host o with None => true
    | Some h => negb (EqualFold (normalizeHost h) (normalizeHost (r_Host r))) end = false ↔
    (o = "" ∨ ∃ h, url_Parse_Host o = Some h ∧ EqualFold (normalizeHost h) (normalizeHost (r_Host r)) = true))
    as Ho.
  { destruct (String.eqb_spec o ""); simpl; [naive_solver |].
    destruct (url_Parse_Host o) as [u |]; [| naive_solver]. rewrite negb_false_iff. naive_solver. }
  destruct (negb (String.eqb o "") && _); [naive_solver |].
  destruct (String.eqb_spec s ""), (String.eqb_spec s "same-origin"), (String.eqb_spec s "none"); simpl;
    try (split; [done | naive_solver]);
    (destruct (Cookie r "tsctl_csrf") as [c |]; [| naive_solver];
     destruct (String.eqb_spec h ""), (String.eqb_spec c ""), (String.eqb_spec h c); simpl; naive_solver).
Qed.

(** What [RequireAuth] runs. *)
Lemma RequireAuth_run next r ctx w :
  RequireAuth a next r ctx w =
  match resolveSubject a r w with
  | (None, w1) => (writeErr 401 "login required", w1)
  | (Some sub, w1) =>
      next r (mkCtx (Some sub) (Some (s ← resolveSubject a r; mret (bool_decide (is_Some s))))) w1
  end.
Proof.
  unfold Api.RequireAuth. unfold mbind at 1, M_bind at 1.
  by destruct (resolveSubject a r w) as [[sub |] w1].
Qed.

(** C28: the gate.  A request whose Host is not allowed is answered 403 and one that
    changes state without the double-submitted token, with a foreign Origin or from
    another site is answered 403, in both cases without any effect; a request for
    data that does not authenticate is answered 401 and does nothing but
    authenticate; and the token passes exactly when the header is present and is the
    cookie's value, the Origin (if any) is the request's host up to case and port, and
    the fetch site (if any) is same-origin or none. *)
Theorem Routes_gate r ctx w :
  (hostAllowed a (r_Host r) = false → Routes a r ctx w = (writeErr 403 "bad Host header", w)) ∧
  (hostAllowed a (r_Host r) = true → reading r = false → csrf_error r ≠ None →
   ∃ msg, Routes a r ctx w = (writeErr 403 msg, w)) ∧
  (hostAllowed a (r_Host r) = true → (reading r = true ∨ csrf_error r = None) → data_path r →
   fst (resolveSubject a r w) = None →
   Routes a r ctx w = (writeErr 401 "login required", snd (resolveSubject a r w))) ∧
  (csrf_error r = None ↔
   (HeaderGet r "Origin" = "" ∨ ∃ h, url_Parse_Host (HeaderGet r "Origin") = Some h ∧
      EqualFold (normalizeHost h) (normalizeHost (r_Host r)) = true) ∧
   HeaderGet r "Sec-Fetch-Site" ∈ [""; "same-origin"; "none"] ∧
   HeaderGet r "X-Tsctl-Csrf" ≠ "" ∧ Cookie r "tsctl_csrf" = Some (HeaderGet r "X-Tsctl-Csrf")).
Proof.
  split; [| split; [| split; [| apply csrf_error_None]]].
  - intros Hh. unfold Api.Routes, RequireHost. by rewrite Hh.
  - intros Hh Hr Hc. unfold Api.Routes, RequireHost, RequireCSRF. rewrite Hh. simpl.
    unfold reading in Hr. rewrite Hr. destruct (csrf_error r) as [msg |]; [by exists msg | done].
  - intros Hh Hr (x & l & Hp & Hno) Hres. unfold Api.Routes, RequireHost, RequireCSRF. rewrite Hh. simpl.
    assert (api_mux a r ctx w = (writeErr 401 "login required", snd (resolveSubject a r w))) as Hmux.
    { unfold Api.api_mux. destruct (List.find _ _) as [p |] eqn:Hf.
      - apply find_some_elem in Hf as [Hin Hm]. by rewrite (Hno _ Hin) in Hm.
      - rewrite Hp. simpl. unfold Api.RequireAuth, mbind, M_bind.
        destruct (resolveSubject a r w) as [[s |] w1]; [done |]. done. }
    unfold reading in Hr. destruct (String.eqb _ "GET" || _); [done |].
    destruct Hr as [? | ->]; done.
Qed.

(** Host pinning.  The allowlist admits a Host exactly when it is the same name as
    one of the configured hosts, whatever the case, the port, surrounding blanks and
    IPv6 brackets; an empty name is never admitted. *)
Theorem hostAllowed_exact owner pw hosts gr gu secret api h :
  New owner pw hosts gr gu secret = Some api →
  hostAllowed api h = true ↔
  normalizeHost h ≠ "" ∧ ∃ h', h' ∈ hosts ∧ normalizeHost h' = normalizeHost h.
Proof.
  unfold New. destruct secret as [e | secret]; [done |]. intros [= <-]. unfold hostAllowed.
  cbn [api_allowedHosts]. destruct (String.eqb_spec (normalizeHost h) ""); [naive_solver |].
  rewrite bool_decide_eq_true, elem_of_list_to_set, list_elem_of_In, List.filter_In, in_map_iff.
  setoid_rewrite list_elem_of_In. split.
  - intros [(h' & E & Hin) _]. eauto.
  - intros [_ (h' & Hin & E)]. split; [eauto |]. by apply negb_true_iff, String.eqb_neq.
Qed.

(** ** Who a request is *)

(** Authentication fails closed.  A request is an admin only when the local
    client identified its peer, without error, as the untagged configured owner, or
    when it carries an unexpired admin session; it is a guest only when it carries an
    unexpired session of a guest that exists and is not disabled at this moment and
    whose zone exists at this moment, and then it is bound to that guest's current
    zone, whatever the cookie was issued for. *)
Lemma resolveSubject_sound r w sub w' :
  resolveSubject a r w = (Some sub, w') →
  (sub_Admin sub = true ∧
     ((api_owner a ≠ "" ∧ ∃ w0, who_WhoIs (r_RemoteAddr r) w = ((api_owner a, false, None), w0)) ∨
      ∃ now, parseSession (api_sessionSecret a) (Cookie r "tsctl_session") now = Some sub)) ∨
  (sub_Admin sub = false ∧ ∃ now csub g w1 w2 w3,
     aw_Now (snd (is_owner a r w)) = (now, w1) ∧
     parseSession (api_sessionSecret a) (Cookie r "tsctl_session") now = Some csub ∧
     sub_Admin csub = false ∧ api_guests a = true ∧ api_groups a = true ∧
     gu_Get (sub_GuestID csub) w1 = (Some g, w2) ∧ gst_Disabled g = false ∧
     gs_Get (gst_ZoneID g) w2 = (w3, w') ∧ is_Some w3 ∧
     sub = mkSubject false (gst_ID g) (gst_ZoneID g)).
Proof.
  unfold Api.resolveSubject, mbind, M_bind, mret, M_ret. destruct (is_owner a r w) as [owner w1] eqn:Ho.
  destruct owner.
  { intros [= <- <-]. left. split; [done |]. left. unfold Api.is_owner, mbind, M_bind, mret, M_ret in Ho.
    destruct (String.eqb_spec (api_owner a) ""); [done |].
    destruct (who_WhoIs (r_RemoteAddr r) w) as [[[login tagged] err] w0]. split; [done |].
    exists w0. injection Ho as Ho <-. destruct err; [done |].
    apply andb_true_iff in Ho as [Ho ->%String.eqb_eq]. apply andb_true_iff in Ho as [Ht%negb_true_iff _].
    by rewrite Ht. }
  destruct (aw_Now w1) as [now w2] eqn:Hnow. destruct (parseSession _ _ now) as [csub |] eqn:Hp; [| done].
  destruct (sub_Admin csub) eqn:Ha.
  { intros [= <- <-]. left. split; [done |]. right. by exists now. }
  unfold Api.guests_Get, Api.groups_Get, mret, M_ret. destruct (api_guests a) eqn:Hgu; [| done].
  destruct (gu_Get (sub_GuestID csub) w2) as [[g |] w3] eqn:Hg; [| done].
  destruct (gst_Disabled g) eqn:Hd; [done |]. destruct (api_groups a) eqn:Hgr; [| done].
  destruct (gs_Get (gst_ZoneID g) w3) as [[z |] w4] eqn:Hz; [| done].
  intros [= <- <-]. right. split; [done |]. exists now, csub, g, w2, w3, (Some z).
  by repeat split.
Qed.

(** ** What a caller can change *)

(** A relation between worlds that every operation that only reads (or draws random
    numbers, or waits, or checks a password) respects; for instance, the same stores
    and the same routers. *)
Class Reads (R : W → W → Prop) : Prop := {
  reads_preorder : PreOrder R;
  reads_WhoIs : ∀ x w, R w (snd (who_WhoIs x w));
  reads_Now : ∀ w, R w (snd (aw_Now w));
  reads_Rand : ∀ n w, R w (snd (aw_Rand n w));
  reads_Sleep : ∀ d w, R w (snd (aw_Sleep d w));
  reads_Load : ∀ w, R w (snd (aw_Load w));
  reads_GroupGet : ∀ x w, R w (snd (gs_Get x w));
  reads_GuestGet : ∀ x w, R w (snd (gu_Get x w));
  reads_Authenticate : ∀ l p w, R w (snd (gu_Authenticate l p w));
}.

Section confined.
Context (R : W → W → Prop) `{RD : !Reads R}.
#[local] Existing Instance reads_preorder.

Definition frames {A} (m : M W A) : Prop := ∀ w, R w (snd (m w)).

Lemma frames_ret {A} (x : A) : frames (mret x).
Proof. intros w. reflexivity. Qed.

Lemma frames_bind {A B} (m : M W A) (k : A → M W B) :
  frames m → (∀ x, frames (k x)) → frames (m ≫= k).
Proof.
  intros Hm Hk w. unfold mbind, M_bind. specialize (Hm w). destruct (m w) as [x w1].
  etransitivity; [exact Hm | apply Hk].
Qed.

Lemma frames_groups_Get x : frames (groups_Get a x).
Proof. unfold Api.groups_Get. destruct (api_groups a); [intros w; apply reads_GroupGet | apply frames_ret]. Qed.

Lemma frames_guests_Get x : frames (guests_Get a x).
Proof. unfold Api.guests_Get. destruct (api_guests a); [intros w; apply reads_GuestGet | apply frames_ret]. Qed.

(** Split a computation into its reads. *)
Ltac reads :=
  repeat first
    [ apply frames_ret
    | apply frames_groups_Get | apply frames_guests_Get
    | (intros ?; first [apply reads_WhoIs | apply reads_Now | apply reads_Rand | apply reads_Sleep
                       | apply reads_Load | apply reads_GroupGet | apply reads_GuestGet
                       | apply reads_Authenticate])
    | apply frames_bind; [| intros ?]
    | case_match ].

Lemma frames_is_owner r : frames (is_owner a r).
Proof. unfold Api.is_owner. reads. Qed.

Lemma frames_resolveSubject r : frames (resolveSubject a r).
Proof. unfold Api.resolveSubject, Api.is_owner. reads. Qed.

Lemma frames_handleNodes r ctx : frames (handleNodes r ctx).
Proof. unfold Api.handleNodes. cbv zeta. reads. Qed.

Lemma frames_handleRouter id r ctx : frames (handleRouter a id r ctx).
Proof. unfold Api.handleRouter, routerInZone. reads. Qed.

Lemma frames_handleMe r ctx : frames (handleMe a r ctx).
Proof. unfold Api.handleMe. reads. Qed.

Lemma frames_bootstrap p ids r ctx : p ∈ bootstrap_patterns a → frames (pt_handler p ids r ctx).
Proof.
  unfold Api.bootstrap_patterns. rewrite !elem_of_cons, elem_of_nil. intros [-> | [-> | [-> | []]]]; simpl.
  - unfold handleCSRF, randomToken. reads.
  - unfold Api.handleLogin, Api.login_subject, login_failed. reads.
  - unfold handleLogout. reads.
Qed.

(** The write a guest of zone [z] can make: an operation on a router [id] the zone
    consumes, read from the store just before; a set only to an exit node the zone
    allows, or to none. *)
Definition guest_write (z : string) (r : Request) (w w' : W) : Prop :=
  ∃ id g w1 w2, R w w1 ∧ api_groups a = true ∧ gs_Get z w1 = (Some g, w2) ∧ id ∈ g_Consumers g ∧
    ((∃ target, r_Path r = ["api"; "routers"; id; "exit-node"] ∧
        decode_body 4096 decode_exit_node "" r = inr target ∧
        (target = "" ∨ target ∈ g_AllowedExitNodes g) ∧ w' = snd (ctl_SetExitNode id target w2)) ∨
     (r_Path r = ["api"; "routers"; id; "keep"] ∧ w' = snd (ctl_Keep id w2)) ∨
     (r_Path r = ["api"; "routers"; id; "probe"] ∧ w' = snd (ctl_Probe id w2))).

Lemma snd_bind {A B} (m : M W A) (k : A → M W B) w :
  (∀ x w1, snd (k x w1) = w1) → snd ((m ≫= k) w) = snd (m w).
Proof. intros Hk. unfold mbind, M_bind. destruct (m w). apply Hk. Qed.

Lemma respond_state {A} (dto : A → json) res w : snd (Api.respond (T := M W) dto res w) = w.
Proof. unfold Api.respond. by destruct res as [? []]. Qed.

(** The operation behind the authorization of a guest. *)
Lemma authorized_guest sub ctx id target (op : M W Response) w :
  ctx_subject ctx = Some sub → sub_Admin sub = false →
  R w (snd (authorized a ctx id target op w)) ∨
  ∃ g w2, api_groups a = true ∧ gs_Get (sub_ZoneID sub) w = (Some g, w2) ∧ id ∈ g_Consumers g ∧
    (target = "" ∨ target ∈ g_AllowedExitNodes g) ∧
    snd (authorized a ctx id target op w) = snd (op w2).
Proof.
  intros Hsub Hadm. unfold Api.authorized, authorizeRouterWrite, SubjectFromContext. rewrite Hsub. simpl.
  rewrite Hadm. unfold mbind, M_bind. pose proof (frames_groups_Get (sub_ZoneID sub) w) as Hf.
  destruct (groups_Get a (sub_ZoneID sub) w) as [[g |] w2] eqn:Hg; [| by left].
  destruct (containsStr (g_Consumers g) id) eqn:Hc; simpl; [| by left].
  apply existsb_eqb_elem in Hc. unfold Api.groups_Get in Hg.
  destruct (api_groups a); [| done].
  destruct (String.eqb_spec target "") as [-> | Hne]; simpl.
  - right. exists g, w2. repeat (split; [done |]). by split; [left |].
  - destruct (containsStr (g_AllowedExitNodes g) target) eqn:Ht; simpl; [| by left].
    apply existsb_eqb_elem in Ht. right. exists g, w2. repeat (split; [done |]). by split; [right |].
Qed.

Lemma match_router_op op path ids :
  match_path [Lit "api"; Lit "routers"; Wild; Lit op] path = Some ids →
  ∃ id, path = ["api"; "routers"; id; op] ∧ ids = [id].
Proof.
  destruct path as [| x1 [| x2 [| x3 [| x4 [| x5 path]]]]]; simpl;
    repeat match goal with |- context [String.eqb ?x ?y] => destruct (String.eqb_spec x y) end;
    subst; try done. intros [= <-]. by exists x3.
Qed.

Lemma guest_data_handler p ids r sub ctx w :
  p ∈ data_patterns a → match_path (pt_path p) (r_Path r) = Some ids →
  ctx_subject ctx = Some sub → sub_Admin sub = false →
  R w (snd (pt_handler p ids r ctx w)) ∨ guest_write (sub_ZoneID sub) r w (snd (pt_handler p ids r ctx w)).
Proof.
  intros Hp Hm Hsub Hadm.
  assert (∀ h : Handler, R w (snd (RequireAdmin h r ctx w))) as Hadmin.
  { intros h. unfold Api.RequireAdmin, SubjectFromContext. rewrite Hsub, Hadm. simpl. reflexivity. }
  unfold Api.data_patterns in Hp. rewrite !elem_of_app, !elem_of_cons, !elem_of_nil in Hp.
  destruct Hp as [[-> | [-> | [-> | [-> | [-> | [-> | []]]]]]] | [Hp | Hp]].
  - left. apply frames_handleNodes.
  - left. apply frames_handleRouter.
  - destruct (match_router_op _ _ _ Hm) as (id & Hpath & ->). simpl. unfold id_of, handleSetExitNode. simpl.
    destruct (decode_body 4096 decode_exit_node "" r) as [e | t] eqn:Hbody; [left; reflexivity |].
    destruct (authorized_guest sub ctx id t (res ← ctl_SetExitNode id t; respond (λ rv, routerView_json (routerViewDTO rv)) res) w Hsub Hadm)
      as [? | (g & w2 & Hgr & Hg & Hc & Ht & ->)]; [by left | right].
    exists id, g, w, w2. split; [reflexivity |]. repeat (split; [done |]). left. exists t.
    repeat (split; [done |]). apply snd_bind, respond_state.
  - destruct (match_router_op _ _ _ Hm) as (id & Hpath & ->). simpl. unfold id_of, handleKeep. simpl.
    destruct (authorized_guest sub ctx id "" (res ← ctl_Keep id; respond (λ rv, routerView_json (routerViewDTO rv)) res) w Hsub Hadm)
      as [? | (g & w2 & Hgr & Hg & Hc & _ & ->)]; [by left | right].
    exists id, g, w, w2. split; [reflexivity |]. repeat (split; [done |]). right; left.
    split; [done |]. apply snd_bind, respond_state.
  - destruct (match_router_op _ _ _ Hm) as (id & Hpath & ->). simpl. unfold id_of, handleProbe. simpl.
    destruct (authorized_guest sub ctx id "" (res ← ctl_Probe id; respond probe_json res) w Hsub Hadm)
      as [? | (g & w2 & Hgr & Hg & Hc & _ & ->)]; [by left | right].
    exists id, g, w, w2. split; [reflexivity |]. repeat (split; [done |]). right; right.
    split; [done |]. apply snd_bind, respond_state.
  - left. apply frames_handleMe.
  - left. unfold when in Hp. destruct (api_groups a); [| by apply elem_of_nil in Hp].
    rewrite !elem_of_cons, elem_of_nil in Hp.
    destruct Hp as [-> | [-> | [-> | [-> | []]]]]; apply Hadmin.
  - left. unfold when in Hp. destruct (api_guests a); [| by apply elem_of_nil in Hp].
    rewrite !elem_of_cons, elem_of_nil in Hp.
    destruct Hp as [-> | [-> | [-> | [-> | []]]]]; apply Hadmin.
Qed.

(** Whatever a request does to the world, it does behind the authentication; the rest
    only reads. *)
Lemma Routes_reduces r ctx w :
  R w (snd (Routes a r ctx w)) ∨
  snd (Routes a r ctx w) = snd (RequireAuth a (mux (data_patterns a)) r ctx w).
Proof.
  unfold Api.Routes, RequireHost. destruct (hostAllowed a (r_Host r)); simpl; [| left; reflexivity].
  assert (R w (snd (api_mux a r ctx w)) ∨
    snd (api_mux a r ctx w) = snd (RequireAuth a (mux (data_patterns a)) r ctx w)) as Hmux.
  { unfold Api.api_mux. destruct (List.find _ _) as [p |] eqn:Hf.
    - left. apply find_some_elem in Hf as [Hp _]. by apply frames_bootstrap.
    - destruct (r_Path r) as [| x [| y l]]; [left; reflexivity | |];
        destruct (String.eqb x "api"); simpl; try (left; reflexivity). by right. }
  unfold RequireCSRF. destruct (String.eqb (r_Method r) "GET" || _); [done |].
  destruct (csrf_error r); [left; reflexivity | done].
Qed.

(** The pattern a request is dispatched to. *)
Lemma mux_found (ps : list (Api.Pattern (T := M W))) r ctx w :
  (∃ p ids, p ∈ ps ∧ match_path (pt_path p) (r_Path r) = Some ids ∧
     mux ps r ctx w = pt_handler p ids r ctx w) ∨ snd (mux ps r ctx w) = w.
Proof.
  unfold Api.mux. destruct (List.find _ _) as [p |] eqn:Hf; [left | by right].
  apply find_some_elem in Hf as [Hp Hpm]. unfold pattern_matches, path_matches in Hpm.
  apply andb_true_iff in Hpm as [_ [ids Hids]%bool_decide_eq_true].
  exists p, ids. unfold Api.run_pattern. by rewrite Hids.
Qed.

(** What every handler respects, every request does. *)
Lemma frames_Routes r ctx :
  (∀ p ids r ctx, p ∈ data_patterns a → frames (pt_handler p ids r ctx)) → frames (Routes a r ctx).
Proof.
  intros Hp w. destruct (Routes_reduces r ctx w) as [H | ->]; [done |].
  pose proof (frames_resolveSubject r w) as Hres. unfold Api.RequireAuth, mbind, M_bind.
  destruct (resolveSubject a r w) as [[sub |] w1]; [| done].
  etransitivity; [exact Hres |].
  match goal with |- R _ (snd (mux ?ps ?r ?c ?w)) =>
    destruct (mux_found ps r c w) as [(p & ids & Hin & _ & ->) | ->] end; [by apply Hp | reflexivity].
Qed.

(** What a request can change.  Let [R] be any relation the reads respect.  A
    request that does not authenticate leaves the world related to what it was; so
    does a guest's request, whatever its method, path and body, unless it is one of
    the three router operations on a router that the guest's zone, as stored at this
    moment, consumes, and (for a set) to an exit node that zone allows or to none, in
    which case it does exactly that one operation.  Only an admin can do anything
    else. *)
Lemma guest_confined r ctx w :
  match fst (resolveSubject a r w) with
  | None => R w (snd (Routes a r ctx w))
  | Some sub => sub_Admin sub = true ∨ R w (snd (Routes a r ctx w)) ∨
      guest_write (sub_ZoneID sub) r w (snd (Routes a r ctx w))
  end.
Proof.
  destruct (Routes_reduces r ctx w) as [H | ->].
  - destruct (fst (resolveSubject a r w)); [right; by left | done].
  - pose proof (frames_resolveSubject r w) as Hres. unfold Api.RequireAuth, mbind, M_bind.
    destruct (resolveSubject a r w) as [[sub |] w1]; [| done]. simpl in *.
    destruct (sub_Admin sub) eqn:Hadm; [by left | right].
    match goal with |- context [mux ?ps ?r ?c ?w] =>
      destruct (mux_found ps r c w) as [(p & ids & Hp & Hids & ->) | ->] end; [| by left].
    match goal with |- R w (snd (pt_handler p ids r ?c w1)) ∨ _ =>
      destruct (guest_data_handler p ids r sub c w1 Hp Hids eq_refl Hadm)
        as [H | (id & g & w2 & w3 & H1 & H2)] end.
    + left. by etransitivity.
    + right. exists id, g, w2, w3. split; [by etransitivity |]. exact H2.
Qed.
End confined.

(** ** Logging in *)

Lemma login_subject_spec body w :
  match fst (login_subject a body w) with
  | inl resp => rs_Status resp ∈ [400; 401; 404; 500] ∧ rs_Cookies resp = [] ∧
      (rs_Status resp = 401 → resp = writeErr 401 "invalid credentials")
  | inr sub =>
      if String.eqb (TrimSpace (lb_Label body)) "" then
        sub = mkSubject true "" "" ∧ api_uiPassword a ≠ "" ∧ lb_Password body = api_uiPassword a
      else api_guests a = true ∧ ∃ g w1, gu_Authenticate (lb_Label body) (lb_Password body) w = (Some g, w1) ∧
        sub = mkSubject false (gst_ID g) (gst_ZoneID g)
  end.
Proof.
  assert (401 ∈ [400; 401; 404; 500] ∧ 404 ∈ [400; 401; 404; 500]) as [H401 H404]
    by (split; [right; left | right; right; left]).
  unfold Api.login_subject, login_failed, mbind, M_bind, mret, M_ret.
  destruct (String.eqb (TrimSpace (lb_Label body)) "").
  - destruct (String.eqb_spec (api_uiPassword a) ""); [done |].
    destruct (String.eqb_spec (lb_Password body) (api_uiPassword a)); simpl; [done |].
    by destruct (aw_Sleep loginFailDelay w).
  - destruct (api_guests a); simpl; [| by destruct (aw_Sleep loginFailDelay w)].
    destruct (gu_Authenticate _ _ w) as [[g |] w0]; simpl.
    + split; [done |]. by exists g, w0.
    + by destruct (aw_Sleep loginFailDelay w0).
Qed.

(** C29: a login hands out exactly what the credentials are worth.  The response is 200
    and carries a session cookie only for a session value minted for the admin, when
    the label is blank, a password is configured and it is the submitted one, or for
    the guest the store authenticated with the submitted label and password; any
    other answer (400, 401, 404, 500) sets no cookie, and every refusal of
    credentials is the same 401. *)
Theorem handleLogin_sound r ctx w :
  let resp := fst (handleLogin a r ctx w) in
  (rs_Status resp = 200 ∧ ∃ body sub now nonce v exp age,
     decode_body 4096 decode_login (mkLogin "" "") r = inr body ∧
     newSessionValue (api_sessionSecret a) sub now nonce = inr v ∧
     rs_Cookies resp = [mkSetCookie "tsctl_session" v true exp age] ∧
     if String.eqb (TrimSpace (lb_Label body)) "" then
       sub = mkSubject true "" "" ∧ api_uiPassword a ≠ "" ∧ lb_Password body = api_uiPassword a
     else api_guests a = true ∧ ∃ g w1, gu_Authenticate (lb_Label body) (lb_Password body) w = (Some g, w1) ∧
       sub = mkSubject false (gst_ID g) (gst_ZoneID g)) ∨
  (rs_Status resp ∈ [400; 401; 404; 500] ∧ rs_Cookies resp = [] ∧
   (rs_Status resp = 401 → resp = writeErr 401 "invalid credentials")).
Proof.
  cbv zeta. unfold Api.handleLogin.
  destruct (decode_body 4096 decode_login (mkLogin "" "") r) as [e | body];
    [right; split; [left | done] |].
  pose proof (login_subject_spec body w) as Hs. unfold mbind, M_bind.
  destruct (login_subject a body w) as [[resp | sub] w1]; [by right |].
  destruct (aw_Now w1) as [now w2]. destruct (aw_Rand sessionNonceLen w2) as [nonce w3].
  destruct (newSessionValue (api_sessionSecret a) sub now nonce) as [e | v] eqn:Hv.
  { right. simpl. split; [do 3 right; left | done]. }
  destruct (aw_Now w3) as [now' w4]. left. split; [done |].
  exists body, sub, now, nonce, v. do 2 eexists. split; [done |]. split; [done |]. split; [reflexivity |].
  exact Hs.
Qed.
End facts.
