(* ===== verification/Conc.v ===== *)
(** Concurrent programs as sequences of atomic sections.

    A goroutine of the program is a [prog]: a finite tree of atomic sections
    over a shared state.  A section is what the code runs while holding a mutex,
    one lock-free load, or one call to the outside.  [run] executes a program
    alone; [pool_step] interleaves the sections of several programs in every
    order.  [sat] is a rely/guarantee triple whose soundness, [pool_sound], turns
    facts about the sections of each program into an invariant of every
    interleaving. *)

From S2P Require Import Prelude.
From stdpp Require Import relations.

Inductive prog (S A : Type) : Type :=
| Ret (a : A)
| Sec {B : Type} (m : S → B * S) (k : B → prog S A).
Arguments Ret {S A} a.
Arguments Sec {S A B} m k.

Section prog.
Context {S : Type}.

Fixpoint prog_bind {A B} (p : prog S A) (f : A → prog S B) : prog S B :=
  match p with
  | Ret a => f a
  | Sec m k => Sec m (λ b, prog_bind (k b) f)
  end.

(** One atomic section. *)
Definition atomic {A} (m : M S A) : prog S A := Sec m Ret.

(** Executed alone, a program is a state transformer. *)
Fixpoint run {A} (p : prog S A) : M S A :=
  match p with
  | Ret a => mret a
  | Sec m k => λ s, let '(b, s') := m s in run (k b) s'
  end.
End prog.

#[export] Instance prog_ret {S} : MRet (prog S) := λ A a, Ret a.
#[export] Instance prog_mbind {S} : MBind (prog S) := λ A B f p, prog_bind p f.

Fixpoint pforeach {S A} (l : list A) (f : A → prog S unit) : prog S unit :=
  match l with
  | [] => Ret tt
  | x :: l' => prog_bind (f x) (λ _, pforeach l' f)
  end.

Lemma run_bind {S A B} (p : prog S A) (f : A → prog S B) s :
  run (prog_bind p f) s = let '(a, s') := run p s in run (f a) s'.
Proof.
  revert s. induction p as [a | X m k IH]; intros s; simpl; [done |].
  destruct (m s) as [b s']. apply IH.
Qed.

Lemma run_mbind {S A B} (p : prog S A) (f : A → prog S B) s :
  run (p ≫= f) s = let '(a, s') := run p s in run (f a) s'.
Proof. apply run_bind. Qed.

Lemma run_mret {S A} (a : A) (s : S) : run (mret a) s = (a, s).
Proof. done. Qed.

Lemma run_atomic {S A} (m : M S A) (s : S) : run (atomic m) s = m s.
Proof. unfold atomic. simpl. by destruct (m s). Qed.

(** ** Sections *)

(** A relation that every section of a program respects, at whatever state it runs. *)
Fixpoint every_section {S A} (T : relation S) (p : prog S A) : Prop :=
  match p with
  | Ret _ => True
  | Sec m k => (∀ s, T s (snd (m s))) ∧ ∀ b, every_section T (k b)
  end.

Lemma every_section_bind {S A B} (T : relation S) (p : prog S A) (f : A → prog S B) :
  every_section T p → (∀ x, every_section T (f x)) → every_section T (p ≫= f).
Proof.
  intros Hp Hf. unfold mbind, prog_mbind.
  induction p as [a | X m k IH]; [apply Hf | destruct Hp as [Hm Hk]].
  split; [exact Hm | intros b; by apply IH].
Qed.

Lemma every_section_mono {S A} (T T' : relation S) (p : prog S A) :
  (∀ s s', T s s' → T' s s') → every_section T p → every_section T' p.
Proof.
  intros HT. induction p as [a | X m k IH]; simpl; [done |]. intros [Hm Hk].
  split; [intros s; by apply HT | intros b; by apply IH].
Qed.

Lemma every_section_foreach {S A} (T : relation S) (l : list A) (f : A → prog S unit) :
  (∀ x, every_section T (f x)) → every_section T (pforeach l f).
Proof.
  intros Hf. induction l as [| x l IH]; simpl; [done |].
  apply (every_section_bind T (f x)); [apply Hf | done].
Qed.

(** What every section respects, the whole program does. *)
Lemma every_section_run {S A} (T : relation S) `{!PreOrder T} (p : prog S A) s :
  every_section T p → T s (snd (run p s)).
Proof.
  revert s. induction p as [a | X m k IH]; simpl; intros s Hp; [done |].
  destruct Hp as [Hm Hk]. specialize (Hm s). destruct (m s) as [b s'].
  etransitivity; [exact Hm | by apply IH].
Qed.

(** ** Programs on a part of the state *)

Section lens.
Context {S T : Type} (get : T → S) (put : S → T → T).

(** A section on the part, and a program of them, on the whole. *)
Definition through {A} (m : M S A) : M T A := λ t, let '(x, s) := m (get t) in (x, put s t).
Fixpoint lift {A} (p : prog S A) : prog T A :=
  match p with
  | Ret a => Ret a
  | Sec m k => Sec (through m) (λ b, lift (k b))
  end.

Hypothesis get_put : ∀ s t, get (put s t) = s.
Hypothesis put_get : ∀ t, put (get t) t = t.
Hypothesis put_put : ∀ s s' t, put s (put s' t) = put s t.

Lemma run_lift {A} (p : prog S A) t : run (lift p) t = through (run p) t.
Proof.
  revert t. induction p as [a | X m k IH]; intros t; unfold through; simpl.
  - unfold mret, M_ret. by rewrite put_get.
  - unfold through. destruct (m (get t)) as [b s]. rewrite IH. unfold through.
    rewrite get_put. destruct (run (k b) s) as [x s']. by rewrite put_put.
Qed.

Lemma every_section_lift {A} (P : relation S) (Q : relation T) (p : prog S A) :
  (∀ t s, P (get t) s → Q t (put s t)) → every_section P p → every_section Q (lift p).
Proof.
  intros HPQ. induction p as [a | X m k IH]; simpl; [done |]. intros [Hm Hk]. split.
  - intros t. unfold through. specialize (Hm (get t)). destruct (m (get t)) as [b s]. by apply HPQ.
  - intros b. by apply IH.
Qed.
End lens.

(** ** Interleaving *)

Section pool.
Context {S : Type}.

(** A thread with its result forgotten. *)
Definition thread : Type := prog S unit.
Definition thread_of {A} (p : prog S A) : thread := prog_bind p (λ _, Ret tt).

Inductive pool_step : S * list thread → S * list thread → Prop :=
| pool_sec i ts B (m : S → B * S) k s b s' :
    ts !! i = Some (Sec m k) → m s = (b, s') →
    pool_step (s, ts) (s', <[i := k b]> ts).

(** A schedule names the thread that runs each next section. *)
Fixpoint pool_run (sched : list nat) (c : S * list thread) : S * list thread :=
  match sched with
  | [] => c
  | i :: rest =>
      pool_run rest
        (match snd c !! i with
         | Some (Sec m k) => let '(b, s') := m (fst c) in (s', <[i := k b]> (snd c))
         | _ => c
         end)
  end.

Lemma pool_run_steps sched c : rtc pool_step c (pool_run sched c).
Proof.
  revert c. induction sched as [| i sched IH]; intros [s ts]; [done |]. simpl.
  destruct (ts !! i) as [[a | B m k] |] eqn:Hi; [apply IH | | apply IH].
  destruct (m s) as [b s'] eqn:Hm. eapply rtc_l; [by econstructor | apply IH].
Qed.

(** *** Rely/guarantee with ghost state

    [Γ] is ghost state: sections may update it to record facts the code itself
    does not store, such as which thread drew which sequence number.  A thread
    is verified against its guarantee [G] (how its own sections move the
    state), its rely [R] (how the others may) and a global invariant [I]. *)
Context {Γ : Type} (I : S * Γ → Prop).

Definition stable (R : relation (S * Γ)) (P : S * Γ → Prop) : Prop :=
  ∀ x y, I x → I y → P x → R x y → P y.

(** [sat R G P p Q]: from every state satisfying the invariant and [P], each
    section of [p] preserves the invariant and moves the state by [G], and
    what it establishes for the next section is stable under [R]. *)
Fixpoint sat (R G : relation (S * Γ)) {A} (P : S * Γ → Prop) (p : prog S A)
    (Q : A → S * Γ → Prop) : Prop :=
  match p with
  | Ret a => ∀ x, I x → P x → Q a x
  | @Sec _ _ B m k =>
      ∃ P' : B → S * Γ → Prop,
        (∀ s g, I (s, g) → P (s, g) →
           ∃ g', I (snd (m s), g') ∧ G (s, g) (snd (m s), g') ∧
                 P' (fst (m s)) (snd (m s), g')) ∧
        (∀ b, stable R (P' b)) ∧
        (∀ b, sat R G (P' b) (k b) Q)
  end.

Definition sat_thread (R G : relation (S * Γ)) (x : S * Γ) (t : thread) : Prop :=
  ∃ P, P x ∧ stable R P ∧ sat R G P t (λ _ _, True).

Section soundness.
Context (R G : nat → relation (S * Γ)).
Hypothesis Hcompat : ∀ i j x y, i ≠ j → G i x y → R j x y.

Definition pool_sat (x : S * Γ) (ts : list thread) : Prop :=
  I x ∧ ∀ i t, ts !! i = Some t → sat_thread (R i) (G i) x t.

Lemma pool_step_sat s g ts s' ts' :
  pool_sat (s, g) ts → pool_step (s, ts) (s', ts') → ∃ g', pool_sat (s', g') ts'.
Proof.
  intros [HI Hts] Hstep. inversion Hstep as [i ts0 B m k s0 b s0' Hi Hm]; simplify_eq.
  destruct (Hts i _ Hi) as (P & HP & _ & P' & Hsec & Hst & Hk).
  destruct (Hsec s g HI HP) as (g' & HI' & HG & HP'). rewrite Hm in HI', HG, HP'; simpl in *.
  exists g'. split; [done |]. intros j t Hj.
  apply list_lookup_insert_Some in Hj as [(<- & <- & _) | [Hne Hj]].
  - exists (P' b). split; [exact HP' |]. split; [apply Hst | apply Hk].
  - destruct (Hts j t Hj) as (P2 & HP2 & HS2 & Ht2). exists P2.
    split; [| done]. exact (HS2 _ _ HI HI' HP2 (Hcompat i j _ _ Hne HG)).
Qed.

(** Every interleaving of threads that meet their specification preserves
    the invariant. *)
Lemma pool_sound x ts s' ts' :
  pool_sat x ts → rtc pool_step (fst x, ts) (s', ts') → ∃ g', pool_sat (s', g') ts'.
Proof.
  destruct x as [s g]; simpl. intros Hx Hsteps.
  remember (s, ts) as c eqn:Hc. remember (s', ts') as c' eqn:Hc'.
  revert s g ts Hc Hx. induction Hsteps as [c | c [s1 ts1] c' Hstep _ IH];
    intros s g ts -> Hx; [simplify_eq; eauto |].
  destruct (pool_step_sat _ _ _ _ _ Hx Hstep) as [g1 Hx1]. eauto.
Qed.
End soundness.

(** *** Rules used to verify programs *)

Lemma sat_weaken R G {A} (P P' : S * Γ → Prop) (p : prog S A) Q Q' :
  sat R G P' p Q' → (∀ x, I x → P x → P' x) → (∀ a x, I x → Q' a x → Q a x) →
  sat R G P p Q.
Proof.
  revert P P' Q Q'. induction p as [a | B m k IH]; simpl; intros P P' Q Q' H HP HQ.
  - eauto.
  - destruct H as (PP & Hm & HS & Hk). exists PP. split; [eauto |]. split; [done |].
    intros b. eapply IH; eauto.
Qed.

Lemma sat_bind R G {A B} (P : S * Γ → Prop) (p : prog S A) (f : A → prog S B) X Q :
  sat R G P p X → (∀ a, sat R G (X a) (f a) Q) → sat R G P (prog_bind p f) Q.
Proof.
  revert P. induction p as [a | C m k IH]; simpl; intros P H Hf.
  - eapply sat_weaken; [apply Hf | auto | auto].
  - destruct H as (PP & Hm & HS & Hk). exists PP. split; [done |]. split; [done |].
    intros b. by apply IH.
Qed.

Lemma sat_atomic R G {A} (P : S * Γ → Prop) (m : M S A) (Q : A → S * Γ → Prop) :
  (∀ s g, I (s, g) → P (s, g) →
     ∃ g', I (snd (m s), g') ∧ G (s, g) (snd (m s), g') ∧ Q (fst (m s)) (snd (m s), g')) →
  (∀ a, stable R (Q a)) → sat R G P (atomic m) Q.
Proof. intros H HS. exists Q. split; [exact H |]. split; [exact HS | by intros b x]. Qed.

(** The preconditions of a program are closed under union ... *)
Lemma sat_exists R G {A} (p : prog S A) (F : (S * Γ → Prop) → Prop) Q :
  (∀ P, F P → sat R G P p Q) → sat R G (λ x, ∃ P, F P ∧ P x) p Q.
Proof.
  revert F. induction p as [a | B m k IH]; intros F HF.
  - intros x Hx (P & HP & HPx). by apply (HF P).
  - exists (λ b y, ∃ P, (stable R P ∧ sat R G P (k b) Q) ∧ P y). split; [| split].
    + intros s g HI (P & HP & HPx). destruct (HF P HP) as (P' & Hm & HS & Hk).
      destruct (Hm s g HI HPx) as (g' & ? & ? & ?). exists g'.
      split; [done |]. split; [done |]. exists (P' (fst (m s))).
      split; [split; [apply HS | apply Hk] | done].
    + intros b x y HIx HIy (P & [HS Hk] & HPx) HR. exists P. split; [done |].
      exact (HS x y HIx HIy HPx HR).
    + intros b. apply IH. by intros P [_ ?].
Qed.

(** ... so a fact about values may be used to verify the rest. *)
Lemma sat_pure R G {A} (X : Prop) (P : S * Γ → Prop) (p : prog S A) Q :
  (X → sat R G P p Q) → sat R G (λ x, X ∧ P x) p Q.
Proof.
  intros H. eapply sat_weaken; [exact (sat_exists R G p (λ P0, sat R G P0 p Q) Q (λ _ H0, H0)) | |].
  - intros x _ [HX HP]. exists P. auto.
  - auto.
Qed.

Lemma sat_foreach_in R G {A} (l : list A) (f : A → prog S unit) (P : S * Γ → Prop) :
  (∀ x, x ∈ l → sat R G P (f x) (λ _, P)) → sat R G P (pforeach l f) (λ _, P).
Proof.
  induction l as [| x l IH]; intros Hf; simpl; [done |].
  eapply sat_bind; [apply Hf; left |]. intros []. apply IH. intros y Hy. apply Hf. by right.
Qed.

Lemma sat_foreach R G {A} (l : list A) (f : A → prog S unit) (P : S * Γ → Prop) :
  (∀ x, sat R G P (f x) (λ _, P)) → sat R G P (pforeach l f) (λ _, P).
Proof. intros Hf. by apply sat_foreach_in. Qed.

Lemma sat_thread_of R G {A} (P : S * Γ → Prop) (p : prog S A) x :
  P x → stable R P → sat R G P p (λ _ _, True) → sat_thread R G x (thread_of p).
Proof.
  intros HP HS Hp. exists P. split; [done |]. split; [done |].
  eapply sat_bind; [done |]. by intros a y.
Qed.
End pool.

Arguments thread : clear implicits.

(** A program verified on a part of the state is verified on the whole, and keeps what
    its sections keep of the rest. *)
Lemma sat_lift {S T Γ A} (get : T → S) (put : S → T → T) (I : S * Γ → Prop) (J : T → Prop)
    (F : relation S) (R G : relation (S * Γ)) (P : S * Γ → Prop) (p : prog S A) Q :
  let on (X : S * Γ → Prop) : T * Γ → Prop := λ x, X (get (fst x), snd x) in
  let on2 (X : relation (S * Γ)) : relation (T * Γ) :=
    λ x y, X (get (fst x), snd x) (get (fst y), snd y) in
  (∀ s t, get (put s t) = s) → (∀ t s, J t → F (get t) s → J (put s t)) →
  every_section F p → sat I R G P p Q →
  sat (λ x, on I x ∧ J (fst x)) (on2 R) (on2 G) (on P) (lift get put p) (λ a, on (Q a)).
Proof.
  intros on on2 Hgp HJ. revert P Q. induction p as [a | X m k IH]; intros P Q HF Hp.
  - intros [t g] [HI _] HP. by apply Hp.
  - destruct HF as [HFm HFk]. destruct Hp as (P' & Hm & HS & Hk).
    exists (λ b, on (P' b)). split; [| split].
    + intros t g [HI Ht] HP. destruct (Hm (get t) g HI HP) as (g' & HI' & HG & HP').
      specialize (HFm (get t)). unfold through. destruct (m (get t)) as [b s]. exists g'.
      unfold on, on2. simpl in *. rewrite Hgp. split; [split; [done | by apply HJ] | done].
    + intros b x y [HIx _] [HIy _]. apply HS; done.
    + intros b. by apply IH.
Qed.
