(* ===== verification/PollerBase.v ===== *)
(** [internal/poller], the pure part: lookups over a snapshot, router discovery,
    zone resolution and enforcement sets, and the state reconciliation every
    fresh read goes through. *)

From S2P Require Import Prelude GoStd Store Errors.

(** internal/poller/poller.go:94-100, statusBadRequest. *)
Definition statusBadRequest : Z := 400.
Definition statusNotFound : Z := 404.
Definition statusConflict : Z := 409.
Definition statusUnprocessable : Z := 422.
Definition statusBadGateway : Z := 502.

(** internal/poller/poller.go:104-104, tsctlTag. *)
Definition tsctlTag : string := "tag:tsctl".

(** internal/poller/poller.go:251-253, preflightErr. *)
Definition preflightErr (msg : string) : error := ErrControl statusBadRequest msg "" "" None.

(** internal/poller/poller.go:256-262, extractStderr. *)
Definition extractStderr (e : error) : string := default "" (as_Stderr e).

(** internal/poller/poller.go:699-707, routerControlError. *)
Definition routerControlError (e : error) : error :=
  ErrControl statusBadGateway "router command failed" (err_Error e) (extractStderr e) (Some e).

(** internal/poller/poller.go:1363-1370, hasTag. *)
Definition hasTag (n : NodeView) (tag : string) : bool :=
  existsb (λ t, String.eqb t tag) (nv_Tags n).

(** internal/poller/poller.go:1373-1383, primaryIP. *)
Definition primaryIP (n : NodeView) : string :=
  match List.find (λ ip, ContainsByte ip ".") (nv_TailscaleIPs n) with
  | Some ip => ip
  | None => match nv_TailscaleIPs n with ip :: _ => ip | [] => "" end
  end.

(** internal/poller/poller.go:1385-1394, displayName. *)
Definition displayName (n : NodeView) : string :=
  if negb (String.eqb (nv_Name n) "") then nv_Name n
  else if negb (String.eqb (nv_Hostname n) "") then nv_Hostname n
  else nv_StableID n.

(** The test the four lookups below share: one of the node's addresses is [addr]. *)
Definition has_ip (addr : string) (n : NodeView) : bool :=
  existsb (λ ip, String.eqb ip addr) (nv_TailscaleIPs n).

(** internal/poller/poller.go:1396-1405, findNodeByIP. *)
Definition findNodeByIP (nodes : list NodeView) (addr : string) : option NodeView :=
  List.find (has_ip addr) nodes.

(** internal/poller/poller.go:1407-1414, findNodeByStableID. *)
Definition findNodeByStableID (nodes : list NodeView) (id : string) : option NodeView :=
  List.find (λ n, String.eqb (nv_StableID n) id) nodes.

(** internal/poller/poller.go:1416-1428, findRouterView. *)
Definition findRouterView (snap : Snapshot) (addr : string) : option RouterView :=
  List.find (λ rv, has_ip addr (rv_Node rv)) (snap_Routers snap).

(** internal/poller/poller.go:1430-1440, findRouterViewByStableID. *)
Definition findRouterViewByStableID (snap : Snapshot) (id : string) : option RouterView :=
  List.find (λ rv, String.eqb (nv_StableID (rv_Node rv)) id) (snap_Routers snap).

(** The control nodes discovery never lists. *)
Definition control_node (n : NodeView) : bool := nv_IsSelf n || hasTag n tsctlTag.

(** [if ip := primaryIP(n); ip != "" { addrs = append(addrs, ip) }] *)
Definition append_ip (n : NodeView) : list string :=
  let ip := primaryIP n in if String.eqb ip "" then [] else [ip].

(** internal/poller/poller.go:1329-1359, autoDiscoverRouters. *)
Definition autoDiscoverRouters (nodes : list NodeView) : list string * bool :=
  let tagged := flat_map (λ n,
    if control_node n then []
    else if bool_decide (nv_Type n = NodeRouter) then append_ip n else []) nodes in
  match tagged with
  | _ :: _ => (sort_Strings tagged, false)
  | [] =>
      (sort_Strings (flat_map (λ n,
         if nv_ExitNodeOption n then []
         else if control_node n then []
         else append_ip n) nodes), true)
  end.

(** internal/poller/poller.go:1306-1319, resolveMembers. *)
Definition resolveMembers (ids : list string) (byID : gmap string NodeView) : list GroupMember :=
  map (λ id, match byID !! id with
             | Some n => mkGroupMember id (displayName n) (primaryIP n) (nv_Online n) true
             | None => mkGroupMember id "" "" false false
             end) ids.

(** The [byID] index: a later node with the same StableID overwrites an earlier one. *)
Definition index_nodes (nodes : list NodeView) : gmap string NodeView :=
  foldl (λ m n, <[nv_StableID n := n]> m) ∅ nodes.

(** The order of the zones in a snapshot: by Name, then by ID. *)
Definition group_le (a b : Group) : Prop :=
  if decide (g_Name a = g_Name b) then str_le (g_ID a) (g_ID b) else str_le (g_Name a) (g_Name b).
#[export] Instance group_le_dec a b : Decision (group_le a b).
Proof. unfold group_le. case_decide; apply _. Defined.

(** internal/poller/poller.go:1279-1301, buildGroupViews. *)
Definition buildGroupViews (gs : list Group) (nodes : list NodeView) : list GroupView :=
  let byID := index_nodes nodes in
  map (λ g, mkGroupView (g_ID g) (g_Name g)
              (resolveMembers (g_Consumers g) byID)
              (resolveMembers (g_AllowedExitNodes g) byID))
      (merge_sort group_le gs).

(** internal/poller/poller.go:1253-1272, allowedExitNodeSet. *)
Definition allowedExitNodeSet (gs : list Group) (consumer : string) : gset string * bool :=
  foldl (λ '(set, inAnyZone) g,
           if existsb (λ c, String.eqb c consumer) (g_Consumers g)
           then (set ∪ list_to_set (g_AllowedExitNodes g), true)
           else (set, inAnyZone)) (∅, false) gs.

(** internal/poller/poller.go:1239-1247, sameExitNode. *)
Definition sameExitNode (a b : option ExitNodeRef) : bool :=
  match a, b with
  | Some a, Some b =>
      if negb (String.eqb (ref_StableID a) "") && negb (String.eqb (ref_StableID b) "")
      then String.eqb (ref_StableID a) (ref_StableID b)
      else String.eqb (ref_IP a) (ref_IP b)
  | None, None => true
  | _, _ => false
  end.

(** internal/poller/poller.go:1204-1227, reconcileState. *)
Definition reconcileState (rv : RouterView) (now : Time) (grace : Duration) : RouterView :=
  if negb (rv_Reachable rv) then rv |> set_State RouterUnreachable
  else if match rv_Desired rv with
          | Some d => negb (sameExitNode (rv_CurrentExitNode rv) (Some d)) &&
                      (IsZero (rv_DesiredSince rv) || (Sub now (rv_DesiredSince rv) <? grace))
          | None => false
          end
  then rv |> set_State RouterUnconfirmed
  else rv |> set_Desired None |> set_DesiredSince zeroTime |> set_State RouterOK.

(** internal/poller/poller.go:1055-1060, prevState. *)
Definition prevState (prevRV : option RouterView) : RouterState :=
  match prevRV with None => RouterStateZero | Some rv => rv_State rv end.

(** internal/poller/poller.go:1171-1198, withRouter.  The snapshot is returned with [mutate]
    applied to every view one of whose addresses is [addr], and whether there was one. *)
Definition withRouter (cur : Snapshot) (addr : string) (mutate : RouterView → RouterView)
    (now : Time) : Snapshot * bool :=
  (mkSnapshot (snap_Nodes cur)
     (map (λ rv, if has_ip addr (rv_Node rv) then mutate rv else rv) (snap_Routers cur))
     (snap_Groups cur) (snap_NetmapAt cur) (snap_NetmapErr cur) now,
   existsb (λ rv, has_ip addr (rv_Node rv)) (snap_Routers cur)).

(** The value the mutation closures capture with [updated = *rv]: the last view
    the loop of [withRouter] mutated. *)
Definition last_mutated (snap : Snapshot) (addr : string) : RouterView :=
  default zeroRouterView
    (last (List.filter (λ rv, has_ip addr (rv_Node rv)) (snap_Routers snap))).
