(* ===== verification/PollerFacts.v ===== *)
(** Facts about the pure part of the poller: what the lookups return, what
    discovery lists, how zones are resolved, and when a reconciled view is
    shown as ok. *)

From S2P Require Import Prelude GoStd Store Errors PollerBase.

(** ** Lookups *)

Lemma has_ip_elem addr n : has_ip addr n = true ↔ addr ∈ nv_TailscaleIPs n.
Proof. apply existsb_eqb_elem. Qed.

Lemma hasTag_elem n tag : hasTag n tag = true ↔ tag ∈ nv_Tags n.
Proof. apply existsb_eqb_elem. Qed.

Lemma primaryIP_elem n : primaryIP n ≠ "" → primaryIP n ∈ nv_TailscaleIPs n.
Proof.
  unfold primaryIP. destruct (List.find _ _) eqn:Hf.
  - by apply find_some_elem in Hf as [? _].
  - destruct (nv_TailscaleIPs n); [done | constructor].
Qed.

Lemma primaryIP_has_ip n : primaryIP n ≠ "" → has_ip (primaryIP n) n = true.
Proof. intros H. by apply has_ip_elem, primaryIP_elem. Qed.

(** ** Discovery *)

Lemma elem_of_append_ip n a : a ∈ append_ip n ↔ a = primaryIP n ∧ a ≠ "".
Proof.
  unfold append_ip. destruct (String.eqb_spec (primaryIP n) "") as [-> | Hne].
  - set_solver.
  - rewrite list_elem_of_singleton. naive_solver.
Qed.

Definition discoverable_router (n : NodeView) : Prop :=
  control_node n = false ∧ nv_Type n = NodeRouter.
Definition discoverable_fallback (n : NodeView) : Prop :=
  nv_ExitNodeOption n = false ∧ control_node n = false.

Lemma discovery_tagged_elem nodes a :
  a ∈ flat_map (λ n, if control_node n then []
                     else if bool_decide (nv_Type n = NodeRouter) then append_ip n else []) nodes
  ↔ ∃ n, n ∈ nodes ∧ discoverable_router n ∧ a = primaryIP n ∧ a ≠ "".
Proof.
  rewrite elem_of_flat_map. unfold discoverable_router. f_equiv; intros n.
  destruct (control_node n); [set_solver |]. case_bool_decide.
  - rewrite elem_of_append_ip. naive_solver.
  - set_solver.
Qed.

Lemma discovery_fallback_elem nodes a :
  a ∈ flat_map (λ n, if nv_ExitNodeOption n then []
                     else if control_node n then [] else append_ip n) nodes
  ↔ ∃ n, n ∈ nodes ∧ discoverable_fallback n ∧ a = primaryIP n ∧ a ≠ "".
Proof.
  rewrite elem_of_flat_map. unfold discoverable_fallback. f_equiv; intros n.
  destruct (nv_ExitNodeOption n), (control_node n); try set_solver.
  rewrite elem_of_append_ip. naive_solver.
Qed.

(** Automatic discovery lists exactly the addressable router-tagged nodes
    when there is one, and otherwise exactly the addressable nodes that are not
    exit nodes; in both cases control nodes are left out, the list is sorted and
    the flag tells which set it is. *)
Theorem autoDiscoverRouters_correct nodes :
  let '(addrs, fb) := autoDiscoverRouters nodes in
  Sorted str_le addrs ∧
  (fb = true ↔ ¬ ∃ n, n ∈ nodes ∧ discoverable_router n ∧ primaryIP n ≠ "") ∧
  (∀ a, a ∈ addrs ↔ ∃ n, n ∈ nodes ∧ a = primaryIP n ∧ a ≠ "" ∧
     if fb then discoverable_fallback n else discoverable_router n).
Proof.
  destruct (autoDiscoverRouters nodes) as [addrs fb] eqn:H. revert H. unfold autoDiscoverRouters. intros H.
  pose proof (discovery_tagged_elem nodes) as Ht.
  destruct (flat_map _ nodes) as [| t ts] eqn:Hts; simplify_eq.
  - split; [apply sort_Strings_sorted |]. split.
    + split; [intros _ (n & ? & ? & ?) | done].
      assert (primaryIP n ∈ @nil string) by (apply Ht; eauto). set_solver.
    + intros a. rewrite sort_Strings_perm, discovery_fallback_elem. naive_solver.
  - split; [apply sort_Strings_sorted |]. split.
    + split; [done |]. intros Hno. destruct Hno.
      destruct (proj1 (Ht t)) as (n & ? & ? & -> & ?); [constructor | eauto].
    + intros a. rewrite sort_Strings_perm, Ht. naive_solver.
Qed.

(** ** Zones *)

Definition in_zone (consumer : string) (g : Group) : Prop := consumer ∈ g_Consumers g.

Lemma allowedExitNodeSet_app gs g consumer :
  allowedExitNodeSet (gs ++ [g]) consumer =
  let '(set, b) := allowedExitNodeSet gs consumer in
  if existsb (λ c, String.eqb c consumer) (g_Consumers g)
  then (set ∪ list_to_set (g_AllowedExitNodes g), true) else (set, b).
Proof.
  unfold allowedExitNodeSet. rewrite foldl_app; simpl. by destruct (foldl _ _ gs).
Qed.

Lemma allowedExitNodeSet_spec gs consumer :
  (∀ ex, ex ∈ fst (allowedExitNodeSet gs consumer) ↔
     ∃ g, g ∈ gs ∧ in_zone consumer g ∧ ex ∈ g_AllowedExitNodes g) ∧
  (snd (allowedExitNodeSet gs consumer) = true ↔ ∃ g, g ∈ gs ∧ in_zone consumer g).
Proof.
  unfold in_zone. induction gs as [| g gs [IH1 IH2]] using rev_ind.
  - split; [set_solver | split; [done | set_solver]].
  - rewrite allowedExitNodeSet_app.
    destruct (allowedExitNodeSet gs consumer) as [s b]; simpl in *.
    pose proof (existsb_eqb_elem consumer (g_Consumers g)) as Hm.
    setoid_rewrite elem_of_app. setoid_rewrite list_elem_of_singleton.
    destruct (existsb _ _); simpl.
    + split; [intros ex; rewrite elem_of_union, elem_of_list_to_set, IH1; naive_solver
             | naive_solver].
    + split; [intros ex; rewrite IH1; naive_solver | rewrite IH2; naive_solver].
Qed.

#[export] Instance group_le_total : Total group_le.
Proof.
  intros a b. unfold group_le.
  destruct (decide (g_Name a = g_Name b)) as [E | E].
  - rewrite decide_True by done. apply str_le_total.
  - rewrite decide_False by congruence. apply str_le_total.
Qed.

Lemma index_nodes_app nodes n :
  index_nodes (nodes ++ [n]) = <[nv_StableID n := n]> (index_nodes nodes).
Proof. unfold index_nodes. by rewrite foldl_app. Qed.

Lemma index_nodes_lookup nodes id n :
  index_nodes nodes !! id = Some n → n ∈ nodes ∧ nv_StableID n = id.
Proof.
  induction nodes as [| m nodes IH] using rev_ind; [done |].
  rewrite index_nodes_app, lookup_insert. case_decide; set_solver.
Qed.

Lemma index_nodes_is_Some nodes id :
  is_Some (index_nodes nodes !! id) ↔ ∃ n, n ∈ nodes ∧ nv_StableID n = id.
Proof.
  split; [intros [n ?%index_nodes_lookup]; eauto |].
  induction nodes as [| m nodes IH] using rev_ind; [set_solver |].
  intros (n & Hn & <-). rewrite index_nodes_app, lookup_insert.
  case_decide; [eauto |]. apply IH. set_solver.
Qed.

(** What a resolved member says about the inventory. *)
Definition member_resolved (nodes : list NodeView) (m : GroupMember) : Prop :=
  if gm_Present m
  then ∃ n, n ∈ nodes ∧ nv_StableID n = gm_StableID m ∧ gm_Name m = displayName n ∧
            gm_IP m = primaryIP n ∧ gm_Online m = nv_Online n
  else (¬ ∃ n, n ∈ nodes ∧ nv_StableID n = gm_StableID m) ∧
       gm_Name m = "" ∧ gm_IP m = "" ∧ gm_Online m = false.

Lemma resolveMembers_ids ids byID : gm_StableID <$> resolveMembers ids byID = ids.
Proof.
  induction ids as [| id ids IH]; [done |].
  etrans; [| exact (f_equal (cons id) IH)]. cbn. by destruct (byID !! id).
Qed.

Lemma resolveMembers_resolved ids nodes :
  Forall (member_resolved nodes) (resolveMembers ids (index_nodes nodes)).
Proof.
  apply Forall_fmap, Forall_true. intros id; simpl.
  unfold member_resolved. destruct (index_nodes nodes !! id) as [n |] eqn:Hn; simpl.
  - apply index_nodes_lookup in Hn as [? <-]. eauto 6.
  - split; [| done]. rewrite <- index_nodes_is_Some, Hn. by intros [? ?].
Qed.

(** Resolving zones keeps every zone and every member (present or not, in
    the configured order), marks a member present exactly when its node is in
    the inventory and then shows that node's data; the zones come out sorted by
    name and id. *)
Theorem buildGroupViews_correct gs nodes :
  ∃ sorted, sorted ≡ₚ gs ∧ Sorted group_le sorted ∧
    Forall2 (λ g gv,
      gv_ID gv = g_ID g ∧ gv_Name gv = g_Name g ∧
      gm_StableID <$> gv_Consumers gv = g_Consumers g ∧
      gm_StableID <$> gv_AllowedExitNodes gv = g_AllowedExitNodes g ∧
      Forall (member_resolved nodes) (gv_Consumers gv) ∧
      Forall (member_resolved nodes) (gv_AllowedExitNodes gv))
      sorted (buildGroupViews gs nodes).
Proof.
  exists (merge_sort group_le gs).
  split; [apply merge_sort_Permutation |]. split; [apply Sorted_merge_sort, _ |].
  unfold buildGroupViews. apply Forall2_fmap_r, Forall_Forall2_diag, Forall_true.
  intros g; simpl.
  eauto 10 using resolveMembers_ids, resolveMembers_resolved.
Qed.

(** ** Reconciliation *)

(** An intent that has not landed and whose window is still open. *)
Definition intent_open (rv : RouterView) (now : Time) (grace : Duration) : Prop :=
  ∃ d, rv_Desired rv = Some d ∧ sameExitNode (rv_CurrentExitNode rv) (Some d) = false ∧
       (rv_DesiredSince rv = zeroTime ∨ Sub now (rv_DesiredSince rv) < grace).

(** A fresh read is shown as ok exactly when the router answered and no
    different intent is still inside its window; it is unconfirmed exactly while
    such an intent is open, and the actual selection is never rewritten.  An ok
    view carries no intent. *)
Theorem reconcileState_correct rv now grace :
  let rv' := reconcileState rv now grace in
  (rv_State rv' = RouterUnreachable ↔ rv_Reachable rv = false) ∧
  (rv_State rv' = RouterUnconfirmed ↔ rv_Reachable rv = true ∧ intent_open rv now grace) ∧
  (rv_State rv' = RouterOK ↔ rv_Reachable rv = true ∧ ¬ intent_open rv now grace) ∧
  (rv_State rv' = RouterOK → rv_Desired rv' = None ∧ rv_DesiredSince rv' = zeroTime) ∧
  rv_CurrentExitNode rv' = rv_CurrentExitNode rv ∧ rv_Node rv' = rv_Node rv ∧
  rv_Reachable rv' = rv_Reachable rv ∧ rv_LastError rv' = rv_LastError rv.
Proof.
  unfold reconcileState, intent_open, IsZero.
  destruct rv as [n c d st stats r le lc ds ra eo ed ec]; simpl.
  destruct r; simpl; [| naive_solver].
  destruct d as [d |]; [| naive_solver].
  assert (∀ X, (∃ d0, Some d = Some d0 ∧ sameExitNode c (Some d0) = false ∧ X) ↔
               sameExitNode c (Some d) = false ∧ X) as Hio by naive_solver.
  rewrite !Hio. clear Hio. generalize (sameExitNode c (Some d)) as same. intros same.
  destruct same, (Z.eqb_spec ds zeroTime),
    (Z.ltb_spec (Sub now ds) grace) as [Hlt | Hlt%Z.nlt_ge]; simpl; naive_solver.
Qed.

Lemma reconcileState_node rv now grace : rv_Node (reconcileState rv now grace) = rv_Node rv.
Proof. unfold reconcileState. by repeat case_match. Qed.

(** ** [withRouter] *)

Section withRouter.
Context (cur : Snapshot) (addr : string) (mutate : RouterView → RouterView) (t : Time).
Hypothesis Hnode : ∀ rv, rv_Node (mutate rv) = rv_Node rv.

Lemma withRouter_matched :
  snd (withRouter cur addr mutate t) = true ↔
  ∃ rv, rv ∈ snap_Routers cur ∧ has_ip addr (rv_Node rv) = true.
Proof. apply existsb_elem. Qed.

Lemma withRouter_elem rv' :
  rv' ∈ snap_Routers (fst (withRouter cur addr mutate t)) ↔
  ∃ rv, rv ∈ snap_Routers cur ∧
        rv' = if has_ip addr (rv_Node rv) then mutate rv else rv.
Proof.
  simpl. rewrite list_elem_of_In, in_map_iff. setoid_rewrite list_elem_of_In. naive_solver.
Qed.

Lemma withRouter_elem_node rv' :
  rv' ∈ snap_Routers (fst (withRouter cur addr mutate t)) →
  ∃ rv, rv ∈ snap_Routers cur ∧ rv_Node rv' = rv_Node rv ∧
        rv' = if has_ip addr (rv_Node rv') then mutate rv else rv.
Proof.
  rewrite withRouter_elem. intros (rv & Hrv & ->). exists rv.
  destruct (has_ip addr (rv_Node rv)) eqn:E; rewrite ?Hnode, E; done.
Qed.

Lemma last_mutated_elem :
  snd (withRouter cur addr mutate t) = true →
  ∃ rv, rv ∈ snap_Routers cur ∧ has_ip addr (rv_Node rv) = true ∧
        last_mutated (fst (withRouter cur addr mutate t)) addr = mutate rv.
Proof.
  intros Hok. unfold last_mutated.
  set (l := List.filter _ _).
  assert (∃ x, x ∈ l) as [x Hx].
  { apply withRouter_matched in Hok as (rv & Hrv & Hip). exists (mutate rv).
    unfold l. apply list_elem_of_In, List.filter_In. rewrite <- list_elem_of_In, Hnode.
    split; [| done]. apply withRouter_elem. exists rv. by rewrite Hip. }
  destruct (last l) as [y |] eqn:Hlast; [| apply last_None in Hlast; rewrite Hlast in Hx; by apply not_elem_of_nil in Hx].
  simpl. apply last_Some_elem_of in Hlast.
  unfold l in Hlast. rewrite list_elem_of_In, List.filter_In, <- list_elem_of_In in Hlast.
  destruct Hlast as [Hy Hip]. apply withRouter_elem_node in Hy as (rv & Hrv & Hn & Hy').
  exists rv. rewrite <- Hn, Hip. rewrite Hip in Hy'. done.
Qed.
End withRouter.
