(* ===== verification/FileStore.v ===== *)
(** The file-backed, mutex-guarded store that [internal/groups] and
    [internal/guests] both are: a list of items with ids and labels, kept in
    memory and rewritten as a whole on every change.  The two packages repeat the
    code; it is modelled once, over a class of items, with the lines of groups, and
    each package's file says which of its functions is which instance.

    The facts: a save either installs the new items in memory and in the file or
    leaves both as they were ([transaction]); drawing an id ends; and adding,
    replacing or removing an item keeps ids and labels distinct. *)

From S2P Require Import Prelude GoStd Errors AtomicFile Json.

Class Item (I : Type) := {
  item_ID : I → string;
  item_label : I → string;
  item_encode : I → json;
  item_pkg : string;        (* the package, for the error texts *)
}.

Section filestore.
Context `{UT : UnicodeTables} `{JT : JSONText} {I : Type} `{IT : Item I}.

(** internal/groups/groups.go:93-97, Store.  The store's state and the world its operations run
    in: the file system and the results [rand.Read] will return. *)
Record World := mkWorld {
  w_fs : FSState;
  w_rand : list (error + Z);
  w_items : list I;
}.

Variables path dir : string.

Definition on_fs {A} (m : M FSState A) : M World A :=
  λ w, let '(a, fs) := m (w_fs w) in (a, mkWorld fs (w_rand w) (w_items w)).
Definition set_items (items : list I) : M World unit :=
  λ w, (tt, mkWorld (w_fs w) (w_rand w) items).

(** internal/groups/groups.go:281-284, persistLocked.  The value written to the file. *)
Definition encode (items : list I) : json := JArr (map item_encode items).

(** internal/groups/groups.go:111-130, load. *)
Definition load_items (decode : json → error + I) (fs : FSState) : error + list I :=
  match ReadFile path fs with
  | inl e =>
      if is_NotExist e then inr []
      else inl (wrapf (item_pkg +:+ ": reading " +:+ path +:+ ": ") e)
  | inr b =>
      match (match json_parse b with
             | inl e => inl e
             | inr v => decode_slice decode v
             end) with
      | inl e => inl (wrapf (item_pkg +:+ ": parsing " +:+ path +:+ " (corrupt " +:+ item_pkg +:+ " file): ") e)
      | inr items => inr items
      end
  end.

(** internal/groups/groups.go:231-238, indexOfLocked. *)
Definition indexOf (items : list I) (id : string) : option nat :=
  fst <$> list_find (λ g, item_ID g = id) items.

(** internal/groups/groups.go:244-254, nameTakenLocked. *)
Definition label_taken (items : list I) (name excludeID : string) : bool :=
  existsb (λ g, negb (String.eqb (item_ID g) excludeID) && EqualFold (item_label g) name) items.

(** internal/groups/groups.go:375-381, NewID.  [None]: the source of randomness has no more
    results. *)
Definition NewID : M World (option (error + string)) := λ w,
  match w_rand w with
  | [] => (None, w)
  | r :: rest =>
      (Some (match r with
             | inl e => inl (wrapf (item_pkg +:+ ": generating id: ") e)
             | inr b => inr (of_chars (hex_fixed 16 b))
             end), mkWorld (w_fs w) rest (w_items w))
  end.

(** internal/groups/groups.go:257-267, freshIDLocked.  The loop draws until an id is unused; it
    is bounded here by the number of results left. *)
Fixpoint fresh_id_loop (fuel : nat) : M World (option (error + string)) :=
  match fuel with
  | O => mret None
  | S fuel' =>
      r ← NewID;
      match r with
      | Some (inr id) =>
          items ← gets w_items;
          match indexOf items id with
          | None => mret (Some (inr id))
          | Some _ => fresh_id_loop fuel'
          end
      | r => mret r
      end
  end.
Definition fresh_id : M World (option (error + string)) :=
  λ w, fresh_id_loop (S (List.length (w_rand w))) w.

(** internal/groups/groups.go:272-327, persistLocked. *)
Definition save : M World (option error) :=
  items ← gets w_items;
  on_fs (persist item_pkg path dir (json_print (encode items))).

(** Run a change of the items and save it; an error restores [old]. *)
Definition save_or_restore {A} (old new : list I) (ok : A) : M World (error + A) :=
  _ ← set_items new;
  e ← save;
  match e with
  | Some e => _ ← set_items old; mret (inl e)
  | None => mret (inr ok)
  end.

(** ** Transactions *)

Abbreviation persist_ok := (not_temp item_pkg path dir).

(** An operation either installs a state [new] allows in memory and in the file,
    or changes neither; and in between the file never holds anything but the old
    text or the text of a state [new] allows. *)
Definition transaction {A} (w : World) (new : list I → Prop)
    (r : option (error + A)) (w' : World) : Prop :=
  match r with
  | Some (inr _) =>
      new (w_items w') ∧
      fs_files (w_fs w') !! path = Some (json_print (encode (w_items w')))
  | _ =>
      w_items w' = w_items w ∧ fs_files (w_fs w') !! path = fs_files (w_fs w) !! path
  end ∧
  ∃ l, fs_history (w_fs w') = fs_history (w_fs w) ++ l ∧
    Forall (λ fs : Files, fs !! path = fs_files (w_fs w) !! path ∨
      ∃ its, new its ∧ fs !! path = Some (json_print (encode its))) l.

Lemma transaction_none {A} w new (r : option (error + A)) w' :
  (∀ x, r ≠ Some (inr x)) → w_items w' = w_items w → w_fs w' = w_fs w →
  transaction w new r w'.
Proof.
  intros Hr Hi Hf. unfold transaction. rewrite Hf. split.
  - destruct r as [[e | x] |]; [done | by destruct (Hr x) | done].
  - exists []. by rewrite app_nil_r.
Qed.

Lemma save_transaction {A} new (ok : A) (P : list I → Prop) w r w' :
  persist_ok → P new → save_or_restore (w_items w) new ok w = (r, w') →
  transaction w P (Some r) w' ∧ (∀ x, r = inr x → x = ok ∧ w_items w' = new).
Proof.
  intros Hp HP. unfold save_or_restore, save, on_fs, set_items, gets, mbind, M_bind, mret, M_ret.
  simpl. set (text := json_print (encode new)).
  pose proof (persist_atomic item_pkg path dir text (w_fs w) Hp) as [Hf (l & Hl & Hfor)].
  assert (Forall (λ fs : Files, fs !! path = fs_files (w_fs w) !! path ∨
    ∃ its, P its ∧ fs !! path = Some (json_print (encode its))) l) as Hfor'.
  { eapply Forall_impl; [exact Hfor |]. intros fs [-> | ->]; [by left | right; by exists new]. }
  destruct (persist item_pkg path dir text (w_fs w)) as [[e |] fs']; intros [= <- <-].
  - split; [| done]. split; [done |]. exists l. split; [exact Hl | exact Hfor'].
  - split; [| by intros x [= ->]]. split; [by split |]. exists l. split; [exact Hl | exact Hfor'].
Qed.

Lemma transaction_into {A B} (f : A → B) w P (r : option (error + A)) w' :
  transaction w P r w' → transaction w P (sum_map id f <$> r) w'.
Proof. by destruct r as [[|]|]. Qed.

Lemma transaction_weaken {A} w (P Q : list I → Prop) (r : option (error + A)) w' :
  (∀ l, P l → Q l) → transaction w P r w' → transaction w Q r w'.
Proof.
  intros H [H1 (l & Hl & Hfor)]. split; [destruct r as [[|]|]; naive_solver |].
  exists l. split; [done |]. eapply Forall_impl; [exact Hfor |]. naive_solver.
Qed.

Lemma transaction_from {A} w w1 P (r : option (error + A)) w' :
  w_items w1 = w_items w → w_fs w1 = w_fs w → transaction w1 P r w' → transaction w P r w'.
Proof. intros Hi Hf. unfold transaction. by rewrite Hi, Hf. Qed.

(** Reading the file back gives the items in memory. *)
Definition in_sync (decode : json → error + I) (w : World) : Prop :=
  load_items decode (w_fs w) = inr (w_items w).

(** The text of the items decodes to them. *)
Definition persistable (decode : json → error + I) (items : list I) : Prop :=
  Forall (λ g, decode (item_encode g) = inr g) items ∧ text_faithful (encode items).

Lemma load_encoded decode items fs :
  persistable decode items →
  fs_files fs !! path = Some (json_print (encode items)) → load_items decode fs = inr items.
Proof.
  intros [Hd Ht] Hf. unfold load_items, ReadFile. rewrite Hf, Ht. simpl.
  clear Ht Hf. by induction Hd as [| g items Hg _ IH]; simpl; [| rewrite Hg; destruct (decode_all _ _); simplify_eq].
Qed.

(** Over a run: either the file is the text of the items, or neither has changed
    since the start.  Then in the end the file reads back as the items. *)
Definition tracks (w0 w : World) : Prop :=
  fs_files (w_fs w) !! path = Some (json_print (encode (w_items w))) ∨
  (w_items w = w_items w0 ∧ fs_files (w_fs w) !! path = fs_files (w_fs w0) !! path).

Lemma tracks_refl w : tracks w w.
Proof. by right. Qed.

Lemma transaction_tracks {A} w0 w P (r : option (error + A)) w' :
  transaction w P r w' → tracks w0 w → tracks w0 w'.
Proof.
  intros [H _] Ht. unfold tracks in *. destruct r as [[e | x] |]; destruct H as [H1 H2].
  2: by left. all: by rewrite H1, H2.
Qed.

Lemma tracks_sync decode w0 w :
  persistable decode (w_items w) → tracks w0 w → in_sync decode w0 → in_sync decode w.
Proof.
  intros Hd [H | [Hi Hf]] Hs; unfold in_sync in *; [by apply load_encoded |].
  unfold load_items, ReadFile in *. by rewrite Hf, Hi.
Qed.

(** What a crash in the middle of an operation leaves reads back as the items
    before it or as items the operation may install. *)
Lemma transaction_crash {A} decode w P (r : option (error + A)) w' files faults rand hist :
  in_sync decode w → (∀ its, P its → persistable decode its) → transaction w P r w' →
  files ∈ drop (List.length (fs_history (w_fs w))) (fs_history (w_fs w')) →
  ∃ its, load_items decode (mkFSState files faults rand hist) = inr its ∧ (its = w_items w ∨ P its).
Proof.
  intros Hs Ht [_ (l & -> & Hfor)]. rewrite drop_app_length. intros Hin.
  rewrite Forall_forall in Hfor. destruct (Hfor _ Hin) as [E | (its & HP & E)].
  - exists (w_items w). split; [| by left].
    unfold in_sync, load_items, ReadFile in *. cbn [fs_files]. by rewrite E.
  - exists its. split; [| by right]. apply load_encoded; [by apply Ht | done].
Qed.

(** ** Ids *)

Lemma hex_fixed_nonempty n z : of_chars (hex_fixed (S n) z) ≠ "".
Proof. cbn [hex_fixed]. by destruct (hex_fixed n (z / 16)). Qed.

Lemma NewID_frame w r w' :
  NewID w = (r, w') →
  w_items w' = w_items w ∧ w_fs w' = w_fs w ∧ ∀ id, r = Some (inr id) → id ≠ "".
Proof.
  unfold NewID. destruct (w_rand w) as [| [e | b] l]; intros [= <- <-]; try done.
  split; [done |]. split; [done |]. intros id Hid. injection Hid as <-.
  exact (hex_fixed_nonempty 15 b).
Qed.

Lemma fresh_id_loop_frame fuel w r w' :
  fresh_id_loop fuel w = (r, w') →
  w_items w' = w_items w ∧ w_fs w' = w_fs w ∧
  ∀ id, r = Some (inr id) → indexOf (w_items w) id = None ∧ id ≠ "".
Proof.
  revert w. induction fuel as [| fuel IH]; intros w; cbn [fresh_id_loop]; [by intros [= <- <-] |].
  unfold mbind, M_bind. destruct (NewID w) as [r1 w1] eqn:H1.
  apply NewID_frame in H1 as (Hi & Hf & Hid).
  unfold gets, mret, M_ret. destruct r1 as [[e | id] |]; [by intros [= <- <-] | | by intros [= <- <-]].
  destruct (indexOf (w_items w1) id) eqn:Hidx.
  - intros H2%IH. rewrite Hi, Hf in H2. done.
  - intros [= <- <-]. rewrite <- Hi. split; [done |]. split; [done |].
    intros id' [= <-]. by split; [| apply Hid].
Qed.

Lemma fresh_id_frame w r w' :
  fresh_id w = (r, w') →
  w_items w' = w_items w ∧ w_fs w' = w_fs w ∧
  ∀ id, r = Some (inr id) → indexOf (w_items w) id = None ∧ id ≠ "".
Proof. apply fresh_id_loop_frame. Qed.

Lemma indexOf_None items id : indexOf items id = None ↔ id ∉ (item_ID <$> items).
Proof.
  unfold indexOf. rewrite fmap_None, list_find_None, Forall_forall, list_elem_of_fmap. split.
  - intros H (g & -> & Hg). by apply (H g).
  - intros H g Hg <-. apply H. eauto.
Qed.

Lemma indexOf_Some items id i :
  indexOf items id = Some i → ∃ g, items !! i = Some g ∧ item_ID g = id.
Proof.
  unfold indexOf. intros ([j g] & (? & ? & _)%list_find_Some & ->)%fmap_Some. eauto.
Qed.

Lemma indexOf_lookup items i g :
  NoDup (item_ID <$> items) → items !! i = Some g → indexOf items (item_ID g) = Some i.
Proof.
  intros Hnd Hi. destruct (indexOf items (item_ID g)) as [j |] eqn:Hj.
  - apply indexOf_Some in Hj as (h & Hh & E). f_equal.
    eapply NoDup_lookup; [exact Hnd | |]; rewrite list_lookup_fmap; [by rewrite Hh |].
    rewrite Hi. simpl. congruence.
  - apply indexOf_None in Hj. destruct Hj. apply list_elem_of_fmap. exists g.
    split; [done | by eapply list_elem_of_lookup_2].
Qed.

(** Drawing ends: among more distinct draws than there are items, one is unused. *)
Lemma fresh_id_loop_terminates fuel bs w used :
  w_rand w = inr <$> bs → (List.length bs < fuel)%nat →
  NoDup ((λ b, of_chars (hex_fixed 16 b)) <$> bs) →
  (∀ x, x ∈ (λ b, of_chars (hex_fixed 16 b)) <$> bs → x ∉ used) →
  NoDup used → used ⊆ item_ID <$> w_items w →
  (List.length (w_items w) < List.length bs + List.length used)%nat →
  ∃ id, fst (fresh_id_loop fuel w) = Some (inr id).
Proof.
  revert bs w used. induction fuel as [| fuel IH]; intros bs w used Hr Hf Hnd Hdis Hu Hsub Hlen; [lia |].
  destruct bs as [| b bs].
  { apply NoDup_submseteq in Hsub; [| done]. apply submseteq_length in Hsub.
    rewrite length_fmap in Hsub. simpl in Hlen. lia. }
  cbn [fresh_id_loop]. unfold mbind, M_bind, NewID. rewrite Hr. cbn [fmap list_fmap].
  unfold gets, mret, M_ret. cbn [w_items].
  destruct (indexOf (w_items w) (of_chars (hex_fixed 16 b))) as [i |] eqn:Hi; [| by eexists].
  rewrite fmap_cons in Hnd, Hdis. apply NoDup_cons in Hnd as [Hni Hnd].
  apply (IH bs _ (of_chars (hex_fixed 16 b) :: used)); try done.
  - simpl in Hf. lia.
  - intros x Hx. rewrite elem_of_cons. intros [-> | Hin]; [done |].
    apply (Hdis x); [by right | done].
  - constructor; [apply Hdis; left | done].
  - intros x. rewrite elem_of_cons. intros [-> | Hin]; [| by apply Hsub].
    destruct (decide (of_chars (hex_fixed 16 b) ∈ item_ID <$> w_items w)) as [| Hn]; [done |].
    apply indexOf_None in Hn. congruence.
  - simpl in *. lia.
Qed.

(** ** Distinct ids and labels *)

Definition distinct_labels (items : list I) : Prop :=
  ∀ i j g h, items !! i = Some g → items !! j = Some h →
    EqualFold (item_label g) (item_label h) = true → i = j.

Record wf_store (good : I → Prop) (items : list I) : Prop := {
  wf_ids : NoDup (item_ID <$> items);
  wf_minted : Forall (λ g, item_ID g ≠ "") items;
  wf_labels : distinct_labels items;
  wf_good : Forall good items;
}.

Lemma label_taken_false items name ex g :
  label_taken items name ex = false → g ∈ items → item_ID g ≠ ex →
  EqualFold (item_label g) name = false.
Proof.
  unfold label_taken. intros H Hg Hne.
  destruct (EqualFold (item_label g) name) eqn:E; [| done].
  assert (existsb (λ g, negb (String.eqb (item_ID g) ex) && EqualFold (item_label g) name) items = true);
    [| congruence].
  apply existsb_elem. exists g. split; [done |]. rewrite E.
  by apply String.eqb_neq in Hne as ->.
Qed.

Section good.
Variable good : I → Prop.

Lemma wf_nil : wf_store good [].
Proof. split; [constructor | constructor | by intros ??? | constructor]. Qed.

Lemma wf_append items g :
  wf_store good items → good g → item_ID g ∉ (item_ID <$> items) → item_ID g ≠ "" →
  label_taken items (item_label g) "" = false → wf_store good (items ++ [g]).
Proof.
  intros [Hi Hm Hn Ht] Hg Hid Hne Hfree.
  assert (∀ h, h ∈ items → EqualFold (item_label h) (item_label g) = false) as Hname.
  { intros h Hh. eapply label_taken_false; [done | done |]. rewrite Forall_forall in Hm. by apply Hm. }
  split.
  - rewrite fmap_app. apply NoDup_app. split; [done |]. split; [| apply NoDup_singleton].
    intros x Hx ->%list_elem_of_singleton. done.
  - apply Forall_app. by split; [| apply Forall_singleton].
  - intros i j a b Ha Hb E. apply lookup_app_Some in Ha as [Ha | [Hla Ha]];
      apply lookup_app_Some in Hb as [Hb | [Hlb Hb]].
    + by eapply Hn.
    + apply list_lookup_singleton_Some in Hb as [Hj <-].
      rewrite (Hname a) in E; [done | by eapply list_elem_of_lookup_2].
    + apply list_lookup_singleton_Some in Ha as [Hj <-]. rewrite EqualFold_sym in E.
      rewrite (Hname b) in E; [done | by eapply list_elem_of_lookup_2].
    + apply list_lookup_singleton_Some in Ha as [Hi' _], Hb as [Hj' _]. lia.
  - apply Forall_app. by split; [| apply Forall_singleton].
Qed.

Lemma wf_replace items i old g :
  wf_store good items → items !! i = Some old → good g → item_ID g = item_ID old →
  label_taken items (item_label g) (item_ID old) = false → wf_store good (<[i := g]> items).
Proof.
  intros [Hi Hm Hn Ht] Hold Hg Hid Hfree.
  assert (∀ j h, items !! j = Some h → j ≠ i → EqualFold (item_label h) (item_label g) = false) as Hother.
  { intros j h Hh Hne. eapply label_taken_false; [done | by eapply list_elem_of_lookup_2 |].
    intros E. apply Hne. eapply NoDup_lookup; [exact Hi | |]; rewrite list_lookup_fmap; [by rewrite Hh |].
    rewrite Hold. simpl. congruence. }
  split.
  - replace (item_ID <$> <[i := g]> items) with (item_ID <$> items); [done |].
    rewrite list_fmap_insert. symmetry. apply list_insert_id.
    rewrite list_lookup_fmap, Hold. simpl. congruence.
  - apply Forall_insert; [done |]. rewrite Forall_forall in Hm.
    rewrite Hid. by eapply Hm, list_elem_of_lookup_2.
  - intros j k a b Ha Hb E.
    apply list_lookup_insert_Some in Ha as [(<- & <- & Hlt) | [Hnj Ha]];
      apply list_lookup_insert_Some in Hb as [(<- & <- & _) | [Hnk Hb]]; try done.
    + rewrite EqualFold_sym in E. rewrite (Hother k b) in E; done.
    + rewrite (Hother j a) in E; done.
    + by eapply Hn.
  - by apply Forall_insert.
Qed.

Lemma label_taken_self items i old :
  wf_store good items → items !! i = Some old →
  label_taken items (item_label old) (item_ID old) = false.
Proof.
  intros [Hi _ Hn _] Hold. apply not_true_iff_false. intros (h & Hh & Hb)%existsb_elem.
  apply andb_true_iff in Hb as [Hne%negb_true_iff%String.eqb_neq E].
  apply list_elem_of_lookup_1 in Hh as [j Hj]. pose proof (Hn _ _ _ _ Hj Hold E) as ->.
  congruence.
Qed.

Lemma wf_remove items i : wf_store good items → wf_store good (take i items ++ drop (S i) items).
Proof.
  intros [Hi Hm Hn Ht]. split.
  - rewrite fmap_app, fmap_take, fmap_drop, <- delete_take_drop.
    eapply sublist_NoDup; [exact Hi | apply sublist_delete].
  - apply Forall_app. split; [by apply Forall_take | by apply Forall_drop].
  - intros j k a b Ha Hb E. rewrite <- delete_take_drop in Ha, Hb.
    rewrite list_lookup_delete in Ha, Hb.
    pose proof (Hn _ _ _ _ Ha Hb E) as Heq. repeat case_decide; lia.
  - apply Forall_app. split; [by apply Forall_take | by apply Forall_drop].
Qed.
End good.

(** ** The abstract store: a map from ids to items *)

Definition as_map (items : list I) : gmap string I :=
  list_to_map ((λ g, (item_ID g, g)) <$> items).

Lemma as_map_lookup items id g :
  NoDup (item_ID <$> items) → as_map items !! id = Some g ↔ g ∈ items ∧ item_ID g = id.
Proof.
  intros Hnd. unfold as_map. rewrite <- elem_of_list_to_map.
  - rewrite list_elem_of_fmap. naive_solver.
  - by rewrite <- list_fmap_compose.
Qed.

Lemma as_map_get items id :
  NoDup (item_ID <$> items) → (i ← indexOf items id; items !! i) = as_map items !! id.
Proof.
  intros Hnd. apply option_eq. intros g. rewrite as_map_lookup by done. split.
  - intros (i & Hi & Hg)%bind_Some. apply indexOf_Some in Hi as (h & Hh & Hid).
    simplify_eq. split; [by eapply list_elem_of_lookup_2 | done].
  - intros [(i & Hi)%list_elem_of_lookup_1 <-]. by rewrite (indexOf_lookup _ _ _ Hnd Hi).
Qed.

Lemma as_map_append items g :
  NoDup (item_ID <$> items ++ [g]) → as_map (items ++ [g]) = <[item_ID g := g]> (as_map items).
Proof.
  intros Hnd. unfold as_map. rewrite fmap_app, list_to_map_app. simpl.
  rewrite fmap_app in Hnd. apply NoDup_app in Hnd as (_ & Hd & _).
  apply map_eq. intros id. destruct (decide (id = item_ID g)) as [-> | Hne].
  - rewrite lookup_insert, decide_True by done. apply lookup_union_Some_raw. right.
    rewrite lookup_insert, decide_True by done. split; [| done].
    apply not_elem_of_list_to_map. rewrite <- list_fmap_compose. intros H. apply (Hd _ H). left.
  - rewrite lookup_insert_ne by done. rewrite lookup_union_l; [done |].
    by rewrite lookup_insert_ne.
Qed.

Lemma as_map_replace items i old g :
  NoDup (item_ID <$> items) → items !! i = Some old → item_ID g = item_ID old →
  as_map (<[i := g]> items) = <[item_ID g := g]> (as_map items).
Proof.
  intros Hnd Hold Hid.
  assert (NoDup (item_ID <$> <[i := g]> items)) as Hnd'.
  { rewrite list_fmap_insert, list_insert_id; [done |].
    rewrite list_lookup_fmap, Hold. simpl. congruence. }
  apply map_eq. intros id. apply option_eq. intros h.
  rewrite as_map_lookup by done. destruct (decide (id = item_ID g)) as [-> | Hne].
  - rewrite lookup_insert, decide_True by done. split.
    + intros [(j & Hj)%list_elem_of_lookup_1 E].
      assert (<[i := g]> items !! i = Some g) as Hg
        by (apply list_lookup_insert_eq; by eapply lookup_lt_Some).
      pose proof (indexOf_lookup _ _ _ Hnd' Hj) as Hj'.
      pose proof (indexOf_lookup _ _ _ Hnd' Hg) as Hg'. congruence.
    + intros [= <-]. split; [| done]. apply list_elem_of_lookup. exists i.
      apply list_lookup_insert_eq. by eapply lookup_lt_Some.
  - rewrite lookup_insert_ne by done. rewrite as_map_lookup by done. split.
    + intros [(j & Hj)%list_elem_of_lookup_1 E]. split; [| done].
      apply list_lookup_insert_Some in Hj as [(-> & -> & _) | [_ Hj]]; [congruence |].
      by eapply list_elem_of_lookup_2.
    + intros [(j & Hj)%list_elem_of_lookup_1 E]. split; [| done].
      apply list_elem_of_lookup. exists j. rewrite list_lookup_insert_ne; [done |].
      intros ->. congruence.
Qed.

Lemma as_map_remove items i old :
  NoDup (item_ID <$> items) → items !! i = Some old →
  as_map (take i items ++ drop (S i) items) = delete (item_ID old) (as_map items).
Proof.
  intros Hnd Hold. rewrite <- (take_drop_middle items i old Hold) in Hnd |- * at 3.
  rewrite fmap_app, fmap_cons in Hnd. apply NoDup_app in Hnd as (Hn1 & Hn2 & Hn3).
  apply NoDup_cons in Hn3 as [Hn4 Hn5]. unfold as_map.
  rewrite !fmap_app, fmap_cons, !list_to_map_app. simpl. rewrite delete_union.
  rewrite delete_insert_eq. rewrite !(delete_id); [done | |].
  all: apply not_elem_of_list_to_map; rewrite <- list_fmap_compose; try done.
  intros H. apply (Hn2 _ H). left.
Qed.
End filestore.
Arguments World I : clear implicits.
