(* ===== verification/Groups.v ===== *)
(** [internal/groups]: the zone store: normalisation, the file format and the
    operations, over the file-backed store of FileStore.v (its [indexOf],
    [label_taken], [fresh_id], [save] and [load_items] are this package's
    indexOfLocked, label_taken, freshIDLocked, persistLocked and load). *)

From S2P Require Import Prelude GoStd Errors Store AtomicFile Json FileStore.

Definition statusNotFound : Z := 404.
Definition statusUnprocessable : Z := 422.

(** internal/groups/groups.go:55-57, notFoundErr. *)
Definition notFoundErr (id : string) : error :=
  ErrStatus statusNotFound "group not found" ("no group with id " +:+ id).

(** internal/groups/groups.go:59-61, validationErr. *)
Definition validationErr (detail : string) : error :=
  ErrStatus statusUnprocessable "invalid group" detail.

(** ** Normalisation *)

(** internal/groups/groups.go:356-371, normalizeMembers. *)
Fixpoint normalize_from (seen : list string) (ids : list string) (field : string)
    : error + list string :=
  match ids with
  | [] => inr []
  | raw :: rest =>
      let id := TrimSpace raw in
      if String.eqb id "" then
        inl (validationErr (field +:+ " contains an empty member StableID"))
      else if bool_decide (id ∈ seen) then normalize_from seen rest field
      else
        match normalize_from (id :: seen) rest field with
        | inl e => inl e
        | inr out => inr (id :: out)
        end
  end.
Definition normalizeMembers (ids : list string) (field : string) : error + list string :=
  normalize_from [] ids field.

(** internal/groups/groups.go:334-353, Normalize. *)
Definition Normalize (g : Group) : error + Group :=
  let name := TrimSpace (g_Name g) in
  if String.eqb name "" then inl (validationErr "name must not be empty") else
  match normalizeMembers (g_Consumers g) "consumers" with
  | inl e => inl e
  | inr consumers =>
      match normalizeMembers (g_AllowedExitNodes g) "allowedExitNodes" with
      | inl e => inl e
      | inr allowed => inr (mkGroup (g_ID g) name consumers allowed)
      end
  end.

(** ** The file format *)

(** internal/groups/groups.go:66-80, toPersisted. *)
Definition toPersisted (g : Group) : json :=
  JObj [("id", JStr (g_ID g)); ("name", JStr (g_Name g));
        ("consumers", json_strings (g_Consumers g));
        ("allowedExitNodes", json_strings (g_AllowedExitNodes g))].

Definition set_g_ID x g := mkGroup x (g_Name g) (g_Consumers g) (g_AllowedExitNodes g).
Definition set_g_Name x g := mkGroup (g_ID g) x (g_Consumers g) (g_AllowedExitNodes g).
Definition set_g_Consumers x g := mkGroup (g_ID g) (g_Name g) x (g_AllowedExitNodes g).
Definition set_g_Allowed x g := mkGroup (g_ID g) (g_Name g) (g_Consumers g) x.

Definition into {A B} (r : error + A) (f : A → B) : error + B :=
  match r with inl e => inl e | inr a => inr (f a) end.

Section groups.
Context `{UT : UnicodeTables} `{JT : JSONText}.

(** internal/groups/groups.go:82-89, fromPersisted. *)
Definition fromPersisted (v : json) : error + Group :=
  decode_struct
    [("id", λ v g, into (decode_string (g_ID g) v) (λ s, set_g_ID s g));
     ("name", λ v g, into (decode_string (g_Name g) v) (λ s, set_g_Name s g));
     ("consumers", λ v g, into (decode_slice (decode_string "") v) (λ l, set_g_Consumers l g));
     ("allowedExitNodes", λ v g, into (decode_slice (decode_string "") v) (λ l, set_g_Allowed l g))]
    v zeroGroup.

#[export] Instance group_item : Item Group := {|
  item_ID := g_ID;
  item_label := g_Name;
  item_encode := toPersisted;
  item_pkg := "groups";
|}.

Variables path dir : string.

(** internal/groups/groups.go:103-109, New.  The items a store starts with, or the error. *)
Definition New (fs : FSState) : error + list Group := load_items path fromPersisted fs.

(** internal/groups/groups.go:134-138, List. *)
Definition List_ (w : World Group) : list Group := w_items w.

(** internal/groups/groups.go:141-148, Get. *)
Definition Get (id : string) (w : World Group) : option Group :=
  i ← indexOf (w_items w) id; w_items w !! i.

Definition name_taken_err (name : string) : error :=
  validationErr ("a zone named " +:+ quote name +:+ " already exists").

(** internal/groups/groups.go:154-178, Create.  [None]: no unused id was drawn. *)
Definition Create (g : Group) : M (World Group) (option (error + Group)) :=
  match Normalize g with
  | inl e => mret (Some (inl e))
  | inr norm =>
      items ← gets w_items;
      if label_taken items (g_Name norm) "" then
        mret (Some (inl (name_taken_err (g_Name norm))))
      else
        id ← fresh_id;
        match id with
        | None => mret None
        | Some (inl e) => mret (Some (inl e))
        | Some (inr id) =>
            let norm := set_g_ID id norm in
            r ← save_or_restore path dir items (items ++ [norm]) norm;
            mret (Some r)
        end
  end.

(** internal/groups/groups.go:183-206, Update. *)
Definition Update (id : string) (g : Group) : M (World Group) (error + Group) :=
  match Normalize g with
  | inl e => mret (inl e)
  | inr norm =>
      items ← gets w_items;
      match indexOf items id with
      | None => mret (inl (notFoundErr id))
      | Some idx =>
          if label_taken items (g_Name norm) id then
            mret (inl (name_taken_err (g_Name norm)))
          else
            let norm := set_g_ID id norm in
            save_or_restore path dir items (<[idx := norm]> items) norm
      end
  end.

(** internal/groups/groups.go:210-228, Delete. *)
Definition Delete (id : string) : M (World Group) (error + unit) :=
  items ← gets w_items;
  match indexOf items id with
  | None => mret (inl (notFoundErr id))
  | Some idx => save_or_restore path dir items (take idx items ++ drop (S idx) items) tt
  end.
End groups.
