(* ===== verification/GroupsFacts.v ===== *)
(** The zone store: what normalisation produces, the invariant every operation
    keeps, and the agreement of memory and disk whatever fails. *)

From S2P Require Import Prelude GoStd Errors Store AtomicFile Json FileStore Groups.

(** ** Normalisation *)

(** A trimmed, non-empty text. *)
Definition tidy (s : string) : Prop := s ≠ "" ∧ TrimSpace s = s.

Lemma normalize_from_spec seen ids field :
  match normalize_from seen ids field with
  | inr out => Forall tidy out ∧ NoDup out ∧ (∀ x, x ∈ out → x ∉ seen) ∧
      (∀ x, x ∈ out ∨ x ∈ seen ↔ x ∈ (TrimSpace <$> ids) ∨ x ∈ seen) ∧
      Forall (λ raw, TrimSpace raw ≠ "") ids
  | inl e => as_HTTPStatus e = Some statusUnprocessable ∧ ∃ raw, raw ∈ ids ∧ TrimSpace raw = ""
  end.
Proof.
  revert seen. induction ids as [| raw ids IH]; intros seen; cbn [normalize_from].
  { split; [constructor |]. split; [constructor |].
    split; [by intros x ?%not_elem_of_nil |]. done. }
  destruct (String.eqb_spec (TrimSpace raw) "") as [Hb | Hb].
  { split; [done |]. exists raw. split; [left | done]. }
  case_bool_decide as Hin.
  - specialize (IH seen). destruct (normalize_from seen ids field) as [e | out].
    + destruct IH as (? & r & ? & ?). split; [done |]. exists r. split; [by right | done].
    + destruct IH as (H1 & H2 & H3 & H4 & H5). split; [done |]. split; [done |].
      split; [done |]. split; [| by constructor].
      intros x. rewrite H4, fmap_cons, elem_of_cons. naive_solver.
  - specialize (IH (TrimSpace raw :: seen)).
    destruct (normalize_from (TrimSpace raw :: seen) ids field) as [e | out].
    + destruct IH as (? & r & ? & ?). split; [done |]. exists r. split; [by right | done].
    + destruct IH as (H1 & H2 & H3 & H4 & H5).
      split; [constructor; [split; [done | apply TrimSpace_idem] | done] |].
      split; [constructor; [| done]; intros Hx; apply (H3 _ Hx); left |].
      split.
      { intros x. rewrite elem_of_cons. intros [-> | Hx]; [done |].
        specialize (H3 x Hx). rewrite elem_of_cons in H3. tauto. }
      split; [| by constructor]. intros x. specialize (H4 x).
      rewrite fmap_cons, !elem_of_cons in *. tauto.
Qed.

Lemma normalize_from_tidy seen ids field :
  Forall tidy ids → NoDup ids → (∀ x, x ∈ ids → x ∉ seen) →
  normalize_from seen ids field = inr ids.
Proof.
  revert seen. induction ids as [| x ids IH]; intros seen Ht Hnd Hs; [done |].
  apply Forall_cons in Ht as [[Hx Htr] Ht]. apply NoDup_cons in Hnd as [Hni Hnd].
  cbn [normalize_from]. rewrite Htr.
  destruct (String.eqb_spec x ""); [done |].
  rewrite bool_decide_eq_false_2 by (apply Hs; left). rewrite IH; [done | done | done |].
  intros y Hy. rewrite elem_of_cons. intros [-> | Hy']; [done |].
  apply (Hs y); [by right | done].
Qed.

Definition tidy_group (g : Group) : Prop :=
  tidy (g_Name g) ∧
  (Forall tidy (g_Consumers g) ∧ NoDup (g_Consumers g)) ∧
  (Forall tidy (g_AllowedExitNodes g) ∧ NoDup (g_AllowedExitNodes g)).

Lemma Normalize_tidy g g' : Normalize g = inr g' → tidy_group g'.
Proof.
  unfold Normalize, normalizeMembers.
  destruct (String.eqb_spec (TrimSpace (g_Name g)) ""); [done |].
  pose proof (normalize_from_spec [] (g_Consumers g) "consumers") as H1.
  destruct (normalize_from _ (g_Consumers g) _) as [e | c]; [done |].
  pose proof (normalize_from_spec [] (g_AllowedExitNodes g) "allowedExitNodes") as H2.
  destruct (normalize_from _ (g_AllowedExitNodes g) _) as [e | a]; [done |].
  intros [= <-]. destruct H1 as (? & ? & _), H2 as (? & ? & _).
  split; [split; [done | apply TrimSpace_idem] | done].
Qed.

(** Normalisation trims, drops repetitions and keeps everything else: the
    members are exactly the trimmed submitted ones, in the order of their first
    occurrence up to repetition, none blank and none twice; a blank name or member
    is refused with 422; and a normalised group is left unchanged. *)
Theorem Normalize_canonical g :
  match Normalize g with
  | inr g' =>
      g_ID g' = g_ID g ∧ g_Name g' = TrimSpace (g_Name g) ∧ tidy_group g' ∧
      (∀ x, x ∈ g_Consumers g' ↔ x ∈ (TrimSpace <$> g_Consumers g)) ∧
      (∀ x, x ∈ g_AllowedExitNodes g' ↔ x ∈ (TrimSpace <$> g_AllowedExitNodes g)) ∧
      Normalize g' = inr g'
  | inl e =>
      as_HTTPStatus e = Some statusUnprocessable ∧
      (TrimSpace (g_Name g) = "" ∨
       ∃ raw, raw ∈ g_Consumers g ++ g_AllowedExitNodes g ∧ TrimSpace raw = "")
  end.
Proof.
  pose proof (Normalize_tidy g) as Htidy. unfold Normalize, normalizeMembers in *.
  destruct (String.eqb_spec (TrimSpace (g_Name g)) "") as [Hn | Hn]; [by split; [| left] |].
  pose proof (normalize_from_spec [] (g_Consumers g) "consumers") as H1.
  destruct (normalize_from _ (g_Consumers g) _) as [e | c].
  { destruct H1 as (? & raw & ? & ?). split; [done |]. right. exists raw.
    split; [apply elem_of_app; by left | done]. }
  pose proof (normalize_from_spec [] (g_AllowedExitNodes g) "allowedExitNodes") as H2.
  destruct (normalize_from _ (g_AllowedExitNodes g) _) as [e | a].
  { destruct H2 as (? & raw & ? & ?). split; [done |]. right. exists raw.
    split; [apply elem_of_app; by right | done]. }
  specialize (Htidy _ eq_refl). destruct H1 as (H1a & H1b & _ & H1c & _), H2 as (H2a & H2b & _ & H2c & _).
  split; [done |]. split; [done |]. split; [done |].
  split; [intros x; specialize (H1c x); rewrite elem_of_nil in H1c; tauto |].
  split; [intros x; specialize (H2c x); rewrite elem_of_nil in H2c; tauto |].
  simpl. rewrite TrimSpace_idem. destruct (String.eqb_spec (TrimSpace (g_Name g)) ""); [done |].
  rewrite !normalize_from_tidy; try done; by intros x _ ?%not_elem_of_nil.
Qed.

(** ** The file format *)

Section store.
Context `{UT : UnicodeTables} `{JT : JSONText}.

Lemma fromPersisted_toPersisted g : fromPersisted (toPersisted g) = inr g.
Proof.
  unfold fromPersisted, toPersisted, decode_struct. simpl.
  rewrite !decode_json_strings. simpl. by destruct g.
Qed.

Lemma groups_persistable items :
  text_faithful (encode items) → persistable fromPersisted items.
Proof. intros H. split; [| done]. apply Forall_true, fromPersisted_toPersisted. Qed.

Variables path dir : string.

(** ** The operations *)

Inductive store_op :=
| OpCreate (g : Group)
| OpUpdate (id : string) (g : Group)
| OpDelete (id : string).

Definition forget {A} (r : error + A) : error + unit := sum_map id (λ _, tt) r.

Definition run_op (o : store_op) : M (World Group) (option (error + unit)) :=
  match o with
  | OpCreate g => r ← Create path dir g; mret (forget <$> r)
  | OpUpdate id g => r ← Update path dir id g; mret (Some (forget r))
  | OpDelete id => r ← Delete path dir id; mret (Some (forget r))
  end.

(** The items an operation leaves when it succeeds. *)
Definition op_result (o : store_op) (old new : list Group) : Prop :=
  match o with
  | OpCreate g => ∃ norm id, Normalize g = inr norm ∧ id ∉ (g_ID <$> old) ∧ id ≠ "" ∧
      label_taken old (g_Name norm) "" = false ∧ new = old ++ [set_g_ID id norm]
  | OpUpdate id g => ∃ norm i h, Normalize g = inr norm ∧ old !! i = Some h ∧ g_ID h = id ∧
      label_taken old (g_Name norm) id = false ∧ new = <[i := set_g_ID id norm]> old
  | OpDelete id => ∃ i h, old !! i = Some h ∧ g_ID h = id ∧ new = take i old ++ drop (S i) old
  end.

Lemma op_result_wf o old new :
  wf_store tidy_group old → op_result o old new → wf_store tidy_group new.
Proof.
  intros Hwf. destruct o as [g | id g | id]; simpl.
  - intros (norm & id & Hn & Hid & Hne & Hfree & ->).
    apply wf_append; try done. by apply Normalize_tidy in Hn.
  - intros (norm & i & h & Hn & Hh & <- & Hfree & ->).
    eapply wf_replace; try done. by apply Normalize_tidy in Hn.
  - intros (i & h & _ & _ & ->). by apply wf_remove.
Qed.

Lemma Create_transaction g w r w' :
  not_temp "groups" path dir → Create path dir g w = (r, w') →
  transaction path w (op_result (OpCreate g) (w_items w)) r w' ∧
  (∀ g', r = Some (inr g') → w_items w' = w_items w ++ [g']).
Proof.
  intros Hp. unfold Create. destruct (Normalize g) as [e | norm] eqn:Hnorm.
  { intros [= <- <-]. split; [by apply transaction_none | done]. }
  unfold mbind at 1, M_bind, gets. destruct (label_taken _ _ _) eqn:Hfree.
  { intros [= <- <-]. split; [by apply transaction_none | done]. }
  unfold mbind at 1, M_bind. destruct (fresh_id w) as [r1 w1] eqn:H1.
  apply fresh_id_frame in H1 as (Hi & Hf & Hid).
  destruct r1 as [[e | id] |].
  1, 3: intros [= <- <-]; split; [by apply transaction_none | done].
  unfold mbind, M_bind, mret, M_ret. rewrite <- Hi.
  destruct (save_or_restore _ _ _ _ _ w1) as [r0 w0] eqn:Hs. intros [= <- <-].
  destruct (Hid id eq_refl) as [Hidx Hne]. apply indexOf_None in Hidx.
  eapply (save_transaction _ _ _ _ (op_result (OpCreate g) (w_items w))) in Hs; [| done |].
  - destruct Hs as [Ht Hr]. split.
    + rewrite Hi. by eapply transaction_from.
    + intros g' [= ->]. by destruct (Hr g' eq_refl) as [-> ->].
  - exists norm, id. by rewrite Hi.
Qed.

Lemma Update_transaction id g w r w' :
  not_temp "groups" path dir → Update path dir id g w = (r, w') →
  transaction path w (op_result (OpUpdate id g) (w_items w)) (Some r) w'.
Proof.
  intros Hp. unfold Update. destruct (Normalize g) as [e | norm] eqn:Hnorm.
  { intros [= <- <-]. by apply transaction_none. }
  unfold mbind at 1, M_bind, gets. destruct (indexOf _ id) as [i |] eqn:Hi;
    [| intros [= <- <-]; by apply transaction_none].
  destruct (label_taken _ _ _) eqn:Hfree; [intros [= <- <-]; by apply transaction_none |].
  apply indexOf_Some in Hi as (h & Hh & Hid).
  intros Hs. eapply save_transaction in Hs; [apply Hs | done |].
  by exists norm, i, h.
Qed.

Lemma Delete_transaction id w r w' :
  not_temp "groups" path dir → Delete path dir id w = (r, w') →
  transaction path w (op_result (OpDelete id) (w_items w)) (Some r) w'.
Proof.
  intros Hp. unfold Delete, mbind at 1, M_bind, gets.
  destruct (indexOf _ id) as [i |] eqn:Hi; [| intros [= <- <-]; by apply transaction_none].
  apply indexOf_Some in Hi as (h & Hh & Hid).
  intros Hs. eapply save_transaction in Hs; [apply Hs | done |]. by exists i, h.
Qed.

Lemma run_op_transaction o w r w' :
  not_temp "groups" path dir → run_op o w = (r, w') →
  transaction path w (op_result o (w_items w)) r w'.
Proof.
  intros Hp. destruct o as [g | id g | id]; unfold run_op, mbind, M_bind, mret, M_ret.
  - destruct (Create _ _ _ _) eqn:E. intros [= <- <-]. apply Create_transaction in E as [E _]; [| done].
    by apply (transaction_into path (λ _, tt)) in E.
  - destruct (Update _ _ _ _ _) eqn:E. intros [= <- <-]. apply Update_transaction in E; [| done].
    by apply (transaction_into path (λ _, tt)) in E.
  - destruct (Delete _ _ _ _) eqn:E. intros [= <- <-]. apply Delete_transaction in E; [| done].
    by apply (transaction_into path (λ _, tt)) in E.
Qed.

(** A run of operations, whatever each of them answers. *)
Fixpoint run_ops (os : list store_op) (w : World Group) : World Group :=
  match os with
  | [] => w
  | o :: os' => run_ops os' (snd (run_op o w))
  end.

Lemma run_op_wf o w r w' :
  not_temp "groups" path dir → run_op o w = (r, w') →
  wf_store tidy_group (w_items w) → wf_store tidy_group (w_items w').
Proof.
  intros Hp H Hwf. apply run_op_transaction in H; [| done]. destruct H as [H _].
  destruct r as [[e | []] |]; [by destruct H as [-> _] | | by destruct H as [-> _]].
  destruct H as [H _]. by eapply op_result_wf.
Qed.

(** C13: whatever the operations, their arguments and the faults of the file
    system: zone ids stay distinct and non-empty, names distinct up to case, names
    and members normalised; and reading the file back gives exactly the zones in
    memory, as it did at the start. *)
Theorem groups_durable os w :
  not_temp "groups" path dir →
  wf_store tidy_group (w_items w) → in_sync path fromPersisted w →
  let w' := run_ops os w in
  text_faithful (encode (w_items w')) →
  wf_store tidy_group (w_items w') ∧ in_sync path fromPersisted w'.
Proof.
  intros Hp Hwf Hs. cbv zeta. intros Ht.
  assert (wf_store tidy_group (w_items (run_ops os w)) ∧ tracks path w (run_ops os w)) as [H1 H2].
  { clear Ht. assert (∀ w1, wf_store tidy_group (w_items w1) → tracks path w w1 →
      wf_store tidy_group (w_items (run_ops os w1)) ∧ tracks path w (run_ops os w1)) as Hgen.
    { induction os as [| o os IH]; intros w1 Hw1 Ht1; [done |]. simpl.
      destruct (run_op o w1) as [r w2] eqn:E. apply IH.
      - by eapply run_op_wf.
      - eapply transaction_tracks; [| exact Ht1]. by eapply run_op_transaction. }
    apply Hgen; [done | apply tracks_refl]. }
  split; [done |]. eapply tracks_sync; [by apply groups_persistable | done | done].
Qed.


(** C15: the store is a map from ids to zones: [Get] looks up in it, a successful
    [Create] adds the normalised zone under an id that was free, a successful
    [Update] replaces it, [Delete] removes it, and an operation that reports an
    error changes nothing. *)
Theorem groups_refine_map o w :
  not_temp "groups" path dir → wf_store tidy_group (w_items w) →
  (∀ id, Get id w = as_map (w_items w) !! id) ∧
  let '(r, w') := run_op o w in
  let m := as_map (w_items w) in let m' := as_map (w_items w') in
  match r, o with
  | Some (inr _), OpCreate g => ∃ norm id, Normalize g = inr norm ∧ m !! id = None ∧
      m' = <[id := set_g_ID id norm]> m
  | Some (inr _), OpUpdate id g => ∃ norm, Normalize g = inr norm ∧ is_Some (m !! id) ∧
      m' = <[id := set_g_ID id norm]> m
  | Some (inr _), OpDelete id => is_Some (m !! id) ∧ m' = delete id m
  | _, _ => m' = m
  end.
Proof.
  intros Hp Hwf. split.
  { intros id. rewrite <- as_map_get; [done | by eapply wf_ids]. }
  destruct (run_op o w) as [r w'] eqn:E. cbv zeta.
  pose proof (run_op_wf _ _ _ _ Hp E Hwf) as Hwf'.
  apply run_op_transaction in E as [H _]; [| done].
  destruct r as [[e | []] |]; [by destruct H as [-> _] | | by destruct H as [-> _]].
  destruct H as [H _]. pose proof (wf_ids _ _ Hwf) as Hnd. destruct o as [g | id g | id]; simpl in H.
  - destruct H as (norm & id & Hn & Hid & _ & _ & E). exists norm, id.
    split; [done |]. split.
    + apply eq_None_not_Some. intros [h (Hh & Hhid)%as_map_lookup]; [| done].
      apply Hid, list_elem_of_fmap. eauto.
    + rewrite E. change id with (item_ID (set_g_ID id norm)) at 2. apply as_map_append.
      rewrite <- E. by eapply wf_ids.
  - destruct H as (norm & i & h & Hn & Hh & <- & _ & E). exists norm. split; [done |]. split.
    + exists h. apply as_map_lookup; [done |]. split; [by eapply list_elem_of_lookup_2 | done].
    + rewrite E. exact (as_map_replace _ _ h (set_g_ID (g_ID h) norm) Hnd Hh eq_refl).
  - destruct H as (i & h & Hh & <- & E). split.
    + exists h. apply as_map_lookup; [done |]. split; [by eapply list_elem_of_lookup_2 | done].
    + rewrite E. exact (as_map_remove _ _ h Hnd Hh).
Qed.

(** C31: creating a zone ends: the loop that draws ids finds a free one as soon as
    the source of randomness has given more distinct values than there are zones,
    and [Create] then answers with an id that differs from all the others. *)
Theorem groups_Create_terminates g bs w :
  not_temp "groups" path dir →
  w_rand w = inr <$> bs → NoDup ((λ b, of_chars (hex_fixed 16 b)) <$> bs) →
  (List.length (w_items w) < List.length bs)%nat →
  ∃ r w', Create path dir g w = (Some r, w') ∧
    ∀ g', r = inr g' → g_ID g' ∉ (g_ID <$> w_items w) ∧ w_items w' = w_items w ++ [g'].
Proof.
  intros Hp Hr Hnd Hlen.
  destruct (fresh_id_loop_terminates (S (List.length (w_rand w))) bs w []) as [id Hid]; try done.
  { rewrite Hr, length_fmap. lia. } { by intros x _ ?%not_elem_of_nil. } { constructor. }
  { by intros x ?%not_elem_of_nil. } { simpl. lia. }
  destruct (Create path dir g w) as [[r |] w'] eqn:E.
  - pose proof (Create_transaction g w _ _ Hp E) as [[H _] Hok]. exists r, w'. split; [done |].
    intros g' ->. split; [| by apply Hok]. pose proof (Hok g' eq_refl) as Heq.
    destruct H as [(norm & id' & _ & Hni & _ & _ & H) _]. rewrite Heq in H.
    apply app_inv_head in H as [= ->]. exact Hni.
  - exfalso. revert E. unfold Create. destruct (Normalize g); [done |].
    unfold mbind at 1, M_bind, gets. destruct (label_taken _ _ _); [done |].
    unfold mbind, M_bind, fresh_id, mret, M_ret.
    destruct (fresh_id_loop _ w) as [r1 w1]. simpl in Hid. subst r1.
    by destruct (save_or_restore _ _ _ _ _ w1).
Qed.
End store.
