(* ===== verification/Guests.v ===== *)
(** [internal/guests]: guest credentials over the file-backed store of FileStore.v
    (its [indexOf], [label_taken], [fresh_id], [save] and [load_items] are this
    package's indexOfLocked, labelTakenLocked, freshIDLocked, persistLocked and
    load), with bcrypt as a parameter. *)

From S2P Require Import Prelude GoStd Errors Store AtomicFile Json FileStore.

(** internal/guests/guests.go:42-45, statusNotFound. *)
Definition statusNotFound : Z := 404.
(** internal/guests/guests.go:44-44, statusUnprocessable. *)
Definition statusUnprocessable : Z := 422.

(** internal/guests/guests.go:54-54, bcryptCost. *)
Definition bcryptCost : Z := 12.

(** internal/guests/guests.go:60-63, minPasswordLen. *)
Definition minPasswordLen : Z := 8.
(** internal/guests/guests.go:62-62, maxPasswordLen. *)
Definition maxPasswordLen : Z := 72.

(** internal/guests/guests.go:78-80, notFoundErr. *)
Definition notFoundErr (id : string) : error :=
  ErrStatus statusNotFound "guest not found" ("no guest with id " +:+ id).

(** internal/guests/guests.go:82-84, validationErr. *)
Definition validationErr (detail : string) : error :=
  ErrStatus statusUnprocessable "invalid guest" detail.

(** internal/guests/guests.go:102-109, guest. *)
Record guest := mkGuestRec {
  gr_id : string;
  gr_label : string;
  gr_zoneID : string;
  gr_passwordHash : string;
  gr_disabled : bool;
  gr_createdAt : Time;
}.

Definition set_gr_id x g := mkGuestRec x (gr_label g) (gr_zoneID g) (gr_passwordHash g) (gr_disabled g) (gr_createdAt g).
Definition set_gr_label x g := mkGuestRec (gr_id g) x (gr_zoneID g) (gr_passwordHash g) (gr_disabled g) (gr_createdAt g).
Definition set_gr_zoneID x g := mkGuestRec (gr_id g) (gr_label g) x (gr_passwordHash g) (gr_disabled g) (gr_createdAt g).
Definition set_gr_passwordHash x g := mkGuestRec (gr_id g) (gr_label g) (gr_zoneID g) x (gr_disabled g) (gr_createdAt g).
Definition set_gr_disabled x g := mkGuestRec (gr_id g) (gr_label g) (gr_zoneID g) (gr_passwordHash g) x (gr_createdAt g).
Definition set_gr_createdAt x g := mkGuestRec (gr_id g) (gr_label g) (gr_zoneID g) (gr_passwordHash g) (gr_disabled g) x.

(** internal/guests/guests.go:112-120, guest.public. *)
Definition public (g : guest) : Guest :=
  mkGuest (gr_id g) (gr_label g) (gr_zoneID g) (gr_disabled g) (gr_createdAt g).

(** golang.org/x/crypto/bcrypt: hashing with a salt and a cost, and comparing. *)
Class Bcrypt := {
  bcrypt_generate : Z → string → Z → error + string;   (* salt, password, cost *)
  bcrypt_compare : string → string → bool;             (* hash, password *)
}.

(** A password compares equal to a hash made of it. *)
Class BcryptLaws `{Bcrypt} := {
  bcrypt_accepts salt pw cost h :
    bcrypt_generate salt pw cost = inr h → bcrypt_compare h pw = true;
}.

Section guests.
Context `{UT : UnicodeTables} `{JT : JSONText} `{BC : Bcrypt}.

(** ** The file format *)

(** internal/guests/guests.go:122-131, toPersisted. *)
Definition toPersisted (g : guest) : json :=
  JObj [("id", JStr (gr_id g)); ("label", JStr (gr_label g)); ("zoneId", JStr (gr_zoneID g));
        ("passwordHash", JStr (gr_passwordHash g)); ("disabled", JBool (gr_disabled g));
        ("createdAt", JStr (time_format (gr_createdAt g)))].

Definition decode_time (old : Time) (v : json) : error + Time :=
  match v with
  | JStr s =>
      match time_parse s with
      | Some t => inr t
      | None => inl (ErrText ("parsing time " +:+ quote s))
      end
  | JNull => inr old
  | _ => inl (ErrText "Time.UnmarshalJSON: input is not a JSON string")
  end.

(** internal/guests/guests.go:133-142, fromPersisted. *)
Definition fromPersisted (v : json) : error + guest :=
  decode_struct
    [("id", λ v g, sum_map id (λ s, set_gr_id s g) (decode_string (gr_id g) v));
     ("label", λ v g, sum_map id (λ s, set_gr_label s g) (decode_string (gr_label g) v));
     ("zoneId", λ v g, sum_map id (λ s, set_gr_zoneID s g) (decode_string (gr_zoneID g) v));
     ("passwordHash", λ v g, sum_map id (λ s, set_gr_passwordHash s g) (decode_string (gr_passwordHash g) v));
     ("disabled", λ v g, sum_map id (λ b, set_gr_disabled b g) (decode_bool (gr_disabled g) v));
     ("createdAt", λ v g, sum_map id (λ t, set_gr_createdAt t g) (decode_time (gr_createdAt g) v))]
    v (mkGuestRec "" "" "" "" false zeroTime).

#[export] Instance guest_item : Item guest := {|
  item_ID := gr_id;
  item_label := gr_label;
  item_encode := toPersisted;
  item_pkg := "guests";
|}.

(** internal/guests/guests.go:151-157, mustDummyHash.  [None]: the panic at start-up. *)
Definition mustDummyHash (salt : Z) : option string :=
  match bcrypt_generate salt "tsctl-guest-timing-parity-placeholder" bcryptCost with
  | inl _ => None
  | inr h => Some h
  end.

Variables path dir : string.

(** internal/guests/guests.go:180-199, load.  What [New] starts with, or the error. *)
Definition load (fs : FSState) : error + list guest := load_items path fromPersisted fs.
(** internal/guests/guests.go:172-178, New. *)
Definition New (fs : FSState) : error + list guest := load fs.

(** internal/guests/guests.go:203-211, List. *)
Definition List_ (w : World guest) : list Guest := public <$> w_items w.

(** internal/guests/guests.go:362-369, indexOfLocked. *)
Definition indexOfLocked (items : list guest) (id : string) : option nat := indexOf items id.

(** internal/guests/guests.go:374-384, labelTakenLocked. *)
Definition labelTakenLocked (items : list guest) (label excludeID : string) : bool :=
  label_taken items label excludeID.

(** internal/guests/guests.go:387-397, freshIDLocked. *)
Definition freshIDLocked : M (World guest) (option (error + string)) := fresh_id.

(** internal/guests/guests.go:403-458, persistLocked. *)
Definition persistLocked : M (World guest) (option error) := save path dir.

(** internal/guests/guests.go:214-221, Get. *)
Definition Get (id : string) (w : World guest) : option Guest :=
  i ← indexOfLocked (w_items w) id; public <$> (w_items w !! i).

(** The checks of [Create] before it hashes. *)
Definition create_checks (label zoneID pw : string) : option error :=
  if String.eqb label "" then Some (validationErr "label must not be empty")
  else if String.eqb zoneID "" then Some (validationErr "zoneId must not be empty")
  else if len pw <? minPasswordLen then
    Some (validationErr ("password must be at least " +:+ itoa minPasswordLen +:+ " characters"))
  else if maxPasswordLen <? len pw then
    Some (validationErr ("password must be at most " +:+ itoa maxPasswordLen +:+ " bytes"))
  else None.

(** internal/guests/guests.go:229-277, Create.  [salt] is the salt bcrypt draws and [now] the
    time of the call; [None]: no unused id was drawn. *)
Definition Create (salt : Z) (now : Time) (label zoneID pw : string)
    : M (World guest) (option (error + Guest)) :=
  let label := TrimSpace label in
  let zoneID := TrimSpace zoneID in
  match create_checks label zoneID pw with
  | Some e => mret (Some (inl e))
  | None =>
      match bcrypt_generate salt pw bcryptCost with
      | inl e => mret (Some (inl (wrapf "guests: hashing password: " e)))
      | inr hash =>
          items ← gets w_items;
          if labelTakenLocked items label "" then
            mret (Some (inl (validationErr ("a guest labeled " +:+ quote label +:+ " already exists"))))
          else
            id ← freshIDLocked;
            match id with
            | None => mret None
            | Some (inl e) => mret (Some (inl e))
            | Some (inr id) =>
                let g := mkGuestRec id label zoneID hash false now in
                r ← save_or_restore path dir items (items ++ [g]) (public g);
                mret (Some r)
            end
      end
  end.

(** internal/guests/guests.go:284-299, SetDisabled. *)
Definition SetDisabled (id : string) (disabled : bool) : M (World guest) (error + Guest) :=
  items ← gets w_items;
  match (i ← indexOfLocked items id; (λ g, (i, g)) <$> (items !! i)) with
  | None => mret (inl (notFoundErr id))
  | Some (idx, old) =>
      let g := set_gr_disabled disabled old in
      save_or_restore path dir items (<[idx := g]> items) (public g)
  end.

(** internal/guests/guests.go:303-321, Delete. *)
Definition Delete (id : string) : M (World guest) (error + unit) :=
  items ← gets w_items;
  match indexOfLocked items id with
  | None => mret (inl (notFoundErr id))
  | Some idx => save_or_restore path dir items (take idx items ++ drop (S idx) items) tt
  end.

(** A comparison; the state lists the comparisons made, each at the cost of one
    bcrypt run. *)
Definition CompareHashAndPassword (hash pw : string) : M (list (string * string)) bool :=
  λ log, (bcrypt_compare hash pw, log ++ [(hash, pw)]).

(** internal/guests/guests.go:329-359, Authenticate. *)
Definition Authenticate (dummyHash : string) (items : list guest) (label pw : string)
    : M (list (string * string)) (option Guest) :=
  let label := TrimSpace label in
  match List.find (λ g, EqualFold (gr_label g) label) items with
  | None => _ ← CompareHashAndPassword dummyHash pw; mret None
  | Some rec =>
      ok ← CompareHashAndPassword (gr_passwordHash rec) pw;
      if negb ok then mret None
      else if gr_disabled rec then mret None
      else mret (Some (public rec))
  end.
End guests.
