(* ===== verification/GuestsFacts.v ===== *)
(** The guest store: who may authenticate, how long a change lasts, and the
    agreement of memory and disk whatever fails. *)

From S2P Require Import Prelude GoStd Errors Store AtomicFile Json FileStore GroupsFacts Guests.

Section guests.
Context `{UT : UnicodeTables} `{JT : JSONText} `{BC : Bcrypt}.

Lemma guest_fromPersisted_toPersisted g :
  time_faithful (gr_createdAt g) → fromPersisted (toPersisted g) = inr g.
Proof.
  intros Ht. unfold fromPersisted, toPersisted, decode_struct. simpl.
  rewrite Ht. simpl. by destruct g.
Qed.

Lemma guests_persistable items :
  Forall (λ g, time_faithful (gr_createdAt g)) items → text_faithful (encode items) →
  persistable fromPersisted items.
Proof.
  intros Ht Hf. split; [| done]. eapply Forall_impl; [exact Ht |]. apply guest_fromPersisted_toPersisted.
Qed.

(** A stored guest has a trimmed label and a trimmed zone, neither of them empty. *)
Definition tidy_guest (g : guest) : Prop := tidy (gr_label g) ∧ tidy (gr_zoneID g).

Variables path dir : string.

(** ** The operations *)

Inductive guest_op :=
| GCreate (salt : Z) (now : Time) (label zoneID pw : string)
| GSetDisabled (id : string) (disabled : bool)
| GDelete (id : string).

Definition run_guest_op (o : guest_op) : M (World guest) (option (error + unit)) :=
  match o with
  | GCreate salt now label zone pw => r ← Create path dir salt now label zone pw; mret (forget <$> r)
  | GSetDisabled id d => r ← SetDisabled path dir id d; mret (Some (forget r))
  | GDelete id => r ← Delete path dir id; mret (Some (forget r))
  end.

(** The items an operation leaves when it succeeds. *)
Definition guest_result (o : guest_op) (old new : list guest) : Prop :=
  match o with
  | GCreate salt now label zone pw => ∃ id h,
      create_checks (TrimSpace label) (TrimSpace zone) pw = None ∧
      bcrypt_generate salt pw bcryptCost = inr h ∧
      label_taken old (TrimSpace label) "" = false ∧ id ∉ (gr_id <$> old) ∧ id ≠ "" ∧
      new = old ++ [mkGuestRec id (TrimSpace label) (TrimSpace zone) h false now]
  | GSetDisabled id d => ∃ i g, old !! i = Some g ∧ gr_id g = id ∧
      new = <[i := set_gr_disabled d g]> old
  | GDelete id => ∃ i g, old !! i = Some g ∧ gr_id g = id ∧ new = take i old ++ drop (S i) old
  end.

Lemma create_checks_None label zone pw :
  create_checks label zone pw = None →
  label ≠ "" ∧ zone ≠ "" ∧ minPasswordLen ≤ len pw ≤ maxPasswordLen.
Proof.
  unfold create_checks.
  destruct (String.eqb_spec label ""); [done |]. destruct (String.eqb_spec zone ""); [done |].
  destruct (Z.ltb_spec (len pw) minPasswordLen); [done |].
  destruct (Z.ltb_spec maxPasswordLen (len pw)); [done |]. done.
Qed.

Lemma guest_result_wf o old new :
  wf_store tidy_guest old → guest_result o old new → wf_store tidy_guest new.
Proof.
  intros Hwf. destruct o as [salt now label zone pw | id d | id]; simpl.
  - intros (id & h & Hc & _ & Hfree & Hid & Hne & ->). apply create_checks_None in Hc as (? & ? & _).
    apply wf_append; try done. split; (split; [done | apply TrimSpace_idem]).
  - intros (i & g & Hg & <- & ->). pose proof (wf_good _ _ Hwf) as Hgood.
    eapply wf_replace; [done | done | | done | exact (label_taken_self _ _ _ _ Hwf Hg)].
    rewrite Forall_lookup in Hgood. exact (Hgood _ _ Hg).
  - intros (i & g & _ & _ & ->). by apply wf_remove.
Qed.

Lemma guest_Create_transaction salt now label zone pw w r w' :
  not_temp "guests" path dir → Create path dir salt now label zone pw w = (r, w') →
  transaction path w (guest_result (GCreate salt now label zone pw) (w_items w)) r w' ∧
  (∀ g, r = Some (inr g) → ∃ rec, public rec = g ∧ w_items w' = w_items w ++ [rec]).
Proof.
  intros Hp. unfold Create. destruct (create_checks _ _ _) eqn:Hc.
  { intros [= <- <-]. split; [by apply transaction_none | done]. }
  destruct (bcrypt_generate _ _ _) as [e | h] eqn:Hh.
  { intros [= <- <-]. split; [by apply transaction_none | done]. }
  unfold mbind at 1, M_bind, gets. destruct (labelTakenLocked _ _ _) eqn:Hfree.
  { intros [= <- <-]. split; [by apply transaction_none | done]. }
  unfold mbind at 1, M_bind, freshIDLocked. destruct (fresh_id w) as [r1 w1] eqn:H1.
  apply fresh_id_frame in H1 as (Hi & Hf & Hid).
  destruct r1 as [[e | id] |].
  1, 3: intros [= <- <-]; split; [by apply transaction_none | done].
  unfold mbind, M_bind, mret, M_ret. rewrite <- Hi.
  destruct (save_or_restore _ _ _ _ _ w1) as [r0 w0] eqn:Hs. intros [= <- <-].
  destruct (Hid id eq_refl) as [Hidx Hne]. apply indexOf_None in Hidx.
  eapply (save_transaction _ _ _ _ (guest_result (GCreate salt now label zone pw) (w_items w))) in Hs;
    [| done |].
  - destruct Hs as [Ht Hr]. split.
    + rewrite Hi. by eapply transaction_from.
    + intros g' [= ->]. destruct (Hr g' eq_refl) as [-> ->]. by eexists.
  - exists id, h. by rewrite Hi.
Qed.

Lemma guest_SetDisabled_transaction id d w r w' :
  not_temp "guests" path dir → SetDisabled path dir id d w = (r, w') →
  transaction path w (guest_result (GSetDisabled id d) (w_items w)) (Some r) w'.
Proof.
  intros Hp. unfold SetDisabled, mbind at 1, M_bind, gets, indexOfLocked.
  destruct (indexOf _ id) as [i |] eqn:Hi; [| intros [= <- <-]; by apply transaction_none].
  apply indexOf_Some in Hi as (g & Hg & Hid). simpl. rewrite Hg. simpl.
  intros Hs. eapply save_transaction in Hs; [apply Hs | done |]. by exists i, g.
Qed.

Lemma guest_Delete_transaction id w r w' :
  not_temp "guests" path dir → Delete path dir id w = (r, w') →
  transaction path w (guest_result (GDelete id) (w_items w)) (Some r) w'.
Proof.
  intros Hp. unfold Delete, mbind at 1, M_bind, gets, indexOfLocked.
  destruct (indexOf _ id) as [i |] eqn:Hi; [| intros [= <- <-]; by apply transaction_none].
  apply indexOf_Some in Hi as (h & Hh & Hid).
  intros Hs. eapply save_transaction in Hs; [apply Hs | done |]. by exists i, h.
Qed.

Lemma run_guest_op_transaction o w r w' :
  not_temp "guests" path dir → run_guest_op o w = (r, w') →
  transaction path w (guest_result o (w_items w)) r w'.
Proof.
  intros Hp. destruct o as [salt now label zone pw | id d | id];
    unfold run_guest_op, mbind, M_bind, mret, M_ret.
  - destruct (Create _ _ _ _ _ _ _ _) eqn:E. intros [= <- <-].
    apply guest_Create_transaction in E as [E _]; [| done]. by apply (transaction_into path (λ _, tt)) in E.
  - destruct (SetDisabled _ _ _ _ _) eqn:E. intros [= <- <-].
    apply guest_SetDisabled_transaction in E; [| done]. by apply (transaction_into path (λ _, tt)) in E.
  - destruct (Delete _ _ _ _) eqn:E. intros [= <- <-].
    apply guest_Delete_transaction in E; [| done]. by apply (transaction_into path (λ _, tt)) in E.
Qed.

(** Either the items are unchanged or the operation installed its result. *)
Lemma run_guest_op_items o w :
  not_temp "guests" path dir →
  w_items (snd (run_guest_op o w)) = w_items w ∨
  guest_result o (w_items w) (w_items (snd (run_guest_op o w))).
Proof.
  intros Hp. destruct (run_guest_op o w) as [r w'] eqn:E. apply run_guest_op_transaction in E as [H _]; [| done].
  destruct r as [[e | []] |]; [left | right | left]; apply H.
Qed.

Fixpoint run_guest_ops (os : list guest_op) (w : World guest) : World guest :=
  match os with
  | [] => w
  | o :: os' => run_guest_ops os' (snd (run_guest_op o w))
  end.

Lemma run_guest_ops_ind (P : World guest → Prop) os w :
  (∀ o w1, o ∈ os → P w1 → P (snd (run_guest_op o w1))) → P w → P (run_guest_ops os w).
Proof.
  revert w. induction os as [| o os IH]; intros w Hstep Hw; [done |]. simpl. apply IH.
  - intros o' w1 Ho. apply Hstep. by right.
  - apply Hstep; [left | done].
Qed.

Lemma run_guest_op_wf o w :
  not_temp "guests" path dir →
  wf_store tidy_guest (w_items w) → wf_store tidy_guest (w_items (snd (run_guest_op o w))).
Proof.
  intros Hp Hwf. destruct (run_guest_op_items o w Hp) as [-> | H]; [done |].
  by eapply guest_result_wf.
Qed.

(** The operations that concern one guest. *)
Definition touches (id : string) (o : guest_op) : bool :=
  match o with
  | GCreate _ _ _ _ _ => false
  | GSetDisabled id' _ | GDelete id' => String.eqb id' id
  end.

(** An operation that does not touch a guest leaves its record in the store. *)
Lemma untouched_stays o w rec :
  not_temp "guests" path dir → touches (gr_id rec) o = false →
  rec ∈ w_items w → rec ∈ w_items (snd (run_guest_op o w)).
Proof.
  intros Hp Ht Hin. destruct (run_guest_op_items o w Hp) as [-> | H]; [done |].
  revert H. generalize (w_items (snd (run_guest_op o w))). intros new H.
  apply list_elem_of_lookup in Hin as [j Hj].
  destruct o as [salt now label zone pw | id d | id]; simpl in Ht, H.
  - destruct H as (id & h & _ & _ & _ & _ & _ & ->). apply elem_of_app. left.
    by eapply list_elem_of_lookup_2.
  - destruct H as (i & g & Hg & <- & ->). apply String.eqb_neq in Ht.
    apply list_elem_of_lookup. exists j. rewrite list_lookup_insert_ne; [done |]. congruence.
  - destruct H as (i & g & Hg & <- & ->). apply String.eqb_neq in Ht.
    assert (i ≠ j) as Hne by congruence.
    rewrite <- (take_drop_middle (w_items w) i g Hg) in Hj. apply elem_of_app.
    apply list_elem_of_lookup_2 in Hj. rewrite elem_of_app, elem_of_cons in Hj.
    destruct Hj as [? | [-> | ?]]; [by left | done | by right].
Qed.

Lemma untouched_run os w rec :
  not_temp "guests" path dir → Forall (λ o, touches (gr_id rec) o = false) os →
  rec ∈ w_items w → rec ∈ w_items (run_guest_ops os w).
Proof.
  intros Hp Ht. apply (run_guest_ops_ind (λ w, rec ∈ w_items w)). intros o w1 Ho.
  rewrite Forall_forall in Ht. apply untouched_stays; [done | by apply Ht].
Qed.

Lemma run_guest_ops_wf os w :
  not_temp "guests" path dir →
  wf_store tidy_guest (w_items w) → wf_store tidy_guest (w_items (run_guest_ops os w)).
Proof.
  intros Hp. apply (run_guest_ops_ind (λ w, wf_store tidy_guest (w_items w))).
  intros o w1 _. by apply run_guest_op_wf.
Qed.

(** ** Authentication *)

(** The record a label finds. *)
Lemma find_label items label rec :
  wf_store tidy_guest items → rec ∈ items → EqualFold (gr_label rec) label = true →
  List.find (λ g, EqualFold (gr_label g) label) items = Some rec.
Proof.
  intros Hwf Hin E. destruct (List.find _ items) as [rec' |] eqn:Hf.
  - apply find_some_elem in Hf as [Hin' E']. f_equal.
    apply list_elem_of_lookup in Hin as [i Hi], Hin' as [j Hj].
    pose proof (wf_labels _ _ Hwf j i rec' rec Hj Hi) as Heq. rewrite Heq in Hj; [congruence |].
    eapply EqualFold_trans; [exact E' |]. by rewrite EqualFold_sym.
  - apply (find_none_elem _ _ rec) in Hf; [congruence | done].
Qed.

Lemma Authenticate_iff dummy items label pw log g :
  wf_store tidy_guest items →
  fst (Authenticate dummy items label pw log) = Some g ↔
  ∃ rec, rec ∈ items ∧ EqualFold (gr_label rec) (TrimSpace label) = true ∧
    bcrypt_compare (gr_passwordHash rec) pw = true ∧ gr_disabled rec = false ∧ g = public rec.
Proof.
  intros Hwf. unfold Authenticate. split.
  - destruct (List.find _ items) as [rec |] eqn:Hf; [| done].
    apply find_some_elem in Hf as [Hin E]. unfold mbind, M_bind, CompareHashAndPassword.
    destruct (bcrypt_compare _ _) eqn:Hc; [| done]. simpl.
    destruct (gr_disabled rec) eqn:Hd; [done |]. intros [= <-]. by exists rec.
  - intros (rec & Hin & E & Hc & Hd & ->). rewrite (find_label _ _ _ Hwf Hin E).
    unfold mbind, M_bind, CompareHashAndPassword. rewrite Hc. simpl. by rewrite Hd.
Qed.

(** Whatever the guest operations, their arguments and the faults of the file
    system: guest ids stay distinct and non-empty, labels distinct up to case, labels
    and zones trimmed and non-empty; and reading the file back gives exactly the
    guests in memory, as it did at the start. *)
Theorem guests_durable os w :
  not_temp "guests" path dir →
  wf_store tidy_guest (w_items w) → in_sync path fromPersisted w →
  let w' := run_guest_ops os w in
  text_faithful (encode (w_items w')) →
  Forall (λ g, time_faithful (gr_createdAt g)) (w_items w') →
  wf_store tidy_guest (w_items w') ∧ in_sync path fromPersisted w'.
Proof.
  intros Hp Hwf Hs. cbv zeta. intros Ht Htime. split; [by apply run_guest_ops_wf |].
  eapply (tracks_sync path fromPersisted w); [by apply guests_persistable | | done].
  apply (run_guest_ops_ind (tracks path w)); [| apply tracks_refl].
  intros o w1 _ Ht1. destruct (run_guest_op o w1) as [r w2] eqn:E.
  eapply transaction_tracks; [| exact Ht1]. by eapply run_guest_op_transaction.
Qed.

(** C30: authentication.  Every call compares the submitted password exactly once,
    with the hash of the record the label finds, or with the dummy hash when it finds
    none; and it answers with a guest exactly when that guest's label is the
    submitted one (trimmed, up to case), its hash accepts the password and it is not
    disabled. *)
Theorem Authenticate_exact dummy items label pw log :
  wf_store tidy_guest items →
  let '(r, log') := Authenticate dummy items label pw log in
  (∃ h, log' = log ++ [(h, pw)] ∧
    (h = dummy ∨ ∃ rec, rec ∈ items ∧ EqualFold (gr_label rec) (TrimSpace label) = true ∧
      h = gr_passwordHash rec)) ∧
  ∀ g, r = Some g ↔
    ∃ rec, rec ∈ items ∧ EqualFold (gr_label rec) (TrimSpace label) = true ∧
      bcrypt_compare (gr_passwordHash rec) pw = true ∧ gr_disabled rec = false ∧ g = public rec.
Proof.
  intros Hwf. pose proof (λ g, Authenticate_iff dummy items label pw log g Hwf) as Hiff.
  destruct (Authenticate dummy items label pw log) as [r log'] eqn:E. split; [| exact Hiff].
  clear Hiff. revert E. unfold Authenticate, mbind, M_bind, CompareHashAndPassword, mret, M_ret.
  destruct (List.find _ items) as [rec |] eqn:Hf; intros E.
  - apply find_some_elem in Hf as [Hin El]. exists (gr_passwordHash rec). split.
    + destruct (bcrypt_compare _ _), (gr_disabled rec); by injection E.
    + right. by exists rec.
  - exists dummy. split; [by injection E | by left].
Qed.

(** A login works from its creation on: after a successful [Create], and
    whatever is done since to other guests, the label (in any case, with any blanks
    around it) and the password authenticate the guest that [Create] answered. *)
Theorem guest_login_works `{BL : !BcryptLaws} dummy salt now label zone pw w g w' os label' log :
  not_temp "guests" path dir → wf_store tidy_guest (w_items w) →
  Create path dir salt now label zone pw w = (Some (inr g), w') →
  Forall (λ o, touches (gst_ID g) o = false) os →
  EqualFold (TrimSpace label) (TrimSpace label') = true →
  fst (Authenticate dummy (w_items (run_guest_ops os w')) label' pw log) = Some g.
Proof.
  intros Hp Hwf Hc Hos El.
  pose proof (guest_Create_transaction salt now label zone pw w _ _ Hp Hc) as [[[Hres _] _] Hok].
  destruct (Hok g eq_refl) as (rec & <- & Hitems).
  apply Authenticate_iff.
  - apply run_guest_ops_wf; [done |]. by eapply guest_result_wf.
  - exists rec. destruct Hres as (id & h & _ & Hh & _ & _ & _ & Hres). rewrite Hitems in Hres.
    apply app_inv_head in Hres as [= ->]. split.
    + apply untouched_run; [done | exact Hos |]. rewrite Hitems. apply elem_of_app. right. left.
    + split; [exact El |]. split; [by eapply bcrypt_accepts | done].
Qed.

(** Revocation.  After a successful [SetDisabled id true], and whatever is done
    since to other guests, no label and no password authenticate the guest; nor does
    any right after a successful [Delete]. *)
Theorem guest_revocation dummy id w label pw log :
  not_temp "guests" path dir → wf_store tidy_guest (w_items w) →
  (∀ g w' os g', SetDisabled path dir id true w = (inr g, w') →
    Forall (λ o, touches id o = false) os →
    fst (Authenticate dummy (w_items (run_guest_ops os w')) label pw log) = Some g' →
    gst_ID g' ≠ id) ∧
  (∀ w' g', Delete path dir id w = (inr tt, w') →
    fst (Authenticate dummy (w_items w') label pw log) = Some g' → gst_ID g' ≠ id).
Proof.
  intros Hp Hwf. split.
  - intros g w' os g' Hs Hos Ha Hid. apply guest_SetDisabled_transaction in Hs as [[Hres _] _]; [| done].
    assert (wf_store tidy_guest (w_items w')) as Hwf' by (by eapply guest_result_wf).
    apply (run_guest_ops_wf os) in Hwf'; [| done]. destruct Hres as (i & rec & Hrec & Hrid & Hres).
    apply Authenticate_iff in Ha as (rec' & Hin' & _ & _ & Hd & ->); [| done].
    assert (set_gr_disabled true rec ∈ w_items (run_guest_ops os w')) as Hin.
    { apply untouched_run; [done | simpl; by rewrite Hrid |]. rewrite Hres.
      apply list_elem_of_lookup. exists i. apply list_lookup_insert_eq. by eapply lookup_lt_Some. }
    apply list_elem_of_lookup in Hin as [a Ha], Hin' as [b Hb]. pose proof (wf_ids _ _ Hwf') as Hnd.
    pose proof (indexOf_lookup _ _ _ Hnd Ha) as H1. pose proof (indexOf_lookup _ _ _ Hnd Hb) as H2.
    simpl in H1, H2, Hid. rewrite Hrid in H1. rewrite Hid in H2. by simplify_eq.
  - intros w' g' Hs Ha Hid. apply guest_Delete_transaction in Hs as [[Hres _] _]; [| done].
    assert (wf_store tidy_guest (w_items w')) as Hwf' by (by eapply guest_result_wf).
    apply Authenticate_iff in Ha as (rec & Hin & _ & _ & _ & ->); [| done].
    destruct Hres as (i & old & Hold & Hoid & Hres). simpl in Hid.
    assert (as_map (w_items w') !! gr_id rec = Some rec) as Hm
      by (apply as_map_lookup; [by eapply wf_ids | done]).
    rewrite Hres, (as_map_remove _ _ old (wf_ids _ _ Hwf) Hold) in Hm.
    simpl in Hm. rewrite Hoid, Hid in Hm. by rewrite lookup_delete_eq in Hm.
Qed.
End guests.
