(* ===== verification/Poller.v ===== *)
(** [internal/poller], the stateful part: [SetExitNode], [Keep], [Probe],
    [Refresh] and [RefreshGroups] as programs of atomic sections over the
    poller's state and its environment (the clock, the netmap, the router
    client and the group reader). *)

From S2P Require Import Prelude GoStd Store Errors Conc PollerBase.

(** internal/poller/poller.go:174-178, keepEntry. *)
Record keepEntry := mkKeepEntry {
  ke_marker : string;
  ke_revertAt : Time;
  ke_seq : Z;
}.

(** What the poller hands to the outside, in order: frames to the broadcaster
    and lines to the log. *)
Inductive output := Broadcast (s : Snapshot) | Logf (msg : string).

(** internal/poller/poller.go:107-169, Poller.  The counters are uint64 in the code; they are
    bumped by one per set and cannot wrap in practice, so they are unbounded here. *)
Record Poller := mkPoller {
  p_store : StoreCell;
  p_routers : list string;
  p_interval : Duration;
  p_linger : Duration;
  p_fallbackOnce : bool;
  p_setSeq : gmap string Z;
  p_setGen : gmap string Z;
  p_egressCheck : bool;
  p_egressURL : string;
  p_requireKeep : bool;
  p_revertWindow : Duration;
  p_pendingKeep : gmap string keepEntry;
  p_out : list output;
}.

(** internal/poller/poller.go:88-89, defaultInterval. *)
Definition defaultInterval : Duration := 30 * Second.
Definition defaultLinger : Duration := 45 * Second.

(** internal/router/router.go:706-710, RevertWindow. *)
Definition revertWindowSeconds : Z := 60.
Definition RevertWindow : Duration := revertWindowSeconds * Second.

(** internal/poller/poller.go:184-207, New. *)
Definition NewPoller (st : StoreCell) (routers : list string) (interval : Duration) : Poller :=
  mkPoller st routers (if interval <=? 0 then defaultInterval else interval) defaultLinger
    false ∅ ∅ false "" false RevertWindow ∅ [].

Definition ps_store x p := mkPoller x (p_routers p) (p_interval p) (p_linger p) (p_fallbackOnce p) (p_setSeq p) (p_setGen p) (p_egressCheck p) (p_egressURL p) (p_requireKeep p) (p_revertWindow p) (p_pendingKeep p) (p_out p).
Definition ps_fallbackOnce x p := mkPoller (p_store p) (p_routers p) (p_interval p) (p_linger p) x (p_setSeq p) (p_setGen p) (p_egressCheck p) (p_egressURL p) (p_requireKeep p) (p_revertWindow p) (p_pendingKeep p) (p_out p).
Definition ps_setSeq x p := mkPoller (p_store p) (p_routers p) (p_interval p) (p_linger p) (p_fallbackOnce p) x (p_setGen p) (p_egressCheck p) (p_egressURL p) (p_requireKeep p) (p_revertWindow p) (p_pendingKeep p) (p_out p).
Definition ps_setGen x p := mkPoller (p_store p) (p_routers p) (p_interval p) (p_linger p) (p_fallbackOnce p) (p_setSeq p) x (p_egressCheck p) (p_egressURL p) (p_requireKeep p) (p_revertWindow p) (p_pendingKeep p) (p_out p).
Definition ps_pendingKeep x p := mkPoller (p_store p) (p_routers p) (p_interval p) (p_linger p) (p_fallbackOnce p) (p_setSeq p) (p_setGen p) (p_egressCheck p) (p_egressURL p) (p_requireKeep p) (p_revertWindow p) x (p_out p).
Definition ps_out x p := mkPoller (p_store p) (p_routers p) (p_interval p) (p_linger p) (p_fallbackOnce p) (p_setSeq p) (p_setGen p) (p_egressCheck p) (p_egressURL p) (p_requireKeep p) (p_revertWindow p) (p_pendingKeep p) x.

(** internal/poller/poller.go:213-216, ConfigureEgress. *)
Definition ConfigureEgress (check : bool) (url : string) (p : Poller) : Poller :=
  mkPoller (p_store p) (p_routers p) (p_interval p) (p_linger p) (p_fallbackOnce p)
    (p_setSeq p) (p_setGen p) check url (p_requireKeep p) (p_revertWindow p)
    (p_pendingKeep p) (p_out p).

(** internal/poller/poller.go:222-224, ConfigureKeep. *)
Definition ConfigureKeep (require : bool) (p : Poller) : Poller :=
  mkPoller (p_store p) (p_routers p) (p_interval p) (p_linger p) (p_fallbackOnce p)
    (p_setSeq p) (p_setGen p) (p_egressCheck p) (p_egressURL p) require (p_revertWindow p)
    (p_pendingKeep p) (p_out p).

(** Reading a Go [map[string]uint64], and [m[addr]++]. *)
Definition ctr (m : gmap string Z) (addr : string) : Z := default 0 (m !! addr).
Definition bump (addr : string) (m : gmap string Z) : gmap string Z :=
  <[addr := ctr m addr + 1]> m.

Definition p_snap (p : Poller) : Snapshot := Load (p_store p).
Definition put_snap (snap : Snapshot) (p : Poller) : Poller :=
  ps_store (StoreSnap (p_store p) snap) p.
Definition emit (o : output) (p : Poller) : Poller := ps_out (p_out p ++ [o]) p.

(** ** The environment

    internal/poller/poller.go:37-73: the interfaces Netmapper, RouterClient and
    GroupReader, over an environment state [W].  A nil GroupReader is [None]. *)
(** internal/poller/poller.go:37-73, RouterClient. *)
Class PollerEnv (W : Type) := {
  env_Now : M W Time;
  env_Inventory : M W (list NodeView * option error);
  env_Status : string → M W (RouterRuntime * option error);
  env_ApplyExitNode : string → option ExitNodeRef → option ExitNodeRef → bool →
                      M W (RouterRuntime * string * option error);
  env_KeepExitNode : string → string → M W (option error);
  env_Probe : string → M W (string * option error);
  env_EgressProbe : string → string → M W (bool * string * option error);
  env_Groups : W → option (list Group);
}.

(** What the poller relies on from the router client: a keep-marker is handed
    back only for a confirmed change that was not kept. *)
Class RouterContract (W : Type) `{PollerEnv W} : Prop := contract_marker :
  ∀ addr target prev autoKeep w,
    let '(_, marker, err) := fst (env_ApplyExitNode addr target prev autoKeep w) in
    err ≠ None ∨ autoKeep = true → marker = "".

Section poller.
Context `{UT : UnicodeTables} {W : Type} `{Env : PollerEnv W}.

Abbreviation Sys := (Poller * W)%type.
Abbreviation Prog := (prog Sys).

Definition onP {A} (m : M Poller A) : M Sys A :=
  λ '(p, w), let '(a, p') := m p in (a, (p', w)).
Definition onW {A} (m : M W A) : M Sys A :=
  λ '(p, w), let '(a, w') := m w in (a, (p, w')).
Definition now : M Sys Time := onW env_Now.

(** A lock-free load of the store; one outside call; a broadcast; a log line. *)
Definition load_snap : Prog Snapshot := atomic (onP (gets p_snap)).
Definition call {A} (m : M W A) : Prog A := atomic (onW m).
Definition bc_Broadcast (snap : Snapshot) : Prog unit :=
  atomic (onP (modify (emit (Broadcast snap)))).
Definition logf (msg : string) : Prog unit := atomic (onP (modify (emit (Logf msg)))).

(** internal/poller/poller.go:228-233, groupList. *)
Definition groupList : M Sys (list Group) :=
  gets (λ s, default [] (env_Groups (snd s))).

(** ** SetExitNode *)

(** The resolution and pre-flight of the target (internal/poller/poller.go:285-329). *)
(** internal/poller/poller.go:285-329, SetExitNode. *)
Definition set_target (snap : Snapshot) (gs : list Group) (prevRV : RouterView)
    (routerID addr targetStableID : string) : error + option ExitNodeRef :=
  if String.eqb targetStableID "" then inr None else
  match findNodeByStableID (snap_Nodes snap) targetStableID with
  | None => inl (preflightErr ("unknown exit node " +:+ quote targetStableID))
  | Some nv =>
      if String.eqb (nv_StableID nv) routerID then
        inl (preflightErr ("cannot route router " +:+ quote routerID +:+ " through itself"))
      else if negb (nv_Online nv) then
        inl (preflightErr ("exit node " +:+ quote (displayName nv) +:+ " is offline"))
      else if negb (nv_ExitNodeOption nv) then
        inl (preflightErr ("node " +:+ quote (displayName nv)
                           +:+ " is not an approved exit node"))
      else
      let ip := primaryIP nv in
      if String.eqb ip "" then
        inl (preflightErr ("exit node " +:+ quote (displayName nv)
                           +:+ " has no Tailscale IPv4 address"))
      else if String.eqb ip addr then
        inl (preflightErr ("cannot route router " +:+ quote routerID
                           +:+ " through itself (loop)"))
      else
      let '(allowed, inAnyZone) := allowedExitNodeSet gs routerID in
      if inAnyZone && negb (bool_decide (nv_StableID nv ∈ allowed)) then
        inl (ErrControl statusUnprocessable
               ("exit node " +:+ quote (displayName nv) +:+ " is not allowed for "
                +:+ quote (displayName (rv_Node prevRV)) +:+ " in its zone(s)") "" "" None)
      else inr (Some (mkExitNodeRef (nv_StableID nv) (nv_Name nv) ip))
  end.

(** The closure of step 1. *)
Definition mark_pending (target : option ExitNodeRef) (rv : RouterView) : RouterView :=
  rv |> set_Desired target |> set_DesiredSince zeroTime
     |> set_State RouterPending |> set_LastError "".

(** Step 1, under the mutex: bump the counters and publish the intent as
    pending; [None] when the router is no longer in the snapshot. *)
(** internal/poller/poller.go:335-355, SetExitNode. *)
Definition set_begin (addr : string) (target : option ExitNodeRef)
    : M Sys (option Snapshot * Z) :=
  _ ← onP (modify (λ p, ps_setSeq (bump addr (p_setSeq p)) p));
  _ ← onP (modify (λ p, ps_setGen (bump addr (p_setGen p)) p));
  mySeq ← onP (gets (λ p, ctr (p_setSeq p) addr));
  t ← now;
  cur ← onP (gets p_snap);
  let '(pending, ok) :=
    withRouter cur addr (mark_pending target) t in
  if ok : bool then
    _ ← onP (modify (put_snap pending)); mret (Some pending, mySeq)
  else mret (None, mySeq).

(** What step 2 (the slow, unlocked part) hands to step 3. *)
Record outcome := mkOutcome {
  oc_armAt : Time;
  oc_rt : RouterRuntime;
  oc_marker : string;
  oc_setErr : option error;
  oc_now : Time;
  oc_reread : option RouterRuntime;    (* Some = rereadOK *)
  oc_egress : option (bool * string);  (* Some = egressRan *)
}.

(** [hardFail := setErr != nil && errors.As(setErr, &cmdErr)] *)
Definition hardFail (setErr : option error) : bool :=
  match setErr with
  | Some e => match as_CommandError e with Some _ => true | None => false end
  | None => false
  end.

(** The egress probe of a confirmed set; [Some] when it ran. *)
(** internal/poller/poller.go:402-425, SetExitNode. *)
Definition egress_probe (addr : string) (target : option ExitNodeRef)
    (setErr : option error) : Prog (option (bool * string)) :=
  check ← atomic (onP (gets p_egressCheck));
  url ← atomic (onP (gets p_egressURL));
  if bool_decide (setErr = None) && bool_decide (target ≠ None) && check then
    '(eok, edet, eerr) ← call (env_EgressProbe addr url);
    match eerr with
    | Some e =>
        _ ← logf ("poller: egress probe " +:+ addr +:+ ": " +:+ err_Error e);
        mret (Some (eok, if String.eqb edet "" then err_Error e else edet))
    | None => mret (Some (eok, edet))
    end
  else mret None.

(** internal/poller/poller.go:376-400, SetExitNode. *)
Definition set_apply (addr : string) (target prev : option ExitNodeRef) (autoKeep : bool)
    : Prog outcome :=
  armAt ← call env_Now;
  '(rt, marker, setErr) ← call (env_ApplyExitNode addr target prev autoKeep);
  t ← call env_Now;
  reread ← (if hardFail setErr
            then '(rr, rrErr) ← call (env_Status addr);
                 mret (match rrErr with None => Some rr | Some _ => None end)
            else mret None);
  egress ← egress_probe addr target setErr;
  mret (mkOutcome armAt rt marker setErr t reread egress).

(** The reconcile closure of step 3. *)
(** internal/poller/poller.go:436-510, SetExitNode. *)
Definition set_reconcile (target : option ExitNodeRef) (autoKeep : bool)
    (revertWindow : Duration) (o : outcome) (rv0 : RouterView) : RouterView :=
  let rv := rv0 |> set_RevertAt zeroTime in
  match oc_setErr o with
  | None =>
      let rv := rv |> set_Stats (rt_Stats (oc_rt o)) |> set_Reachable true
                   |> set_CurrentExitNode (rt_Current (oc_rt o)) |> set_Desired None
                   |> set_DesiredSince zeroTime |> set_LastError ""
                   |> set_LastConfirmedAt (oc_now o) in
      let rv := if autoKeep then rv |> set_State RouterOK
                else rv |> set_State RouterAwaitingKeep
                        |> set_RevertAt (Add (oc_armAt o) revertWindow) in
      match target, oc_egress o with
      | None, _ => rv |> set_EgressOK None |> set_EgressDetail ""
                      |> set_EgressCheckedAt zeroTime
      | Some _, Some (eok, edet) =>
          rv |> set_EgressOK (Some eok) |> set_EgressDetail edet
             |> set_EgressCheckedAt (oc_now o)
      | Some _, None => rv
      end
  | Some e =>
      if hardFail (Some e) then
        let rv := rv |> set_Desired None |> set_DesiredSince zeroTime
                     |> set_LastError (err_Error e) in
        match oc_reread o with
        | Some rr => rv |> set_Reachable true |> set_CurrentExitNode (rt_Current rr)
                        |> set_Stats (rt_Stats rr) |> set_State RouterOK
                        |> set_LastConfirmedAt (oc_now o)
        | None => rv |> set_Reachable false |> set_State RouterUnreachable
        end
      else if rt_Online (oc_rt o) then
        rv |> set_Stats (rt_Stats (oc_rt o)) |> set_Reachable true
           |> set_CurrentExitNode (rt_Current (oc_rt o)) |> set_Desired target
           |> set_DesiredSince (oc_armAt o) |> set_State RouterUnconfirmed
           |> set_LastError (err_Error e)
      else
        rv |> set_Stats (rt_Stats (oc_rt o)) |> set_Reachable false |> set_Desired target
           |> set_DesiredSince (oc_armAt o) |> set_State RouterUnreachable
           |> set_LastError (err_Error e)
  end.

Record commit := mkCommit {
  cm_ok : bool;
  cm_superseded : bool;
  cm_final : Snapshot;
  cm_updated : RouterView;
  cm_disarm : list string;
}.

(** The prior gate whose timer a confirmed operation must disarm. *)
Definition prior_marker (pk : gmap string keepEntry) (addr : string) : list string :=
  match pk !! addr with
  | Some e => if String.eqb (ke_marker e) "" then [] else [ke_marker e]
  | None => []
  end.

(** Step 3, under the mutex. *)
(** internal/poller/poller.go:428-549, SetExitNode. *)
Definition set_commit (addr : string) (mySeq : Z) (target : option ExitNodeRef)
    (autoKeep : bool) (o : outcome) : M Sys commit :=
  _ ← onP (modify (λ p, ps_setGen (bump addr (p_setGen p)) p));
  superseded ← onP (gets (λ p, negb (ctr (p_setSeq p) addr =? mySeq)));
  t ← now;
  cur ← onP (gets p_snap);
  window ← onP (gets p_revertWindow);
  pk ← onP (gets p_pendingKeep);
  let '(final, ok) := withRouter cur addr (set_reconcile target autoKeep window o) t in
  let updated := if ok : bool then last_mutated final addr else zeroRouterView in
  if ok && negb superseded then
    disarm ← (match oc_setErr o with
              | None =>
                  if negb autoKeep then
                    _ ← onP (modify (ps_pendingKeep (<[addr :=
                          mkKeepEntry (oc_marker o) (Add (oc_armAt o) window) mySeq]> pk)));
                    mret (List.filter (λ m, negb (String.eqb m (oc_marker o)))
                            (prior_marker pk addr))
                  else
                    _ ← onP (modify (ps_pendingKeep (delete addr pk)));
                    mret (prior_marker pk addr)
              | Some _ => mret []
              end);
    _ ← onP (modify (put_snap final));
    mret (mkCommit ok superseded final updated disarm)
  else
    mret (mkCommit ok superseded final updated
            (if String.eqb (oc_marker o) "" then [] else [oc_marker o])).

(** internal/poller/poller.go:550-554, SetExitNode. *)
Definition disarm_orphans (addr : string) (ms : list string) : Prog unit :=
  pforeach ms (λ m,
    r ← call (env_KeepExitNode addr m);
    match r with
    | Some e => logf ("poller: disarm orphaned keep " +:+ addr +:+ ": " +:+ err_Error e)
    | None => mret tt
    end).

(** internal/poller/poller.go:572-587, SetExitNode. *)
Definition set_result (o : outcome) (updated : RouterView) : RouterView * option error :=
  match oc_setErr o with
  | None => (updated, None)
  | Some e =>
      if hardFail (Some e) then (updated, Some (routerControlError e))
      else if rt_Online (oc_rt o) then (updated, None)
      else (updated, Some (routerControlError e))
  end.

(** internal/poller/poller.go:269-588, SetExitNode. *)
Definition SetExitNode (routerID targetStableID : string)
    : Prog (RouterView * option error) :=
  snap ← load_snap;
  match findRouterViewByStableID snap routerID with
  | None => mret (zeroRouterView, Some (preflightErr ("unknown router " +:+ quote routerID)))
  | Some prevRV =>
  let addr := primaryIP (rv_Node prevRV) in
  if String.eqb addr "" then
    mret (zeroRouterView, Some (preflightErr ("router " +:+ quote routerID
                                              +:+ " has no Tailscale IPv4 address")))
  else
  let prev := rv_CurrentExitNode prevRV in
  gs ← atomic groupList;
  match set_target snap gs prevRV routerID addr targetStableID with
  | inl e => mret (zeroRouterView, Some e)
  | inr target =>
  '(begun, mySeq) ← atomic (set_begin addr target);
  match begun with
  | None => mret (zeroRouterView,
              Some (preflightErr ("router " +:+ quote routerID
                                  +:+ " is no longer present in the snapshot")))
  | Some pending =>
  _ ← bc_Broadcast pending;
  requireKeep ← atomic (onP (gets p_requireKeep));
  let autoKeep := negb requireKeep || bool_decide (target = None) in
  o ← set_apply addr target prev autoKeep;
  c ← atomic (set_commit addr mySeq target autoKeep o);
  _ ← disarm_orphans addr (cm_disarm c);
  if negb (cm_ok c) then
    mret (zeroRouterView, Some (match oc_setErr o with
      | Some e => routerControlError e
      | None => ErrControl statusBadGateway "router state unavailable"
                  ("router " +:+ quote routerID
                   +:+ " vanished from the snapshot before its result could be reconciled")
                  "" None
      end))
  else
  _ ← (if negb (cm_superseded c) then bc_Broadcast (cm_final c) else mret tt);
  mret (set_result o (cm_updated c))
  end end end.

(** ** Keep *)

(** The view of a router whose revert has fired: its selection is unknown. *)
Definition drop_reverted (rv : RouterView) : RouterView :=
  rv |> set_State RouterUnprobed |> set_RevertAt zeroTime |> set_CurrentExitNode None
     |> set_Desired None |> set_DesiredSince zeroTime |> set_Reachable false.

Definition drop_if_awaiting (rv : RouterView) : RouterView :=
  if bool_decide (rv_State rv = RouterAwaitingKeep) then drop_reverted rv else rv.

Definition conflict (msg : string) : error := ErrControl statusConflict msg "" "" None.
Definition errNoPending : error := conflict "no exit-node change is awaiting confirmation".
Definition errElapsed : error := conflict "the revert window elapsed; the router has reverted".
Definition errSuperseded : error :=
  conflict "a newer exit-node change superseded this one".

(** The validation of the pending entry, under the mutex.  An elapsed entry is
    dropped and the snapshot reconciled; the frame to broadcast is returned. *)
(** internal/poller/poller.go:614-655, Keep. *)
Definition keep_validate (addr : string)
    : M Sys ((error * option Snapshot) + keepEntry) :=
  pk ← onP (gets p_pendingKeep);
  match pk !! addr with
  | None => mret (inl (errNoPending, None))
  | Some entry =>
      t ← now;
      if After t (ke_revertAt entry) then
        _ ← onP (modify (ps_pendingKeep (delete addr pk)));
        _ ← onP (modify (λ p, ps_setGen (bump addr (p_setGen p)) p));
        cur ← onP (gets p_snap);
        t2 ← now;
        let '(reverted, rok) :=
          withRouter cur addr drop_if_awaiting t2 in
        if rok : bool then
          _ ← onP (modify (put_snap reverted));
          mret (inl (errElapsed, Some reverted))
        else mret (inl (errElapsed, None))
      else
        seq ← onP (gets (λ p, ctr (p_setSeq p) addr));
        if negb (ke_seq entry =? seq) then mret (inl (errSuperseded, None))
        else mret (inr entry)
  end.

Definition mark_kept (rv : RouterView) : RouterView :=
  rv |> set_State RouterOK |> set_RevertAt zeroTime |> set_LastError "".

(** The reconcile after the marker was written, under the mutex. *)
(** internal/poller/poller.go:667-684, Keep. *)
Definition keep_commit (addr : string) (mySeq : Z)
    : M Sys (error + (Snapshot * bool * RouterView)) :=
  seq ← onP (gets (λ p, ctr (p_setSeq p) addr));
  if negb (seq =? mySeq) then mret (inl errSuperseded)
  else
    _ ← onP (modify (λ p, ps_setGen (bump addr (p_setGen p)) p));
    cur ← onP (gets p_snap);
    t ← now;
    let '(final, ok) :=
      withRouter cur addr mark_kept t in
    _ ← onP (modify (λ p, ps_pendingKeep (delete addr (p_pendingKeep p)) p));
    _ ← onP (modify (if ok : bool then put_snap final else id));
    mret (inr (final, ok, if ok then last_mutated final addr else zeroRouterView)).

(** internal/poller/poller.go:602-694, Keep. *)
Definition Keep (routerID : string) : Prog (RouterView * option error) :=
  snap ← load_snap;
  match findRouterViewByStableID snap routerID with
  | None => mret (zeroRouterView,
      Some (ErrControl statusNotFound ("unknown router " +:+ quote routerID) "" "" None))
  | Some rv =>
  let addr := primaryIP (rv_Node rv) in
  if String.eqb addr "" then
    mret (zeroRouterView, Some (ErrControl statusNotFound
      ("router " +:+ quote routerID +:+ " has no Tailscale IPv4 address") "" "" None))
  else
  v ← atomic (keep_validate addr);
  match v with
  | inl (e, frame) =>
      _ ← (match frame with Some f => bc_Broadcast f | None => mret tt end);
      mret (zeroRouterView, Some e)
  | inr entry =>
  kerr ← call (env_KeepExitNode addr (ke_marker entry));
  match kerr with
  | Some e => mret (zeroRouterView, Some (routerControlError e))
  | None =>
  c ← atomic (keep_commit addr (ke_seq entry));
  match c with
  | inl e => mret (zeroRouterView, Some e)
  | inr (final, ok, updated) =>
      if negb ok then
        mret (zeroRouterView, Some (ErrControl statusBadGateway "router state unavailable"
          ("router " +:+ quote routerID
           +:+ " vanished from the snapshot before its keep could be reconciled") "" None))
      else
        _ ← bc_Broadcast final;
        mret (updated, None)
  end end end end.

(** ** Probe *)

(** A view updated from a fresh status read at [t1] and reconciled at [t2]
    (the same five assignments in resolveAfterProbe and buildRouterView). *)
(** internal/poller/poller.go:984-990, buildRouterView. *)
Definition fresh_read (rt : RouterRuntime) (t1 t2 : Time) (window : Duration)
    (rv : RouterView) : RouterView :=
  reconcileState
    (rv |> set_Reachable true |> set_CurrentExitNode (rt_Current rt)
        |> set_Stats (rt_Stats rt) |> set_LastError "" |> set_LastConfirmedAt t1)
    t2 window.

(** The generation captured before the status dial; [None] while a Keep gate owns the router. *)
(** internal/poller/poller.go:759-765, resolveAfterProbe. *)
Definition probe_begin (addr : string) : M Sys (option Z) :=
  pk ← onP (gets p_pendingKeep);
  gen ← onP (gets (λ p, ctr (p_setGen p) addr));
  mret (match pk !! addr with Some _ => None | None => Some gen end).

(** internal/poller/poller.go:772-788, resolveAfterProbe. *)
Definition probe_commit (addr : string) (genAt : Z) (rt : RouterRuntime)
    : M Sys (option Snapshot) :=
  pk ← onP (gets p_pendingKeep);
  gen ← onP (gets (λ p, ctr (p_setGen p) addr));
  if (gen =? genAt) && bool_decide (pk !! addr = None) then
    t1 ← now;
    t2 ← now;
    cur ← onP (gets p_snap);
    window ← onP (gets p_revertWindow);
    t3 ← now;
    let '(final, ok) :=
      withRouter cur addr (fresh_read rt t1 t2 window) t3 in
    if ok : bool then
      _ ← onP (modify (λ p, ps_setGen (bump addr (p_setGen p)) p));
      _ ← onP (modify (put_snap final));
      mret (Some final)
    else mret None
  else mret None.

(** internal/poller/poller.go:758-792, resolveAfterProbe. *)
Definition resolveAfterProbe (addr : string) : Prog unit :=
  g ← atomic (probe_begin addr);
  match g with
  | None => mret tt
  | Some genAt =>
      '(rt, err) ← call (env_Status addr);
      match err with
      | Some _ => mret tt
      | None =>
          f ← atomic (probe_commit addr genAt rt);
          match f with Some snap => bc_Broadcast snap | None => mret tt end
      end
  end.

(** internal/poller/poller.go:716-748, Probe. *)
Definition Probe (routerID : string) : Prog (ProbeResult * option error) :=
  snap ← load_snap;
  match findRouterViewByStableID snap routerID with
  | None => mret (zeroProbeResult,
      Some (ErrControl statusNotFound ("unknown router " +:+ quote routerID) "" "" None))
  | Some rv =>
  let addr := primaryIP (rv_Node rv) in
  if String.eqb addr "" then
    mret (zeroProbeResult, Some (ErrControl statusNotFound
      ("router " +:+ quote routerID +:+ " has no Tailscale IPv4 address") "" "" None))
  else if negb (nv_Online (rv_Node rv)) then
    t ← call env_Now;
    mret (mkProbeResult false 0 "" "node is offline" t, None)
  else
  start ← call env_Now;
  '(out, err) ← call (env_Probe addr);
  stop ← call env_Now;
  let dur := Milliseconds (Sub stop start) in
  match err with
  | Some e =>
      t ← call env_Now;
      mret (mkProbeResult false dur "" (err_Error e) t, None)
  | None =>
      _ ← resolveAfterProbe addr;
      t ← call env_Now;
      mret (mkProbeResult true dur out "" t, None)
  end end.

(** ** Refresh *)

(** The view a poll starts from: the node found by address (or a placeholder
    of type [ty]) and the carried-forward fields of the previous view. *)
(** internal/poller/poller.go:940-961, buildRouterView. *)
Definition carry_forward (addr : string) (ty : NodeType) (nodes : list NodeView)
    (prevRV : option RouterView) : RouterView * bool :=
  let '(nv, found) :=
    match findNodeByIP nodes addr with
    | Some nv => (nv, true)
    | None => (mkNodeView "" "" "" [addr] "" false zeroTime false [] ty false, false)
    end in
  let rv := zeroRouterView |> set_Node nv in
  (match prevRV with
   | Some pv =>
       rv |> set_Desired (rv_Desired pv) |> set_DesiredSince (rv_DesiredSince pv)
          |> set_CurrentExitNode (rv_CurrentExitNode pv) |> set_Stats (rv_Stats pv)
          |> set_LastConfirmedAt (rv_LastConfirmedAt pv) |> set_EgressOK (rv_EgressOK pv)
          |> set_EgressDetail (rv_EgressDetail pv)
          |> set_EgressCheckedAt (rv_EgressCheckedAt pv)
   | None => rv
   end, found).

Definition offline_view (rv : RouterView) : RouterView :=
  rv |> set_Reachable false |> set_State RouterUnreachable |> set_LastError "node is offline".

(** internal/poller/poller.go:939-991, buildRouterView. *)
Definition buildRouterView (addr : string) (nodes : list NodeView) (prev : Snapshot)
    : Prog RouterView :=
  let '(rv, foundInNetmap) :=
    carry_forward addr NodeRouter nodes (findRouterView prev addr) in
  if foundInNetmap && negb (nv_Online (rv_Node rv)) then mret (offline_view rv)
  else
    '(rt, err) ← call (env_Status addr);
    match err with
    | Some e =>
        mret (rv |> set_Reachable false |> set_State RouterUnreachable
                 |> set_LastError (err_Error e))
    | None =>
        t1 ← call env_Now;
        t2 ← call env_Now;
        window ← atomic (onP (gets p_revertWindow));
        mret (fresh_read rt t1 t2 window rv)
    end.

(** internal/poller/poller.go:1005-1052, buildListedRouterView. *)
Definition buildListedRouterView (addr : string) (nodes : list NodeView) (prev : Snapshot)
    : RouterView :=
  let prevRV := findRouterView prev addr in
  let '(rv, foundInNetmap) := carry_forward addr NodeGeneric nodes prevRV in
  if foundInNetmap && negb (nv_Online (rv_Node rv)) then offline_view rv
  else
    match prevState prevRV, prevRV with
    | (RouterOK | RouterUnconfirmed | RouterPending | RouterAwaitingKeep), Some pv =>
        rv |> set_State (rv_State pv) |> set_Reachable (rv_Reachable pv)
           |> set_LastError (rv_LastError pv) |> set_RevertAt (rv_RevertAt pv)
    | _, _ => rv |> set_State RouterUnprobed |> set_Reachable false
    end.

(** One iteration of the locked merge for the router at [addr]. *)
(** internal/poller/poller.go:881-923, refreshOnce. *)
Definition merge_router (genAt : gmap string Z) (cur : Snapshot) (addr : string)
    (rv : RouterView) : M Sys RouterView :=
  gen ← onP (gets (λ p, ctr (p_setGen p) addr));
  if negb (gen =? ctr genAt addr) then
    mret (default rv (findRouterView cur addr))
  else
    pk ← onP (gets p_pendingKeep);
    match pk !! addr with
    | None => mret rv
    | Some e =>
        t ← now;
        if After t (ke_revertAt e) then
          _ ← onP (modify (ps_pendingKeep (delete addr pk)));
          mret (drop_if_awaiting rv)
        else if rv_Reachable rv then
          mret (rv |> set_State RouterAwaitingKeep |> set_RevertAt (ke_revertAt e))
        else mret rv
    end.

Fixpoint merge_routers (genAt : gmap string Z) (cur : Snapshot)
    (l : list (string * RouterView)) : M Sys (list RouterView) :=
  match l with
  | [] => mret []
  | (addr, rv) :: l' =>
      rv' ← merge_router genAt cur addr rv;
      rest ← merge_routers genAt cur l';
      mret (rv' :: rest)
  end.

(** The locked tail of a poll: merge, store and broadcast. *)
(** internal/poller/poller.go:876-934, refreshOnce. *)
Definition refresh_commit (t : Time) (nodes : list NodeView) (netmapAt : Time)
    (netmapErr : string) (genAt : gmap string Z) (dialed : list (string * RouterView))
    : M Sys unit :=
  cur ← onP (gets p_snap);
  routers ← merge_routers genAt cur dialed;
  gs ← groupList;
  let snap := mkSnapshot nodes routers (buildGroupViews gs nodes) netmapAt netmapErr t in
  _ ← onP (modify (put_snap snap));
  onP (modify (emit (Broadcast snap))).

Definition capture_gens (addrs : list string) : M Sys (gmap string Z) :=
  onP (gets (λ p, foldl (λ m a, <[a := ctr (p_setGen p) a]> m) ∅ addrs)).

Fixpoint dial_routers (usedFallback : bool) (nodes : list NodeView) (prev : Snapshot)
    (addrs : list string) : Prog (list (string * RouterView)) :=
  match addrs with
  | [] => mret []
  | addr :: rest =>
      rv ← (if usedFallback then mret (buildListedRouterView addr nodes prev)
            else buildRouterView addr nodes prev);
      l ← dial_routers usedFallback nodes prev rest;
      mret ((addr, rv) :: l)
  end.

(** The once-only notice that discovery fell back to every non-exit node. *)
Definition fallback_notice (usedFallback : bool) (addrs : list string) : M Sys unit :=
  onP (modify (λ p,
    if usedFallback && negb (bool_decide (addrs = [])) && negb (p_fallbackOnce p)
    then emit (Logf ("poller: no tag:router nodes found — listing all "
           +:+ itoa (Z.of_nat (List.length addrs))
           +:+ " non-exit nodes as consumers (NOT auto-probed; use Test SSH, or tag routers with tag:router)"))
           (ps_fallbackOnce true p)
    else p)).

(** internal/poller/poller.go:820-935, refreshOnce. *)
Definition refreshOnce : Prog (option error) :=
  t ← call env_Now;
  prev ← load_snap;
  '(inv, invErr) ← call env_Inventory;
  let '(nodes, netmapErr, netmapAt) :=
    match invErr with
    | Some e => (snap_Nodes prev, err_Error e, snap_NetmapAt prev)
    | None => (inv, "", t)
    end in
  configured ← atomic (onP (gets p_routers));
  let '(addrs, usedFallback) :=
    match configured with
    | [] => autoDiscoverRouters nodes
    | _ :: _ => (configured, false)
    end in
  _ ← atomic (fallback_notice usedFallback addrs);
  genAt ← atomic (capture_gens addrs);
  dialed ← dial_routers usedFallback nodes prev addrs;
  _ ← atomic (refresh_commit t nodes netmapAt netmapErr genAt dialed);
  mret invErr.

(** internal/poller/poller.go:1067-1086, RefreshGroups. *)
Definition RefreshGroups : Prog unit :=
  atomic (
    prev ← onP (gets p_snap);
    gs ← groupList;
    t ← now;
    let snap := mkSnapshot (snap_Nodes prev) (snap_Routers prev)
                  (buildGroupViews gs (snap_Nodes prev)) (snap_NetmapAt prev)
                  (snap_NetmapErr prev) t in
    _ ← onP (modify (put_snap snap));
    onP (modify (emit (Broadcast snap)))).
End poller.
