(* ===== verification/PollerSet.v ===== *)
(** [Poller.SetExitNode]: which targets are admitted, what each outcome
    publishes, what happens to the keep-markers, and what a superseded operation
    may still do. *)

From S2P Require Import Prelude GoStd Store Errors Conc PollerBase PollerFacts Poller.

(** Unfold the monadic plumbing of a section down to tuples. *)
Ltac munfold :=
  repeat progress (unfold mbind, mret, M_bind, M_ret, gets, modify, onP, onW, now in *; simpl in *).

Lemma ctr_bump addr (m : gmap string Z) a :
  ctr (bump addr m) a = if decide (addr = a) then ctr m a + 1 else ctr m a.
Proof. unfold ctr, bump. rewrite lookup_insert. by case_decide; subst. Qed.

Section set.
Context `{UT : UnicodeTables} {W : Type} `{Env : PollerEnv W}.
Implicit Types (p : Poller) (w : W) (addr : string) (o : outcome).

(** ** Pre-flight *)

(** What makes a node an admissible target for the router at [addr]. *)
Definition admissible (gs : list Group) (routerID addr : string) (nv : NodeView) : Prop :=
  nv_StableID nv ≠ routerID ∧ nv_Online nv = true ∧ nv_ExitNodeOption nv = true ∧
  primaryIP nv ≠ "" ∧ primaryIP nv ≠ addr ∧
  ((∃ g, g ∈ gs ∧ in_zone routerID g) →
   ∃ g, g ∈ gs ∧ in_zone routerID g ∧ nv_StableID nv ∈ g_AllowedExitNodes g).

#[local] Ltac reject :=
  split; [discriminate |
    intros [[? ?] | (_ & ? & [= <-] & (? & ? & ? & ? & ? & ?) & _)]; congruence].

Lemma zone_test gs routerID (id : string) :
  let '(allowed, inAny) := allowedExitNodeSet gs routerID in
  (inAny && negb (bool_decide (id ∈ allowed)) = false) ↔
  ((∃ g, g ∈ gs ∧ in_zone routerID g) →
   ∃ g, g ∈ gs ∧ in_zone routerID g ∧ id ∈ g_AllowedExitNodes g).
Proof.
  pose proof (allowedExitNodeSet_spec gs routerID) as [H1 H2].
  destruct (allowedExitNodeSet gs routerID) as [s b]; simpl in *.
  rewrite <- H1, <- H2. destruct b; case_bool_decide; simpl; naive_solver.
Qed.

(** C16: the pre-flight accepts a request exactly when it clears the exit node,
    or names a node of the inventory that is online, approved, addressable, not
    the router itself, and allowed by the router's zones; the reference handed
    to the router is that node's. *)
Theorem set_target_accepts snap gs prevRV routerID addr id target :
  set_target snap gs prevRV routerID addr id = inr target ↔
  (id = "" ∧ target = None) ∨
  (id ≠ "" ∧ ∃ nv, findNodeByStableID (snap_Nodes snap) id = Some nv ∧
     admissible gs routerID addr nv ∧
     target = Some (mkExitNodeRef (nv_StableID nv) (nv_Name nv) (primaryIP nv))).
Proof.
  unfold set_target, admissible.
  destruct (String.eqb_spec id "") as [-> | Hid].
  { split; [intros [= <-]; by left | intros [[_ ->] | [? _]]; done]. }
  destruct (findNodeByStableID _ _) as [nv |]; [| reject].
  destruct (String.eqb_spec (nv_StableID nv) routerID); [reject |].
  destruct (nv_Online nv) eqn:?; [| reject].
  destruct (nv_ExitNodeOption nv) eqn:?; [| reject]. simpl.
  destruct (String.eqb_spec (primaryIP nv) ""); [reject |].
  destruct (String.eqb_spec (primaryIP nv) addr); [reject |].
  pose proof (zone_test gs routerID (nv_StableID nv)) as Hz.
  destruct (allowedExitNodeSet gs routerID) as [allowed inAny].
  destruct (inAny && _) eqn:E.
  - split; [done |].
    intros [[??] | (_ & nv' & [= <-] & (_&_&_&_&_&Hzone) & _)]; [done |].
    by apply Hz in Hzone.
  - split; [intros [= <-]; right; split; [done |]; exists nv; split; [done |]; split_and!; try done; by apply Hz |].
    intros [[??] | (_ & nv' & [= <-] & _ & ->)]; done.
Qed.

(** The refusals carry 400, except the zone-policy refusal, which is 422. *)
Lemma set_target_refusal_status snap gs prevRV routerID addr id e :
  set_target snap gs prevRV routerID addr id = inl e →
  as_HTTPStatus e = Some statusBadRequest ∨ as_HTTPStatus e = Some statusUnprocessable.
Proof.
  unfold set_target, preflightErr. intros H.
  repeat (case_match; simplify_eq; eauto).
Qed.

(** ** The sections in closed form *)

Definition commit_gate p addr mySeq (autoKeep : bool) o : gmap string keepEntry :=
  match oc_setErr o with
  | Some _ => p_pendingKeep p
  | None =>
      if autoKeep then delete addr (p_pendingKeep p)
      else <[addr := mkKeepEntry (oc_marker o)
               (Add (oc_armAt o) (p_revertWindow p)) mySeq]> (p_pendingKeep p)
  end.

Definition commit_disarm p addr (autoKeep : bool) o : list string :=
  match oc_setErr o with
  | Some _ => []
  | None =>
      if autoKeep then prior_marker (p_pendingKeep p) addr
      else List.filter (λ m, negb (String.eqb m (oc_marker o)))
             (prior_marker (p_pendingKeep p) addr)
  end.

Lemma set_begin_eq addr target p w :
  set_begin addr target (p, w) =
  let '(t, w') := env_Now w in
  let '(pending, ok) :=
    withRouter (p_snap p) addr (mark_pending target) t in
  let p1 := ps_setGen (bump addr (p_setGen p)) (ps_setSeq (bump addr (p_setSeq p)) p) in
  if ok then ((Some pending, ctr (p_setSeq p) addr + 1), (put_snap pending p1, w'))
  else ((None, ctr (p_setSeq p) addr + 1), (p1, w')).
Proof.
  unfold set_begin, ctr at 2 3. munfold. destruct (env_Now w) as [t w']; simpl.
  unfold bump, ctr. rewrite lookup_insert_eq; simpl. by destruct (existsb _ _).
Qed.

Lemma set_commit_eq addr mySeq target autoKeep o p w :
  set_commit addr mySeq target autoKeep o (p, w) =
  let '(t, w') := env_Now w in
  let '(final, ok) :=
    withRouter (p_snap p) addr (set_reconcile target autoKeep (p_revertWindow p) o) t in
  let superseded := negb (ctr (p_setSeq p) addr =? mySeq) in
  let updated := if ok then last_mutated final addr else zeroRouterView in
  let p1 := ps_setGen (bump addr (p_setGen p)) p in
  if ok && negb superseded then
    (mkCommit ok superseded final updated (commit_disarm p addr autoKeep o),
     (put_snap final (ps_pendingKeep (commit_gate p addr mySeq autoKeep o) p1), w'))
  else
    (mkCommit ok superseded final updated
       (if String.eqb (oc_marker o) "" then [] else [oc_marker o]), (p1, w')).
Proof.
  unfold set_commit, commit_gate, commit_disarm. munfold.
  destruct (env_Now w) as [t w']; simpl.
  destruct (existsb _ _), (ctr (p_setSeq p) addr =? mySeq); simpl; try done.
  destruct (oc_setErr o), autoKeep; simpl; try done.
  all: by destruct p.
Qed.

(** ** What an outcome publishes *)

Lemma set_reconcile_node target autoKeep window o rv :
  rv_Node (set_reconcile target autoKeep window o rv) = rv_Node rv.
Proof. unfold set_reconcile. repeat case_match; done. Qed.


(** An operation superseded by a newer set on the same router publishes
    nothing: the store, the gates, the sequence numbers and the output are
    untouched, and the timer it armed is handed over for disarming. *)
Theorem set_commit_superseded addr mySeq target autoKeep o p w c p' w' :
  set_commit addr mySeq target autoKeep o (p, w) = (c, (p', w')) →
  ctr (p_setSeq p) addr ≠ mySeq →
  cm_superseded c = true ∧ p_store p' = p_store p ∧ p_pendingKeep p' = p_pendingKeep p ∧
  p_setSeq p' = p_setSeq p ∧ p_out p' = p_out p ∧
  (oc_marker o ≠ "" → cm_disarm c = [oc_marker o]).
Proof.
  rewrite set_commit_eq. intros H Hne%Z.eqb_neq. rewrite Hne in H.
  destruct (env_Now w) as [t w1]. destruct (withRouter _ _ _ _) as [final ok].
  cbv zeta in H. rewrite andb_false_r in H. simplify_eq; simpl. split_and!; try done.
  intros Hm. by destruct (String.eqb_spec (oc_marker o) "").
Qed.

(** ** Keep-markers *)

(** The marker of the gate recorded for [addr], if it has one. *)
Definition gate_marker p addr (m : string) : Prop :=
  ∃ e, p_pendingKeep p !! addr = Some e ∧ ke_marker e = m ∧ m ≠ "".

Lemma prior_marker_elem p addr m :
  m ∈ prior_marker (p_pendingKeep p) addr ↔ gate_marker p addr m.
Proof.
  unfold prior_marker, gate_marker. destruct (p_pendingKeep p !! addr) as [e |].
  - destruct (String.eqb_spec (ke_marker e) ""); [set_solver |].
    rewrite list_elem_of_singleton. naive_solver.
  - set_solver.
Qed.

Lemma set_commit_markers addr mySeq target autoKeep o p w :
  (oc_setErr o ≠ None ∨ autoKeep = true → oc_marker o = "") →
  let '(c, (p', _)) := set_commit addr mySeq target autoKeep o (p, w) in
  ∀ m, m ≠ "" → m = oc_marker o ∨ gate_marker p addr m →
       gate_marker p' addr m ∨ m ∈ cm_disarm c.
Proof.
  rewrite set_commit_eq. intros Hclient.
  destruct (env_Now w) as [t w1]. destruct (withRouter _ _ _ _) as [final ok].
  cbv zeta. destruct (ok && _) eqn:Hpub; intros m Hm Hor; simpl.
  - unfold gate_marker, commit_gate, commit_disarm; simpl.
    destruct (oc_setErr o) as [e |].
    + destruct Hor as [-> |]; [destruct Hm; by apply Hclient; left | by left].
    + destruct autoKeep.
      * right. apply prior_marker_elem.
        destruct Hor as [-> |]; [destruct Hm; by apply Hclient; right | done].
      * destruct (decide (m = oc_marker o)) as [-> | Hne].
        -- left. rewrite lookup_insert_eq. eauto.
        -- right. destruct Hor as [|Hg]; [done |].
           apply list_elem_of_In, List.filter_In. rewrite <- list_elem_of_In, prior_marker_elem.
           split; [done |]. by apply negb_true_iff, String.eqb_neq.
  - destruct Hor as [-> | Hg]; [right | by left].
    destruct (String.eqb_spec (oc_marker o) ""); [done | constructor].
Qed.

(** ** The whole operation, run alone *)

(** A refused request has no effect at all: no counter moves, nothing is
    published or broadcast, and the router is not contacted. *)
Theorem SetExitNode_refused routerID id p w prevRV e :
  findRouterViewByStableID (p_snap p) routerID = Some prevRV →
  primaryIP (rv_Node prevRV) ≠ "" →
  set_target (p_snap p) (default [] (env_Groups w)) prevRV routerID
    (primaryIP (rv_Node prevRV)) id = inl e →
  run (SetExitNode routerID id) (p, w) = ((zeroRouterView, Some e), (p, w)).
Proof.
  intros Hfind Hip Ht. unfold SetExitNode. cbn. unfold onP, gets. rewrite Hfind.
  apply String.eqb_neq in Hip. rewrite Hip. cbn. by rewrite Ht.
Qed.
End set.
