(* ===== verification/PollerKeep.v ===== *)
(** [Poller.Keep], the re-probe of [Poller.Probe] and the merge of a poll: the
    locked sections in closed form, the decision table of a confirmation, and the
    guard that keeps a poll from overwriting newer work. *)

From S2P Require Import Prelude GoStd Store Errors Conc PollerBase PollerFacts Poller PollerSet.

Section keep.
Context `{UT : UnicodeTables} {W : Type} `{Env : PollerEnv W}.
Implicit Types (p : Poller) (w : W) (addr : string).

(** ** The sections in closed form *)

Lemma keep_validate_eq addr p w :
  keep_validate addr (p, w) =
  match p_pendingKeep p !! addr with
  | None => (inl (errNoPending, None), (p, w))
  | Some entry =>
      let '(t, w1) := env_Now w in
      if After t (ke_revertAt entry) then
        let '(t2, w2) := env_Now w1 in
        let '(reverted, ok) := withRouter (p_snap p) addr drop_if_awaiting t2 in
        let p1 := ps_setGen (bump addr (p_setGen p))
                    (ps_pendingKeep (delete addr (p_pendingKeep p)) p) in
        if ok then (inl (errElapsed, Some reverted), (put_snap reverted p1, w2))
        else (inl (errElapsed, None), (p1, w2))
      else if ke_seq entry =? ctr (p_setSeq p) addr then (inr entry, (p, w1))
      else (inl (errSuperseded, None), (p, w1))
  end.
Proof.
  unfold keep_validate. munfold. destruct (p_pendingKeep p !! addr) as [e |]; [| done].
  destruct (env_Now w) as [t w1]. destruct (After t (ke_revertAt e)); simpl.
  - destruct (env_Now w1) as [t2 w2]. by destruct (existsb _ _).
  - by destruct (ke_seq e =? ctr (p_setSeq p) addr).
Qed.

Lemma keep_commit_eq addr mySeq p w :
  keep_commit addr mySeq (p, w) =
  if ctr (p_setSeq p) addr =? mySeq then
    let '(t, w1) := env_Now w in
    let '(final, ok) := withRouter (p_snap p) addr mark_kept t in
    let p1 := ps_pendingKeep (delete addr (p_pendingKeep p))
                (ps_setGen (bump addr (p_setGen p)) p) in
    (inr (final, ok, if ok then last_mutated final addr else zeroRouterView),
     (if ok then put_snap final p1 else p1, w1))
  else (inl errSuperseded, (p, w)).
Proof.
  unfold keep_commit. munfold. destruct (ctr (p_setSeq p) addr =? mySeq); simpl; [| done].
  destruct (env_Now w) as [t w1]. by destruct (existsb _ _).
Qed.

Lemma probe_commit_eq addr genAt rt p w :
  probe_commit addr genAt rt (p, w) =
  if (ctr (p_setGen p) addr =? genAt) && bool_decide (p_pendingKeep p !! addr = None) then
    let '(t1, w1) := env_Now w in
    let '(t2, w2) := env_Now w1 in
    let '(t3, w3) := env_Now w2 in
    let '(final, ok) :=
      withRouter (p_snap p) addr (fresh_read rt t1 t2 (p_revertWindow p)) t3 in
    if ok then (Some final, (put_snap final (ps_setGen (bump addr (p_setGen p)) p), w3))
    else (None, (p, w3))
  else (None, (p, w)).
Proof.
  unfold probe_commit. munfold. destruct (_ && _); [| done].
  destruct (env_Now w) as [t1 w1], (env_Now w1) as [t2 w2], (env_Now w2) as [t3 w3]; simpl.
  by destruct (existsb _ _).
Qed.

(** What a poll publishes for one router, given what it dialed. *)
Lemma merge_router_eq genAt cur addr rv p w :
  merge_router genAt cur addr rv (p, w) =
  if ctr (p_setGen p) addr =? ctr genAt addr then
    match p_pendingKeep p !! addr with
    | None => (rv, (p, w))
    | Some e =>
        let '(t, w1) := env_Now w in
        if After t (ke_revertAt e) then
          (drop_if_awaiting rv, (ps_pendingKeep (delete addr (p_pendingKeep p)) p, w1))
        else ((if rv_Reachable rv
               then rv |> set_State RouterAwaitingKeep |> set_RevertAt (ke_revertAt e)
               else rv), (p, w1))
    end
  else (default rv (findRouterView cur addr), (p, w)).
Proof.
  unfold merge_router. munfold. destruct (ctr (p_setGen p) addr =? _); simpl; [| done].
  destruct (p_pendingKeep p !! addr) as [e |]; [| done].
  destruct (env_Now w) as [t w1]. destruct (After t _); simpl; [done |].
  by destruct (rv_Reachable rv).
Qed.

Lemma drop_if_awaiting_node rv : rv_Node (drop_if_awaiting rv) = rv_Node rv.
Proof. unfold drop_if_awaiting. by case_bool_decide. Qed.

(** After the deadline a view is no longer awaiting a keep. *)
Lemma drop_if_awaiting_state rv :
  rv_State (drop_if_awaiting rv) ≠ RouterAwaitingKeep ∧
  (rv_State rv ≠ RouterAwaitingKeep → drop_if_awaiting rv = rv).
Proof. unfold drop_if_awaiting. by case_bool_decide. Qed.

Lemma fresh_read_node rt t1 t2 window rv : rv_Node (fresh_read rt t1 t2 window rv) = rv_Node rv.
Proof. unfold fresh_read. by rewrite reconcileState_node. Qed.

(** ** A confirmation, run alone *)

Lemma find_router_owned snap id rv :
  findRouterViewByStableID snap id = Some rv → primaryIP (rv_Node rv) ≠ "" →
  rv ∈ snap_Routers snap ∧ has_ip (primaryIP (rv_Node rv)) (rv_Node rv) = true.
Proof.
  intros [Hin _]%find_some_elem Hip. split; [done | by apply primaryIP_has_ip].
Qed.

(** The views a section published at [addr]. *)
Lemma published_at cur addr mutate t rv' :
  (∀ rv, rv_Node (mutate rv) = rv_Node rv) →
  rv' ∈ snap_Routers (fst (withRouter cur addr mutate t)) → has_ip addr (rv_Node rv') = true →
  ∃ rv, rv ∈ snap_Routers cur ∧ has_ip addr (rv_Node rv) = true ∧ rv' = mutate rv.
Proof.
  intros Hnode Hin Hip. apply (withRouter_elem_node _ _ _ _ Hnode) in Hin as (rv & Hrv & Hn & E).
  rewrite Hip in E. exists rv. by rewrite <- Hn.
Qed.

Lemma withRouter_found cur addr mutate t snap ok rv :
  withRouter cur addr mutate t = (snap, ok) →
  rv ∈ snap_Routers cur → has_ip addr (rv_Node rv) = true →
  ok = true ∧ snap = fst (withRouter cur addr mutate t).
Proof.
  intros Hw Hin Hip. rewrite Hw. split; [| done].
  change ok with (snd (snap, ok)). rewrite <- Hw. apply withRouter_matched. eauto.
Qed.

End keep.
