(* ===== verification/PollerSeq.v ===== *)
(** [Poller.SetExitNode] run alone, from the accepted request to the published
    result. *)

From S2P Require Import Prelude GoStd Store Errors Conc PollerBase PollerFacts Poller.
From S2P Require Import PollerSet PollerKeep.

Section seq.
Context `{UT : UnicodeTables} {W : Type} `{Env : PollerEnv W}.
Implicit Types (p : Poller) (w : W) (addr : string).

(** The slow parts of an operation touch the poller only through its log. *)
Definition logs_only p p' : Prop := ∃ ls, p' = ps_out (p_out p ++ (Logf <$> ls)) p.

Lemma logs_refl p : logs_only p p.
Proof. exists []. destruct p. unfold ps_out. simpl. by rewrite app_nil_r. Qed.

Lemma logs_one p m : logs_only p (emit (Logf m) p).
Proof. by exists [m]. Qed.

Lemma logs_trans p1 p2 p3 : logs_only p1 p2 → logs_only p2 p3 → logs_only p1 p3.
Proof.
  intros [l1 ->] [l2 ->]. exists (l1 ++ l2). unfold ps_out. simpl.
  by rewrite fmap_app, (assoc (++)).
Qed.

Lemma run_call {A} (m : M W A) p w :
  run (call m) (p, w) = let '(a, w') := m w in (a, (p, w')).
Proof. apply run_atomic. Qed.

Lemma run_get {A} (f : Poller → A) p w : run (atomic (onP (gets f))) (p, w) = (f p, (p, w)).
Proof. done. Qed.

Lemma run_logf m p w : run (logf m) (p, w) = (tt, (emit (Logf m) p, w)).
Proof. done. Qed.

Lemma run_broadcast snap p w : run (bc_Broadcast snap) (p, w) = (tt, (emit (Broadcast snap) p, w)).
Proof. done. Qed.

#[local] Ltac run_step :=
  rewrite ?run_mbind, ?run_mret, ?run_call, ?run_get, ?run_logf, ?run_broadcast.

Lemma run_egress_probe addr target e p w :
  logs_only p (fst (snd (run (egress_probe addr target e) (p, w)))).
Proof.
  unfold egress_probe. do 2 run_step. destruct (_ && _); [| apply logs_refl]. run_step.
  destruct (env_EgressProbe _ _ w) as [[[ok det] [er |]] w1]; run_step; [| apply logs_refl].
  apply logs_one.
Qed.

Lemma run_set_apply addr target prev autoKeep p w :
  let '(o, (p', w')) := run (set_apply addr target prev autoKeep) (p, w) in
  logs_only p p' ∧
  ∃ w1, fst (env_ApplyExitNode addr target prev autoKeep w1) =
        (oc_rt o, oc_marker o, oc_setErr o).
Proof.
  unfold set_apply. run_step. destruct (env_Now w) as [t w1]. run_step.
  destruct (env_ApplyExitNode addr target prev autoKeep w1) as [[[rt m] e] w2] eqn:Happ.
  run_step. destruct (env_Now w2) as [t2 w3]. rewrite run_mbind.
  set (pr := if hardFail e then _ else _). destruct (run pr (p, w3)) as [rr [p3 w4]] eqn:Hrr.
  assert (p3 = p) as ->.
  { revert Hrr. unfold pr. destruct (hardFail e); run_step; [| by intros [=]].
    destruct (env_Status addr w3) as [[r er] w5]. run_step. by intros [=]. }
  rewrite run_mbind. pose proof (run_egress_probe addr target e p w4) as Hl.
  destruct (run (egress_probe addr target e) (p, w4)) as [eg [p5 w6]]. run_step. simpl in *.
  split; [done |]. exists w1. by rewrite Happ.
Qed.


Lemma run_disarm_orphans addr ms p w :
  logs_only p (fst (snd (run (disarm_orphans addr ms) (p, w)))).
Proof.
  revert p w. induction ms as [| m ms IH]; intros p w; [apply logs_refl |].
  unfold disarm_orphans. cbn [pforeach]. rewrite run_bind. run_step.
  destruct (env_KeepExitNode addr m w) as [[e |] w1]; run_step; [| apply IH].
  eapply logs_trans; [apply logs_one | apply IH].
Qed.

Lemma withRouter_twice cur addr f1 f2 t1 t2 :
  (∀ v, rv_Node (f1 v) = rv_Node v) →
  snap_Routers (fst (withRouter (fst (withRouter cur addr f1 t1)) addr f2 t2)) =
  map (λ v, if has_ip addr (rv_Node v) then f2 (f1 v) else v) (snap_Routers cur).
Proof.
  intros Hf1. unfold withRouter. simpl. rewrite map_map. apply map_ext. intros v.
  destruct (has_ip addr (rv_Node v)) eqn:E; rewrite ?Hf1, E; done.
Qed.

Lemma withRouter_kept cur addr mutate t rv :
  (∀ v, rv_Node (mutate v) = rv_Node v) →
  rv ∈ snap_Routers cur → has_ip addr (rv_Node rv) = true →
  ∃ rv', rv' ∈ snap_Routers (fst (withRouter cur addr mutate t)) ∧
         has_ip addr (rv_Node rv') = true.
Proof.
  intros Hf Hin Hip. exists (mutate rv). rewrite Hf. split; [| done].
  apply withRouter_elem. exists rv. by rewrite Hip.
Qed.

Lemma set_result_err o updated :
  snd (set_result o updated) = None ↔
  oc_setErr o = None ∨ (hardFail (oc_setErr o) = false ∧ rt_Online (oc_rt o) = true).
Proof.
  unfold set_result. destruct (oc_setErr o) as [e |]; [| naive_solver].
  destruct (hardFail (Some e)), (rt_Online (oc_rt o)); simpl; naive_solver.
Qed.

Lemma last_mutated_in cur addr mutate t rv :
  (∀ v, rv_Node (mutate v) = rv_Node v) →
  rv ∈ snap_Routers cur → has_ip addr (rv_Node rv) = true →
  let final := fst (withRouter cur addr mutate t) in
  last_mutated final addr ∈ snap_Routers final ∧
  has_ip addr (rv_Node (last_mutated final addr)) = true.
Proof.
  intros Hf Hin Hip final.
  destruct (last_mutated_elem cur addr mutate t Hf) as (v & Hv & Hvip & E).
  { apply withRouter_matched. eauto. }
  unfold final. rewrite E, Hf. split; [| done]. apply withRouter_elem. exists v. by rewrite Hvip.
Qed.

Lemma frames_assoc {A} (out : list output) (x y : output) (f : A → output) l1 l2 :
  (((out ++ [x]) ++ (f <$> l1)) ++ (f <$> l2)) ++ [y] = out ++ [x] ++ (f <$> (l1 ++ l2)) ++ [y].
Proof. by rewrite fmap_app, <- !(assoc (++)). Qed.

(** An accepted set run alone publishes the intent first and its result
    last, each as one frame: the router's views go through pending to the
    outcome's reconciliation and no other view changes; the sequence number moves
    by one; the gate is the one the outcome calls for; and the answer is the
    published view, with an error exactly when the command failed or the router
    went away. *)
Theorem SetExitNode_alone routerID id p w rv target :
  findRouterViewByStableID (p_snap p) routerID = Some rv →
  primaryIP (rv_Node rv) ≠ "" →
  set_target (p_snap p) (default [] (env_Groups w)) rv routerID (primaryIP (rv_Node rv)) id
    = inr target →
  let addr := primaryIP (rv_Node rv) in
  let autoKeep := negb (p_requireKeep p) || bool_decide (target = None) in
  let '((res, err), (p', w')) := run (SetExitNode routerID id) (p, w) in
  ∃ o pending logs w1,
    fst (env_ApplyExitNode addr target (rv_CurrentExitNode rv) autoKeep w1)
      = (oc_rt o, oc_marker o, oc_setErr o) ∧
    snap_Routers pending =
      map (λ v, if has_ip addr (rv_Node v) then mark_pending target v else v)
          (snap_Routers (p_snap p)) ∧
    snap_Routers (p_snap p') =
      map (λ v, if has_ip addr (rv_Node v)
                then set_reconcile target autoKeep (p_revertWindow p) o (mark_pending target v)
                else v) (snap_Routers (p_snap p)) ∧
    ctr (p_setSeq p') addr = ctr (p_setSeq p) addr + 1 ∧
    p_pendingKeep p' = commit_gate p addr (ctr (p_setSeq p) addr + 1) autoKeep o ∧
    p_out p' = p_out p ++ [Broadcast pending] ++ (Logf <$> logs) ++ [Broadcast (p_snap p')] ∧
    (res ∈ snap_Routers (p_snap p') ∧ has_ip addr (rv_Node res) = true) ∧
    (err = None ↔ oc_setErr o = None ∨
       (hardFail (oc_setErr o) = false ∧ rt_Online (oc_rt o) = true)).
Proof.
  intros Hf Hip Ht. cbv zeta. pose proof (find_router_owned _ _ _ Hf Hip) as [Hin Hown].
  unfold SetExitNode, load_snap. run_step. rewrite Hf. apply String.eqb_neq in Hip. rewrite Hip.
  rewrite run_mbind, run_atomic. unfold groupList at 1, gets at 1. cbn [snd fst]. rewrite Ht.
  set (addr := primaryIP (rv_Node rv)) in *. rewrite run_mbind, run_atomic, set_begin_eq.
  set (autoKeep := negb _ || _).
  destruct (env_Now w) as [t w1].
  destruct (withRouter (p_snap p) addr (mark_pending target) t) as [pending ok] eqn:Hw.
  destruct (withRouter_found _ _ _ _ _ _ _ Hw Hin Hown) as [-> Epend]. cbv beta iota zeta.
  do 2 run_step. cbv beta iota zeta.
  set (p1 := emit (Broadcast pending) _).
  change (p_requireKeep p1) with (p_requireKeep p). fold autoKeep. rewrite run_mbind.
  pose proof (run_set_apply addr target (rv_CurrentExitNode rv) autoKeep p1 w1) as Ha.
  destruct (run (set_apply _ _ _ _) (p1, w1)) as [o [p2 w2]].
  destruct Ha as [[l1 ->] [wa Happ]]. rewrite run_mbind, run_atomic, set_commit_eq.
  destruct (env_Now w2) as [t2 w3]. set (f2 := set_reconcile _ _ _ _).
  change (p_snap (ps_out _ p1)) with pending.
  destruct (withRouter pending addr f2 t2) as [final ok] eqn:Hw2.
  destruct (withRouter_kept (p_snap p) addr (mark_pending target) t rv) as (rv' & Hin' & Hown');
    try done. rewrite <- Epend in Hin'.
  destruct (withRouter_found _ _ _ _ _ _ _ Hw2 Hin' Hown') as [-> Efin].
  assert (ctr (p_setSeq p1) addr = ctr (p_setSeq p) addr + 1) as Hseq.
  { unfold p1. simpl. rewrite ctr_bump. by rewrite decide_True. }
  change (p_setSeq (ps_out _ p1)) with (p_setSeq p1). rewrite Hseq, Z.eqb_refl.
  cbn [negb andb]. cbv beta iota zeta. set (p3 := put_snap final _).
  cbn [cm_disarm cm_ok cm_superseded cm_final cm_updated negb]. rewrite run_mbind.
  pose proof (run_disarm_orphans addr (commit_disarm (ps_out (p_out p1 ++ (Logf <$> l1)) p1) addr autoKeep o) p3 w3) as Hd.
  destruct (run (disarm_orphans _ _) (p3, w3)) as [[] [p4 w4]]. destruct Hd as [l2 Hp4].
  simpl in Hp4. subst p4. do 2 run_step.
  assert (∀ v, rv_Node (f2 v) = rv_Node v) as Hf2 by apply set_reconcile_node.
  pose proof (last_mutated_in pending addr f2 t2 rv' Hf2 Hin' Hown') as [Hl1 Hl2].
  rewrite <- Efin in Hl1, Hl2.
  pose proof (set_result_err o (last_mutated final addr)) as Hres.
  assert (fst (set_result o (last_mutated final addr)) = last_mutated final addr) as Hres1.
  { unfold set_result. by repeat case_match. }
  destruct (set_result _ _) as [res err]. simpl in Hres, Hres1. subst res.
  exists o, pending, (l1 ++ l2), wa. split_and!; try done.
  - by rewrite Epend.
  - transitivity (snap_Routers final); [done |]. rewrite Efin, Epend. by apply withRouter_twice.
  - apply frames_assoc.
Qed.
End seq.
