(* ===== verification/PollerFrame.v ===== *)
(** What the poller's operations leave alone: its configuration, and of the world they
    run in everything but what the calls of the environment change.  A relation that
    every such call respects is respected by every operation. *)

From S2P Require Import Prelude GoStd Store Errors Conc PollerBase Poller.

Section frame.
Context `{UT : UnicodeTables} {W : Type} `{Env : PollerEnv W}.
Context (R : W → W → Prop) `{PR : !PreOrder R}.

Class EnvFrames : Prop := {
  ef_Now : ∀ w, R w (snd (env_Now w));
  ef_Inventory : ∀ w, R w (snd (env_Inventory w));
  ef_Status : ∀ a w, R w (snd (env_Status a w));
  ef_Apply : ∀ a t p k w, R w (snd (env_ApplyExitNode a t p k w));
  ef_Keep : ∀ a m w, R w (snd (env_KeepExitNode a m w));
  ef_Probe : ∀ a w, R w (snd (env_Probe a w));
  ef_Egress : ∀ a u w, R w (snd (env_EgressProbe a u w));
}.
Context `{EF : EnvFrames}.

(** What is set once, before the poller runs. *)
Definition p_config (p : Poller) : list string * Duration * Duration * bool * string * bool * Duration :=
  (p_routers p, p_interval p, p_linger p, p_egressCheck p, p_egressURL p, p_requireKeep p, p_revertWindow p).

Definition keeps_world (s s' : Poller * W) : Prop := p_config (fst s') = p_config (fst s) ∧ R (snd s) (snd s').
#[local] Instance keeps_world_preorder : PreOrder keeps_world.
Proof.
  split; [by split | intros s1 s2 s3 [E1 H1] [E2 H2]]. split; [congruence | by etransitivity].
Qed.
Definition wframes {A} (m : M (Poller * W) A) : Prop := ∀ s, keeps_world s (snd (m s)).
(** Every section of a program respects it, and so does the whole. *)
Definition pframes {A} (p : prog (Poller * W) A) : Prop := every_section keeps_world p.
Lemma pframes_run {A} (p : prog (Poller * W) A) : pframes p → wframes (run p).
Proof. intros Hp s. by apply every_section_run; [apply _ |]. Qed.

Lemma wframes_ret {A} (x : A) : wframes (mret x).
Proof. intros s. reflexivity. Qed.
Lemma wframes_bind {A B} (m : M (Poller * W) A) (k : A → M (Poller * W) B) :
  wframes m → (∀ x, wframes (k x)) → wframes (m ≫= k).
Proof.
  intros Hm Hk s. unfold mbind, M_bind. specialize (Hm s). destruct (m s) as [x s1].
  etransitivity; [exact Hm | apply Hk].
Qed.
Lemma wframes_onP {A} (m : M Poller A) : (∀ p, p_config (snd (m p)) = p_config p) → wframes (onP m).
Proof. intros Hm [p w]. unfold onP. specialize (Hm p). destruct (m p). by split. Qed.
Lemma wframes_onW {A} (m : M W A) : (∀ w, R w (snd (m w))) → wframes (onW m).
Proof. intros Hm [p w]. unfold onW. specialize (Hm w). destruct (m w). by split. Qed.
Lemma wframes_gets {A} (f : Poller * W → A) : wframes (gets f).
Proof. intros s. reflexivity. Qed.

Lemma pframes_ret {A} (x : A) : pframes (mret x).
Proof. done. Qed.
Lemma pframes_bind {A B} (p : prog (Poller * W) A) (k : A → prog (Poller * W) B) :
  pframes p → (∀ x, pframes (k x)) → pframes (p ≫= k).
Proof. apply every_section_bind. Qed.
Lemma pframes_atomic {A} (m : M (Poller * W) A) : wframes m → pframes (atomic m).
Proof. by intros Hm. Qed.
Lemma pframes_foreach {A} (l : list A) f : (∀ x, pframes (f x)) → pframes (pforeach l f).
Proof. apply every_section_foreach. Qed.

(** Split a section, or a program, into its calls. *)
Ltac frame_step :=
  first
    [ apply wframes_ret | apply pframes_ret
    | (apply wframes_onP; intros ?; simpl; repeat case_match; reflexivity) | apply wframes_gets
    | (apply wframes_onW; intros ?;
       first [apply ef_Now | apply ef_Inventory | apply ef_Status | apply ef_Apply | apply ef_Keep
             | apply ef_Probe | apply ef_Egress])
    | apply pframes_atomic
    | apply wframes_bind; [| intros ?] | apply pframes_bind; [| intros ?]
    | apply pframes_foreach; intros ?
    | case_match ].
Ltac frame := repeat frame_step.

Lemma pframes_logf m : pframes (logf m).
Proof. unfold logf. frame. Qed.
Lemma pframes_broadcast s : pframes (bc_Broadcast s).
Proof. unfold bc_Broadcast. frame. Qed.
Lemma pframes_call {A} (m : M W A) : (∀ w, R w (snd (m w))) → pframes (call m).
Proof. intros Hm. by apply pframes_atomic, wframes_onW. Qed.

Lemma wframes_set_commit addr seq target k o : wframes (set_commit addr seq target k o).
Proof. unfold set_commit, now. frame. Qed.
Lemma pframes_set_apply addr target prev k : pframes (set_apply addr target prev k).
Proof. unfold set_apply, egress_probe, logf, call. frame. Qed.

Lemma pframes_SetExitNode r t : pframes (SetExitNode r t).
Proof.
  unfold SetExitNode, load_snap, groupList, set_begin, disarm_orphans, bc_Broadcast, logf, call, now.
  repeat first [apply wframes_set_commit | apply pframes_set_apply | frame_step].
Qed.

Lemma pframes_Keep r : pframes (Keep r).
Proof. unfold Keep, load_snap, keep_validate, keep_commit, bc_Broadcast, call, now. frame. Qed.

Lemma pframes_Probe r : pframes (Probe r).
Proof.
  unfold Probe, resolveAfterProbe, load_snap, probe_begin, probe_commit, bc_Broadcast, call, now. frame.
Qed.

Lemma pframes_RefreshGroups : pframes RefreshGroups.
Proof. unfold RefreshGroups, groupList, now. frame. Qed.

Lemma wframes_merge_routers gens cur l : wframes (merge_routers gens cur l).
Proof.
  induction l as [| [addr rv] l IH]; simpl; [apply wframes_ret |]. unfold merge_router, now.
  repeat first [exact IH | frame_step].
Qed.
Lemma pframes_dial_routers fb nodes prev l : pframes (dial_routers fb nodes prev l).
Proof.
  induction l as [| addr l IH]; simpl; [apply pframes_ret |]. unfold buildRouterView, call.
  repeat first [exact IH | frame_step].
Qed.
Lemma pframes_refreshOnce : pframes refreshOnce.
Proof.
  unfold refreshOnce, refresh_commit, load_snap, fallback_notice, capture_gens, groupList, call.
  repeat first [apply wframes_merge_routers | apply pframes_dial_routers | frame_step].
Qed.
End frame.
