(* ===== verification/PollerRun.v ===== *)
(** [Poller.Run], the idle-aware loop: one step for each case of its select, over a
    clock that advances between the steps. *)

From S2P Require Import Prelude GoStd Errors Store Authz Sse SseFacts Conc Poller.

(** A [time.Ticker]: when it ticks next, and whether a tick waits in its channel (of
    capacity one; a tick that finds it full is dropped). *)
Record ticker := mkTicker { tk_next : Time; tk_full : bool }.

(** internal/poller/poller.go:1092-1098, Run.  The variables of the loop, with the time, the
    deadline of the linger timer, whether the loop has returned, and the times of its refreshes:
    the first viewers' and those of the ticks. *)
Record loop := mkLoop {
  lp_now : Time;
  lp_active : bool;
  lp_ticker : option ticker;
  lp_linger : option Time;
  lp_done : bool;
  lp_first : list Time;
  lp_ticks : list Time;
}.
Definition loop0 (now : Time) : loop := mkLoop now false None None false [] [].

Definition set_active b l := mkLoop (lp_now l) b (lp_ticker l) (lp_linger l) (lp_done l) (lp_first l) (lp_ticks l).
Definition set_ticker t l := mkLoop (lp_now l) (lp_active l) t (lp_linger l) (lp_done l) (lp_first l) (lp_ticks l).
Definition set_linger g l := mkLoop (lp_now l) (lp_active l) (lp_ticker l) g (lp_done l) (lp_first l) (lp_ticks l).
Definition note_first l := mkLoop (lp_now l) (lp_active l) (lp_ticker l) (lp_linger l) (lp_done l) (lp_first l ++ [lp_now l]) (lp_ticks l).
Definition note_tick l := mkLoop (lp_now l) (lp_active l) (lp_ticker l) (lp_linger l) (lp_done l) (lp_first l) (lp_ticks l ++ [lp_now l]).

(** internal/poller/poller.go:1099-1104, Run.startTicker. *)
Definition startTicker (interval : Duration) (l : loop) : loop :=
  match lp_ticker l with
  | None => set_ticker (Some (mkTicker (Add (lp_now l) interval) false)) l
  | Some _ => l
  end.
(** internal/poller/poller.go:1105-1110, Run.stopTicker. *)
Definition stopTicker (l : loop) : loop := set_ticker None l.
(** internal/poller/poller.go:1111-1116, Run.armLinger. *)
Definition armLinger (linger : Duration) (l : loop) : loop :=
  match lp_linger l with
  | None => set_linger (Some (Add (lp_now l) linger)) l
  | Some _ => l
  end.
(** internal/poller/poller.go:1117-1127, Run.disarmLinger. *)
Definition disarmLinger (l : loop) : loop := set_linger None l.

(** Time passes: the ticks that come due fill the channel. *)
Definition tick_on (interval : Duration) (now : Time) (t : ticker) : ticker :=
  if tk_next t <=? now
  then mkTicker (tk_next t + interval * ((now - tk_next t) / interval + 1)) true
  else t.
Definition pass (interval : Duration) (d : Duration) (l : loop) : loop :=
  let now := lp_now l + d in
  mkLoop now (lp_active l) (tick_on interval now <$> lp_ticker l) (lp_linger l) (lp_done l) (lp_first l) (lp_ticks l).

Inductive loop_event :=
| LPass (d : Duration)
| LDone                     (* the context is done *)
| LTransition (n : Z)       (* a client-count edge *)
| LLinger                   (* the linger timer has fired *)
| LTick.                    (* a tick *)

Section run.
Context `{UT : UnicodeTables} {W : Type} `{Env : PollerEnv W}.

(** internal/poller/poller.go:798-803, Refresh.  [singleflight.Group.Do] runs the function when no
    other call is in flight; the loop is the only caller. *)
Definition Refresh : prog (Poller * W) (option error) := refreshOnce.

(** A refresh of the loop; an error is logged. *)
Definition refresh_logged (what : string) : prog (Poller * W) unit :=
  e ← Refresh;
  match e with
  | Some e => logf ("poller: " +:+ what +:+ ": " +:+ err_Error e)
  | None => mret tt
  end.
Definition refreshing (what : string) (s : Poller * W) : Poller * W := snd (run (refresh_logged what) s).

(** internal/poller/poller.go:1135-1161, Run.  One case of the select, when it can be taken. *)
Definition loop_step (e : loop_event) (st : loop * (Poller * W)) : option (loop * (Poller * W)) :=
  let '(l, s) := st in
  let p := fst s in
  match e with
  | LPass d => if 0 <=? d then Some (pass (p_interval p) d l, s) else None
  | _ =>
      if lp_done l then None else
      match e with
      | LPass _ => None
      | LDone => Some (mkLoop (lp_now l) (lp_active l) None None true (lp_first l) (lp_ticks l), s)
      | LTransition n =>
          if 0 <? n then
            let l := disarmLinger l in
            if negb (lp_active l) then
              Some (l |> set_active true |> startTicker (p_interval p) |> note_first,
                    refreshing "first-viewer refresh" s)
            else Some (l, s)
          else if lp_active l then Some (armLinger (p_linger p) l, s)
          else Some (l, s)
      | LLinger =>
          match lp_linger l with
          | Some deadline =>
              if deadline <=? lp_now l
              then Some (l |> set_active false |> stopTicker |> disarmLinger, s) else None
          | None => None
          end
      | LTick =>
          match lp_ticker l with
          | Some (mkTicker next true) =>
              Some (l |> set_ticker (Some (mkTicker next false)) |> note_tick, refreshing "refresh" s)
          | _ => None
          end
      end
  end.

Fixpoint loop_run (es : list loop_event) (st : loop * (Poller * W)) : option (loop * (Poller * W)) :=
  match es with
  | [] => Some st
  | e :: es' => st' ← loop_step e st; loop_run es' st'
  end.
End run.
