(* ===== verification/PollerRunFacts.v ===== *)
(** The loop and the hub together: the poller polls while there are clients, is
    suspended within the linger when there are none, and never polls faster than its
    interval. *)

From S2P Require Import Prelude GoStd Errors Store Authz Sse SseFacts Conc Poller PollerFrame PollerRun.

Section run.
Context `{UT : UnicodeTables} {W : Type} `{Env : PollerEnv W}.

#[local] Instance any_world : EnvFrames (λ _ _ : W, True).
Proof. by split. Qed.
#[local] Instance any_preorder : PreOrder (λ _ _ : W, True).
Proof. by split. Qed.

Lemma refreshing_config what s : p_config (fst (refreshing what s)) = p_config (fst s).
Proof.
  assert (pframes (λ _ _ : W, True) (refresh_logged what)) as H.
  { unfold refresh_logged. apply (pframes_bind _); [apply (pframes_refreshOnce _) |].
    intros [e |]; [apply (pframes_logf _) | apply (pframes_ret _)]. }
  exact (proj1 (pframes_run _ _ H s)).
Qed.

Lemma config_fields p p' : p_config p' = p_config p → p_interval p' = p_interval p ∧ p_linger p' = p_linger p.
Proof. unfold p_config. by intros [=]. Qed.

(** ** The hub and the loop *)

Inductive site_event := SHub (e : event) | SEdge | SLoop (e : loop_event).

(** An event of the hub other than the poller's receive; the poller's receive of an
    edge, which the loop handles; any other step of the loop. *)
Definition site_step (e : site_event) (st : hub * (loop * (Poller * W))) : option (hub * (loop * (Poller * W))) :=
  let '(h, ls) := st in
  match e with
  | SHub EPoll | SLoop (LTransition _) => None
  | SHub e => h' ← hub_event e h; Some (h', ls)
  | SLoop e => ls' ← loop_step e ls; Some (h, ls')
  | SEdge => n ← h_tr h; h' ← hub_event EPoll h; ls' ← loop_step (LTransition n) ls; Some (h', ls')
  end.
Fixpoint site_run (es : list site_event) (st : hub * (loop * (Poller * W))) : option (hub * (loop * (Poller * W))) :=
  match es with
  | [] => Some st
  | e :: es' => st' ← site_step e st; site_run es' st'
  end.

(** ** The invariant of the loop *)

(** [seen] is the last edge the loop received; [t0] the time it started. *)
Record loop_ok (t0 : Time) (seen : Z) (p : Poller) (l : loop) : Prop := {
  lk_active : lp_done l = false → if lp_active l then is_Some (lp_ticker l) else lp_ticker l = None;
  lk_watched : lp_done l = false → 0 < seen → lp_active l = true ∧ lp_linger l = None;
  lk_idle : lp_done l = false → seen <= 0 → if lp_active l then is_Some (lp_linger l) else lp_linger l = None;
  lk_deadline : ∀ dl, lp_linger l = Some dl → dl <= lp_now l + p_linger p;
  lk_next : ∀ t, lp_ticker l = Some t → tk_next t <= lp_now l + p_interval p;
  lk_rate : Z.of_nat (List.length (lp_ticks l)) * p_interval p +
    match lp_ticker l with
    | Some t => (if tk_full t then p_interval p else 0) + p_interval p + t0 - tk_next t
    | None => t0 - lp_now l
    end <= 0;
}.

Lemma tick_on_next interval now t :
  0 < interval →
  let t' := tick_on interval now t in
  (tk_next t <= now → tk_full t' = true ∧ tk_next t + interval <= tk_next t' <= now + interval) ∧
  (now < tk_next t → t' = t).
Proof.
  intros Hi. unfold tick_on. destruct (Z.leb_spec (tk_next t) now) as [Hd | Hd]; simpl; [| by split; [lia |]].
  split; [intros _ | lia]. split; [done |].
  pose proof (Z.div_mod (now - tk_next t) interval ltac:(lia)) as Hdm.
  pose proof (Z.mod_pos_bound (now - tk_next t) interval Hi).
  pose proof (Z.div_pos (now - tk_next t) interval ltac:(lia) Hi). nia.
Qed.

Lemma loop_ok_pass t0 seen p l d :
  0 < p_interval p → 0 <= d → loop_ok t0 seen p l → loop_ok t0 seen p (pass (p_interval p) d l).
Proof.
  intros Hi Hd [H1 H2 H3 H4 H5 H6]. unfold pass. split; simpl; [| done | done | | |].
  - intros Hdone. specialize (H1 Hdone). destruct (lp_active l); [| by rewrite H1].
    destruct H1 as [t ->]. by eexists.
  - intros dl E. specialize (H4 dl E). lia.
  - intros t' E. destruct (lp_ticker l) as [t |]; [| done]. injection E as <-. specialize (H5 t eq_refl).
    destruct (tick_on_next (p_interval p) (lp_now l + d) t Hi) as [Ha Hb].
    destruct (Z.le_gt_cases (tk_next t) (lp_now l + d)) as [Hle | Hgt]; [by apply Ha | rewrite Hb by done; lia].
  - destruct (lp_ticker l) as [t |]; simpl; [| lia].
    destruct (tick_on_next (p_interval p) (lp_now l + d) t Hi) as [Ha Hb].
    destruct (Z.le_gt_cases (tk_next t) (lp_now l + d)) as [Hle | Hgt].
    + destruct (Ha Hle) as [-> Hn]. destruct (tk_full t); lia.
    + by rewrite Hb.
Qed.

Lemma loop_ok_step t0 seen e l s l' s' :
  0 < p_interval (fst s) →
  loop_step e (l, s) = Some (l', s') → loop_ok t0 seen (fst s) l →
  p_config (fst s') = p_config (fst s) ∧
  loop_ok t0 (match e with LTransition n => n | _ => seen end) (fst s') l'.
Proof.
  intros Hi Hstep Hok. pose proof Hok as [H1 H2 H3 H4 H5 H6].
  destruct e as [d | | n | |]; simpl in Hstep.
  - destruct (Z.leb_spec 0 d); [injection Hstep as <- <- | done]. split; [done | by apply loop_ok_pass].
  - destruct (lp_done l); [done |]. injection Hstep as <- <-. split; [done |].
    split; simpl; try done. destruct (lp_ticker l) as [t |]; [| done].
    specialize (H5 t eq_refl). destruct (tk_full t); lia.
  - destruct (lp_done l) eqn:Hdone; [done |]. specialize (H1 eq_refl).
    destruct (Z.ltb_spec 0 n) as [Hn | Hn].
    + destruct (lp_active l) eqn:Ha; simpl in Hstep; injection Hstep as <- <-.
      * split; [done |]. split; simpl; rewrite ?Ha, ?Hdone; try done; lia.
      * pose proof (refreshing_config "first-viewer refresh" s) as Hc.
        destruct (config_fields _ _ Hc) as [Ec El]. split; [done |].
        unfold startTicker. simpl. rewrite H1 in *. split; simpl; rewrite ?Hdone, ?Ec, ?El; try done.
        -- intros _ ?. lia.
        -- intros t [= <-]. unfold Add. simpl. lia.
        -- unfold Add. lia.
    + destruct (lp_active l) eqn:Ha; injection Hstep as <- <-; (split; [done |]).
      * unfold armLinger. destruct (lp_linger l) as [dl |] eqn:Hl.
        -- split; rewrite ?Ha, ?Hdone, ?Hl; try done; lia.
        -- split; simpl; rewrite ?Ha, ?Hdone; try done; [lia |]. intros dl [= <-]. unfold Add. lia.
      * split; rewrite ?Ha, ?Hdone; try done; [lia |]. intros _ _.
        destruct (Z.le_gt_cases seen 0) as [Hs | Hs]; [by apply H3 | by destruct (H2 eq_refl Hs)].
  - destruct (lp_done l) eqn:Hdone; [done |]. destruct (lp_linger l) as [dl |] eqn:Hl; [| done].
    destruct (Z.leb_spec dl (lp_now l)); [injection Hstep as <- <- | done]. split; [done |].
    split; simpl; rewrite ?Hdone; try done.
    + intros _ Hs. by destruct (H2 eq_refl Hs).
    + destruct (lp_ticker l) as [t |]; [| done]. specialize (H5 t eq_refl). destruct (tk_full t); lia.
  - destruct (lp_done l) eqn:Hdone; [done |]. destruct (lp_ticker l) as [[next []] |] eqn:Ht; [| done | done].
    injection Hstep as <- <-. pose proof (refreshing_config "refresh" s) as Hc.
    destruct (config_fields _ _ Hc) as [Ec El]. split; [done |]. simpl in H6.
    split; simpl; rewrite ?Hdone, ?Ec, ?El; try done.
    + intros _. specialize (H1 eq_refl). by destruct (lp_active l).
    + intros t [= <-]. apply (H5 _ eq_refl).
    + rewrite length_app. simpl. lia.
Qed.

(** ** Runs *)

(** What holds of a hub and a loop that started together at [t0]. *)
Definition site_ok (t0 : Time) (cfg : Poller) (st : hub * (loop * (Poller * W))) : Prop :=
  let '(h, (l, s)) := st in
  hub_ok h ∧ p_config (fst s) = p_config cfg ∧ loop_ok t0 (h_seen h) (fst s) l.

Lemma hub_event_seen e h h' : e ≠ EPoll → hub_event e h = Some h' → h_seen h' = h_seen h.
Proof.
  intros Hne. destruct e; simpl; try done.
  - destruct (idle h), (guard_conn c HReg h); simpl; try done. by intros [= <-].
  - destruct (idle h), (guard_conn c HLeave h); simpl; try done. by intros [= <-].
  - destruct (idle h), (h_bc h); simpl; try done. destruct (_ && _); simpl; [| done]. by intros [= <-].
  - destruct (h_run h) as [[| o rest] |]; try done. destruct o as [c | c p | p]; simpl.
    + destruct (h_conns h !! c); simpl; [| done]. by intros [= <-].
    + destruct (h_conns h !! c); simpl; [| done]. destruct (push_step _ _). by intros [= <-].
    + destruct (emit_step _ _). by intros [= <-].
  - destruct (idle h); simpl; [| done]. by intros [= <-].
  - destruct (h_conns h !! c); [done |]. by intros [= <-].
  - destruct (guard_conn c HServe h) as [k |]; simpl; [| done]. destruct (cn_ch k); simpl; [| done]. by intros [= <-].
  - destruct (h_conns h !! c) as [k |]; simpl; [| done]. destruct (cn_pc k); try done; by intros [= <-].
  - destruct (h_conns h !! c) as [k |]; simpl; [| done]. destruct (h_run h), (cn_pc k); try done; by intros [= <-].
  - by intros [= <-].
  - destruct (h_calls h !! i); simpl; [| done]. destruct (broadcast_step _ _). by intros [= <-].
  - by intros [= <-].
Qed.

Lemma site_step_ok t0 cfg e st st' :
  0 < p_interval cfg → site_step e st = Some st' → site_ok t0 cfg st → site_ok t0 cfg st'.
Proof.
  intros Hi. destruct st as [h [l s]]. intros Hstep (Hh & Hc & Hl).
  assert (0 < p_interval (fst s)) as Hi' by (by destruct (config_fields _ _ Hc) as [-> _]).
  destruct e as [e | | e]; simpl in Hstep.
  - assert (e ≠ EPoll) as Hne by (by intros ->).
    assert (∃ h', hub_event e h = Some h' ∧ st' = (h', (l, s))) as (h' & E & ->).
    { destruct e; try done; destruct (hub_event _ h) as [h' |]; try done; injection Hstep as <-; by exists h'. }
    split; [by eapply hub_event_ok |]. split; [done |]. by rewrite (hub_event_seen e h h' Hne E).
  - destruct (h_tr h) as [n |] eqn:Htr; simpl in Hstep; [| done].
    destruct (loop_step (LTransition n) (l, s)) as [[l' s'] |] eqn:E; [| by simpl in E; rewrite E in Hstep].
    assert (st' = (set_tr None n h, (l', s'))) as -> by (simpl in E; rewrite E in Hstep; by injection Hstep).
    destruct (loop_ok_step _ _ _ _ _ _ _ Hi' E Hl) as [Hc' Hl'].
    split; [eapply (hub_event_ok EPoll); [exact Hh | simpl; by rewrite Htr] |].
    split; [congruence | exact Hl'].
  - assert (∃ l' s', loop_step e (l, s) = Some (l', s') ∧ st' = (h, (l', s')) ∧
      match e with LTransition _ => False | _ => True end) as (l' & s' & E & -> & Hne).
    { destruct e; try done; destruct (loop_step _ (l, s)) as [[l' s'] |] eqn:E; simpl in E, Hstep;
        rewrite E in Hstep; try done; injection Hstep as <-; by exists l', s'. }
    destruct (loop_ok_step _ _ _ _ _ _ _ Hi' E Hl) as [Hc' Hl'].
    split; [done |]. split; [congruence |]. by destruct e.
Qed.

Lemma site_run_ok t0 cfg es st st' :
  0 < p_interval cfg → site_run es st = Some st' → site_ok t0 cfg st → site_ok t0 cfg st'.
Proof.
  intros Hi. revert st. induction es as [| e es IH]; intros st; simpl; [by intros [= <-] |].
  destruct (site_step e st) as [st1 |] eqn:E; simpl; [| done]. intros Hr Hok.
  eapply IH; [exact Hr | by eapply site_step_ok].
Qed.

Lemma site_ok_start t0 snap s : site_ok t0 (fst s) (New snap, (loop0 t0, s)).
Proof. split; [apply hub_ok_New |]. split; [done |]. split; simpl; try done. lia. Qed.

(** A tick has come in once the interval has passed. *)
Lemma tick_due p l t d :
  0 < p_interval p → p_interval p <= d → lp_ticker l = Some t → tk_next t <= lp_now l + p_interval p →
  ∃ next, tick_on (p_interval p) (lp_now l + d) t = mkTicker next true.
Proof.
  intros Hi Hd _ Hn. unfold tick_on. destruct (Z.leb_spec (tk_next t) (lp_now l + d)); [by eexists | lia].
Qed.

Lemma site_reached t0 snap s es h l s' :
  0 < p_interval (fst s) → site_run es (New snap, (loop0 t0, s)) = Some (h, (l, s')) →
  hub_ok h ∧ loop_ok t0 (h_seen h) (fst s') l ∧
  p_interval (fst s') = p_interval (fst s) ∧ p_linger (fst s') = p_linger (fst s).
Proof.
  intros Hi Hr. destruct (site_run_ok t0 (fst s) es _ _ Hi Hr (site_ok_start t0 snap s)) as (Hh & Hc & Hl).
  destruct (config_fields _ _ Hc). auto.
Qed.

(** C20: polling follows the viewers.  In every interleaving of the hub and the loop,
    while the loop runs and the hub is between two events: with clients, if polling is
    suspended the poller is about to receive the edge that resumes it and refreshes at once;
    if it has received its edges it is active with no suspension pending, and refreshes
    within one interval; without clients, once it has received its edges, polling is
    suspended, or a suspension is due within the linger and then takes effect. *)
Theorem polls_follow_clients t0 snap s es h l s' :
  0 < p_interval (fst s) →
  site_run es (New snap, (loop0 t0, s)) = Some (h, (l, s')) →
  idle h = true → lp_done l = false →
  if bool_decide (h_clients h = ∅) then
    h_tr h = None →
    (lp_active l = false ∧ lp_ticker l = None ∧ lp_linger l = None) ∨
    ∃ dl, lp_linger l = Some dl ∧ dl <= lp_now l + p_linger (fst s) ∧
      ∀ d, 0 <= d → dl <= lp_now l + d →
        ∃ l', loop_run [LPass d; LLinger] (l, s') = Some (l', s') ∧
          lp_active l' = false ∧ lp_ticker l' = None ∧ lp_linger l' = None
  else
    (lp_active l = false →
      ∃ l', site_step SEdge (h, (l, s')) =
              Some (set_tr None 1 h, (l', refreshing "first-viewer refresh" s')) ∧
        lp_active l' = true ∧ lp_first l' = lp_first l ++ [lp_now l]) ∧
    (h_tr h = None →
      lp_active l = true ∧ lp_linger l = None ∧
      ∀ d, p_interval (fst s) <= d →
        ∃ l', loop_run [LPass d; LTick] (l, s') = Some (l', refreshing "refresh" s') ∧
          lp_ticks l' = lp_ticks l ++ [lp_now l + d]).
Proof.
  intros Hi Hr Hidle Hdone. destruct (site_reached _ _ _ _ _ _ _ Hi Hr) as (Hh & Hl & Ei & El).
  destruct Hl as [H1 H2 H3 H4 H5 _]. specialize (H1 Hdone). specialize (H2 Hdone). specialize (H3 Hdone).
  rewrite Ei, El in *. pose proof (idle_told h Hh Hidle) as Htold. unfold told, truth in Htold.
  case_bool_decide as Hc.
  - intros Htr. rewrite Htr in Htold. simpl in Htold. specialize (H3 ltac:(lia)).
    destruct (lp_active l) eqn:Ha; [right | by left].
    destruct H3 as [dl Hdl]. exists dl. split; [done |]. split; [by apply H4 |].
    intros d Hd0 Hd. simpl. rewrite (proj2 (Z.leb_le 0 d) Hd0). simpl. rewrite Hdone, Hdl.
    rewrite (proj2 (Z.leb_le dl _) Hd). simpl. by eexists.
  - split.
    + intros Ha. destruct (h_tr h) as [n |] eqn:Htr; simpl in Htold.
      * subst n. simpl. rewrite Htr. simpl. rewrite Hdone, Ha. simpl. eexists. split; [done |].
        unfold startTicker. simpl. by destruct (lp_ticker l).
      * destruct (H2 ltac:(lia)) as [Ha' _]. congruence.
    + intros Htr. rewrite Htr in Htold. simpl in Htold. destruct (H2 ltac:(lia)) as [Ha Hg].
      rewrite Ha in H1. destruct H1 as [t Ht]. split; [done |]. split; [done |]. intros d Hd.
      destruct (tick_due (fst s') l t d) as [next En]; rewrite ?Ei in *; auto.
      simpl. rewrite (proj2 (Z.leb_le 0 d) ltac:(lia)). simpl. rewrite Hdone, Ht, Ei. simpl. rewrite En.
      by eexists.
Qed.

(** C21: the polling rate is bounded.  In every interleaving, over any clock, the loop
    has refreshed on a tick at most once for each whole interval since it started, however
    often clients come and go; its other refreshes are those of the first viewers. *)
Theorem polling_rate_bounded t0 snap s es h l s' :
  0 < p_interval (fst s) →
  site_run es (New snap, (loop0 t0, s)) = Some (h, (l, s')) →
  Z.of_nat (List.length (lp_ticks l)) <= (lp_now l - t0) / p_interval (fst s).
Proof.
  intros Hi Hr. destruct (site_reached _ _ _ _ _ _ _ Hi Hr) as (_ & Hl & Ei & _).
  destruct Hl as [_ _ _ _ H5 H6]. rewrite Ei in *. apply Z.div_le_lower_bound; [done |].
  destruct (lp_ticker l) as [t |]; [| lia]. specialize (H5 t eq_refl). destruct (tk_full t); lia.
Qed.
End run.
