(* ===== verification/PollerConc.v ===== *)
(** The poller under concurrency: any number of [SetExitNode], [Keep], [Probe],
    [Refresh] and [RefreshGroups] calls, interleaved section by section in every
    order, with an arbitrary clock, network and zone store between the sections.

    The invariant says that a confirmed change still waiting for its Keep is
    never published as ok. *)

From S2P Require Import Prelude GoStd Store Errors Conc PollerBase PollerFacts Poller PollerSet PollerKeep.

#[local] Arguments withRouter : simpl never.
#[local] Arguments sat : simpl never.
#[local] Arguments prog_bind : simpl never.

(** The operations a client or the run loop starts. *)
Inductive op :=
| OpSet (routerID targetStableID : string)
| OpKeep (routerID : string)
| OpProbe (routerID : string)
| OpRefresh
| OpRefreshGroups.

Section ops.
Context `{UT : UnicodeTables} {W : Type} `{Env : PollerEnv W}.

Definition run_op (o : op) : thread (Poller * W) :=
  match o with
  | OpSet r t => _ ← SetExitNode r t; mret tt
  | OpKeep r => _ ← Keep r; mret tt
  | OpProbe r => _ ← Probe r; mret tt
  | OpRefresh => _ ← refreshOnce; mret tt
  | OpRefreshGroups => _ ← RefreshGroups; mret tt
  end.

(** A goroutine runs a list of operations one after the other. *)
Definition run_ops (ops : list op) : thread (Poller * W) := pforeach ops run_op.

(** A poller that has not published anything yet. *)
Definition initial (rs : list string) (p : Poller) : Prop :=
  p_routers p = rs ∧ snap_Nodes (p_snap p) = [] ∧ snap_Routers (p_snap p) = [] ∧
  p_pendingKeep p = ∅.
End ops.

Section conc.
Context `{UT : UnicodeTables} {W : Type} `{Env : PollerEnv W}.

(** The configured routers (the managed mode: the list is not empty), and the
    addressing assumption: a node that owns a configured address has it as its
    primary address, so that no two configured addresses name one node. *)
Context (rs : list string).
Definition wf_node (n : NodeView) : Prop :=
  ∀ a, a ∈ rs → has_ip a n = true → primaryIP n = a.
Hypothesis Hrs : rs ≠ [].
Hypothesis Hinventory : ∀ w, Forall wf_node (fst (fst (env_Inventory w))).

Implicit Types (p : Poller) (w : W) (g : gmap (string * Z) nat).
Abbreviation views p := (snap_Routers (p_snap p)).
Abbreviation gates p := (p_pendingKeep p).
Abbreviation seq_of p := (ctr (p_setSeq p)).

Definition owned (a : string) (rv : RouterView) : Prop := has_ip a (rv_Node rv) = true.

Record Good p : Prop := mkGood {
  good_routers : p_routers p = rs;
  good_nodes : Forall wf_node (snap_Nodes (p_snap p));
  good_views : ∀ rv, rv ∈ views p → wf_node (rv_Node rv) ∧ ∃ a, a ∈ rs ∧ owned a rv;
  good_present : views p = [] ∨ ∀ a, a ∈ rs → ∃ rv, rv ∈ views p ∧ owned a rv;
  good_gates : ∀ a e, gates p !! a = Some e →
    a ∈ rs ∧ ke_seq e ≤ seq_of p a ∧ ∃ rv, rv ∈ views p ∧ owned a rv;
  good_unkept : ∀ a e rv, gates p !! a = Some e → ke_seq e = seq_of p a →
    rv ∈ views p → owned a rv → rv_State rv ≠ RouterOK;
}.

(** The ghost state records which thread drew each sequence number. *)
Abbreviation State := (Poller * W * gmap (string * Z) nat)%type.
Definition claims_ok p g : Prop := ∀ a q i, g !! (a, q) = Some i → q ≤ seq_of p a.
Definition Inv (x : State) : Prop := Good (fst (fst x)) ∧ claims_ok (fst (fst x)) (snd x).

Record guar (i : nat) p g p' g' : Prop := mkGuar {
  guar_seq : ∀ a, seq_of p a ≤ seq_of p' a;
  guar_claims : ∀ k j, g !! k = Some j → g' !! k = Some j;
  guar_gates : ∀ a e, gates p' !! a = Some e →
    gates p !! a = Some e ∨ g' !! (a, ke_seq e) = Some i;
}.
Definition G (i : nat) (x y : State) : Prop :=
  guar i (fst (fst x)) (snd x) (fst (fst y)) (snd y).
Definition R (i : nat) (x y : State) : Prop := ∃ j, j ≠ i ∧ G j x y.

Lemma G_compat i j x y : i ≠ j → G i x y → R j x y.
Proof. intros Hne HG. by exists i. Qed.

(** A fact that does not mention the state is stable. *)
Lemma stable_pure i (X : Prop) : stable Inv (R i) (λ _, X).
Proof. by intros x y. Qed.

(** *** Preservation by a view update *)

Lemma wf_node_unique n a b :
  wf_node n → a ∈ rs → b ∈ rs → has_ip a n = true → has_ip b n = true → a = b.
Proof. intros Hwf Ha Hb Hia Hib. rewrite <- (Hwf a), <- (Hwf b); done. Qed.

Lemma Good_withRouter p p' addr mutate t :
  Good p → addr ∈ rs → (∀ rv, rv_Node (mutate rv) = rv_Node rv) →
  p_snap p' = fst (withRouter (p_snap p) addr mutate t) →
  p_routers p' = p_routers p →
  (∀ a e, gates p' !! a = Some e →
     a ∈ rs ∧ ke_seq e ≤ seq_of p' a ∧ ∃ rv, rv ∈ views p ∧ owned a rv) →
  (∀ a e, gates p' !! a = Some e → ke_seq e = seq_of p' a →
     (a ≠ addr ∧ gates p !! a = Some e ∧ ke_seq e = seq_of p a) ∨
     (a = addr ∧ ∀ rv, rv_State (mutate rv) ≠ RouterOK)) →
  Good p'.
Proof.
  intros [Hr Hn Hv Hpr Hg Hu] Haddr Hnode Hsnap Hr' Hg' Hu'.
  assert (∀ rv', rv' ∈ views p' → ∃ rv, rv ∈ views p ∧ rv_Node rv' = rv_Node rv ∧
            rv' = if has_ip addr (rv_Node rv') then mutate rv else rv) as Hback.
  { rewrite Hsnap. intros rv'. by apply withRouter_elem_node. }
  assert (∀ rv a, rv ∈ views p → owned a rv → ∃ rv', rv' ∈ views p' ∧ owned a rv') as Hfwd.
  { intros rv a Hrv Ho. rewrite Hsnap.
    exists (if has_ip addr (rv_Node rv) then mutate rv else rv).
    split; [apply withRouter_elem; eauto |].
    unfold owned. destruct (has_ip addr (rv_Node rv)); by rewrite ?Hnode. }
  split.
  - by rewrite Hr'.
  - by rewrite Hsnap.
  - intros rv' (rv & Hrv & Heq & _)%Hback. unfold owned. rewrite Heq. by apply Hv.
  - destruct Hpr as [Hnil | Hpr]; [left; rewrite Hsnap; simpl; by rewrite Hnil | right].
    intros a Ha. destruct (Hpr a Ha) as (rv & ? & ?). eauto.
  - intros a e He. destruct (Hg' a e He) as (? & ? & rv & ? & ?). eauto.
  - intros a e rv' He Hseq Hrv' Ho. destruct (Hback rv' Hrv') as (rv & Hrv & Heq & ->).
    destruct (Hu' a e He Hseq) as [(Hne & He0 & Hseq0) | [-> Hm]].
    + destruct (has_ip addr (rv_Node _)) eqn:Hip.
      * destruct Hne. unfold owned in Ho. rewrite Heq in Hip, Ho.
        destruct (Hv rv Hrv) as [Hwf _].
        eapply wf_node_unique; [exact Hwf | | | |]; try done. by apply Hg in He0 as [? _].
      * unfold owned in Ho. rewrite Heq in Ho. eauto.
    + unfold owned in Ho. rewrite Ho. apply Hm.
Qed.

(** *** The sections *)

(** What a set knows between its two locked steps. *)
Definition set_pending (i : nat) (addr : string) (mySeq : Z) (x : State) : Prop :=
  addr ∈ rs ∧ snd x !! (addr, mySeq) = Some i ∧
  ∀ e, gates (fst (fst x)) !! addr = Some e → ke_seq e ≠ mySeq.

Lemma set_pending_stable i addr q : stable Inv (R i) (set_pending i addr q).
Proof.
  intros x y _ _ (Ha & Hc & He) (j & Hj & [_ HGc HGg]). split; [done |].
  split; [by apply HGc |]. intros e Hey Heq.
  destruct (HGg _ _ Hey) as [Hold | Hnew]; [by apply (He e) |].
  rewrite Heq, (HGc _ _ Hc) in Hnew. congruence.
Qed.

Lemma guar_refl i p g : guar i p g p g.
Proof. split; auto. lia. Qed.

(** Sections that change neither the counters, the gates nor the claims. *)
Lemma guar_same i p p' g :
  p_setSeq p' = p_setSeq p → (∀ a e, gates p' !! a = Some e → gates p !! a = Some e) →
  guar i p g p' g.
Proof. intros Hs Hg. split; [by rewrite Hs | done | eauto]. Qed.

Lemma claims_ok_mono p p' g :
  (∀ a, seq_of p a ≤ seq_of p' a) → claims_ok p g → claims_ok p' g.
Proof. intros Hs Hc a q i Hq. specialize (Hs a). specialize (Hc a q i Hq). lia. Qed.

Lemma set_begin_ok i addr target p w g :
  Inv (p, w, g) → addr ∈ rs →
  ∃ g', Inv (snd (set_begin addr target (p, w)), g') ∧
        G i (p, w, g) (snd (set_begin addr target (p, w)), g') ∧
        set_pending i addr (snd (fst (set_begin addr target (p, w))))
          (snd (set_begin addr target (p, w)), g').
Proof.
  intros [HG Hc] Haddr; simpl in *. rewrite set_begin_eq.
  destruct (env_Now w) as [t w1].
  set (f := mark_pending target). destruct (withRouter (p_snap p) addr f t) as [snap ok] eqn:Hw.
  set (p1 := ps_setGen _ _). set (q := seq_of p addr + 1).
  exists (<[(addr, q) := i]> g).
  assert (∀ a, seq_of p1 a = if decide (addr = a) then seq_of p a + 1 else seq_of p a) as Hseq.
  { intros a. apply ctr_bump. }
  assert (gates p1 = gates p) as Hg1 by done.
  assert (∀ a, seq_of p a ≤ seq_of p1 a) as Hmono.
  { intros a. rewrite Hseq. case_decide; lia. }
  assert (g !! (addr, q) = None) as Hfresh.
  { destruct (g !! (addr, q)) eqn:E; [| done]. apply Hc in E. lia. }
  assert (∀ p2, p_setSeq p2 = p_setSeq p1 → gates p2 = gates p1 → Good p2 →
    Inv (p2, w1, <[(addr, q) := i]> g) ∧ G i (p, w, g) (p2, w1, <[(addr, q) := i]> g) ∧
    set_pending i addr q (p2, w1, <[(addr, q) := i]> g)) as Hfin.
  { intros p2 Hs2 Hg2 Hgood. split; [split; [done |] | split; [split |]]; simpl.
    - intros a q' j. rewrite lookup_insert, Hs2, Hseq. case_decide as E.
      + simplify_eq. by rewrite decide_True.
      + intros Hq%Hc. case_decide; lia.
    - intros a. rewrite Hs2. apply Hmono.
    - intros k j Hk. rewrite lookup_insert_ne; [done | congruence].
    - intros a e. rewrite Hg2, Hg1. auto.
    - split; [done |]. simpl. split; [by rewrite lookup_insert_eq |].
      intros e. rewrite Hg2, Hg1. intros He%(good_gates _ HG). lia. }
  assert (Good p1) as Hgood1.
  { destruct HG as [H1 H2 H3 H4 H5 H6]. split; try done.
    - intros a e He. destruct (H5 a e He) as (? & ? & ?). split; [done |].
      split; [specialize (Hmono a); lia | done].
    - intros a e rv He Hs. rewrite Hseq in Hs. case_decide; [| by eapply H6].
      destruct (H5 a e He) as (_ & ? & _). lia. }
  destruct ok; simpl; apply Hfin; try done.
  eapply (Good_withRouter p _ addr f t); try done.
  - by rewrite Hw.
  - simpl. intros a e He. destruct (good_gates _ HG a e He) as (? & ? & ?).
    split; [done |]. split; [etrans; [done | apply Hmono] | done].
  - simpl. intros a e He Hs. fold p1 in Hs. left.
    change (ke_seq e = seq_of p1 a) in Hs. rewrite Hseq in Hs.
    destruct (good_gates _ HG a e He) as (_ & ? & _). case_decide; [lia |]. done.
Qed.

(** Sections that touch neither the views, the gates nor the counters. *)
Record same p p' : Prop := mkSame {
  same_snap : p_snap p' = p_snap p;
  same_routers : p_routers p' = p_routers p;
  same_seq : p_setSeq p' = p_setSeq p;
}.

Lemma Good_same p p' :
  Good p → same p p' → (∀ a e, gates p' !! a = Some e → gates p !! a = Some e) → Good p'.
Proof.
  intros [H1 H2 H3 H4 H5 H6] [Hs Hr Hq] Hg. split; rewrite ?Hs, ?Hr, ?Hq; try done.
  - intros a e He. apply H5, Hg, He.
  - intros a e rv He Hseq. by apply (H6 a e rv (Hg a e He)).
Qed.

Definition quiet {A} (m : M (Poller * W) A) : Prop :=
  ∀ p w, let p' := fst (snd (m (p, w))) in same p p' ∧ gates p' = gates p.

(** What survives quiet sections. *)
Definition durable (P : State → Prop) : Prop :=
  ∀ p w g p' w', same p p' → gates p' = gates p → P (p, w, g) → P (p', w', g).

Lemma set_pending_durable i addr q : durable (set_pending i addr q).
Proof. intros p w g p' w' _ Hg (? & ? & He). split; [done |]. split; [done |]. simpl. by rewrite Hg. Qed.

(** Shrinking the gates keeps the invariant, too. *)
Lemma shrink_ok i p w p' w' g :
  Inv (p, w, g) → same p p' → (∀ a e, gates p' !! a = Some e → gates p !! a = Some e) →
  Inv (p', w', g) ∧ G i (p, w, g) (p', w', g).
Proof.
  intros [HG Hc] Hs Hg. split; [split; simpl |].
  - by eapply Good_same.
  - eapply claims_ok_mono; [| done]. intros a'. by rewrite (same_seq _ _ Hs).
  - by apply guar_same; [apply Hs |].
Qed.

Lemma quiet_ok {A} i (m : M (Poller * W) A) p w g :
  quiet m → Inv (p, w, g) →
  Inv (snd (m (p, w)), g) ∧ G i (p, w, g) (snd (m (p, w)), g).
Proof.
  intros Hq HI. destruct (Hq p w) as [Hs Hg].
  destruct (m (p, w)) as [a [p' w']]; simpl in *.
  apply shrink_ok; [done | done |]. by rewrite Hg.
Qed.

Lemma sat_quiet {A} i (m : M (Poller * W) A) P (X : A → Prop) :
  quiet m → durable P → stable Inv (R i) P →
  (∀ p w g, Inv (p, w, g) → X (fst (m (p, w)))) →
  sat Inv (R i) (G i) P (atomic m) (λ a x, X a ∧ P x).
Proof.
  intros Hq Hd HS HX. apply sat_atomic.
  - intros [p w] g HI HP. exists g. destruct (quiet_ok i m p w g Hq HI) as [HI' HG].
    split; [exact HI' |]. split; [exact HG |]. split; [by apply (HX p w g) |].
    destruct (Hq p w) as [Hs Hg]. destruct (m (p, w)) as [a [p' w']]; simpl in *.
    by eapply Hd.
  - intros a x y HIx HIy [HXa HP] HR. split; [done | exact (HS x y HIx HIy HP HR)].
Qed.

Lemma same_refl p : same p p.
Proof. by split. Qed.

Lemma quiet_gets {A} (f : Poller → A) : quiet (onP (gets f) : M (Poller * W) A).
Proof. by intros p w. Qed.
Lemma quiet_groups : quiet groupList.
Proof. by intros p w. Qed.
Lemma quiet_call {A} (m : M W A) : quiet (onW m).
Proof. intros p w. unfold onW. by destruct (m w). Qed.
Lemma quiet_emit o : quiet (onP (modify (emit o)) : M (Poller * W) unit).
Proof. by intros p w. Qed.

Lemma durable_true : durable (λ _, True).
Proof. done. Qed.
Lemma stable_true i : stable Inv (R i) (λ _, True).
Proof. done. Qed.

(** A section that publishes through [withRouter], leaves the gates of the
    other routers alone and the sequence numbers unchanged. *)
Lemma publish_ok i p p' w w' g addr mutate t :
  Inv (p, w, g) → addr ∈ rs → (∀ rv, rv_Node (mutate rv) = rv_Node rv) →
  p_snap p' = fst (withRouter (p_snap p) addr mutate t) →
  snd (withRouter (p_snap p) addr mutate t) = true →
  p_routers p' = p_routers p → p_setSeq p' = p_setSeq p →
  (∀ a e, gates p' !! a = Some e →
     (gates p !! a = Some e ∧ (a = addr → ke_seq e = seq_of p a →
        ∀ rv, rv_State (mutate rv) ≠ RouterOK)) ∨
     (a = addr ∧ g !! (a, ke_seq e) = Some i ∧
        (ke_seq e = seq_of p a → ∀ rv, rv_State (mutate rv) ≠ RouterOK))) →
  Inv (p', w', g) ∧ G i (p, w, g) (p', w', g).
Proof.
  intros [HG Hc] Haddr Hnode Hs Hok Hr Hq Hg; simpl in *. split; [split |]; simpl.
  - eapply (Good_withRouter p p' addr mutate t); try done; rewrite ?Hq.
    + intros a e He. destruct (Hg a e He) as [[He0 _] | (-> & Hcl & _)].
      * by apply (good_gates _ HG).
      * split; [done |]. split; [by eapply Hc |].
        apply existsb_exists in Hok as (rv & Hin & Hip). exists rv.
        split; [by apply list_elem_of_In | done].
    + intros a e He Hseq. destruct (Hg a e He) as [[He0 Hm] | (-> & _ & Hm)]; [| right; auto].
      destruct (decide (a = addr)) as [-> | Hne]; [right; auto | by left].
  - intros a q j. rewrite Hq. apply Hc.
  - split; simpl; [by rewrite Hq | done |].
    intros a e He. destruct (Hg a e He) as [[? _] | (_ & ? & _)]; auto.
Qed.

Lemma set_commit_ok i addr mySeq target autoKeep o p w g :
  Inv (p, w, g) → set_pending i addr mySeq (p, w, g) →
  let r := set_commit addr mySeq target autoKeep o (p, w) in
  Inv (snd r, g) ∧ G i (p, w, g) (snd r, g).
Proof.
  intros HI (Haddr & Hcl & Hnone). cbv zeta. rewrite set_commit_eq.
  destruct (env_Now w) as [t w']. set (f := set_reconcile _ _ _ _).
  destruct (withRouter (p_snap p) addr f t) as [final ok] eqn:Hw. simpl in Hcl, Hnone.
  assert (∀ p2, same p p2 → gates p2 = gates p →
            Inv (p2, w', g) ∧ G i (p, w, g) (p2, w', g)) as Hquiet.
  { intros p2 Hs Hg. apply shrink_ok; [done | done |]. by rewrite Hg. }
  destruct ok; simpl; [| by apply Hquiet].
  destruct (Z.eqb_spec (seq_of p addr) mySeq) as [Heq |]; simpl; [| by apply Hquiet].
  eapply (publish_ok i p _ w w' g addr f t); simpl.
  - done.
  - done.
  - apply set_reconcile_node.
  - exact (eq_sym (f_equal fst Hw)).
  - exact (f_equal snd Hw).
  - done.
  - done.
  - unfold commit_gate. intros a e. destruct (oc_setErr o) as [er |] eqn:Hse.
    + intros He. left. split; [done |]. intros ->. intros E. destruct (Hnone e He). congruence.
    + destruct autoKeep.
      * intros [Hne He]%lookup_delete_Some. left. split; [done |]. by intros <-.
      * rewrite lookup_insert_Some. intros [[<- <-] | [Hne He]]; simpl.
        -- right. split; [done |]. split; [done |]. intros _ rv Hok.
           unfold f, set_reconcile in Hok. rewrite Hse in Hok. simpl in Hok.
           by destruct target, (oc_egress o) as [[??]|].
        -- left. split; [done |]. by intros ->.
Qed.

(** Sections that publish at [addr] and only drop gates; every gate that is
    left there must not vouch for an ok view. *)
Lemma republish_ok i p p' w w' g addr mutate t final ok :
  Inv (p, w, g) → addr ∈ rs → (∀ rv, rv_Node (mutate rv) = rv_Node rv) →
  withRouter (p_snap p) addr mutate t = (final, ok) → ok = true →
  p_snap p' = final → p_routers p' = p_routers p → p_setSeq p' = p_setSeq p →
  (∀ a e, gates p' !! a = Some e → gates p !! a = Some e ∧ a ≠ addr) →
  Inv (p', w', g) ∧ G i (p, w, g) (p', w', g).
Proof.
  intros HI Haddr Hnode Hw Hok Hs Hr Hq Hg.
  apply (publish_ok i p p' w w' g addr mutate t); try done.
  - by rewrite Hw, Hs.
  - by rewrite Hw.
  - intros a e [He Hne]%Hg. left. by split.
Qed.

Lemma keep_validate_ok i addr p w g :
  Inv (p, w, g) → addr ∈ rs →
  let r := keep_validate addr (p, w) in Inv (snd r, g) ∧ G i (p, w, g) (snd r, g).
Proof.
  intros HI Haddr. cbv zeta. rewrite keep_validate_eq.
  assert (∀ p2 w2, same p p2 → (∀ a e, gates p2 !! a = Some e → gates p !! a = Some e) →
            Inv (p2, w2, g) ∧ G i (p, w, g) (p2, w2, g)) as Hsh by (intros; by apply shrink_ok).
  destruct (p_pendingKeep p !! addr) as [e |]; [| by apply Hsh].
  destruct (env_Now w) as [t w1]. destruct (After t (ke_revertAt e)).
  - destruct (env_Now w1) as [t2 w2].
    destruct (withRouter (p_snap p) addr drop_if_awaiting t2) as [rev ok] eqn:Hw.
    destruct ok; simpl.
    + apply (republish_ok i p _ w _ g addr drop_if_awaiting t2 rev true); try done;
        [apply drop_if_awaiting_node |]. simpl. by intros a e' [? ?]%lookup_delete_Some.
    + apply Hsh; [done |]. simpl. by intros a e' [? ?]%lookup_delete_Some.
  - destruct (_ =? _); by apply Hsh.
Qed.

Lemma keep_commit_ok i addr mySeq p w g :
  Inv (p, w, g) → addr ∈ rs →
  let r := keep_commit addr mySeq (p, w) in Inv (snd r, g) ∧ G i (p, w, g) (snd r, g).
Proof.
  intros HI Haddr. cbv zeta. rewrite keep_commit_eq.
  destruct (_ =? _); [| by apply shrink_ok].
  destruct (env_Now w) as [t w1].
  destruct (withRouter (p_snap p) addr mark_kept t) as [final ok] eqn:Hw.
  destruct ok; simpl.
  - apply (republish_ok i p _ w _ g addr mark_kept t final true); try done. simpl. by intros a e' [? ?]%lookup_delete_Some.
  - apply shrink_ok; [done | done |]. simpl. by intros a e' [? ?]%lookup_delete_Some.
Qed.

Lemma probe_commit_ok i addr genAt rt p w g :
  Inv (p, w, g) → addr ∈ rs →
  let r := probe_commit addr genAt rt (p, w) in Inv (snd r, g) ∧ G i (p, w, g) (snd r, g).
Proof.
  intros HI Haddr. cbv zeta. rewrite probe_commit_eq.
  destruct (_ && _) eqn:Hc; [| by apply shrink_ok].
  apply andb_true_iff in Hc as [_ Hnone%bool_decide_eq_true].
  destruct (env_Now w) as [t1 w1], (env_Now w1) as [t2 w2], (env_Now w2) as [t3 w3].
  set (f := fresh_read _ _ _ _).
  destruct (withRouter (p_snap p) addr f t3) as [final ok] eqn:Hw.
  destruct ok; simpl; [| by apply shrink_ok].
  apply (republish_ok i p _ w _ g addr f t3 final true); try done.
  - apply fresh_read_node.
  - simpl. intros a e He. split; [done |]. intros E. rewrite E, Hnone in He. discriminate.
Qed.

Lemma RefreshGroups_sat i : sat Inv (R i) (G i) (λ _, True) RefreshGroups (λ _ _, True).
Proof.
  apply sat_atomic; [| done]. intros [q v] h [HG Hc] _. exists h.
  unfold groupList. munfold. destruct (env_Now v) as [t v']; simpl in *.
  split; [| split; [by apply guar_same | done]]. split; [| done].
  destruct HG as [H1 H2 H3 H4 H5 H6]. by split.
Qed.

(** *** The merge of a poll *)

(** What a poll dialed for [addr]. *)
Definition dialed_ok (addr : string) (rv : RouterView) : Prop :=
  wf_node (rv_Node rv) ∧ owned addr rv ∧ (rv_Reachable rv = false → rv_State rv ≠ RouterOK).

(** What the merge may publish for it. *)
Definition merged_ok p (addr : string) (rv : RouterView) : Prop :=
  wf_node (rv_Node rv) ∧ owned addr rv ∧
  ∀ e, gates p !! addr = Some e → ke_seq e = seq_of p addr → rv_State rv ≠ RouterOK.

Definition shrink p p' : Prop :=
  same p p' ∧ ∀ a e, gates p' !! a = Some e → gates p !! a = Some e.

Lemma shrink_refl p : shrink p p.
Proof. by split. Qed.

Lemma shrink_trans p1 p2 p3 : shrink p1 p2 → shrink p2 p3 → shrink p1 p3.
Proof.
  intros [[H1 H2 H3] Hg] [[H4 H5 H6] Hg']. split; [split; congruence | eauto].
Qed.

Lemma merged_ok_shrink p p' addr rv : shrink p p' → merged_ok p addr rv → merged_ok p' addr rv.
Proof.
  intros [[_ _ Hq] Hg] (Hwf & Ho & Hm). split; [done |]. split; [done |].
  intros e He. rewrite Hq. apply Hm, Hg, He.
Qed.

Lemma findRouterView_Some snap addr rv :
  findRouterView snap addr = Some rv → rv ∈ snap_Routers snap ∧ owned addr rv.
Proof. intros [? ?]%List.find_some. by rewrite list_elem_of_In. Qed.

Lemma findRouterView_None snap addr rv :
  findRouterView snap addr = None → rv ∈ snap_Routers snap → ¬ owned addr rv.
Proof.
  intros Hf Hin Ho. apply list_elem_of_In in Hin.
  eapply List.find_none in Hf; [| exact Hin]. unfold owned in Ho. congruence.
Qed.

Lemma merge_router_ok genAt cur addr rv p w rv' p' w' :
  Good p → p_snap p = cur → dialed_ok addr rv →
  merge_router genAt cur addr rv (p, w) = (rv', (p', w')) →
  shrink p p' ∧ merged_ok p' addr rv'.
Proof.
  intros HG <- (Hwf & Ho & Hun). rewrite merge_router_eq.
  destruct (_ =? _).
  - destruct (gates p !! addr) as [e |] eqn:Hg.
    + destruct (env_Now w) as [t w1]. destruct (After t (ke_revertAt e)).
      * intros [= <- <- <-]. split.
        { split; [done |]. simpl. by intros a e' [? ?]%lookup_delete_Some. }
        split; [by rewrite drop_if_awaiting_node |].
        split; [unfold owned; by rewrite drop_if_awaiting_node |].
        simpl. intros e'. by rewrite lookup_delete_eq.
      * intros [= <- <- <-]. split; [apply shrink_refl |].
        destruct (rv_Reachable rv) eqn:Hr; split; try done; split; try done.
        intros. by apply Hun.
    + intros [= <- <- <-]. split; [apply shrink_refl |]. split; [done |]. split; [done |].
      intros e. by rewrite Hg.
  - intros [= <- <- <-]. split; [apply shrink_refl |].
    destruct (findRouterView (p_snap p) addr) as [rv0 |] eqn:Hf; simpl.
    + apply findRouterView_Some in Hf as [Hin Ho']. split; [by apply (good_views _ HG) |].
      split; [done |]. intros e He Hs. by apply (good_unkept _ HG _ _ _ He Hs).
    + split; [done |]. split; [done |].
      intros e (_ & _ & rv1 & Hin & Ho1)%(good_gates _ HG).
      by destruct (findRouterView_None _ _ _ Hf Hin).
Qed.

Lemma merge_routers_ok genAt cur l p w rvs p' w' :
  Good p → p_snap p = cur → Forall (λ x, dialed_ok (fst x) (snd x)) l →
  merge_routers genAt cur l (p, w) = (rvs, (p', w')) →
  shrink p p' ∧ Forall2 (merged_ok p') (fst <$> l) rvs.
Proof.
  revert p w rvs. induction l as [| [addr rv] l IH]; intros p w rvs HG Hcur Hl; simpl.
  - munfold. intros [= <- <- <-]. split; [apply shrink_refl | constructor].
  - apply Forall_cons in Hl as [Hd Hl]. simpl in Hd. unfold mbind, M_bind.
    destruct (merge_router genAt cur addr rv (p, w)) as [rv1 [p1 w1]] eqn:H1.
    destruct (merge_router_ok _ _ _ _ _ _ _ _ _ HG Hcur Hd H1) as [Hs1 Hm1].
    destruct (merge_routers genAt cur l (p1, w1)) as [rest [p2 w2]] eqn:H2.
    intros [= <- <- <-].
    destruct (IH p1 w1 rest) as [Hs2 Hm2]; try done.
    { destruct Hs1 as [? ?]. by eapply Good_same. }
    { by rewrite (same_snap _ _ (proj1 Hs1)). }
    split; [by eapply shrink_trans |]. constructor; [by eapply merged_ok_shrink | done].
Qed.

(** The whole snapshot a poll publishes. *)
Lemma Good_merged p p' l rvs nodes :
  Good p → (fst <$> l : list string) = rs → Forall2 (merged_ok p) (fst <$> (l : list (string * RouterView))) rvs →
  Forall wf_node nodes → views p' = rvs → snap_Nodes (p_snap p') = nodes →
  p_routers p' = p_routers p → p_setSeq p' = p_setSeq p → gates p' = gates p → Good p'.
Proof.
  intros HG -> Hm Hn Hv Hns Hr Hq Hg.
  assert (∀ a, a ∈ rs → ∃ rv, rv ∈ rvs ∧ merged_ok p a rv) as Hfwd.
  { intros a [k Hk]%list_elem_of_lookup.
    destruct (Forall2_lookup_l _ _ _ _ _ Hm Hk) as (rv & Hrv & ?).
    exists rv. split; [by eapply list_elem_of_lookup_2 | done]. }
  assert (∀ rv, rv ∈ rvs → ∃ a, a ∈ rs ∧ merged_ok p a rv) as Hback.
  { intros rv [k Hk]%list_elem_of_lookup.
    destruct (Forall2_lookup_r _ _ _ _ _ Hm Hk) as (a & Ha & ?).
    exists a. split; [by eapply list_elem_of_lookup_2 | done]. }
  split; rewrite ?Hr, ?Hns, ?Hv, ?Hg, ?Hq; try done; try apply HG.
  - intros rv (a & Ha & Hwf & Ho & _)%Hback. eauto.
  - right. intros a (rv & ? & _ & ? & _)%Hfwd. eauto.
  - intros a e He. destruct (good_gates _ HG a e He) as (Ha & ? & _).
    split; [done |]. split; [done |]. destruct (Hfwd a Ha) as (rv & ? & _ & ? & _). eauto.
  - intros a e rv He Hs Hrv Ho. destruct (Hback rv Hrv) as (b & Hb & Hwf & Hob & Hm').
    destruct (good_gates _ HG a e He) as (Ha & _ & _).
    assert (a = b) as -> by (by eapply (wf_node_unique (rv_Node rv))). by eapply Hm'.
Qed.

Definition dial_ok (dialed : list (string * RouterView)) : Prop :=
  (fst <$> dialed : list string) = rs ∧ Forall (λ x, dialed_ok (fst x) (snd x)) dialed.

Lemma refresh_commit_ok i t nodes nat err gens dialed p w g :
  Inv (p, w, g) → dial_ok dialed → Forall wf_node nodes →
  let r := refresh_commit t nodes nat err gens dialed (p, w) in
  Inv (snd r, g) ∧ G i (p, w, g) (snd r, g).
Proof.
  intros [HG Hc] [Hfst Hd] Hn. unfold refresh_commit, groupList. cbv zeta.
  unfold mbind, M_bind, onP, gets, modify. simpl.
  destruct (merge_routers gens (p_snap p) dialed (p, w)) as [rvs [p1 w1]] eqn:Hm.
  destruct (merge_routers_ok _ _ _ _ _ _ _ _ HG eq_refl Hd Hm) as [Hsh Hm'].
  pose proof Hsh as [[Hs1 Hr1 Hq1] Hg1].
  assert (Good p1) as HG1 by (eapply Good_same; [exact HG | by split | done]).
  simpl. split; [split |]; simpl.
  - by eapply (Good_merged p1 _ dialed rvs nodes).
  - intros a q j. simpl. rewrite Hq1. apply Hc.
  - split; simpl; [by rewrite Hq1 | done | eauto].
Qed.

(** *** The dials *)

Lemma carry_forward_ok addr ty nodes prev :
  addr ∈ rs → Forall wf_node nodes →
  let rv := fst (carry_forward addr ty nodes prev) in
  wf_node (rv_Node rv) ∧ owned addr rv.
Proof.
  intros Haddr Hn. unfold carry_forward.
  destruct (findNodeByIP nodes addr) as [nv |] eqn:Hf; simpl.
  - apply List.find_some in Hf as [Hin Hip]. apply list_elem_of_In in Hin.
    rewrite Forall_forall in Hn. unfold owned. destruct prev; simpl; auto.
  - assert (∀ a n, nv_TailscaleIPs n = [addr] → has_ip a n = String.eqb addr a) as Hip.
    { intros a n E. unfold has_ip. rewrite E. simpl. by rewrite orb_false_r. }
    assert (∀ n, nv_TailscaleIPs n = [addr] → wf_node n ∧ has_ip addr n = true) as Hwf.
    { intros n E. split; [| by rewrite Hip, String.eqb_refl].
      intros a _. rewrite (Hip a n E). intros <-%String.eqb_eq.
      unfold primaryIP. rewrite E. simpl. by destruct (ContainsByte addr "."). }
    by destruct prev; apply Hwf.
Qed.

Lemma fresh_read_state rt t1 t2 window rv :
  rv_Reachable (fresh_read rt t1 t2 window rv) = true.
Proof. unfold fresh_read, reconcileState. simpl. by repeat case_match. Qed.

(** *** The operations *)

(** A section that keeps the invariant and returns a value with property [X],
    then the rest under [P], for a precondition that survives the section. *)
Lemma sat_seq {A B} i (m : M (Poller * W) A) (X : A → Prop)
    (k : A → prog (Poller * W) B) P Q :
  stable Inv (R i) P →
  (∀ p w g, Inv (p, w, g) → P (p, w, g) →
     (Inv (snd (m (p, w)), g) ∧ G i (p, w, g) (snd (m (p, w)), g)) ∧
     P (snd (m (p, w)), g) ∧ X (fst (m (p, w)))) →
  (∀ a, X a → sat Inv (R i) (G i) P (k a) Q) →
  sat Inv (R i) (G i) P (prog_bind (atomic m) k) Q.
Proof.
  intros HS Hm Hk.
  eapply (sat_bind _ _ _ _ _ _ (λ a x, X a ∧ P x)); [apply sat_atomic |].
  - intros [p w] g HI HP. exists g. destruct (Hm p w g HI HP) as ([? ?] & ? & ?). done.
  - intros a x y HIx HIy [? HP] HR. split; [done | exact (HS x y HIx HIy HP HR)].
  - intros a. apply sat_pure, Hk.
Qed.

Lemma sat_quiet_bind {A B} i (m : M (Poller * W) A) (X : A → Prop)
    (k : A → prog (Poller * W) B) P Q :
  quiet m → durable P → stable Inv (R i) P →
  (∀ p w g, Inv (p, w, g) → X (fst (m (p, w)))) →
  (∀ a, X a → sat Inv (R i) (G i) P (k a) Q) →
  sat Inv (R i) (G i) P (prog_bind (atomic m) k) Q.
Proof.
  intros Hq Hd HS HX. apply sat_seq; [done |]. intros p w g HI HP.
  split; [by apply quiet_ok |]. split; [| by apply (HX p w g)].
  destruct (Hq p w) as [Hs Hg]. destruct (m (p, w)) as [a [p' w']]; simpl in *. by eapply Hd.
Qed.

Lemma sat_then {A B} (i : nat) (p : prog (Poller * W) A) (f : A → prog (Poller * W) B)
    (P : State → Prop) X Q :
  sat Inv (R i) (G i) P p X → (∀ a, sat Inv (R i) (G i) (X a) (f a) Q) →
  sat Inv (R i) (G i) P (p ≫= f) Q.
Proof. apply sat_bind. Qed.

Lemma sat_then_pure {A B} (i : nat) (p : prog (Poller * W) A)
    (f : A → prog (Poller * W) B) (P : State → Prop) (X : A → Prop) Q :
  sat Inv (R i) (G i) P p (λ a _, X a) →
  (∀ a, X a → sat Inv (R i) (G i) (λ _, True) (f a) Q) →
  sat Inv (R i) (G i) P (p ≫= f) Q.
Proof.
  intros Hp Hf. apply (sat_bind _ _ _ _ _ _ (λ a _, X a)); [exact Hp |]. intros a.
  eapply (sat_weaken _ _ _ _ (λ _, X a ∧ True)); [apply sat_pure, Hf | done | auto].
Qed.

Lemma sat_ret {A} (i : nat) (a : A) (P : State → Prop) (Q : A → State → Prop) :
  (∀ x, P x → Q a x) → sat Inv (R i) (G i) P (mret a) Q.
Proof. intros HQ x _. apply HQ. Qed.

Abbreviation verified i prog :=
  (sat Inv (R i) (G i) (λ _, True) prog (λ _ _, True)).

Definition addressed (snap : Snapshot) : Prop :=
  ∀ rv, rv ∈ snap_Routers snap → primaryIP (rv_Node rv) ∈ rs.

Lemma snap_addressed p : Good p → addressed (p_snap p).
Proof.
  intros HG rv Hrv. destruct (good_views _ HG rv Hrv) as (Hwf & a & Ha & Ho).
  by rewrite (Hwf a Ha Ho).
Qed.

Lemma find_addressed snap id rv :
  addressed snap → findRouterViewByStableID snap id = Some rv → primaryIP (rv_Node rv) ∈ rs.
Proof. intros Ha [Hin _]%List.find_some. apply Ha. by apply list_elem_of_In. Qed.

#[local] Ltac quiet_side :=
  first [apply quiet_gets | apply quiet_groups | apply quiet_call | apply quiet_emit
        | apply set_pending_durable | apply set_pending_stable | done].
#[local] Ltac quiet_step :=
  apply (sat_quiet_bind _ _ (λ _, True));
    [quiet_side | quiet_side | quiet_side | done | intros ? _].

(** Broadcasts, log lines and outside calls. *)
Lemma quiet_sat {A} i (m : M (Poller * W) A) P :
  quiet m → durable P → stable Inv (R i) P →
  sat Inv (R i) (G i) P (atomic m) (λ _, P).
Proof.
  intros Hq Hd HS. eapply sat_weaken; [apply (sat_quiet i m P (λ _, True)); auto | auto |].
  by intros a x _ [_ ?].
Qed.

Lemma disarm_orphans_sat i addr ms : verified i (disarm_orphans addr ms).
Proof.
  apply (sat_foreach _ _ _ _ _ (λ _, True)). intros m. quiet_step.
  destruct a; [| done]. by apply quiet_sat; [apply quiet_emit | |].
Qed.

Lemma egress_probe_sat i addr target e P :
  durable P → stable Inv (R i) P →
  sat Inv (R i) (G i) P (egress_probe addr target e) (λ _, P).
Proof.
  intros Hd HS. unfold egress_probe.
  quiet_step. quiet_step. destruct (_ && _); [| by intros x].
  quiet_step. destruct a1 as [[ok det] [er |]]; [| by intros x]. quiet_step. by intros x.
Qed.

Lemma set_apply_sat i addr target prev autoKeep P :
  durable P → stable Inv (R i) P →
  sat Inv (R i) (G i) P (set_apply addr target prev autoKeep) (λ _, P).
Proof.
  intros Hd HS. unfold set_apply. quiet_step. quiet_step. destruct a0 as [[rt m] e].
  quiet_step. eapply (sat_bind _ _ _ _ _ _ (λ _, P)).
  - destruct (hardFail e); [| by intros x]. quiet_step. destruct a1. by intros x.
  - intros rr. eapply sat_then; [by apply egress_probe_sat |]. by intros eg x.
Qed.

Lemma SetExitNode_sat i routerID id : verified i (SetExitNode routerID id).
Proof.
  unfold SetExitNode.
  apply (sat_quiet_bind _ _ addressed); try done;
    [by intros p w g [HG _]; apply snap_addressed | intros snap Hsnap].
  destruct (findRouterViewByStableID snap routerID) as [rv |] eqn:Hf; [| by intros x].
  apply (find_addressed _ _ _ Hsnap) in Hf.
  destruct (String.eqb _ ""); [by intros x |]. quiet_step.
  destruct (set_target _ _ _ _ _ _) as [e | target]; [by intros x |].
  set (addr := primaryIP (rv_Node rv)) in *.
  eapply (sat_bind _ _ _ _ _ _ (λ r, set_pending i addr (snd r))).
  { apply sat_atomic; [| intros r; apply set_pending_stable].
    intros [p w] g HI _. by apply set_begin_ok. }
  intros [[pending |] q]; [| by intros x]. simpl.
  quiet_step. quiet_step. eapply sat_then; [by apply set_apply_sat; [apply set_pending_durable | apply set_pending_stable] |].
  intros o. eapply (sat_bind _ _ _ _ _ _ (λ _ _, True)).
  { apply sat_atomic; [| done]. intros [p w] g HI HP. exists g.
    destruct (set_commit_ok i addr q target (negb a1 || bool_decide (target = None)) o p w g HI HP).
    done. }
  intros c. eapply sat_then; [apply disarm_orphans_sat |]. intros [].
  destruct (cm_ok c); [| by intros x]. simpl.
  apply (sat_then _ _ _ _ (λ _ _, True)); [| by intros ? x].
  destruct (cm_superseded c); [by intros x |]. by apply quiet_sat; [apply quiet_emit | |].
Qed.

Lemma Keep_sat i routerID : verified i (Keep routerID).
Proof.
  unfold Keep.
  apply (sat_quiet_bind _ _ addressed); try done;
    [by intros p w g [HG _]; apply snap_addressed | intros snap Hsnap].
  destruct (findRouterViewByStableID snap routerID) as [rv |] eqn:Hf; [| by intros x].
  apply (find_addressed _ _ _ Hsnap) in Hf.
  destruct (String.eqb _ ""); [by intros x |].
  set (addr := primaryIP (rv_Node rv)) in *.
  apply (sat_seq _ _ (λ _, True)); [done | |].
  { intros p w g HI _. split; [by apply keep_validate_ok | done]. }
  intros [[e [f |]] | entry] _.
  - quiet_step. by intros x.
  - by intros x.
  - quiet_step. destruct a as [e |]; [by intros x |].
    apply (sat_seq _ _ (λ _, True)); [done | |].
    { intros p w g HI _. split; [by apply keep_commit_ok | done]. }
    intros [e | [[final ok] upd]] _; [by intros x |].
    destruct ok; [| by intros x]. simpl. quiet_step. by intros x.
Qed.

Lemma Probe_sat i routerID : verified i (Probe routerID).
Proof.
  unfold Probe.
  apply (sat_quiet_bind _ _ addressed); try done;
    [by intros p w g [HG _]; apply snap_addressed | intros snap Hsnap].
  destruct (findRouterViewByStableID snap routerID) as [rv |] eqn:Hf; [| by intros x].
  apply (find_addressed _ _ _ Hsnap) in Hf.
  destruct (String.eqb _ ""); [by intros x |].
  set (addr := primaryIP (rv_Node rv)) in *.
  destruct (nv_Online (rv_Node rv)); simpl; [| quiet_step; by intros x].
  quiet_step. quiet_step. destruct a0 as [out [e |]]; [quiet_step; quiet_step; by intros x |].
  quiet_step. eapply (sat_bind _ _ _ _ _ _ (λ _ _, True)); [| intros []; quiet_step; by intros x].
  apply (sat_quiet_bind _ _ (λ _, True)); try done; intros [gen |] _; [| by intros x].
  quiet_step. destruct a1 as [rt [e |]]; [by intros x |].
  apply (sat_seq _ _ (λ _, True)); [done | |].
  { intros p w g HI _. split; [by apply probe_commit_ok | done]. }
  intros [f |] _; [| by intros x]. by apply quiet_sat; [apply quiet_emit | |].
Qed.

Lemma buildRouterView_sat i addr nodes prev :
  addr ∈ rs → Forall wf_node nodes →
  sat Inv (R i) (G i) (λ _, True) (buildRouterView addr nodes prev)
    (λ rv _, dialed_ok addr rv).
Proof.
  intros Haddr Hn. unfold buildRouterView.
  pose proof (carry_forward_ok addr NodeRouter nodes (findRouterView prev addr) Haddr Hn) as Hc.
  destruct (carry_forward _ _ _ _) as [rv found]. destruct Hc as [Hwf Ho]; simpl in Hwf, Ho.
  destruct (found && _); [by intros x |]. quiet_step.
  destruct a as [rt [e |]]; [by intros x |]. quiet_step. quiet_step. quiet_step.
  intros x _ _. split; [by rewrite fresh_read_node |].
  split; [unfold owned; by rewrite fresh_read_node |].
  by rewrite fresh_read_state.
Qed.

Lemma dial_routers_sat i nodes prev addrs :
  Forall (.∈ rs) addrs → Forall wf_node nodes →
  sat Inv (R i) (G i) (λ _, True) (dial_routers false nodes prev addrs)
    (λ l _, (fst <$> l : list string) = addrs ∧ Forall (λ x, dialed_ok (fst x) (snd x)) l).
Proof.
  intros Ha Hn. induction Ha as [| addr addrs Haddr _ IH]; [by intros x |]. cbn [dial_routers].
  eapply sat_then_pure; [by apply buildRouterView_sat |]. intros rv Hd.
  eapply sat_then; [exact IH |]. intros l x _ [Hl Hf]. split; [simpl; by rewrite <- Hl |].
  by constructor.
Qed.

Lemma refreshOnce_sat i : verified i refreshOnce.
Proof.
  unfold refreshOnce. quiet_step.
  apply (sat_quiet_bind _ _ (λ snap, Forall wf_node (snap_Nodes snap))); try done;
    [by intros p w g [HG _]; apply HG | intros prev Hprev].
  apply (sat_quiet_bind _ _ (λ r, Forall wf_node (fst r))); try done;
    [apply quiet_call | |].
  { intros p w g _. unfold onW. pose proof (Hinventory w) as H.
    by destruct (env_Inventory w). }
  intros [inv err] Hinv. simpl in Hinv.
  assert (Forall wf_node (fst (fst (match err with
            | Some e => (snap_Nodes prev, err_Error e, snap_NetmapAt prev)
            | None => (inv, "", a) end)))) as Hn by (by destruct err).
  destruct (match err with Some _ => _ | None => _ end) as [[nodes nerr] nat]. simpl in Hn.
  apply (sat_quiet_bind _ _ (λ c, c = rs)); try done;
    [by intros p w g [HG _]; apply HG | intros configured ->].
  destruct rs as [| r0 rs0] eqn:Hrs0; [done |]. rewrite <- Hrs0 in *.
  apply (sat_quiet_bind _ _ (λ _, True)); try done; intros _ _.
  apply (sat_quiet_bind _ _ (λ _, True)); try done; intros genAt _.
  apply (sat_then_pure _ _ _ _ dial_ok).
  { apply dial_routers_sat; [by apply Forall_forall | done]. }
  intros dialed Hd.
  apply (sat_seq _ _ (λ _, True)); [done | | by intros ? _ x].
  intros p w g HI _. split; [by apply refresh_commit_ok | done].
Qed.

(** *** Every interleaving *)

Lemma run_op_sat i o : verified i (run_op o).
Proof.
  destruct o; (apply (sat_then _ _ _ _ (λ _ _, True)); [| by intros ? x]).
  - apply SetExitNode_sat.
  - apply Keep_sat.
  - apply Probe_sat.
  - apply refreshOnce_sat.
  - apply RefreshGroups_sat.
Qed.

Lemma run_ops_sat i ops : verified i (run_ops ops).
Proof. apply (sat_foreach _ _ _ _ _ (λ _, True)). apply run_op_sat. Qed.

Lemma initial_Inv p w : initial rs p → Inv (p, w, ∅).
Proof.
  intros (Hr & Hn & Hv & Hg). split; [split |]; simpl; rewrite ?Hn, ?Hv, ?Hg; try done; auto.
  - by intros rv ?%not_elem_of_nil.
Qed.

Lemma reachable_Good p w progs p' w' ts :
  initial rs p → rtc pool_step ((p, w), run_ops <$> progs) ((p', w'), ts) → Good p'.
Proof.
  intros Hinit Hsteps.
  destruct (pool_sound Inv R G G_compat ((p, w), ∅) (run_ops <$> progs) (p', w') ts)
    as [g [[HG _] _]]; [| exact Hsteps | exact HG].
  split; [by apply initial_Inv |]. intros i t Ht.
  apply list_lookup_fmap_Some in Ht as (ops & -> & _).
  exists (λ _, True). split; [done |]. split; [done |]. apply run_ops_sat.
Qed.

End conc.
