(* ===== verification/Router.v ===== *)
(** [internal/router]: the command strings, the validation of what is put into
    them, the parsing of what comes back, and the client operations over a
    command runner. *)

From S2P Require Import Prelude GoStd Errors Store Netip Ipnstate Poller.

(** ** Command strings *)

Definition dq : string := of_chars [dquote].
Definition newline : string := of_chars [chr 10].

Definition statusCmd : string := "tailscale status --json".
Definition probeCmd : string :=
  "{ uname -snr; cat /proc/uptime; cat /proc/loadavg; awk '/^MemTotal:|^MemAvailable:/{print $1, $2, $3}' /proc/meminfo; } 2>&1; true".

(** internal/router/router.go:724-727, armCmd. *)
Definition armCmd (marker prevArg : string) : string :=
  "nohup sh -c 'sleep " +:+ itoa revertWindowSeconds +:+ "; [ -f " +:+ marker
  +:+ " ] && exit 0; tailscale set --exit-node=" +:+ prevArg +:+ "' >/dev/null 2>&1 &".

(** internal/router/router.go:736-742, applyCmd. *)
Definition applyCmd (targetArg : string) (setting : bool) (lanAccess : option bool) : string :=
  "tailscale set --exit-node=" +:+ targetArg +:+
  (if setting then
     match lanAccess with
     | Some v => " --exit-node-allow-lan-access=" +:+ (if v : bool then "true" else "false")
     | None => ""
     end
   else "").

(** internal/router/router.go:745-745, keepCmd. *)
Definition keepCmd (marker : string) : string := ": > " +:+ marker.

(** internal/router/router.go:752-752, egressURLForbidden. *)
Definition egressURLForbidden : string :=
  of_chars (map chr [32; 9; 10]) +:+ ";|&$" +:+ of_chars [chr 96] +:+ "<>()" +:+ dq +:+ "'"
  +:+ of_chars [backslash].

(** internal/router/router.go:778-778, egressMarker. *)
Definition egressMarker : string := "tsctl_egress_exit=".

(** internal/router/router.go:773-775, egressCmd. *)
Definition egressCmd (url : string) : string :=
  "{ uclient-fetch -q -T 5 -O /dev/null " +:+ dq +:+ url +:+ dq
  +:+ " || wget -q -T 5 -O /dev/null " +:+ dq +:+ url +:+ dq
  +:+ "; } 2>&1; echo " +:+ dq +:+ egressMarker +:+ "$?" +:+ dq.

(** internal/router/router.go:784-794, parseEgressExit.  [None] is parsed=false. *)
Definition parseEgressExit (out : string) : option (Z * string) :=
  match LastIndex out egressMarker with
  | None => None
  | Some idx =>
      match Atoi (TrimSpace (str_drop (idx + String.length egressMarker) out)) with
      | None => None
      | Some n => Some (n, TrimSpace (str_take idx out))
      end
  end.

(** internal/router/router.go:834-836, defaultMarker.  The time is in nanoseconds since the Unix
    epoch and the random number a uint32. *)
Definition defaultMarker (unixNano rand : Z) : string :=
  "/tmp/tsctl-keep-" +:+ itoa unixNano +:+ "-" +:+ hex_uint32 rand.

(** internal/router/router.go:847-847, trimDNSName. *)
Definition trimDNSName (s : string) : string := TrimSuffix s ".".

(** internal/router/router.go:850-857, firstIPv4Addr. *)
Fixpoint firstIPv4Addr (addrs : list Addr) : string :=
  match addrs with
  | [] => ""
  | a :: rest => if Is4 (Unmap a) then AddrString (Unmap a) else firstIPv4Addr rest
  end.

(** internal/router/router.go:860-867, firstIPv4Prefix. *)
Fixpoint firstIPv4Prefix (prefixes : list Addr) : string :=
  match prefixes with
  | [] => ""
  | p :: rest => let a := Unmap p in if Is4 a then AddrString a else firstIPv4Prefix rest
  end.

(** internal/router/router.go:838-844, peerToRef. *)
Definition peerToRef (p : PeerStatus) : ExitNodeRef :=
  mkExitNodeRef (peer_ID p) (trimDNSName (peer_DNSName p)) (firstIPv4Addr (peer_TailscaleIPs p)).

(** internal/router/router.go:869-874, describeArg. *)
Definition describeArg (arg : string) : string := if String.eqb arg "" then "(none)" else arg.

(** internal/router/router.go:876-881, describeCurrent. *)
Definition describeCurrent (rt : RouterRuntime) : string :=
  match rt_Current rt with None => "(none)" | Some c => ref_IP c end.

(** internal/router/router.go:800-805, confirmed. *)
Definition confirmed (rt : RouterRuntime) (targetArg : string) (setting : bool) : bool :=
  match rt_Current rt with
  | Some c => setting && String.eqb (ref_IP c) targetArg
  | None => negb setting
  end.

(** internal/router/router.go:274-279, ensurePort. *)
Definition ensurePort (endpoint : string) : string :=
  match SplitHostPort endpoint with
  | inr _ => endpoint
  | inl _ => JoinHostPort endpoint "22"
  end.

(** ** Parsing a status *)

Definition peer_stats (p : PeerStatus) : RouterStats :=
  mkRouterStats (peer_RxBytes p) (peer_TxBytes p) (peer_LastHandshake p).

Definition ref_le (a b : ExitNodeRef) : Prop := str_le (ref_StableID a) (ref_StableID b).
#[export] Instance ref_le_dec a b : Decision (ref_le a b) := str_le_dec _ _.
#[export] Instance ref_le_trans : Transitive ref_le.
Proof. intros a b c. unfold ref_le. apply str_le_trans. Qed.
#[export] Instance ref_le_total : Total ref_le.
Proof. intros a b. apply str_le_total. Qed.

(** The non-nil peers, and the last of them whose ExitNode bit is set. *)
Definition live_peers (st : Status) : list PeerStatus := omap id (st_Peer st).
Definition current_peer (st : Status) : option PeerStatus :=
  last (List.filter peer_ExitNode (live_peers st)).

(** The selection and its counters. *)
(** internal/router/router.go:521-554, ParseStatus. *)
Definition status_current (st : Status) : option ExitNodeRef * RouterStats :=
  match current_peer st, st_ExitNodeStatus st with
  | Some p, _ => (Some (peerToRef p), peer_stats p)
  | None, Some ens =>
      let ip := firstIPv4Prefix (ens_TailscaleIPs ens) in
      match List.find (λ p, String.eqb (peer_ID p) (ens_ID ens)) (live_peers st) with
      | Some p =>
          (Some (mkExitNodeRef (ens_ID ens) (trimDNSName (peer_DNSName p))
                   (if String.eqb ip "" then firstIPv4Addr (peer_TailscaleIPs p) else ip)),
           peer_stats p)
      | None => (Some (mkExitNodeRef (ens_ID ens) "" ip), zeroStats)
      end
  | None, None => (None, zeroStats)
  end.

(** internal/router/router.go:500-555, ParseStatus. *)
Definition runtime_of_status (st : Status) : RouterRuntime :=
  let options := merge_sort ref_le
                   (map peerToRef (List.filter peer_ExitNodeOption (live_peers st))) in
  let '(current, stats) := status_current st in
  mkRouterRuntime current options stats
    (match st_Self st with Some self => peer_Online self | None => false end).

(** internal/router/router.go:493-556, ParseStatus. *)
Definition ParseStatus `{StatusCodec} (raw : string) : RouterRuntime * option error :=
  match unmarshal_status raw with
  | inl e => (zeroRuntime, Some (wrapf "router: parse tailscale status --json: " e))
  | inr st => (runtime_of_status st, None)
  end.

(** ** Validation *)

Section validation.
Context `{UT : UnicodeTables}.

(** internal/router/router.go:758-766, ValidateEgressURL. *)
Definition ValidateEgressURL (url : string) : option error :=
  if negb (HasPrefix url "http://") && negb (HasPrefix url "https://") then
    Some (ErrText ("egress url " +:+ quote url +:+ ": must start with http:// or https://"))
  else
    match IndexAny url egressURLForbidden with
    | Some i =>
        Some (ErrText ("egress url " +:+ quote url +:+ ": contains a forbidden character "
               +:+ quote (str_take 1 (str_drop i url))
               +:+ " (no whitespace or shell metacharacters allowed)"))
    | None => None
    end.

(** internal/router/router.go:813-829, exitArg. *)
Definition exitArg (ref : option ExitNodeRef) : error + string :=
  match ref with
  | None => inr ""
  | Some r =>
      if String.eqb (ref_IP r) "" then inr "" else
      match ParseAddr (ref_IP r) with
      | inl e => inl (wrapf ("invalid exit-node IP " +:+ quote (ref_IP r) +:+ ": ") e)
      | inr addr =>
          if negb (String.eqb (Zone addr) "") then
            inl (ErrText ("invalid exit-node IP " +:+ quote (ref_IP r)
                          +:+ ": zone identifiers are not allowed"))
          else
            let addr := Unmap addr in
            if negb (Is4 addr) then
              inl (ErrText ("invalid exit-node IP " +:+ quote (ref_IP r)
                            +:+ ": must be an IPv4 address (the router's 100.x)"))
            else inr (AddrString addr)
      end
  end.
End validation.

(** ** The client

    internal/router/router.go:58-60: the command runner is the seam to SSH; it
    returns stdout, stderr, the exit status and a transport error.  Every
    exported operation holds the lock of its router from its first command to
    its last, so it is one transition of the world. *)
(** internal/router/router.go:58-60, commandRunner. *)
Class RouterRunner (W : Type) := {
  runner_run : string → string → M W (string * string * Z * option error);
  newMarker : M W string;
}.

Section client.
Context `{UT : UnicodeTables} `{SC : StatusCodec} {W : Type} `{RR : RouterRunner W}.
(** The Client's only setting the operations read. *)
Variable lanAccess : option bool.

(** [if err != nil { wrap } else if exit != 0 { CommandError }] *)
Definition command_error (addr wrap label stderr : string) (exit : Z) (err : option error)
    : option error :=
  match err with
  | Some e => Some (wrapf ("router " +:+ addr +:+ ": " +:+ wrap +:+ ": ") e)
  | None => if negb (exit =? 0) then Some (ErrCommand (mkCommandError addr label stderr exit))
            else None
  end.

(** A command whose output is not read. *)
Definition exec (addr cmd wrap label : string) : M W (option error) :=
  '(_, stderr, exit, err) ← runner_run addr cmd;
  mret (command_error addr wrap label stderr exit err).

(** internal/router/router.go:313-322, status. *)
Definition status (addr : string) : M W (RouterRuntime * option error) :=
  '(stdout, stderr, exit, err) ← runner_run addr statusCmd;
  match command_error addr "status" (quote statusCmd) stderr exit err with
  | Some e => mret (zeroRuntime, Some e)
  | None => mret (ParseStatus stdout)
  end.

(** internal/router/router.go:304-308, Status. *)
Definition ClientStatus (addr : string) : M W (RouterRuntime * option error) := status addr.

(** internal/router/router.go:339-402, ApplyExitNode. *)
Definition ApplyExitNode (addr : string) (target prev : option ExitNodeRef) (autoKeep : bool)
    : M W (RouterRuntime * string * option error) :=
  match exitArg target with
  | inl e => mret (zeroRuntime, "", Some (wrapf ("router " +:+ addr +:+ ": target: ") e))
  | inr targetArg =>
  match exitArg prev with
  | inl e => mret (zeroRuntime, "", Some (wrapf ("router " +:+ addr +:+ ": prev: ") e))
  | inr prevArg =>
  let setting := negb (String.eqb targetArg "") in
  marker ← newMarker;
  armErr ← exec addr (armCmd marker prevArg) "arm revert" "arm revert";
  match armErr with
  | Some e => mret (zeroRuntime, "", Some e)
  | None =>
  applyErr ← exec addr (applyCmd targetArg setting lanAccess) "apply exit-node" "apply exit-node";
  match applyErr with
  | Some e => mret (zeroRuntime, "", Some e)
  | None =>
  '(rt, statusErr) ← status addr;
  match statusErr with
  | Some e => mret (rt, "", Some (wrapf ("router " +:+ addr
                 +:+ ": confirm read failed (revert will fire): ") e))
  | None =>
  if negb (confirmed rt targetArg setting) then
    mret (rt, "", Some (ErrText ("router " +:+ addr
            +:+ ": exit-node not confirmed (revert will fire): want " +:+ describeArg targetArg
            +:+ ", got " +:+ describeCurrent rt)))
  else if negb autoKeep then mret (rt, marker, None)
  else
  keepErr ← exec addr (keepCmd marker) "keep marker (revert may fire)" "keep marker (revert may fire)";
  mret (rt, "", keepErr)
  end end end end end.

(** internal/router/router.go:409-418, KeepExitNode. *)
Definition KeepExitNode (addr marker : string) : M W (option error) :=
  exec addr (keepCmd marker) "keep marker (revert may fire)" "keep marker (revert may fire)".

(** internal/router/router.go:423-426, SetExitNode. *)
Definition ClientSetExitNode (addr : string) (target prev : option ExitNodeRef)
    : M W (RouterRuntime * option error) :=
  '(rt, _, err) ← ApplyExitNode addr target prev true;
  mret (rt, err).

(** internal/router/router.go:433-445, Probe. *)
Definition ClientProbe (addr : string) : M W (string * option error) :=
  '(stdout, stderr, exit, err) ← runner_run addr probeCmd;
  match command_error addr "probe" "probe" stderr exit err with
  | Some e => mret ("", Some e)
  | None => mret (TrimSpace stdout, None)
  end.

(** internal/router/router.go:463-489, EgressProbe. *)
Definition EgressProbe (addr url : string) : M W (bool * string * option error) :=
  match ValidateEgressURL url with
  | Some e => mret (false, "", Some e)
  | None =>
      '(stdout, stderr, _, err) ← runner_run addr (egressCmd url);
      match err with
      | Some e => mret (false, "", Some (wrapf ("router " +:+ addr +:+ ": egress probe: ") e))
      | None =>
          match parseEgressExit stdout with
          | None =>
              let out := TrimSpace stdout in
              mret (false, if String.eqb out "" then TrimSpace stderr else out, None)
          | Some (exit, detail) => mret (exit =? 0, detail, None)
          end
      end
  end.
End client.
