(* ===== verification/RouterProto.v ===== *)
(** The dead-man's-switch protocol of the router client, observed through a
    runner that records its commands, the contract the client offers to the
    poller, and the parsing of a status. *)

From S2P Require Import Prelude GoStd Errors Store Netip NetipFacts Ipnstate.
From S2P Require Import Conc Poller PollerFacts Router RouterFacts.

(** ** Observing commands *)

Section traced.
Context {W : Type} (RR : RouterRunner W).

(** The same runner, with every command recorded. *)
Definition traced : RouterRunner (W * list (string * string)) := {|
  runner_run := λ addr cmd '(w, tr),
    let '(r, w') := runner_run addr cmd w in (r, (w', tr ++ [(addr, cmd)]));
  newMarker := λ '(w, tr), let '(m, w') := newMarker w in (m, (w', tr));
|}.
End traced.

Section protocol.
Context `{UT : UnicodeTables} `{SC : StatusCodec} {W : Type} `{RR : RouterRunner W}.
Variable lanAccess : option bool.

Lemma exec_traced addr cmd wrap label w tr :
  exec (RR := traced RR) addr cmd wrap label (w, tr) =
  let '(e, w') := exec addr cmd wrap label w in (e, (w', tr ++ [(addr, cmd)])).
Proof.
  unfold exec, mbind, M_bind. simpl. by destruct (runner_run addr cmd w) as [[[[? ?] ?] ?] ?].
Qed.

Lemma status_traced addr w tr :
  status (RR := traced RR) addr (w, tr) =
  let '(r, w') := status addr w in (r, (w', tr ++ [(addr, statusCmd)])).
Proof.
  unfold status, mbind, M_bind. simpl.
  destruct (runner_run addr statusCmd w) as [[[[? ?] ?] ?] ?]. by destruct (command_error _ _ _ _ _ _).
Qed.

(** The commands of one change, in order. *)
Definition change_script (addr marker targetArg prevArg : string) : list (string * string) :=
  [(addr, armCmd marker prevArg);
   (addr, applyCmd targetArg (negb (String.eqb targetArg "")) lanAccess);
   (addr, statusCmd);
   (addr, keepCmd marker)].

(** C4: the dead-man's switch.  A change with an invalid target or previous
    selection sends nothing.  Otherwise the router receives a non-empty prefix of
    arm, apply, status, keep, in this order and under one fresh marker; without
    an error the re-read selection is the requested one, and the keep was sent
    exactly when the caller asked for it, the marker being handed back when not;
    with an error no marker is handed back, and a keep was sent only after the
    selection was confirmed. *)
Theorem ApplyExitNode_protocol addr target prev autoKeep w tr :
  let '((rt, marker, err), (w', tr')) :=
    ApplyExitNode (RR := traced RR) lanAccess addr target prev autoKeep (w, tr) in
  match exitArg target, exitArg prev with
  | inr t, inr p =>
      let m := fst (newMarker w) in
      let ok := confirmed rt t (negb (String.eqb t "")) in
      ∃ n, (1 <= n <= 4)%nat ∧ tr' = tr ++ take n (change_script addr m t p) ∧
        (err = None → ok = true ∧
           if autoKeep then n = 4%nat ∧ marker = "" else n = 3%nat ∧ marker = m) ∧
        (err ≠ None → marker = "" ∧ (n = 4%nat → autoKeep = true ∧ ok = true))
  | _, _ => err ≠ None ∧ marker = "" ∧ (w', tr') = (w, tr)
  end.
Proof.
  unfold ApplyExitNode, mbind, M_bind, mret, M_ret.
  destruct (exitArg target) as [e | t]; [done |].
  destruct (exitArg prev) as [e | p]; [done |].
  simpl. destruct (newMarker w) as [m w1]. simpl. rewrite exec_traced.
  destruct (exec addr (armCmd m p) _ _ w1) as [[e |] w2].
  { exists 1%nat. simpl. split; [lia |]. split; [done |]. split; [done |]. split; [done | lia]. }
  rewrite exec_traced. destruct (exec addr _ _ _ w2) as [[e |] w3].
  { exists 2%nat. simpl. rewrite <- (assoc (++)). split; [lia |]. split; [done |].
    split; [done |]. split; [done | lia]. }
  rewrite status_traced. destruct (status addr w3) as [[rt [e |]] w4].
  { exists 3%nat. simpl. rewrite <- !(assoc (++)). split; [lia |]. split; [done |].
    split; [done |]. split; [done | lia]. }
  destruct (confirmed rt t _) eqn:Hc; simpl.
  2: { exists 3%nat. simpl. rewrite <- !(assoc (++)). split; [lia |]. split; [done |].
       split; [done |]. split; [done | lia]. }
  destruct autoKeep; simpl.
  - rewrite exec_traced. destruct (exec addr (keepCmd m) _ _ w4) as [e w5].
    exists 4%nat. simpl. rewrite <- !(assoc (++)), Hc. split; [lia |]. done.
  - exists 3%nat. simpl. rewrite <- !(assoc (++)), Hc. split; [lia |]. done.
Qed.

(** ** The contract with the poller *)

Lemma ApplyExitNode_marker addr target prev autoKeep w :
  let '(_, marker, err) := fst (ApplyExitNode lanAccess addr target prev autoKeep w) in
  err ≠ None ∨ autoKeep = true → marker = "".
Proof.
  unfold ApplyExitNode, mbind, M_bind, mret, M_ret.
  destruct (exitArg target) as [e | t]; [done |].
  destruct (exitArg prev) as [e | p]; [done |].
  destruct (newMarker w) as [m w1].
  destruct (exec addr (armCmd m p) _ _ w1) as [[e |] w2]; [done |].
  destruct (exec addr _ _ _ w2) as [[e |] w3]; [done |].
  destruct (status addr w3) as [[rt [e |]] w4]; [done |].
  destruct (confirmed rt t _); [simpl | done].
  destruct autoKeep; simpl; [by destruct (exec addr (keepCmd m) _ _ w4) |].
  by intros [? | ?].
Qed.

(** The poller's environment with this client: the clock, the netmap and the
    group store stay parameters. *)
Definition router_env (clock : M W Time) (inventory : M W (list NodeView * option error))
    (groups : W → option (list Group)) : PollerEnv W := {|
  env_Now := clock;
  env_Inventory := inventory;
  env_Status := ClientStatus;
  env_ApplyExitNode := ApplyExitNode lanAccess;
  env_KeepExitNode := KeepExitNode;
  env_Probe := ClientProbe;
  env_EgressProbe := EgressProbe;
  env_Groups := groups;
|}.

#[export] Instance router_contract clock inventory groups :
  @RouterContract W (router_env clock inventory groups).
Proof. intros addr target prev autoKeep w. apply ApplyExitNode_marker. Qed.
End protocol.

(** ** Reading a status *)

Lemma perm_filter {A} (f : A → bool) l l' : l ≡ₚ l' → List.filter f l ≡ₚ List.filter f l'.
Proof.
  induction 1 as [| x l l' _ IH | x y l | l1 l2 l3 _ IH1 _ IH2]; simpl; [done | | |].
  - destruct (f x); [by constructor | done].
  - destruct (f x), (f y); try done. constructor.
  - by etrans.
Qed.

Lemma perm_omap_id {A} (l l' : list (option A)) : l ≡ₚ l' → omap id l ≡ₚ omap id l'.
Proof.
  induction 1 as [| x l l' _ IH | x y l | l1 l2 l3 _ IH1 _ IH2]; simpl; [done | | |].
  - destruct x; simpl; [by constructor | done].
  - destruct x, y; simpl; try done. constructor.
  - by etrans.
Qed.

Lemma find_perm {A} (f : A → bool) l l' :
  (∀ a b, a ∈ l → b ∈ l → f a = true → f b = true → a = b) →
  l ≡ₚ l' → List.find f l = List.find f l'.
Proof.
  intros Hu Hp. destruct (List.find f l) as [x |] eqn:Hx, (List.find f l') as [y |] eqn:Hy; try done.
  - apply find_some_elem in Hx as [? ?], Hy as [Hy ?]. f_equal.
    apply Hu; [done | by rewrite Hp | done | done].
  - apply find_some_elem in Hx as [Hx Hf]. rewrite Hp in Hx.
    rewrite (find_none_elem _ _ _ Hy Hx) in Hf. done.
  - apply find_some_elem in Hy as [Hy Hf]. rewrite <- Hp in Hy.
    rewrite (find_none_elem _ _ _ Hx Hy) in Hf. done.
Qed.

Lemma last_perm {A} (l l' : list A) : (List.length l <= 1)%nat → l ≡ₚ l' → last l = last l'.
Proof.
  intros Hl Hp. destruct l as [| a [| b l]]; [| | simpl in Hl; lia].
  - symmetry in Hp. by apply Permutation_nil_r in Hp as ->.
  - symmetry in Hp. by apply Permutation_singleton_r in Hp as ->.
Qed.

Lemma options_ids l :
  ref_StableID <$> map peerToRef (List.filter peer_ExitNodeOption l) =
  peer_ID <$> List.filter peer_ExitNodeOption l.
Proof.
  induction l as [| p l IH]; simpl; [done |].
  destruct (peer_ExitNodeOption p); simpl; [by f_equal | exact IH].
Qed.

Lemma filter_ids_NoDup (f : PeerStatus → bool) l :
  NoDup (peer_ID <$> l) → NoDup (peer_ID <$> List.filter f l).
Proof.
  induction l as [| p l IH]; simpl; [done |]. rewrite NoDup_cons. intros [Hp Hl].
  destruct (f p); simpl; [| auto]. rewrite NoDup_cons. split; [| auto].
  intros (q & Hq & Hin)%list_elem_of_fmap. apply Hp. rewrite Hq. apply list_elem_of_fmap_2.
  apply list_elem_of_In in Hin. apply List.filter_In in Hin as [Hin _]. by apply list_elem_of_In.
Qed.

(** The selectable nodes come out sorted by stable id, without loss. *)
Lemma options_sorted l :
  StronglySorted (key_le ref_StableID) (merge_sort ref_le (map peerToRef l)).
Proof. apply Sorted_StronglySorted; [apply ref_le_trans | apply Sorted_merge_sort, _]. Qed.

(** Reading a status does not depend on the order in which the peers of the
    map are visited, when their ids are distinct and at most one is selected. *)
Theorem runtime_of_status_order st st' :
  st_Self st' = st_Self st → st_ExitNodeStatus st' = st_ExitNodeStatus st →
  st_Peer st ≡ₚ st_Peer st' → NoDup (peer_ID <$> live_peers st) →
  (List.length (List.filter peer_ExitNode (live_peers st)) <= 1)%nat →
  runtime_of_status st = runtime_of_status st'.
Proof.
  intros Hself Hens Hp%perm_omap_id Hnd Hone. change (live_peers st ≡ₚ live_peers st') in Hp.
  unfold runtime_of_status, status_current, current_peer. rewrite Hself, Hens.
  rewrite (last_perm _ _ Hone (perm_filter peer_ExitNode _ _ Hp)).
  assert (∀ id, List.find (λ p, String.eqb (peer_ID p) id) (live_peers st) =
                List.find (λ p, String.eqb (peer_ID p) id) (live_peers st')) as Hfind.
  { intros id. apply find_perm; [| done]. intros a b Ha Hb <-%String.eqb_eq E%String.eqb_eq.
    by apply (NoDup_key_inj peer_ID (live_peers st)). }
  assert (merge_sort ref_le (map peerToRef (List.filter peer_ExitNodeOption (live_peers st))) =
          merge_sort ref_le (map peerToRef (List.filter peer_ExitNodeOption (live_peers st'))))
    as ->.
  { apply (sorted_by_key_unique ref_StableID); [apply options_sorted.. | |].
    - rewrite !merge_sort_Permutation. by apply Permutation_map, perm_filter.
    - rewrite merge_sort_Permutation, options_ids. by apply filter_ids_NoDup. }
  destruct (last _); [done |]. destruct (st_ExitNodeStatus st) as [ens |]; [| done].
  by rewrite Hfind.
Qed.
