(* ===== verification/RouterLocks.v ===== *)
(** The locks of the router client: any number of calls, each a sequence of commands to its
    router, under one lock per router.

    Router.v defines every call as one transition of the world.  Here a call is the sequence
    of its commands, calls run interleaved, and the lock of its router is taken before the first
    command and released after the last; every router has a world of its own.  The theorem is
    that the transitions of Router.v are what the interleavings amount to. *)

From S2P Require Import Prelude GoStd Errors Store Ipnstate Router Conc.
From stdpp Require Import relations functions.

(** What the callers of the client ask for.  The marker of a change is drawn before the lock is
    taken, so it comes with the call. *)
Inductive call :=
| CStatus (addr : string)
| CApply (addr : string) (target prev : option ExitNodeRef) (autoKeep : bool) (marker : string)
| CKeep (addr marker : string)
| CProbe (addr : string)
| CEgress (addr url : string).

(** What they get. *)
Inductive outcome :=
| OStatus (rt : RouterRuntime) (err : option error)
| OApply (rt : RouterRuntime) (marker : string) (err : option error)
| OKeep (err : option error)
| OProbe (out : string) (err : option error)
| OEgress (ok : bool) (detail : string) (err : option error).

Section locks.
Context `{UT : UnicodeTables} `{SC : StatusCodec} {W : Type}.
(** The runner of commands, on the world of one router. *)
Variable run_ : string → string → M W (string * string * Z * option error).
Variable lanAccess : option bool.

(** ** Calls as sequences of commands *)

Definition exec_prog (addr cmd wrap label : string) : prog W (option error) :=
  '(_, stderr, exit, err) ← atomic (run_ addr cmd);
  mret (command_error addr wrap label stderr exit err).

(** internal/router/router.go:313-322, status. *)
Definition status_prog (addr : string) : prog W (RouterRuntime * option error) :=
  '(stdout, stderr, exit, err) ← atomic (run_ addr statusCmd);
  match command_error addr "status" (quote statusCmd) stderr exit err with
  | Some e => mret (zeroRuntime, Some e)
  | None => mret (ParseStatus stdout)
  end.

(** internal/router/router.go:358-402, ApplyExitNode.  The commands, under the lock. *)
Definition apply_prog (addr targetArg prevArg marker : string) (autoKeep : bool) : prog W outcome :=
  let setting := negb (String.eqb targetArg "") in
  armErr ← exec_prog addr (armCmd marker prevArg) "arm revert" "arm revert";
  match armErr with
  | Some e => mret (OApply zeroRuntime "" (Some e))
  | None =>
  applyErr ← exec_prog addr (applyCmd targetArg setting lanAccess) "apply exit-node" "apply exit-node";
  match applyErr with
  | Some e => mret (OApply zeroRuntime "" (Some e))
  | None =>
  '(rt, statusErr) ← status_prog addr;
  match statusErr with
  | Some e => mret (OApply rt "" (Some (wrapf ("router " +:+ addr
                      +:+ ": confirm read failed (revert will fire): ") e)))
  | None =>
  if negb (confirmed rt targetArg setting) then
    mret (OApply rt "" (Some (ErrText ("router " +:+ addr
            +:+ ": exit-node not confirmed (revert will fire): want " +:+ describeArg targetArg
            +:+ ", got " +:+ describeCurrent rt))))
  else if negb autoKeep then mret (OApply rt marker None)
  else
  keepErr ← exec_prog addr (keepCmd marker) "keep marker (revert may fire)" "keep marker (revert may fire)";
  mret (OApply rt "" keepErr)
  end end end.

(** internal/router/router.go:409-418, KeepExitNode. *)
Definition keep_prog (addr marker : string) : prog W outcome :=
  e ← exec_prog addr (keepCmd marker) "keep marker (revert may fire)" "keep marker (revert may fire)";
  mret (OKeep e).

(** internal/router/router.go:433-445, Probe. *)
Definition probe_prog (addr : string) : prog W outcome :=
  '(stdout, stderr, exit, err) ← atomic (run_ addr probeCmd);
  mret (match command_error addr "probe" "probe" stderr exit err with
        | Some e => OProbe "" (Some e)
        | None => OProbe (TrimSpace stdout) None
        end).

(** internal/router/router.go:471-489, EgressProbe.  The command, under the lock. *)
Definition egress_prog (addr url : string) : prog W outcome :=
  '(stdout, stderr, _, err) ← atomic (run_ addr (egressCmd url));
  mret (match err with
        | Some e => OEgress false "" (Some (wrapf ("router " +:+ addr +:+ ": egress probe: ") e))
        | None =>
            match parseEgressExit stdout with
            | None => let out := TrimSpace stdout in
                      OEgress false (if String.eqb out "" then TrimSpace stderr else out) None
            | Some (exit, detail) => OEgress (exit =? 0)%Z detail None
            end
        end).

(** A call up to its lock: refused before it, or the router it locks and its commands. *)
Definition start (c : call) : outcome + string * prog W outcome :=
  match c with
  | CStatus addr => inr (addr, '(rt, e) ← status_prog addr; mret (OStatus rt e))
  | CApply addr target prev autoKeep marker =>
      match exitArg target with
      | inl e => inl (OApply zeroRuntime "" (Some (wrapf ("router " +:+ addr +:+ ": target: ") e)))
      | inr targetArg =>
      match exitArg prev with
      | inl e => inl (OApply zeroRuntime "" (Some (wrapf ("router " +:+ addr +:+ ": prev: ") e)))
      | inr prevArg => inr (addr, apply_prog addr targetArg prevArg marker autoKeep)
      end end
  | CKeep addr marker => inr (addr, keep_prog addr marker)
  | CProbe addr => inr (addr, probe_prog addr)
  | CEgress addr url =>
      match ValidateEgressURL url with
      | Some e => inl (OEgress false "" (Some e))
      | None => inr (addr, egress_prog addr url)
      end
  end.

(** ** Calls as transitions *)

Definition runner (marker : string) : RouterRunner W := {| runner_run := run_; newMarker := mret marker |}.
Definition alone (c : call) : M W outcome :=
  match c with
  | CStatus addr => '(rt, e) ← ClientStatus (RR := runner "") addr; mret (OStatus rt e)
  | CApply addr target prev autoKeep marker =>
      '(rt, m, e) ← ApplyExitNode (RR := runner marker) lanAccess addr target prev autoKeep; mret (OApply rt m e)
  | CKeep addr marker => e ← KeepExitNode (RR := runner marker) addr marker; mret (OKeep e)
  | CProbe addr => '(out, e) ← ClientProbe (RR := runner "") addr; mret (OProbe out e)
  | CEgress addr url => '(ok, detail, e) ← EgressProbe (RR := runner "") addr url; mret (OEgress ok detail e)
  end.

(** The answer to one command. *)
Ltac answer :=
  match goal with
  | |- context [run_ ?a ?c ?w] =>
      let r := fresh "r" in let w' := fresh "w" in
      destruct (run_ a c w) as [[[[? ?] ?] ?] w'] eqn:?; simpl
  | |- context [command_error ?a ?b ?c ?d ?e ?f] => destruct (command_error a b c d e f); simpl
  end.

(** The sequence of commands, run alone, is the transition of Router.v. *)
Lemma alone_start c w :
  alone c w = match start c with inl o => (o, w) | inr (_, p) => run p w end.
Proof.
  destruct c as [addr | addr target prev autoKeep marker | addr marker | addr | addr url]; simpl;
    unfold ApplyExitNode, ClientStatus, status, KeepExitNode, ClientProbe, EgressProbe, exec, apply_prog,
      exec_prog, status_prog, keep_prog, probe_prog, egress_prog, mbind, M_bind, mret, M_ret; simpl.
  - repeat answer; [done |]. by destruct (ParseStatus _).
  - destruct (exitArg target) as [e | ta]; [done |]. destruct (exitArg prev) as [e | pa]; [done |]. simpl.
    repeat answer; try done. destruct (ParseStatus _) as [rt [e |]]; simpl; [done |].
    destruct (negb (confirmed _ _ _)); [done |]. destruct (negb autoKeep); [done |]. simpl. by repeat answer.
  - by repeat answer.
  - by repeat answer.
  - destruct (ValidateEgressURL url); [done |]. simpl. answer. destruct o; [done |].
    by destruct (parseEgressExit _) as [[? ?] |].
Qed.

(** ** Interleaving *)

Inductive caller :=
| Starting (c : call)
| Holding (addr : string) (p : prog W outcome)
| Done (o : outcome).

(** internal/router/router.go:126-127, Client.  The locks that are held, the world of every router,
    and the goroutines that call. *)
Record Calls := mkCalls {
  si_locks : gset string;
  si_worlds : string → W;
  si_callers : list caller;
}.

(** internal/router/router.go:286-299, Client.lockAddr.  A caller takes the lock of its router when it
    is free, sends one command at a time, and releases the lock. *)
Inductive lock_step : Calls → Calls → Prop :=
| step_refused i c o L ws ts :
    ts !! i = Some (Starting c) → start c = inl o →
    lock_step (mkCalls L ws ts) (mkCalls L ws (<[i := Done o]> ts))
| step_lock i c addr p L ws ts :
    ts !! i = Some (Starting c) → start c = inr (addr, p) → addr ∉ L →
    lock_step (mkCalls L ws ts) (mkCalls (L ∪ {[addr]}) ws (<[i := Holding addr p]> ts))
| step_command i addr B (m : W → B * W) k b w' L ws ts :
    ts !! i = Some (Holding addr (Sec m k)) → m (ws addr) = (b, w') →
    lock_step (mkCalls L ws ts) (mkCalls L (<[addr := w']> ws) (<[i := Holding addr (k b)]> ts))
| step_unlock i addr o L ws ts :
    ts !! i = Some (Holding addr (Ret o)) →
    lock_step (mkCalls L ws ts) (mkCalls (L ∖ {[addr]}) ws (<[i := Done o]> ts)).

Variable calls : list call.
Variable ws0 : string → W.
Definition calls0 : Calls := mkCalls ∅ ws0 (Starting <$> calls).

(** The calls of a list of callers, one after the other, each as one transition of the world of
    its router. *)
Definition call_addr (c : call) : string :=
  match c with
  | CStatus addr | CApply addr _ _ _ _ | CKeep addr _ | CProbe addr | CEgress addr _ => addr
  end.
Definition one_call (c : call) (ws : string → W) : string → W :=
  <[call_addr c := snd (alone c (ws (call_addr c)))]> ws.
Definition replay (order : list nat) : string → W :=
  foldl (λ ws i, match calls !! i with Some c => one_call c ws | None => ws end) ws0 order.

Lemma replay_snoc order i c :
  calls !! i = Some c → replay (order ++ [i]) = one_call c (replay order).
Proof. intros Hc. unfold replay. rewrite foldl_app. simpl. by rewrite Hc. Qed.

Lemma start_addr c addr p : start c = inr (addr, p) → addr = call_addr c.
Proof. destruct c; simpl; repeat case_match; naive_solver. Qed.

(** ** The order in which calls finish explains everything *)

Record explained (s : Calls) (order : list nat) : Prop := {
  ex_nodup : NoDup order;
  ex_length : List.length (si_callers s) = List.length calls;
  ex_done i : i ∈ order ↔ ∃ o, si_callers s !! i = Some (Done o);
  ex_starting i c : si_callers s !! i = Some (Starting c) → calls !! i = Some c;
  ex_holding i a p : si_callers s !! i = Some (Holding a p) →
    a ∈ si_locks s ∧ ∃ c, calls !! i = Some c ∧ call_addr c = a ∧
      run p (si_worlds s a) = alone c (replay order a);
  ex_locked a : a ∈ si_locks s → ∃ i p, si_callers s !! i = Some (Holding a p);
  ex_alone i j a p q : si_callers s !! i = Some (Holding a p) → si_callers s !! j = Some (Holding a q) → i = j;
  ex_free a : a ∉ si_locks s → si_worlds s a = replay order a;
  ex_result i o : si_callers s !! i = Some (Done o) →
    ∃ before after c, order = before ++ i :: after ∧ calls !! i = Some c ∧
      o = fst (alone c (replay before (call_addr c)));
}.

Lemma explained_0 : explained calls0 [].
Proof.
  assert (Hs : ∀ i t, (Starting <$> calls) !! i = Some t → ∃ c, calls !! i = Some c ∧ t = Starting c).
  { intros i t. rewrite list_lookup_fmap. destruct (calls !! i); naive_solver. }
  split; simpl.
  - constructor.
  - by rewrite length_fmap.
  - intros i. split; [by intros ?%not_elem_of_nil |]. intros [o (? & _ & ?)%Hs]. done.
  - intros i c (c' & Hc & E)%Hs. congruence.
  - intros i a p (? & _ & ?)%Hs. done.
  - intros a. set_solver.
  - intros i j a p q (? & _ & ?)%Hs. done.
  - done.
  - intros i o (? & _ & ?)%Hs. done.
Qed.

(** Changing the entry of one caller. *)
Lemma lookup_set (ts : list caller) i t j t' :
  <[i := t]> ts !! j = Some t' → (j = i ∧ t' = t) ∨ (j ≠ i ∧ ts !! j = Some t').
Proof. intros [(-> & -> & _) | [Hne Hj]]%list_lookup_insert_Some; auto. Qed.
Lemma lookup_set_eq (ts : list caller) i t0 t : ts !! i = Some t0 → <[i := t]> ts !! i = Some t.
Proof. intros Hi. apply list_lookup_insert_eq. by eapply lookup_lt_Some. Qed.

(** A caller finishes with the answer it would get alone, now. *)
Lemma explained_finish L ws ts order L' i t0 c :
  explained (mkCalls L ws ts) order → ts !! i = Some t0 → (∀ o, t0 ≠ Done o) → calls !! i = Some c →
  (∀ a, a ∉ L' → ws a = one_call c (replay order) a) →
  (∀ a, a ∈ L' → one_call c (replay order) a = replay order a ∧ ∃ j p, j ≠ i ∧ ts !! j = Some (Holding a p)) →
  (∀ j a p, j ≠ i → ts !! j = Some (Holding a p) → a ∈ L') →
  explained (mkCalls L' ws (<[i := Done (fst (alone c (replay order (call_addr c))))]> ts)) (order ++ [i]).
Proof.
  intros [Hnd Hlen Hdone Hst Hho Hlo Hal Hfr Hre] Hi Ht0 Hc Hfree Hheld Hrest; simpl in *.
  pose proof (replay_snoc order i c Hc) as Hsnoc.
  assert (Hni : i ∉ order) by (intros [o Ho]%Hdone; rewrite Hi in Ho; injection Ho as ->; by apply (Ht0 o)).
  split; simpl.
  - apply list.NoDup_app. split; [done |]. split; [set_solver | apply NoDup_singleton].
  - by rewrite length_insert.
  - intros j. rewrite elem_of_app, list_elem_of_singleton, Hdone. destruct (decide (j = i)) as [-> |].
    + rewrite (lookup_set_eq _ _ _ _ Hi). naive_solver.
    + rewrite list_lookup_insert_ne by done. naive_solver.
  - intros j c' [[_ [=]] | [_ Hj]]%lookup_set. by apply Hst.
  - intros j a p [[_ [=]] | [Hne Hj]]%lookup_set. pose proof (Hrest _ _ _ Hne Hj) as Ha.
    destruct (Hho _ _ _ Hj) as (_ & c' & Hc' & Ea & Hrun). split; [done |]. exists c'. split_and!; [done.. |].
    rewrite Hsnoc. by rewrite (proj1 (Hheld a Ha)).
  - intros a Ha. destruct (Hheld a Ha) as (_ & j & p & Hne & Hj). exists j, p. by rewrite list_lookup_insert_ne.
  - intros j k a p q [[_ [=]] | [_ Hj]]%lookup_set [[_ [=]] | [_ Hk]]%lookup_set. by eapply Hal.
  - intros a Ha. by rewrite Hsnoc, Hfree.
  - intros j o [[-> [= ->]] | [_ Hj]]%lookup_set.
    + by exists order, [], c.
    + destruct (Hre _ _ Hj) as (b & af & c' & -> & ? & ?). exists b, (af ++ [i]), c'. by rewrite <- app_assoc.
Qed.

(** A caller goes on without finishing. *)
Lemma explained_go L ws ts order L' ws' i t0 c addr p :
  explained (mkCalls L ws ts) order → ts !! i = Some t0 → (∀ o, t0 ≠ Done o) → calls !! i = Some c →
  call_addr c = addr → addr ∈ L' → (∀ a, a ≠ addr → (a ∈ L' ↔ a ∈ L) ∧ ws' a = ws a) →
  (∀ j q, j ≠ i → ts !! j ≠ Some (Holding addr q)) →
  run p (ws' addr) = alone c (replay order addr) →
  explained (mkCalls L' ws' (<[i := Holding addr p]> ts)) order.
Proof.
  intros [Hnd Hlen Hdone Hst Hho Hlo Hal Hfr Hre] Hi Ht0 Hc Ea HL Hoth Hone Hrun; simpl in *.
  assert (Hni : i ∉ order) by (intros [o Ho]%Hdone; rewrite Hi in Ho; injection Ho as ->; by apply (Ht0 o)).
  split; simpl; [done | by rewrite length_insert | | | | | | |].
  - intros j. rewrite Hdone. destruct (decide (j = i)) as [-> |].
    + rewrite (lookup_set_eq _ _ _ _ Hi), Hi. naive_solver.
    + by rewrite list_lookup_insert_ne.
  - intros j c' [[_ [=]] | [_ Hj]]%lookup_set. by apply Hst.
  - intros j a q [[-> [= -> ->]] | [Hne Hj]]%lookup_set; [by eauto |].
    destruct (Hho _ _ _ Hj) as (Ha & c' & Hc' & Ea' & Hr).
    assert (a ≠ addr) as Hna by (intros ->; by apply (Hone j q)).
    split; [by apply Hoth |]. exists c'. split_and!; [done.. |]. by rewrite (proj2 (Hoth a Hna)).
  - intros a Ha. destruct (decide (a = addr)) as [-> | Hna].
    + exists i, p. by eapply lookup_set_eq.
    + destruct (Hlo a) as (j & q & Hj); [by apply Hoth |]. exists j, q. rewrite list_lookup_insert_ne; [done |].
      intros ->. rewrite Hi in Hj. injection Hj as ->. destruct (Hho _ _ _ Hi) as (_ & c' & Hc' & Ea' & _). congruence.
  - intros j k a q r [[Ej E] | [Hj Hj']]%lookup_set [[Ek E'] | [Hk Hk']]%lookup_set.
    + congruence.
    + injection E as -> ->. by destruct (Hone k r).
    + injection E' as -> ->. by destruct (Hone j q).
    + by eapply Hal.
  - intros a Ha. assert (a ≠ addr) as Hna by (by intros ->). destruct (Hoth a Hna) as [HLa ->].
    apply Hfr. by rewrite <- HLa.
  - intros j o [[_ [=]] | [_ Hj]]%lookup_set. by apply Hre.
Qed.

Lemma explained_step s s' order :
  explained s order → lock_step s s' → ∃ more, explained s' (order ++ more).
Proof.
  intros Hex Hstep. pose proof Hex as [Hnd Hlen Hdone Hst Hho Hlo Hal Hfr Hre].
  destruct Hstep as [i c o L ws ts Hi Hc | i c addr p L ws ts Hi Hc Hfree
                    | i addr B m k b w' L ws ts Hi Hm | i addr o L ws ts Hi]; simpl in *.
  - exists [i].
    assert (Ho : ∀ w, alone c w = (o, w)) by (intros w; by rewrite alone_start, Hc).
    assert (Hone : ∀ a, one_call c (replay order) a = replay order a).
    { intros a. unfold one_call. rewrite Ho. simpl. destruct (decide (call_addr c = a)) as [-> |].
      - by rewrite fn_lookup_insert. - by rewrite fn_lookup_insert_ne. }
    replace o with (fst (alone c (replay order (call_addr c)))) by by rewrite Ho.
    eapply explained_finish; [exact Hex | done.. | exact (Hst _ _ Hi) | | |].
    + intros a Ha. rewrite Hone. by apply Hfr.
    + intros a Ha. split; [apply Hone |]. destruct (Hlo a Ha) as (j & p & Hj). exists j, p. split; [| done].
      intros ->. congruence.
    + intros j a p _ Hj. by apply Hho in Hj as [? _].
  - exists []. rewrite app_nil_r. eapply explained_go; [exact Hex | done.. | exact (Hst _ _ Hi) | by apply start_addr in Hc | set_solver | set_solver | |].
    + intros j q _ Hj. apply Hho in Hj as [? _]. done.
    + rewrite alone_start, Hc. by rewrite Hfr.
  - exists []. rewrite app_nil_r. destruct (Hho _ _ _ Hi) as (Ha & c & Hc & Ea & Hrun).
    eapply explained_go; [exact Hex | done.. | exact Hc | done | done | | |].
    + intros a Hna. by rewrite fn_lookup_insert_ne.
    + intros j q Hne Hj. by apply Hne, (Hal j i addr q (Sec m k)).
    + rewrite fn_lookup_insert, <- Hrun. simpl. by rewrite Hm.
  - exists [i]. destruct (Hho _ _ _ Hi) as (Ha & c & Hc & Ea & Hrun). simpl in Hrun. subst addr.
    assert (o = fst (alone c (replay order (call_addr c)))) as -> by by rewrite <- Hrun.
    eapply explained_finish; [exact Hex | done.. | exact Hc | | |].
    + intros a Hna. unfold one_call. rewrite <- Hrun. simpl. destruct (decide (call_addr c = a)) as [<- | Hne].
      * by rewrite fn_lookup_insert.
      * rewrite fn_lookup_insert_ne by done. apply Hfr. set_solver.
    + intros a [Ha' Hne]%elem_of_difference. split.
      * unfold one_call. rewrite fn_lookup_insert_ne; [done | set_solver].
      * destruct (Hlo a Ha') as (j & p & Hj). exists j, p. split; [| done]. intros ->. rewrite Hi in Hj. set_solver.
    + intros j a p Hne Hj. apply elem_of_difference. split; [by apply Hho in Hj as [? _] |].
      rewrite elem_of_singleton. intros ->. by apply Hne, (Hal j i (call_addr c) p _ Hj Hi).
Qed.

Lemma explained_steps s s' order :
  explained s order → rtc lock_step s s' → ∃ more, explained s' (order ++ more).
Proof.
  intros Ho Hs. revert order Ho. induction Hs as [s | s s1 s2 H12 _ IH]; intros order Ho.
  - exists []. by rewrite app_nil_r.
  - destruct (explained_step _ _ _ Ho H12) as [m1 H1]. destruct (IH _ H1) as [m2 H2].
    exists (m1 ++ m2). by rewrite app_assoc.
Qed.

(** The calls that have returned, in the order [order], returned what they return when they are made
    in that order one at a time; a router that no call holds is as they leave it. *)
Definition explains (s : Calls) (order : list nat) : Prop :=
  NoDup order ∧ (∀ i, i ∈ order ↔ ∃ o, si_callers s !! i = Some (Done o)) ∧
  (∀ i o, si_callers s !! i = Some (Done o) → ∃ before after c,
     order = before ++ i :: after ∧ calls !! i = Some c ∧
     o = fst (alone c (replay before (call_addr c)))) ∧
  (∀ a, a ∉ si_locks s → si_worlds s a = replay order a).

Lemma explained_explains s order : explained s order → explains s order.
Proof. intros []. by split_and!. Qed.

Definition is_done (t : caller) : bool := match t with Done _ => true | _ => false end.

(** While a call has not returned, some call can take its next step. *)
Lemma never_stuck s order :
  explained s order → (∀ i t, si_callers s !! i = Some t → is_done t = true) ∨ ∃ s', lock_step s s'.
Proof.
  intros [_ _ _ _ _ Hlo _ _ _]. destruct s as [L ws ts]. simpl in *.
  assert (Hhold : ∀ i a p, ts !! i = Some (Holding a p) → ∃ s', lock_step (mkCalls L ws ts) s').
  { intros i a [o | B m k] Hi; [eexists; by eapply step_unlock |].
    destruct (m (ws a)) as [b w'] eqn:Hm. eexists. by eapply step_command. }
  destruct (decide (Forall (λ t, is_done t = true) ts)) as [Hall | Hn].
  - left. intros i t Hi. exact (Forall_lookup_1 _ _ _ _ Hall Hi).
  - right. apply not_Forall_Exists in Hn; [| intros t; apply _].
    apply list.Exists_exists in Hn as (t & [i Hi]%list_elem_of_lookup & Ht). destruct t as [c | a p | o]; [| by eapply Hhold | by destruct Ht].
    destruct (start c) as [o | [a p]] eqn:Hc; [eexists; by eapply step_refused |].
    destruct (decide (a ∈ L)) as [Ha | Ha]; [| eexists; by eapply step_lock].
    destruct (Hlo a Ha) as (j & q & Hj). eauto.
Qed.

(** C5: calls of the router client are atomic.  However any number of calls to any number of routers
    interleave, command by command, under the locks the client takes: the calls that have returned
    can be put in an order such that each returned exactly what it returns when the calls are made
    in that order one at a time, each as the single transition of Router.v that the poller's model
    takes it for; a router that no call holds is as that sequence leaves it; calls that return later
    come later in the order; and the locks never block for good: while a call has not returned, some
    call can take its next step. *)
Theorem client_calls_atomic s s' :
  rtc lock_step calls0 s → rtc lock_step s s' →
  (∃ order more, explains s order ∧ explains s' (order ++ more)) ∧
  ((∀ i t, si_callers s !! i = Some t → is_done t = true) ∨ ∃ s1, lock_step s s1).
Proof.
  intros Hs Hs'. destruct (explained_steps _ _ _ explained_0 Hs) as [order Ho].
  destruct (explained_steps _ _ _ Ho Hs') as [more Hm]. split; [| by eapply never_stuck].
  exists order, more. by split; apply explained_explains.
Qed.
End locks.
