(* ===== verification/DeadMan.v ===== *)
(** The dead-man's switch seen from the router.  What the command strings do on the
    router is the documented behaviour of its shell ([RouterShell]); commands the
    client sends may get lost, and their answers too; and an armed timer fires
    some time after its window.  Whatever happens, a change that is not kept is
    undone. *)

From S2P Require Import Prelude GoStd Errors Store Netip NetipFacts Ipnstate.
From S2P Require Import Poller Router RouterFacts RouterProto.

(** ** The router *)

(** A background [sleep]: the marker it will look for, the selection it will restore,
    and when the sleep is over. *)
Record timer := mkTimer { tm_marker : string; tm_prev : string; tm_due : Time }.

Record router := mkRouter {
  ro_sel : string;                (* the exit node in force; empty for none *)
  ro_files : gset string;
  ro_timers : list timer;
}.

(** What the router's shell does with the commands of a change, for arguments and
    markers of plain characters. *)
Class RouterShell := { sh : Time → string → router → router }.
Class RouterShellLaws `{RouterShell} : Prop := {
  sh_arm now m p r :
    forallb shell_plain (chars m) = true → forallb shell_plain (chars p) = true →
    sh now (armCmd m p) r =
      mkRouter (ro_sel r) (ro_files r) (ro_timers r ++ [mkTimer m p (Add now (revertWindowSeconds * Second))]);
  sh_apply now t lan r :
    forallb shell_plain (chars t) = true →
    sh now (applyCmd t (negb (String.eqb t "")) lan) r = mkRouter t (ro_files r) (ro_timers r);
  sh_status now r : sh now statusCmd r = r;
  sh_keep now m r :
    forallb shell_plain (chars m) = true →
    sh now (keepCmd m) r = mkRouter (ro_sel r) ({[m]} ∪ ro_files r) (ro_timers r);
}.

(** A timer whose sleep is over: [[ -f marker ] && exit 0; tailscale set ...]. *)
Definition fire (tm : timer) (rest : list timer) (r : router) : router :=
  mkRouter (if bool_decide (tm_marker tm ∈ ro_files r) then ro_sel r else tm_prev tm) (ro_files r) rest.

(** ** What the client sends *)

(** A runner that records its commands, and whether each was answered with success. *)
Section watched.
Context {W : Type} (RR : RouterRunner W).

Definition sent : Type := string * bool.
Definition watched : RouterRunner (W * list sent) := {|
  runner_run := λ addr cmd '(w, log),
    let '((out, stderr, exit, err), w') := runner_run addr cmd w in
    ((out, stderr, exit, err), (w', log ++ [(cmd, bool_decide (err = None) && (exit =? 0))]));
  newMarker := λ '(w, log), let '(m, w') := newMarker w in (m, (w', log));
|}.
End watched.

(** The life of the router between two moments, while these commands were sent to it
    one after the other: a command that was answered was executed, one that was not
    may have been; and a timer may fire whenever it is due. *)
Inductive lived `{RouterShell} : Time → list sent → router → Time → router → Prop :=
| lived_end now r : lived now [] r now r
| lived_wait now d log r now' r' :
    0 <= d → lived (now + d) log r now' r' → lived now log r now' r'
| lived_fire now log r now' r' tm l1 l2 :
    ro_timers r = l1 ++ tm :: l2 → tm_due tm <= now →
    lived now log (fire tm (l1 ++ l2) r) now' r' → lived now log r now' r'
| lived_run now cmd ok log r now' r' :
    lived now log (sh now cmd r) now' r' → lived now ((cmd, ok) :: log) r now' r'
| lived_lost now cmd log r now' r' :
    lived now log r now' r' → lived now ((cmd, false) :: log) r now' r'.

Section facts.
Context `{UT : UnicodeTables} `{SC : StatusCodec} {W : Type} `{RR : RouterRunner W}.
Variable lanAccess : option bool.

Lemma exec_watched addr cmd wrap label w log :
  exec (RR := watched RR) addr cmd wrap label (w, log) =
  let '(e, w') := exec addr cmd wrap label w in (e, (w', log ++ [(cmd, bool_decide (e = None))])).
Proof.
  unfold exec, mbind, M_bind. simpl.
  destruct (runner_run addr cmd w) as [[[[out stderr] exit] err] w']. unfold mret, M_ret, command_error.
  destruct err; simpl; [done |]. by destruct (exit =? 0).
Qed.

Lemma status_watched addr w log :
  let '((rt, e), w') := status addr w in
  ∃ ok, status (RR := watched RR) addr (w, log) = ((rt, e), (w', log ++ [(statusCmd, ok)])).
Proof.
  unfold status, mbind, M_bind. simpl.
  destruct (runner_run addr statusCmd w) as [[[[out stderr] exit] err] w'].
  destruct (command_error _ _ _ _ _ _); [by eexists |].
  unfold mret, M_ret. destruct (ParseStatus out). by eexists.
Qed.

(** The commands of a change that were sent, and which of them were answered: the apply
    only after an answered arm, the keep only after a confirmed apply. *)
Lemma change_log addr target prev autoKeep w t p :
  exitArg target = inr t → exitArg prev = inr p →
  let m := fst (newMarker w) in
  let arm := armCmd m p in
  let app := applyCmd t (negb (String.eqb t "")) lanAccess in
  let '((_, marker, err), (_, log)) :=
    ApplyExitNode (RR := watched RR) lanAccess addr target prev autoKeep (w, []) in
  (∃ ok, log = [(arm, ok)] ∧ err ≠ None ∧ marker = "") ∨
  (∃ ok, log = [(arm, true); (app, ok)] ∧ err ≠ None ∧ marker = "") ∨
  (∃ ok, log = [(arm, true); (app, true); (statusCmd, ok)] ∧
     (err ≠ None ∧ marker = "" ∨ err = None ∧ autoKeep = false ∧ marker = m)) ∨
  (∃ ok, log = [(arm, true); (app, true); (statusCmd, ok); (keepCmd m, bool_decide (err = None))] ∧
     autoKeep = true ∧ marker = "").
Proof.
  intros Ht Hp. unfold ApplyExitNode, mbind, M_bind, mret, M_ret. rewrite Ht, Hp. simpl.
  destruct (newMarker w) as [m w1]. simpl. rewrite exec_watched.
  destruct (exec addr (armCmd m p) _ _ w1) as [[e |] w2]; simpl; [left; by eexists |].
  rewrite exec_watched. destruct (exec addr _ _ _ w2) as [[e |] w3]; simpl; [right; left; by eexists |].
  match goal with |- context [status addr (w3, ?l)] => pose proof (status_watched addr w3 l) as Hs end.
  destruct (status addr w3) as [[rt e] w4]. destruct Hs as [ok ->].
  destruct e as [e |]; [right; right; left; exists ok; split; [done | by left] |].
  destruct (confirmed rt t _); simpl; [| right; right; left; exists ok; split; [done | by left]].
  destruct autoKeep; simpl; [| right; right; left; exists ok; split; [done | by right]].
  rewrite exec_watched. destruct (exec addr (keepCmd m) _ _ w4) as [e w5]. simpl.
  right; right; right. by exists ok.
Qed.

(** ** What the router goes through *)

Context `{SH : RouterShell} `{!RouterShellLaws}.

Lemma lived_later now log r now' r' : lived now log r now' r' → now <= now'.
Proof. induction 1; lia. Qed.

(** Every armed timer restores [p] unless it finds [m]; and with no timer left, [p] is
    restored unless [m] is there. *)
Record guarded (m p : string) (r : router) : Prop := {
  gd_timers : ∀ tm, tm ∈ ro_timers r → tm_marker tm = m ∧ tm_prev tm = p;
  gd_sel : ro_timers r = [] → m ∉ ro_files r → ro_sel r = p;
}.

Lemma guarded_fire m p r tm l1 l2 :
  ro_timers r = l1 ++ tm :: l2 → guarded m p r → guarded m p (fire tm (l1 ++ l2) r).
Proof.
  intros E [H1 _]. rewrite E in H1. destruct (H1 tm) as [<- <-]; [set_solver |]. split; simpl.
  - intros tm' Htm'. apply H1. set_solver.
  - intros _ Hm. by rewrite bool_decide_eq_false_2.
Qed.

(** The commands that leave a guarded router guarded. *)
Definition harmless (m p cmd : string) : Prop := cmd = armCmd m p ∨ cmd = statusCmd ∨ cmd = keepCmd m.

Lemma lived_guarded m p now log r now' r' :
  forallb shell_plain (chars m) = true → forallb shell_plain (chars p) = true →
  lived now log r now' r' → (∀ c, c ∈ log → harmless m p (fst c)) → guarded m p r → guarded m p r'.
Proof.
  intros Hm Hp. induction 1 as [| ? d log r now' r' Hd _ IH | ? log r now' r' tm l1 l2 E Hdue _ IH
    | ? cmd ok log r now' r' _ IH | ? cmd log r now' r' _ IH]; intros Hl Hg; [done | auto | | |].
  - apply IH; [done | by apply guarded_fire].
  - apply IH; [set_solver |]. destruct Hg as [H1 H2].
    destruct (Hl (cmd, ok)) as [E | [E | E]]; [left | simpl in E; subst cmd..].
    + rewrite sh_arm by done. split; simpl; [| by intros [_ [=]]%app_nil].
      intros tm [Ht | ->%list_elem_of_singleton]%elem_of_app; [by apply H1 | done].
    + rewrite sh_status. by split.
    + rewrite sh_keep by done. split; simpl; [done |]. intros E Hn. apply H2; [done | set_solver].
  - apply IH; [set_solver | done].
Qed.

(** While no timer can be due, the commands run in order and nothing else happens. *)
Inductive ran : list sent → router → router → Prop :=
| ran_end r : ran [] r r
| ran_run now cmd ok log r r' : ran log (sh now cmd r) r' → ran ((cmd, ok) :: log) r r'
| ran_lost cmd log r r' : ran log r r' → ran ((cmd, false) :: log) r r'.

(** No timer of the router is due before [t], now and after each of the commands. *)
Definition quiet_until (t : Time) (r : router) : Prop := ∀ tm, tm ∈ ro_timers r → t < tm_due tm.

(** The commands of a change from [p] to [t] under the marker [m]. *)
Definition change_cmd (m p t : string) (cmd : string) : Prop :=
  harmless m p cmd ∨ cmd = applyCmd t (negb (String.eqb t "")) lanAccess.
Record plain_args (m p t : string) : Prop := {
  pl_marker : forallb shell_plain (chars m) = true;
  pl_prev : forallb shell_plain (chars p) = true;
  pl_target : forallb shell_plain (chars t) = true;
}.

Lemma lived_ran m p t t0 now log r now' r' :
  plain_args m p t → lived now log r now' r' →
  t0 <= now → now' < Add t0 (revertWindowSeconds * Second) →
  (∀ c, c ∈ log → change_cmd m p t (fst c)) → quiet_until now' r → ran log r r' ∧ quiet_until now' r'.
Proof.
  intros [Hm Hp Ht]. induction 1 as [| ? d log r now' r' Hd _ IH | ? log r now' r' tm l1 l2 E Hdue Hl _
    | now cmd ok log r now' r' Hl IH | ? cmd log r now' r' _ IH]; intros H0 Hend Hcmds Hq.
  - split; [constructor | done].
  - apply IH; [lia | done..].
  - apply lived_later in Hl. specialize (Hq tm). rewrite E in Hq. specialize (Hq ltac:(set_solver)). lia.
  - apply lived_later in Hl. destruct IH as [IH1 IH2]; [done | done | set_solver | | split; [by econstructor | done]].
    intros tm. destruct (Hcmds (cmd, ok)) as [[E | [E | E]] | E]; [left | simpl in E; subst cmd..].
    + rewrite sh_arm by done. simpl. rewrite elem_of_app, list_elem_of_singleton.
      intros [Htm | ->]; [by apply Hq | simpl; unfold Add in *; lia].
    + rewrite sh_status. apply Hq.
    + rewrite sh_keep by done. apply Hq.
    + rewrite sh_apply by done. apply Hq.
  - destruct IH as [IH1 IH2]; [done | done | set_solver | done | split; [by constructor | done]].
Qed.

(** A router that has been told [armCmd], and possibly [applyCmd], is guarded. *)
Lemma ran_armed m p t r r' o :
  plain_args m p t → ro_sel r = p → ro_timers r = [] →
  ran [(armCmd m p, true); (applyCmd t (negb (String.eqb t "")) lanAccess, o)] r r' → guarded m p r'.
Proof.
  intros [Hm Hp Ht] Hs Htm Hr. inversion Hr as [| now ? ? ? ? ? Hr2 |]; subst.
  rewrite sh_arm in Hr2 by done. rewrite Htm in Hr2. simpl in Hr2.
  assert (∀ sel, guarded m (ro_sel r) (mkRouter sel (ro_files r)
    [mkTimer m (ro_sel r) (Add now (revertWindowSeconds * Second))])) as Hg.
  { intros sel. split; simpl; [| done]. by intros tm ->%list_elem_of_singleton. }
  inversion Hr2 as [| now2 ? ? ? ? ? Hr3 | ? ? ? ? Hr3]; subst.
  - rewrite sh_apply in Hr3 by done. inversion Hr3; subst. apply Hg.
  - inversion Hr3; subst. apply Hg.
Qed.

(** Only the keep writes the marker. *)
Lemma lived_unmarked m p t now log r now' r' :
  plain_args m p t → lived now log r now' r' →
  (∀ c, c ∈ log → change_cmd m p t (fst c)) → keepCmd m ∉ (fst <$> log) → m ∉ ro_files r → m ∉ ro_files r'.
Proof.
  intros [Hm Hp Ht]. induction 1 as [| ? d log r now' r' Hd _ IH | ? log r now' r' tm l1 l2 E Hdue Hl IH
    | now cmd ok log r now' r' Hl IH | ? cmd log r now' r' _ IH]; intros Hcmds Hno Hf; [done | auto | auto | |].
  - apply IH; [set_solver | set_solver |]. destruct (Hcmds (cmd, ok)) as [[E | [E | E]] | E];
      [left | simpl in E; subst cmd..].
    + by rewrite sh_arm.
    + by rewrite sh_status.
    + destruct Hno. simpl. left.
    + by rewrite sh_apply.
  - apply IH; [set_solver | set_solver | done].
Qed.

(** Once the marker is there, the selection stays. *)
Lemma lived_kept m now log r now' r' :
  lived now log r now' r' → log = [] → m ∈ ro_files r →
  (∀ tm, tm ∈ ro_timers r → tm_marker tm = m) → ro_sel r' = ro_sel r.
Proof.
  induction 1 as [| ? d log r now' r' Hd _ IH | ? log r now' r' tm l1 l2 E Hdue Hl IH | |];
    intros El Hf Htm; [done | auto | | done | done].
  rewrite E in Htm. rewrite IH; [| done | done | intros tm' Hin; simpl in Hin; apply Htm; set_solver].
  unfold fire. simpl. rewrite (Htm tm) by set_solver. by rewrite bool_decide_eq_true_2.
Qed.

(** The phases of a change, from its log. *)
Lemma change_guarded m p t log r t0 t1 r1 :
  plain_args m p t → ro_sel r = p → ro_timers r = [] →
  let arm := armCmd m p in
  let app := applyCmd t (negb (String.eqb t "")) lanAccess in
  ((∃ ok, log = [(arm, ok)]) ∨ (∃ ok rest, log = (arm, true) :: (app, ok) :: rest)) →
  lived t0 (take 2 log) r t1 r1 → t1 < Add t0 (revertWindowSeconds * Second) → guarded m p r1.
Proof.
  intros Hpl Hsel Htm arm app [[ok ->] | (ok & rest & ->)] Hl Hend; simpl in Hl.
  - eapply lived_guarded; [apply Hpl | apply Hpl | exact Hl | |].
    + intros c ->%list_elem_of_singleton. by left.
    + split; [rewrite Htm; by intros tm ?%elem_of_nil | done].
  - eapply lived_ran in Hl as [Hran _]; [| exact Hpl | reflexivity | exact Hend | |].
    + by eapply ran_armed.
    + intros c. rewrite !elem_of_cons, elem_of_nil. intros [-> | [-> | []]]; [by left; left | by right].
    + intros tm. rewrite Htm. by intros ?%elem_of_nil.
Qed.

(** C6: the dead-man's switch works.  Let a change from the selection [p] in force to
    [t] be sent to a router, and the arm and the apply together take less than the
    revert window; whatever is lost, and whatever the client makes of it: once the
    timers have fired, the router is back on [p], unless the keep-marker reached it;
    and a marker only reaches it by a keep that was sent, by this change (which
    then asked for it, and reports no marker) or later. *)
Theorem unkept_change_reverts addr target prev autoKeep w t p :
  exitArg target = inr t → exitArg prev = inr p →
  forallb shell_plain (chars (fst (newMarker w))) = true →
  let m := fst (newMarker w) in
  let '((_, marker, err), (_, log)) :=
    ApplyExitNode (RR := watched RR) lanAccess addr target prev autoKeep (w, []) in
  ∀ kept t0 r t1 r1 t2 r2,
    ro_sel r = p → ro_timers r = [] → m ∉ ro_files r → (∀ c, c ∈ kept → fst c = keepCmd m) →
    lived t0 (take 2 log) r t1 r1 → t1 < Add t0 (revertWindowSeconds * Second) →
    lived t1 (drop 2 log ++ kept) r1 t2 r2 → ro_timers r2 = [] →
    (ro_sel r2 = p ∨ m ∈ ro_files r2) ∧
    (m ∈ ro_files r2 → keepCmd m ∈ (fst <$> drop 2 log ++ kept)) ∧
    (keepCmd m ∈ (fst <$> drop 2 log) → autoKeep = true ∧ marker = "").
Proof.
  intros Ht Hp Hm m. assert (plain_args m p t) as Hpl by (split; [done | by eapply exitArg_plain..]).
  pose proof (change_log addr target prev autoKeep w t p Ht Hp) as Hlog. cbv zeta in Hlog.
  fold m in Hlog.
  destruct (ApplyExitNode _ _ _ _ _ _) as [[[rt marker] err] [w' log]].
  intros kept t0 r t1 r1 t2 r2 Hsel Htm Hf Hkept Hl1 Hend Hl2 Hdone.
  assert (guarded m p r1) as Hg1.
  { eapply change_guarded; [exact Hpl | exact Hsel | exact Htm | | exact Hl1 | exact Hend].
    destruct Hlog as [(ok & -> & _) | [(ok & -> & _) | [(ok & -> & _) | (ok & -> & _)]]]; eauto. }
  assert (∀ c, c ∈ take 2 log → change_cmd m p t (fst c) ∧ fst c ≠ keepCmd m) as Hc1.
  { assert (armCmd m p ≠ keepCmd m ∧ applyCmd t (negb (String.eqb t "")) lanAccess ≠ keepCmd m) as [? ?] by done.
    intros c. destruct Hlog as [(ok & -> & _) | [(ok & -> & _) | [(ok & -> & _) | (ok & -> & _)]]];
      simpl; rewrite !elem_of_cons, ?elem_of_nil; intros Hin;
      repeat destruct Hin as [-> | Hin]; try done; (split; [| done]); first [by left; left | by right]. }
  assert (∀ c, c ∈ drop 2 log ++ kept → harmless m p (fst c)) as Hc2.
  { intros c [Hin | Hin]%elem_of_app; [| by right; right; apply Hkept]. revert Hin.
    destruct Hlog as [(ok & -> & _) | [(ok & -> & _) | [(ok & -> & _) | (ok & -> & _)]]];
      simpl; rewrite ?elem_of_cons, elem_of_nil; intros Hin; repeat destruct Hin as [-> | Hin]; try done;
      first [by right; left | by right; right]. }
  split; [| split].
  - destruct (decide (m ∈ ro_files r2)) as [? | Hn]; [by right | left].
    pose proof (lived_guarded m p _ _ _ _ _ (pl_marker _ _ _ Hpl) (pl_prev _ _ _ Hpl) Hl2 Hc2 Hg1) as [_ Hg].
    by apply Hg.
  - intros Hin. destruct (decide (keepCmd m ∈ (fst <$> drop 2 log ++ kept))) as [? | Hno]; [done | exfalso].
    revert Hin. eapply lived_unmarked; [exact Hpl | exact Hl2 | | exact Hno |].
    + intros c Hc. left. by apply Hc2.
    + eapply lived_unmarked; [exact Hpl | exact Hl1 | | | exact Hf]; [intros c Hc; by apply Hc1 |].
      intros (c & E & Hc)%list_elem_of_fmap. apply Hc1 in Hc as [_ Hne]; congruence.
  - intros (c & E & Hc)%list_elem_of_fmap. revert Hc.
    destruct Hlog as [(ok & -> & _) | [(ok & -> & _) | [(ok & -> & _) | (ok & -> & ? & ?)]]];
      simpl; rewrite ?elem_of_cons, elem_of_nil; intros Hin; repeat destruct Hin as [-> | Hin]; done.
Qed.

End facts.
