(* ===== verification/HostKey.v ===== *)
(** [internal/router/hostkey.go]: host-key verification against a known_hosts
    file.  The package [golang.org/x/crypto/ssh/knownhosts] is not part of the
    repository: parsing a file, verifying a key, rendering a line and normalising
    an address are parameters, with the documented facts the code relies on as
    the laws of the class [KnownHostsLaws]. *)

From S2P Require Import Prelude GoStd Errors PollerFacts.

(** What a [knownhosts] callback answers: accepted, a [KeyError] with the keys it
    wanted, or another refusal. *)
Inductive verdict (K : Type) :=
| Accepted
| KeyMismatch (want : list K) (msg : string)
| Refused (e : error).
Arguments Accepted {K}.
Arguments KeyMismatch {K} want msg.
Arguments Refused {K} e.

Class KnownHosts (K : Type) := {
  kh_parse : string → error + (string → option string → K → verdict K);
  kh_Line : list string → K → string;
  kh_Normalize : string → string;
}.

(** The file system operations on the known_hosts file and its directory. *)
Class HostFS (W : Type) := {
  fs_read : W → error + string;
  fs_mkdir : M W (option error);
  fs_open : M W (option error);
  fs_append : string → M W (option error);
}.

(** What [ssh.HostKeyCallback] the transport uses. *)
Inductive HostKeyMode :=
| InsecureIgnoreHostKey
| KnownHostsFile (path : string)
| Tofu (path : string).

Section hostkey.
Context `{UT : UnicodeTables} {K : Type} `{KH : KnownHosts K} {W : Type} `{FS : HostFS W}.
(** The known_hosts path and [filepath.Dir] of it. *)
Variables path dir : string.

(** [knownhosts.New(path)] *)
Definition knownhosts_New (w : W) : error + (string → option string → K → verdict K) :=
  match fs_read w with
  | inl e => inl e
  | inr content => kh_parse content
  end.

(** internal/router/hostkey.go:57-69, knownHostsFileCallback. *)
Definition knownHostsFileCallback (mode : string) (w : W) : error + HostKeyMode :=
  if String.eqb path "" then
    inl (ErrText ("router: host-key mode " +:+ quote mode +:+ " requires a known_hosts path"))
  else
    match knownhosts_New w with
    | inl e =>
        if is_NotExist e then
          inl (ErrText ("router: host-key mode " +:+ quote mode
                 +:+ " requires a pre-seeded known_hosts file, but " +:+ quote path
                 +:+ " does not exist"))
        else inl (wrapf ("router: load known_hosts " +:+ quote path +:+ " for host-key mode "
                         +:+ quote mode +:+ ": ") e)
    | inr _ => inr (KnownHostsFile path)
    end.

(** internal/router/hostkey.go:81-86, tofuCallback. *)
Definition tofuCallback : error + HostKeyMode :=
  if String.eqb path "" then
    inl (ErrText "router: tofu host-key mode requires a known_hosts path")
  else inr (Tofu path).

(** internal/router/hostkey.go:37-52, hostKeyCallback. *)
Definition hostKeyCallback (mode : string) (w : W) : error + HostKeyMode :=
  if String.eqb mode "" || String.eqb mode "tofu" then tofuCallback
  else if String.eqb mode "strict" then knownHostsFileCallback "strict" w
  else if String.eqb mode "pin" then knownHostsFileCallback "pin" w
  else if String.eqb mode "insecure" then inr InsecureIgnoreHostKey
  else inl (ErrText ("router: unknown host-key mode " +:+ quote mode
                     +:+ " (want tofu|strict|pin|insecure)")).

(** internal/router/hostkey.go:152-171, knownHostsAddresses. *)
Definition knownHostsAddresses (hostname : string) (remote : option string) : list string :=
  let add (acc : list string) (a : string) :=
    if String.eqb a "" then acc
    else if existsb (λ b, String.eqb (kh_Normalize b) (kh_Normalize a)) acc then acc
    else acc ++ [a] in
  let addrs := add [] hostname in
  match remote with Some r => add addrs r | None => addrs end.

(** internal/router/hostkey.go:129-146, appendKey. *)
Definition appendKey (hostname : string) (remote : option string) (key : K)
    : M W (option error) :=
  let line := kh_Line (knownHostsAddresses hostname remote) key in
  mkErr ← fs_mkdir;
  match mkErr with
  | Some e => mret (Some (wrapf ("router: create known_hosts dir " +:+ quote dir +:+ ": ") e))
  | None =>
      openErr ← fs_open;
      match openErr with
      | Some e => mret (Some (wrapf ("router: open known_hosts " +:+ quote path
                                     +:+ " for append: ") e))
      | None =>
          writeErr ← fs_append (line +:+ of_chars [chr 10]);
          match writeErr with
          | Some e => mret (Some (wrapf ("router: append to known_hosts " +:+ quote path +:+ ": ") e))
          | None => mret None
          end
      end
  end.

(** internal/router/hostkey.go:91-123, check. *)
Definition check (hostname : string) (remote : option string) (key : K) : M W (option error) :=
  cb ← gets knownhosts_New;
  match cb with
  | inl e =>
      if is_NotExist e then appendKey hostname remote key
      else mret (Some (wrapf ("router: load known_hosts " +:+ quote path +:+ ": ") e))
  | inr verify =>
      match verify hostname remote key with
      | Accepted => mret None
      | KeyMismatch [] _ => appendKey hostname remote key
      | KeyMismatch (_ :: _) msg =>
          mret (Some (wrapf ("router: host key for " +:+ hostname
            +:+ " changed (possible MITM) -- refusing. If this change is expected, remove the stale entry from "
            +:+ path +:+ " and reconnect: ") (ErrText msg)))
      | Refused e => mret (Some e)
      end
  end.
End hostkey.

(** ** Trust on first use *)

(** The documented behaviour of the files: creating the directory or opening the
    file for append does not change what is read from it (a missing file reads
    as empty once created), and a successful append adds the line at the end. *)
Definition file_content `{HostFS W} (w : W) : option string :=
  match fs_read w with
  | inr c => Some c
  | inl e => if is_NotExist e then Some "" else None
  end.

Class HostFSLaws (W : Type) `{HostFS W} : Prop := {
  mkdir_content : ∀ w, file_content (snd (fs_mkdir w)) = file_content w;
  open_content : ∀ w, file_content (snd (fs_open w)) = file_content w;
  append_content : ∀ l w c, fst (fs_append l w) = None → file_content w = Some c →
    fs_read (snd (fs_append l w)) = inr (c +:+ l);
}.

Section tofu.
Context `{UT : UnicodeTables} {K : Type} `{KH : KnownHosts K} {W : Type} `{FS : HostFS W}.
Context `{!HostFSLaws W}.
Variables path dir : string.

(** What [knownhosts] documents about the line appended for a host it did not
    know: from then on it accepts that key for the host and answers every other
    key with the one it wanted. *)
Definition learns (content host : string) (remote : option string) (k : K) : Prop :=
  ∃ verify,
    kh_parse (content +:+ kh_Line (knownHostsAddresses host remote) k +:+ of_chars [chr 10])
      = inr verify ∧
    verify host remote k = Accepted ∧
    ∀ k', k' ≠ k → ∃ want wants msg, verify host remote k' = KeyMismatch (want :: wants) msg.

(** The file does not exist, or it loads and does not know the host. *)
Definition first_contact (w : W) (host : string) (remote : option string) (k : K) : Prop :=
  match knownhosts_New w with
  | inl e => is_NotExist e = true
  | inr verify => ∃ msg, verify host remote k = KeyMismatch [] msg
  end.

Lemma appendKey_content host remote k w w' c :
  file_content w = Some c → appendKey path dir host remote k w = (None, w') →
  fs_read w' = inr (c +:+ kh_Line (knownHostsAddresses host remote) k +:+ of_chars [chr 10]).
Proof.
  intros Hc. unfold appendKey, mbind, M_bind, mret, M_ret.
  pose proof (mkdir_content w) as H1. destruct (fs_mkdir w) as [[e |] w1]; [done |]. simpl in H1.
  pose proof (open_content w1) as H2. destruct (fs_open w1) as [[e |] w2]; [done |]. simpl in H2.
  set (line := _ +:+ _). pose proof (append_content line w2 c) as H3.
  destruct (fs_append line w2) as [[e |] w3]; [done |]. intros [= <-]. simpl in H3.
  apply H3; [done |]. congruence.
Qed.

Lemma first_contact_check host remote k w :
  first_contact w host remote k →
  check path dir host remote k w = appendKey path dir host remote k w.
Proof.
  unfold first_contact, check, mbind, M_bind, gets.
  destruct (knownhosts_New w) as [e | v]; [by intros -> |]. by intros [msg ->].
Qed.

End tofu.
