(* ===== verification/Transport.v ===== *)
(** [internal/router]: the three transports of the client, and the SSH session
    that runs one command.  [golang.org/x/crypto/ssh] and the dialers are not part
    of the repository; [SSHLib] is the interface the source calls. *)

From S2P Require Import Prelude GoStd Errors Netip Router HostKey.

(** ** Selecting a transport *)

Inductive AuthMethod :=
| AuthPassword (password : string)
| AuthKeyboardInteractive (answer : string).

Inductive Dialer := DialTailnet | DialHost.

(** internal/router/router.go:134-167, Options. *)
Record Options := mkOptions {
  opt_Transport : string;
  opt_TailscaleDial : bool;  (* a dial function was given *)
  opt_RouterAddrs : gmap string string;
  opt_User : string;
  opt_Password : string;
  opt_KeyboardInteractive : bool;
  opt_HostKeyMode : string;
  opt_KnownHostsPath : string;
  opt_Timeout : Duration;
  opt_LANAccess : option bool;
}.

(** internal/router/router.go:93-128, Client. *)
Record Client := mkClient {
  c_dial : Dialer;
  c_user : string;
  c_timeout : Duration;
  c_endpointFor : string → error + string;
  c_authMethods : list AuthMethod;
  c_hostKey : HostKeyMode;
  c_lanAccess : option bool;
}.

(** internal/router/router.go:255-269, passwordAuthMethods. *)
Definition passwordAuthMethods (o : Options) : list AuthMethod :=
  AuthPassword (opt_Password o) ::
  (if opt_KeyboardInteractive o then [AuthKeyboardInteractive (opt_Password o)] else []).

(** Identity is the endpoint: the 100.x address on port 22. *)
Definition tailnet_endpoint (addr : string) : error + string := inr (JoinHostPort addr "22").

(** internal/router/router.go:204-212, New. *)
Definition lan_endpoint (addrs : gmap string string) (addr : string) : error + string :=
  let ep := TrimSpace (default "" (addrs !! addr)) in
  if String.eqb ep "" then
    inl (ErrText ("router " +:+ addr
      +:+ ": no LAN endpoint mapping for the ip-password transport (add it to -router-addrs / TSCTL_ROUTER_ADDRS as "
      +:+ addr +:+ "=host[:port])"))
  else inr (ensurePort ep).

Section transport.
Context `{UT : UnicodeTables} {K : Type} `{KH : KnownHosts K} {H : Type} `{FS : HostFS H}.

(** internal/router/router.go:173-249, New. *)
Definition New (o : Options) (h : H) : error + Client :=
  let client dial endpoint auth hk :=
    mkClient dial (opt_User o) (opt_Timeout o) endpoint auth hk (opt_LANAccess o) in
  if String.eqb (opt_Transport o) "" || String.eqb (opt_Transport o) "tailscale-ssh" then
    if negb (opt_TailscaleDial o) then
      inl (ErrText "router: tailscale-ssh transport requires a dial func (tsnet.Server.Dial)")
    else inr (client DialTailnet tailnet_endpoint [] InsecureIgnoreHostKey)
  else if String.eqb (opt_Transport o) "ip-password" then
    if String.eqb (opt_Password o) "" then
      inl (ErrText "router: ip-password transport requires a password")
    else
      match hostKeyCallback (opt_KnownHostsPath o) (opt_HostKeyMode o) h with
      | inl e => inl e
      | inr hk =>
          inr (client DialHost (lan_endpoint (opt_RouterAddrs o)) (passwordAuthMethods o) hk)
      end
  else if String.eqb (opt_Transport o) "tailnet-password" then
    if negb (opt_TailscaleDial o) then
      inl (ErrText "router: tailnet-password transport requires a dial func (tsnet.Server.Dial)")
    else if String.eqb (opt_Password o) "" then
      inl (ErrText "router: tailnet-password transport requires a password")
    else inr (client DialTailnet tailnet_endpoint (passwordAuthMethods o) InsecureIgnoreHostKey)
  else
    inl (ErrText ("router: unknown transport " +:+ quote (opt_Transport o)
                  +:+ " (want tailscale-ssh, tailnet-password, or ip-password)")).

Lemma passwordAuthMethods_password o :
  Forall (λ m, m = AuthPassword (opt_Password o) ∨
               m = AuthKeyboardInteractive (opt_Password o)) (passwordAuthMethods o).
Proof.
  unfold passwordAuthMethods. apply Forall_cons; split; [by left |].
  destruct (opt_KeyboardInteractive o); [| constructor].
  apply Forall_cons; split; [by right | constructor].
Qed.

(** The transports fail closed.  A client that exists either dials over the
    tailnet, where the peer is authenticated by WireGuard and the address is the
    router's own, or dials the host network with a password and verifies host
    keys (unless "insecure" was asked for by name) and then only reaches
    addresses that have a mapping; and it never authenticates with an empty
    password. *)
Theorem New_fail_closed o h :
  match New o h with
  | inl _ => True
  | inr c =>
      c_timeout c = opt_Timeout o ∧ c_lanAccess c = opt_LANAccess o ∧
      Forall (λ m, m = AuthPassword (opt_Password o) ∨
                   m = AuthKeyboardInteractive (opt_Password o)) (c_authMethods c) ∧
      (c_authMethods c ≠ [] → opt_Password o ≠ "") ∧
      match c_dial c with
      | DialTailnet =>
          opt_TailscaleDial o = true ∧ opt_Transport o ≠ "ip-password" ∧
          (opt_Transport o = "tailnet-password" → c_authMethods c ≠ []) ∧
          ∀ a, c_endpointFor c a = inr (JoinHostPort a "22")
      | DialHost =>
          opt_Transport o = "ip-password" ∧ c_authMethods c ≠ [] ∧
          (c_hostKey c = InsecureIgnoreHostKey ↔ opt_HostKeyMode o = "insecure") ∧
          (∀ a, opt_RouterAddrs o !! a = None → ∃ e, c_endpointFor c a = inl e)
      end
  end.
Proof.
  unfold New.
  destruct (String.eqb_spec (opt_Transport o) "") as [Ht | Ht];
    [| destruct (String.eqb_spec (opt_Transport o) "tailscale-ssh") as [Ht' | Ht']]; simpl.
  1, 2: destruct (opt_TailscaleDial o); simpl; [| done];
    split_and!; try done; try constructor; congruence.
  destruct (String.eqb_spec (opt_Transport o) "ip-password") as [Hi | Hi].
  - destruct (String.eqb_spec (opt_Password o) ""); [done |].
    destruct (hostKeyCallback _ _ h) as [e | hk] eqn:Hhk; [done |]. simpl.
    split_and!; try done.
    + apply passwordAuthMethods_password.
    + revert Hhk. unfold hostKeyCallback, tofuCallback, knownHostsFileCallback.
      destruct (String.eqb_spec (opt_HostKeyMode o) "") as [-> |];
        [simpl; case_match; intros [= <-]; done |].
      destruct (String.eqb_spec (opt_HostKeyMode o) "tofu") as [-> |];
        [simpl; case_match; intros [= <-]; done |]. simpl.
      destruct (String.eqb_spec (opt_HostKeyMode o) "strict") as [-> |];
        [repeat case_match; intros; simplify_eq; done |].
      destruct (String.eqb_spec (opt_HostKeyMode o) "pin") as [-> |];
        [repeat case_match; intros; simplify_eq; done |].
      destruct (String.eqb_spec (opt_HostKeyMode o) "insecure") as [-> |];
        [by intros [= <-] | done].
    + intros a Ha. unfold lan_endpoint. rewrite Ha. simpl. eauto.
  - destruct (String.eqb_spec (opt_Transport o) "tailnet-password"); [| done].
    destruct (opt_TailscaleDial o); simpl; [| done].
    destruct (String.eqb_spec (opt_Password o) ""); [done |]. simpl.
    split_and!; try done.
    apply passwordAuthMethods_password.
Qed.
End transport.
