(* ===== verification/Ssh.v ===== *)
(** [internal/router]: the bounded capture of a command's output and [runSSH],
    the session that runs one command. *)

From S2P Require Import Prelude GoStd Errors Netip NetipFacts Router HostKey Transport.

(** ** Bounded capture *)

(** internal/router/router.go:677-681, cappedBuffer. *)
Record cappedBuffer := mkCapped { cb_buf : list ascii; cb_max : Z; cb_overflow : bool }.

(** internal/router/router.go:683-695, cappedBuffer.Write.  The result is the number of bytes reported as written. *)
Definition Write (p : list ascii) (b : cappedBuffer) : Z * cappedBuffer :=
  let n := Z.of_nat (List.length p) in
  if cb_overflow b then (n, b) else
  let room := cb_max b - Z.of_nat (List.length (cb_buf b)) in
  if room <? n then
    (n, mkCapped (if 0 <? room then cb_buf b ++ take (Z.to_nat room) p else cb_buf b)
          (cb_max b) true)
  else (n, mkCapped (cb_buf b ++ p) (cb_max b) false).

Definition write_all (ps : list (list ascii)) (b : cappedBuffer) : cappedBuffer :=
  foldl (λ b p, snd (Write p b)) b ps.

(** internal/router/router.go:670-670, maxOutputBytes. *)
Definition maxOutputBytes : Z := 4 * 2 ^ 20.

Definition emptyBuffer : cappedBuffer := mkCapped [] maxOutputBytes false.

(** What a buffer of capacity [mx] holds after the bytes [all] were written. *)
Definition captured (mx : Z) (all : list ascii) : cappedBuffer :=
  mkCapped (take (Z.to_nat mx) all) mx (mx <? Z.of_nat (List.length all)).

Lemma Write_captured mx all p :
  0 <= mx →
  Write p (captured mx all) = (Z.of_nat (List.length p), captured mx (all ++ p)).
Proof.
  intros Hmx. unfold Write, captured. simpl. rewrite !length_app.
  destruct (Z.ltb_spec mx (Z.of_nat (List.length all))) as [Hov | Hfit]; simpl.
  - rewrite take_app_le by lia. do 2 f_equal. symmetry. apply Z.ltb_lt. lia.
  - rewrite (take_ge all) by lia.
    destruct (Z.ltb_spec (mx - Z.of_nat (List.length all)) (Z.of_nat (List.length p))) as [H1 | H1].
    + f_equal. rewrite (proj2 (Z.ltb_lt mx _)) by lia.
      replace (Z.to_nat mx) with (List.length all + (Z.to_nat mx - List.length all))%nat by lia.
      rewrite take_app_add'; [| done].
      destruct (Z.ltb_spec 0 (mx - Z.of_nat (List.length all))) as [H2 | H2].
      * do 3 f_equal. lia.
      * replace (Z.to_nat mx - List.length all)%nat with 0%nat by lia. by rewrite take_0, app_nil_r.
    + f_equal. rewrite (proj2 (Z.ltb_ge mx _)) by lia.
      rewrite take_ge by (rewrite length_app; lia). done.
Qed.

Lemma write_all_captured mx ps all :
  0 <= mx → write_all ps (captured mx all) = captured mx (all ++ List.concat ps).
Proof.
  intros Hmx. revert all. induction ps as [| p ps IH]; intros all; [simpl; by rewrite app_nil_r |].
  change (write_all (p :: ps) (captured mx all))
    with (write_all ps (snd (Write p (captured mx all)))).
  rewrite Write_captured by done. cbn [snd]. rewrite IH. simpl. by rewrite (assoc (++)).
Qed.

Lemma emptyBuffer_captured : emptyBuffer = captured maxOutputBytes [].
Proof. reflexivity. Qed.

Lemma cappedBuffer_fits ps :
  Z.of_nat (List.length (cb_buf (write_all ps emptyBuffer))) <= maxOutputBytes.
Proof.
  rewrite emptyBuffer_captured, write_all_captured by done. simpl cb_buf.
  rewrite length_take. unfold maxOutputBytes. lia.
Qed.

(** Whatever the pieces the output arrives in, the buffer holds its first
    [max] bytes, never more; the overflow flag is set exactly when something was
    dropped; and every write reports all of its bytes. *)
Theorem cappedBuffer_bounded ps :
  let b := write_all ps emptyBuffer in
  let all := List.concat ps in
  cb_buf b = take (Z.to_nat maxOutputBytes) all ∧
  Z.of_nat (List.length (cb_buf b)) <= maxOutputBytes ∧
  (cb_overflow b = true ↔ cb_buf b ≠ all) ∧
  (∀ p, fst (Write p b) = Z.of_nat (List.length p)).
Proof.
  cbv zeta. split; [| split; [apply cappedBuffer_fits |]];
    rewrite emptyBuffer_captured, write_all_captured by done; [done |].
  assert (0 <= maxOutputBytes) as Hmx by done. revert Hmx.
  generalize maxOutputBytes as mx. intros mx Hmx. simpl. split.
  - split.
    + intros Hov%Z.ltb_lt Heq. apply (f_equal List.length) in Heq. rewrite length_take in Heq. lia.
    + intros Hne. apply Z.ltb_lt. apply Z.nle_gt. intros Hle. apply Hne, take_ge. lia.
  - intros p. by rewrite Write_captured.
Qed.

(** ** Endpoints *)

Lemma lacks_digits22 c : c ≠ "2"%char → lacks c (chars "22").
Proof. intros H. unfold lacks. simpl. by rewrite !(proj2 (Ascii.eqb_neq _ _)). Qed.

(** An endpoint that already has a port is left alone, and an endpoint
    without one (and without brackets) comes out as the same host on port 22,
    also when it is a bare IPv6 address. *)
Theorem ensurePort_default ep :
  ((∃ hp, SplitHostPort ep = inr hp) → ensurePort ep = ep) ∧
  (∀ e, SplitHostPort ep = inl e → lacks "[" (chars ep) → lacks "]" (chars ep) →
        SplitHostPort (ensurePort ep) = inr (ep, "22")).
Proof.
  unfold ensurePort. split.
  - by intros [hp ->].
  - intros e -> Ho Hc. apply SplitHostPort_Join; try done; by apply lacks_digits22.
Qed.

(** ** One command over SSH *)

(** How [session.Run] ends. *)
Inductive run_result := RunOk | RunExit (status : Z) | RunFailed (e : error).

(** The calls into the dialer and the SSH library.  [ssh_run] returns the pieces
    written to stdout and to stderr. *)
Class SSHLib (W : Type) := {
  ssh_dial : Dialer → string → M W (option error);
  ssh_SetDeadline : bool → M W (option error);
  ssh_closeConn : M W unit;
  ssh_NewClientConn : string → string → list AuthMethod → HostKeyMode → M W (option error);
  ssh_closeClient : M W unit;
  ssh_NewSession : M W (option error);
  ssh_run : string → M W (list (list ascii) * list (list ascii) * run_result);
  ssh_closeSession : M W unit;
  ssh_ctxErr : W → option error;
}.

Section runSSH.
Context `{UT : UnicodeTables} {W : Type} `{Lib : SSHLib W}.
Variable c : Client.

Definition ssh_result : Type := string * string * Z * option error.
Definition ssh_fail (e : error) : ssh_result := ("", "", 0, Some e).

(** What a finished session run means. *)
(** internal/router/router.go:639-664, runSSH. *)
Definition session_result (cmd endpoint : string) (out err : cappedBuffer) (r : run_result)
    (ctxErr : option error) : ssh_result :=
  let stdout := of_chars (cb_buf out) in
  let stderr := of_chars (cb_buf err) in
  if cb_overflow out || cb_overflow err then
    (stdout, stderr, 0, Some (ErrText ("ssh run " +:+ quote cmd +:+ " on " +:+ endpoint
       +:+ ": captured output exceeded " +:+ itoa maxOutputBytes +:+ "-byte cap")))
  else
    match r with
    | RunOk => (stdout, stderr, 0, None)
    | RunExit n => (stdout, stderr, n, None)
    | RunFailed e =>
        match ctxErr with
        | Some ce => (stdout, stderr, 0,
            Some (wrapf ("ssh run on " +:+ endpoint +:+ " canceled: ") ce))
        | None => (stdout, stderr, 0,
            Some (wrapf ("ssh run " +:+ quote cmd +:+ " on " +:+ endpoint +:+ ": ") e))
        end
    end.

(** internal/router/router.go:611-664, runSSH. *)
Definition run_session (cmd endpoint : string) : M W ssh_result :=
  sessErr ← ssh_NewSession;
  match sessErr with
  | Some e => mret (ssh_fail (wrapf ("ssh session " +:+ endpoint +:+ ": ") e))
  | None =>
      '(outs, errs, r) ← ssh_run cmd;
      _ ← ssh_closeSession;
      ctxErr ← gets ssh_ctxErr;
      mret (session_result cmd endpoint (write_all outs emptyBuffer) (write_all errs emptyBuffer)
              r ctxErr)
  end.

(** internal/router/router.go:569-665, runSSH. *)
Definition runSSH (addr cmd : string) : M W ssh_result :=
  match c_endpointFor c addr with
  | inl e => mret (ssh_fail e)
  | inr endpoint =>
  dialErr ← ssh_dial (c_dial c) endpoint;
  match dialErr with
  | Some e => mret (ssh_fail (wrapf ("dial " +:+ endpoint +:+ ": ") e))
  | None =>
  dlErr ← ssh_SetDeadline true;
  match dlErr with
  | Some e =>
      _ ← ssh_closeConn;
      mret (ssh_fail (wrapf ("set handshake deadline " +:+ endpoint +:+ ": ") e))
  | None =>
  hsErr ← ssh_NewClientConn endpoint (c_user c) (c_authMethods c) (c_hostKey c);
  match hsErr with
  | Some e =>
      _ ← ssh_closeConn;
      mret (ssh_fail (wrapf ("ssh handshake " +:+ endpoint +:+ ": ") e))
  | None =>
  clrErr ← ssh_SetDeadline false;
  r ← (match clrErr with
       | Some e => mret (ssh_fail (wrapf ("clear handshake deadline " +:+ endpoint +:+ ": ") e))
       | None => run_session cmd endpoint
       end);
  _ ← ssh_closeClient;
  mret r
  end end end end.

End runSSH.

(** *** Connections are closed *)

Section leaks.
Context `{UT : UnicodeTables} {W : Type} (Lib : SSHLib W).

(** The library with the open connections counted. *)
Definition counted : SSHLib (W * Z) := {|
  ssh_dial := λ d ep '(w, n), let '(e, w') := ssh_dial d ep w in
    (e, (w', if bool_decide (e = None) then n + 1 else n));
  ssh_SetDeadline := λ b '(w, n), let '(e, w') := ssh_SetDeadline b w in (e, (w', n));
  ssh_closeConn := λ '(w, n), let '(e, w') := ssh_closeConn w in (e, (w', n - 1));
  ssh_NewClientConn := λ ep u a h '(w, n),
    let '(e, w') := ssh_NewClientConn ep u a h w in (e, (w', n));
  ssh_closeClient := λ '(w, n), let '(e, w') := ssh_closeClient w in (e, (w', n - 1));
  ssh_NewSession := λ '(w, n), let '(e, w') := ssh_NewSession w in (e, (w', n));
  ssh_run := λ cmd '(w, n), let '(r, w') := ssh_run cmd w in (r, (w', n));
  ssh_closeSession := λ '(w, n), let '(e, w') := ssh_closeSession w in (e, (w', n));
  ssh_ctxErr := λ '(w, _), ssh_ctxErr w;
|}.

(** What every result satisfies: bounded output, and an exit status only without
    an error. *)
Definition result_ok (r : ssh_result) : Prop :=
  let '(stdout, stderr, exit, err) := r in
  len stdout <= maxOutputBytes ∧ len stderr <= maxOutputBytes ∧ (err ≠ None → exit = 0).

Lemma ssh_fail_ok e : result_ok (ssh_fail e).
Proof. unfold result_ok, ssh_fail, maxOutputBytes, len. simpl. split_and!; [lia | lia | done]. Qed.

Lemma write_all_bounded ps : len (of_chars (cb_buf (write_all ps emptyBuffer))) <= maxOutputBytes.
Proof.
  unfold len. rewrite length_chars, chars_of_chars. apply cappedBuffer_fits.
Qed.

Lemma session_result_ok cmd ep outs errs r ce :
  result_ok (session_result cmd ep (write_all outs emptyBuffer) (write_all errs emptyBuffer) r ce).
Proof.
  unfold session_result. pose proof (write_all_bounded outs). pose proof (write_all_bounded errs).
  destruct (_ || _); [by split_and! |]. destruct r, ce; by split_and!.
Qed.

Lemma run_session_counted cmd ep w n :
  let '(r, (_, n')) := run_session (Lib := counted) cmd ep (w, n) in n' = n ∧ result_ok r.
Proof.
  unfold run_session, mbind, M_bind, mret, M_ret, gets. simpl.
  destruct (ssh_NewSession w) as [[e |] w1]; [split; [done | apply ssh_fail_ok] |].
  destruct (ssh_run cmd w1) as [[[o e] r] w2]. destruct (ssh_closeSession w2) as [? w3].
  split; [done | apply session_result_ok].
Qed.

(** C39: however the dial, the handshake or the session ends, the connection that
    was opened is closed exactly once; what is returned never exceeds the cap on
    either stream; and an exit status is reported only when there is no error. *)
Theorem runSSH_closes c addr cmd w n :
  let '((stdout, stderr, exit, err), (_, n')) := runSSH (Lib := counted) c addr cmd (w, n) in
  n' = n ∧ len stdout <= maxOutputBytes ∧ len stderr <= maxOutputBytes ∧
  (err ≠ None → exit = 0).
Proof.
  cut (let '(r, (_, n')) := runSSH (Lib := counted) c addr cmd (w, n) in n' = n ∧ result_ok r).
  { destruct (runSSH (Lib := counted) c addr cmd (w, n)) as [[[[? ?] ?] ?] [? ?]]. done. }
  unfold runSSH, mbind, M_bind, mret, M_ret.
  destruct (c_endpointFor c addr) as [e | ep]; [split; [done | apply ssh_fail_ok] |]. simpl.
  destruct (ssh_dial _ ep w) as [[e |] w1]; [split; [done | apply ssh_fail_ok] |]. simpl.
  destruct (ssh_SetDeadline true w1) as [[e |] w2].
  { destruct (ssh_closeConn w2). split; [lia | apply ssh_fail_ok]. }
  destruct (ssh_NewClientConn ep _ _ _ w2) as [[e |] w3].
  { destruct (ssh_closeConn w3). split; [lia | apply ssh_fail_ok]. }
  destruct (ssh_SetDeadline false w3) as [[e |] w4].
  { destruct (ssh_closeClient w4). split; [lia | apply ssh_fail_ok]. }
  pose proof (run_session_counted cmd ep w4 (n + 1)) as Hs.
  destruct (run_session (Lib := counted) cmd ep (w4, n + 1)) as [r [w5 n5]].
  destruct (ssh_closeClient w5). destruct Hs as [-> Hr]. split; [lia | done].
Qed.
End leaks.
