(* ===== verification/Config.v ===== *)
(** [cmd/tsctl]: the resolution and validation of the configuration, and how [main]
    turns it into the options of the router client, the Host allowlist and the
    routes of the listeners. *)

From S2P Require Import Prelude GoStd Errors Store Netip Ipnstate Authz Json Session Wire Api.
From S2P Require Import Poller Router HostKey Transport.

(** ** [path/filepath] on Unix *)

(** The segments [Clean] keeps, last first. *)
Fixpoint clean_segments (rooted : bool) (out segs : list string) : list string :=
  match segs with
  | [] => out
  | s :: segs' =>
      if String.eqb s "" || String.eqb s "." then clean_segments rooted out segs'
      else if String.eqb s ".." then
        match out with
        | t :: out' =>
            if String.eqb t ".." then clean_segments rooted (".." :: out) segs'
            else clean_segments rooted out' segs'
        | [] => clean_segments rooted (if rooted then [] else [".."]) segs'
        end
      else clean_segments rooted (s :: out) segs'
  end.
Definition split_slash (s : string) : list string := of_chars <$> split_chars "/"%char [] (chars s).
Fixpoint join_with (sep : string) (l : list string) : string :=
  match l with [] => "" | [s] => s | s :: l' => s +:+ sep +:+ join_with sep l' end.
Definition Clean (path : string) : string :=
  let rooted := HasPrefix path "/" in
  let body := join_with "/" (rev (clean_segments rooted [] (split_slash path))) in
  if rooted then "/" +:+ body else if String.eqb body "" then "." else body.
Definition Join (elems : list string) : string :=
  match List.filter (λ s, negb (String.eqb s "")) elems with
  | [] => ""
  | l => Clean (join_with "/" l)
  end.

(** [filepath.Dir]: the path up to its last separator, cleaned. *)
Definition Dir (path : string) : string :=
  let base := last (split_slash path) in
  Clean (str_take (String.length path - String.length (default "" base)) path).

Example join_state : Join ["./tsnet-state/"; "known_hosts"] = "tsnet-state/known_hosts" ∧
  Join ["/var/lib/../tsctl"; "groups.json"] = "/var/tsctl/groups.json" ∧
  Dir "/var/tsctl/groups.json" = "/var/tsctl" ∧ Dir "groups.json" = "." ∧ Dir "/x" = "/".
Proof. vm_compute. auto. Qed.

(** ** The configuration *)

(** cmd/tsctl/config.go:26-89, Config. *)
Record Config := mkConfig {
  cfg_Hostname : string;
  cfg_StateDir : string;
  cfg_Listen : string;
  cfg_HealthAddr : string;
  cfg_Routers : list string;
  cfg_SSHUser : string;
  cfg_AuthKey : string;
  cfg_Debug : bool;
  cfg_SSHTimeout : Duration;
  cfg_Owner : string;
  cfg_AllowedHosts : list string;
  cfg_PollInterval : Duration;
  cfg_HTTPListen : string;
  cfg_UIPassword : string;
  cfg_ExitNodeLANAccess : option bool;
  cfg_EgressCheck : bool;
  cfg_EgressURL : string;
  cfg_RequireKeep : bool;
  cfg_RouterTransport : string;
  cfg_RouterHostKeyMode : string;
  cfg_SSHPassword : string;
  cfg_RouterAddrs : gmap string string;
  cfg_KnownHostsPath : string;
}.

(** The values of the flags after [fs.Parse], environment defaults included. *)
Record Flags := mkFlags {
  fl_Hostname : string; fl_StateDir : string; fl_Listen : string; fl_HealthAddr : string;
  fl_SSHUser : string; fl_Debug : bool; fl_routers : string; fl_SSHTimeout : Duration;
  fl_Owner : string; fl_HTTPListen : string; fl_UIPassword : string; fl_allowed : string;
  fl_PollInterval : Duration; fl_lanAccess : string; fl_EgressCheck : bool; fl_EgressURL : string;
  fl_RequireKeep : bool; fl_RouterTransport : string; fl_RouterHostKeyMode : string;
  fl_routerAddrs : string;
}.

(** The environment of the process, and the files it can read. *)
Record Process := mkProcess {
  pr_LookupEnv : string → option string;
  pr_ReadFile : string → error + string;
}.

(** cmd/tsctl/config.go:92-97, env. *)
Definition env (p : Process) (key def : string) : string := default def (pr_LookupEnv p key).

(** [strconv.ParseBool] *)
Definition ParseBool (s : string) : option bool :=
  if existsb (String.eqb s) ["1"; "t"; "T"; "TRUE"; "true"; "True"] then Some true
  else if existsb (String.eqb s) ["0"; "f"; "F"; "FALSE"; "false"; "False"] then Some false
  else None.

(** [os.Getenv] *)
Definition getenv (p : Process) (key : string) : string := default "" (pr_LookupEnv p key).

Section config.
Context `{UT : UnicodeTables}.

(** cmd/tsctl/config.go:117-127, envBool. *)
Definition envBool (p : Process) (key : string) (def : bool) : error + bool :=
  match pr_LookupEnv p key with
  | None => inr def
  | Some v =>
      match ParseBool (TrimSpace v) with
      | Some b => inr b
      | None => inl (ErrText ("invalid " +:+ key +:+ " " +:+ quote v
          +:+ ": want a boolean (true/false): strconv.ParseBool: parsing " +:+ quote (TrimSpace v)
          +:+ ": invalid syntax"))
      end
  end.

(** cmd/tsctl/config.go:279-291, loadAuthKey. *)
Definition loadAuthKey (p : Process) : error + string :=
  if negb (String.eqb (getenv p "TS_AUTHKEY") "") then inr (TrimSpace (getenv p "TS_AUTHKEY"))
  else if negb (String.eqb (getenv p "CREDENTIALS_DIRECTORY") "") then
    match pr_ReadFile p (Join [getenv p "CREDENTIALS_DIRECTORY"; "ts_authkey"]) with
    | inl e => inl (wrapf "reading LoadCredential ts_authkey: " e)
    | inr b => inr (TrimSpace b)
    end
  else inr "".

(** cmd/tsctl/config.go:301-316, loadSSHPassword. *)
Definition loadSSHPassword (p : Process) : error + string :=
  match pr_LookupEnv p "TSCTL_SSH_PASSWORD" with
  | Some v => inr (TrimSpace v)
  | None =>
      if negb (String.eqb (getenv p "CREDENTIALS_DIRECTORY") "") then
        match pr_ReadFile p (Join [getenv p "CREDENTIALS_DIRECTORY"; "ssh_password"]) with
        | inl e => if is_NotExist e then inr "" else inl (wrapf "reading LoadCredential ssh_password: " e)
        | inr b => inr (TrimSpace b)
        end
      else inr ""
  end.

(** cmd/tsctl/config.go:395-408, requireLoopback. *)
Definition requireLoopback (addr : string) : option error :=
  match SplitHostPort addr with
  | inl e => Some (wrapf "expected host:port: " e)
  | inr (host, _) =>
      match ParseAddr host with
      | inl e => Some (wrapf "host must be a loopback IP literal (e.g. 127.0.0.1): " e)
      | inr ip =>
          if IsLoopback ip then None
          else Some (ErrText ("must bind a loopback address, got " +:+ AddrString ip))
      end
  end.

(** The entries of a comma-separated list, trimmed, without the empty ones. *)
Definition comma_list (s : string) : list string :=
  List.filter (λ r, negb (String.eqb r "")) (map TrimSpace (map of_chars (split_chars ","%char [] (chars s)))).

(** The first entry that is not an address. *)
Fixpoint check_routers (l : list string) : option error :=
  match l with
  | [] => None
  | r :: l' =>
      match ParseAddr r with
      | inl e => Some (wrapf ("router " +:+ quote r +:+ " is not a valid IP (use the 100.x IPv4): ") e)
      | inr _ => check_routers l'
      end
  end.

Definition mem (s : string) (l : list string) : bool := existsb (String.eqb s) l.

Definition no_password (transport : string) : error :=
  ErrText ("router transport " +:+ transport +:+ " requires an SSH password: set TSCTL_SSH_PASSWORD or provide the systemd LoadCredential ssh_password (it is never a flag and never logged)").

(** cmd/tsctl/config.go:319-391, Config.validate. *)
Definition validate (c : Config) : option error :=
  if String.eqb (cfg_Hostname c) "" then Some (ErrText "hostname must not be empty")
  else if String.eqb (cfg_StateDir c) "" then Some (ErrText "state-dir must not be empty")
  else if String.eqb (cfg_Listen c) "" then Some (ErrText "listen must not be empty")
  else if String.eqb (cfg_SSHUser c) "" then Some (ErrText "ssh-user must not be empty")
  else
  match requireLoopback (cfg_HealthAddr c) with
  | Some e => Some (wrapf ("healthz address " +:+ quote (cfg_HealthAddr c) +:+ ": ") e)
  | None =>
  match (if String.eqb (cfg_HTTPListen c) "" then None
         else match SplitHostPort (cfg_HTTPListen c) with
              | inl e => Some (ErrWrap ("http-listen " +:+ quote (cfg_HTTPListen c) +:+ ": " +:+ err_Error e
                                        +:+ " (want host:port, e.g. :8080)") e)
              | inr _ => None
              end) with
  | Some e => Some e
  | None =>
  match check_routers (cfg_Routers c) with
  | Some e => Some e
  | None =>
  match ValidateEgressURL (cfg_EgressURL c) with
  | Some e => Some (wrapf "invalid -egress-url / TSCTL_EGRESS_URL: " e)
  | None =>
  if negb (mem (cfg_RouterTransport c) ["tailscale-ssh"; "ip-password"; "tailnet-password"]) then
    Some (ErrText ("invalid -router-transport " +:+ quote (cfg_RouterTransport c)
                   +:+ ": want tailscale-ssh, tailnet-password, or ip-password"))
  else if negb (mem (cfg_RouterHostKeyMode c) ["tofu"; "strict"; "pin"; "insecure"]) then
    Some (ErrText ("invalid -router-hostkey-mode " +:+ quote (cfg_RouterHostKeyMode c)
                   +:+ ": want tofu, strict, pin, or insecure"))
  else if String.eqb (cfg_RouterTransport c) "ip-password" && String.eqb (cfg_SSHPassword c) "" then
    Some (no_password "ip-password")
  else if String.eqb (cfg_RouterTransport c) "ip-password" &&
          (negb (String.eqb (cfg_RouterHostKeyMode c) "insecure") && String.eqb (cfg_KnownHostsPath c) "") then
    Some (ErrText ("router transport ip-password with host-key mode " +:+ quote (cfg_RouterHostKeyMode c)
                   +:+ " requires a known_hosts path (default $STATE_DIR/known_hosts; set a non-empty -state-dir)"))
  else if String.eqb (cfg_RouterTransport c) "tailnet-password" && String.eqb (cfg_SSHPassword c) "" then
    Some (no_password "tailnet-password")
  else None
  end end end end.

(** The three-valued flag of the LAN access. *)
Definition parse_lan_access (s : string) : error + option bool :=
  let v := ToLower (TrimSpace s) in
  if mem v [""; "preserve"; "keep"] then inr None
  else if mem v ["true"; "yes"; "on"; "1"] then inr (Some true)
  else if mem v ["false"; "no"; "off"; "0"] then inr (Some false)
  else inl (ErrText ("invalid -exit-node-lan-access " +:+ quote s +:+ ": want preserve|true|false")).

(** One pair of the address map. *)
Definition parse_pair (pair : string) : error + string * string :=
  let '(id, ep, ok) := Cut pair "="%char in
  let id := TrimSpace id in
  let ep := TrimSpace ep in
  if negb ok || String.eqb id "" || String.eqb ep "" then
    inl (ErrText ("invalid -router-addrs entry " +:+ quote pair +:+ ": want 100.x=host[:port]"))
  else
    match ParseAddr id with
    | inl e => inl (wrapf ("invalid -router-addrs key " +:+ quote id +:+ ": must be the router's 100.x IPv4: ") e)
    | inr _ => inr (id, ep)
    end.
Fixpoint parse_pairs (acc : gmap string string) (l : list string) : error + gmap string string :=
  match l with
  | [] => inr acc
  | kv :: l' =>
      match parse_pair kv with
      | inl e => inl e
      | inr (id, ep) => parse_pairs (<[id := ep]> acc) l'
      end
  end.

(** The host of a listen address, when it names one. *)
Definition listen_host (addr : string) : list string :=
  match SplitHostPort addr with
  | inr (host, _) => if String.eqb host "" then [] else [host]
  | inl _ => []
  end.

(** cmd/tsctl/config.go:191-272, loadConfig.  From the parsed flags on. *)
Definition resolveConfig (p : Process) (f : Flags) : error + Config :=
  match parse_lan_access (fl_lanAccess f) with
  | inl e => inl e
  | inr lan =>
      let routers := comma_list (fl_routers f) in
      let allowed := [fl_Hostname f] ++ listen_host (fl_Listen f) ++ comma_list (fl_allowed f) ++
        (if String.eqb (fl_HTTPListen f) "" then [] else listen_host (fl_HTTPListen f)) in
      match loadAuthKey p with
      | inl e => inl e
      | inr key =>
          match parse_pairs ∅ (comma_list (fl_routerAddrs f)) with
          | inl e => inl e
          | inr addrs =>
              let known := if String.eqb (fl_StateDir f) "" then "" else Join [fl_StateDir f; "known_hosts"] in
              match loadSSHPassword p with
              | inl e => inl e
              | inr pw =>
                  let c := mkConfig (fl_Hostname f) (fl_StateDir f) (fl_Listen f) (fl_HealthAddr f) routers
                    (fl_SSHUser f) key (fl_Debug f) (fl_SSHTimeout f) (fl_Owner f) allowed (fl_PollInterval f)
                    (fl_HTTPListen f) (fl_UIPassword f) lan (fl_EgressCheck f) (fl_EgressURL f)
                    (fl_RequireKeep f) (fl_RouterTransport f) (fl_RouterHostKeyMode f) pw addrs known in
                  match validate c with
                  | Some e => inl e
                  | None => inr c
                  end
              end
          end
      end
  end.

(** ** [main] *)

(** cmd/tsctl/main.go:145-166, newTSNet.  The tailscale node: its directory, its name and tags,
    whether it is forgotten when it stops, its key, and whether its backend logs. *)
Record TSNet := mkTSNet {
  ts_Dir : string;
  ts_Hostname : string;
  ts_AdvertiseTags : list string;
  ts_Ephemeral : bool;
  ts_AuthKey : string;
  ts_verbose : bool;
}.
(** cmd/tsctl/main.go:145-155, newTSNet. *)
Definition newTSNet (c : Config) : TSNet :=
  mkTSNet (cfg_StateDir c) (cfg_Hostname c) ["tag:tsctl"] false (cfg_AuthKey c) (cfg_Debug c).

(** cmd/tsctl/main.go:173-182, runServe.  The checks before anything is started. *)
Definition serve_checks (c : Config) : option error :=
  if String.eqb (cfg_Owner c) "" && String.eqb (cfg_UIPassword c) "" then
    Some (ErrText "no authentication configured: set an owner (TSCTL_OWNER / --owner) for the tailnet path and/or a UI password (TSCTL_UI_PASSWORD / --ui-password) for the host-port path")
  else if negb (String.eqb (cfg_HTTPListen c) "") && String.eqb (cfg_UIPassword c) "" then
    Some (ErrText "a password is required to expose the UI on a host port; set TSCTL_UI_PASSWORD")
  else None.

(** cmd/tsctl/main.go:412-432, allowedHosts.  [st] is the answer of the local client. *)
Definition allowedHosts (c : Config) (st : option Status * option error) : list string :=
  let hosts := cfg_AllowedHosts c in
  match st with
  | (_, Some _) | (None, None) => hosts
  | (Some st, None) =>
      match st_Self st with
      | None => hosts
      | Some self =>
          let dn := TrimSuffix (peer_DNSName self) "." in
          hosts ++
          (if String.eqb dn "" then []
           else dn :: match IndexByte dn "."%char with
                      | Some (S _ as i) => [str_take i dn]
                      | _ => []
                      end) ++
          map AddrString (peer_TailscaleIPs self)
      end
  end.

(** cmd/tsctl/main.go:440-453, routerOptions.  A dial function is given unless the spike runs the
    ip-password transport. *)
Definition routerOptions (c : Config) (dial : bool) : Options :=
  mkOptions (cfg_RouterTransport c) dial (cfg_RouterAddrs c) (cfg_SSHUser c) (cfg_SSHPassword c) true
    (cfg_RouterHostKeyMode c) (cfg_KnownHostsPath c) (cfg_SSHTimeout c) (cfg_ExitNodeLANAccess c).

(** cmd/tsctl/main.go:459-463, warnIfInsecureHostKey. *)
Definition warnIfInsecureHostKey (c : Config) : bool :=
  String.eqb (cfg_RouterTransport c) "ip-password" && String.eqb (cfg_RouterHostKeyMode c) "insecure".

Section mux.
Context `{JT : JSONText} `{UP : URLParser} {T : Type → Type} `{MR : MRet T} `{MB : MBind T} `{WI : !WhoIser T}
  `{CT : !Controller T} `{GS : !GroupStore T} `{GU : !GuestStore T} `{AW : !ApiWorld T}.

(** cmd/tsctl/main.go:380-388, buildMux.  The routes, to which [securityHeaders] is applied; [hub] is
    the event stream, [files] the static files. *)
Definition buildMux (a : API) (hub files : Handler (T := T)) : Handler (T := T) := λ r ctx,
  if bool_decide (r_Path r = ["api"; "events"]) then RequireAuth a (RequireHost a hub) r ctx
  else match r_Path r with
       | x :: _ :: _ => if String.eqb x "api" then Routes a r ctx else files r ctx
       | _ => files r ctx
       end.

(** cmd/tsctl/main.go:396-406, securityHeaders.  The headers set before [next] runs, whatever it
    answers. *)
Definition securityHeaders (next : Handler (T := T)) (r : Request) (ctx : Ctx (T bool))
    : T (list (string * string) * Response)%type :=
  let csp := "default-src 'self'; style-src 'self' 'unsafe-inline'; img-src 'self' data:; "
             +:+ "object-src 'none'; base-uri 'self'; frame-ancestors 'none'" in
  res ← next r ctx;
  mret ([("Content-Security-Policy", csp); ("X-Content-Type-Options", "nosniff");
         ("Referrer-Policy", "same-origin")], res).
End mux.
End config.
