(* ===== verification/CommandLine.v ===== *)
(** The command line of the server: [time.ParseDuration] and [flag.FlagSet.Parse] of the
    standard library, as far as the program uses them, and [loadConfig], from the
    environment and the arguments to an accepted configuration. *)

From Stdlib Require Import SpecFloat.
From S2P Require Import Prelude GoStd Errors Store Netip Ipnstate Router Config.

(** ** [time.ParseDuration] *)

(** [float64] arithmetic, of binary64 numbers. *)
Definition f64_of (z : Z) : spec_float := binary_normalize 53 1024 z 0 false.
Definition f64_mul : spec_float → spec_float → spec_float := SFmul 53 1024.
Definition f64_div : spec_float → spec_float → spec_float := SFdiv 53 1024.
(** The conversion of a non-negative float to an integer. *)
Definition f64_trunc (x : spec_float) : Z :=
  match x with
  | S754_finite _ m e => if 0 <=? e then Zpos m * 2 ^ e else Zpos m / 2 ^ (- e)
  | _ => 0
  end.

(** The error texts quote byte by byte. *)
Definition time_quote (s : string) : string :=
  let q := of_chars [dquote] in
  q +:+ of_chars (flat_map (λ c,
    if (byteZ c <? 32) || (128 <=? byteZ c) then backslash :: "x"%char :: hex_fixed 2 (byteZ c)
    else if Ascii.eqb c dquote || Ascii.eqb c backslash then [backslash; c] else [c]) (chars s)) +:+ q.
Definition invalid_duration (orig : string) : error := ErrText ("time: invalid duration " +:+ time_quote orig).

(** [leadingInt]: [None] on overflow. *)
Fixpoint leadingInt (x : Z) (l : list ascii) : option (Z * list ascii) :=
  match l with
  | c :: l' =>
      if is_digit c then
        if 2 ^ 63 / 10 <? x then None
        else let x := x * 10 + digit_val c in
             if 2 ^ 63 <? x then None else leadingInt x l'
      else Some (x, l)
  | [] => Some (x, [])
  end.

(** [leadingFraction]: digits that overflow are dropped. *)
Fixpoint leadingFraction (x : Z) (scale : spec_float) (overflow : bool) (l : list ascii)
    : Z * spec_float * list ascii :=
  match l with
  | c :: l' =>
      if is_digit c then
        if overflow || ((2 ^ 63 - 1) / 10 <? x) then leadingFraction x scale true l'
        else let y := x * 10 + digit_val c in
             if 2 ^ 63 <? y then leadingFraction x scale true l'
             else leadingFraction y (f64_mul scale (f64_of 10)) false l'
      else (x, scale, l)
  | [] => (x, scale, [])
  end.

Definition in_unit (c : ascii) : bool := negb (Ascii.eqb c "."%char || is_digit c).
Fixpoint span (p : ascii → bool) (l : list ascii) : list ascii * list ascii :=
  match l with
  | c :: l' => if p c then let '(a, b) := span p l' in (c :: a, b) else ([], l)
  | [] => ([], [])
  end.

Definition unitMap (u : string) : option Z :=
  if String.eqb u "ns" then Some 1
  else if String.eqb u "us" || String.eqb u "µs" || String.eqb u "μs" then Some 1000
  else if String.eqb u "ms" then Some Millisecond
  else if String.eqb u "s" then Some Second
  else if String.eqb u "m" then Some (60 * Second)
  else if String.eqb u "h" then Some (3600 * Second)
  else None.

(** One term of a duration: its value in nanoseconds and the rest. *)
Definition parse_term (orig : string) (l : list ascii) : error + Z * list ascii :=
  match l with
  | [] => inl (invalid_duration orig)
  | c :: _ =>
      if negb (Ascii.eqb c "."%char || is_digit c) then inl (invalid_duration orig) else
      match leadingInt 0 l with
      | None => inl (invalid_duration orig)
      | Some (v, l1) =>
          let pre := negb (List.length l1 =? List.length l)%nat in
          let '(f, scale, l2, post) :=
            match l1 with
            | "."%char :: l1' => let '(f, scale, l2) := leadingFraction 0 (f64_of 1) false l1' in
                                 (f, scale, l2, negb (List.length l2 =? List.length l1')%nat)
            | _ => (0, f64_of 1, l1, false)
            end in
          if negb pre && negb post then inl (invalid_duration orig) else
          let '(u, rest) := span in_unit l2 in
          match u with
          | [] => inl (ErrText ("time: missing unit in duration " +:+ time_quote orig))
          | _ =>
              match unitMap (of_chars u) with
              | None => inl (ErrText ("time: unknown unit " +:+ time_quote (of_chars u)
                               +:+ " in duration " +:+ time_quote orig))
              | Some unit =>
                  if 2 ^ 63 / unit <? v then inl (invalid_duration orig)
                  else
                    let v := v * unit + (if 0 <? f then f64_trunc (f64_mul (f64_of f) (f64_div (f64_of unit) scale)) else 0) in
                    if 2 ^ 63 <? v then inl (invalid_duration orig) else inr (v, rest)
              end
          end
      end
  end.

(** The terms; each takes at least one character. *)
Fixpoint parse_terms (fuel : nat) (orig : string) (d : Z) (l : list ascii) : error + Z :=
  match l, fuel with
  | [], _ => inr d
  | _, O => inl (invalid_duration orig)
  | _, S fuel' =>
      match parse_term orig l with
      | inl e => inl e
      | inr (v, rest) =>
          if 2 ^ 63 <? d + v then inl (invalid_duration orig) else parse_terms fuel' orig (d + v) rest
      end
  end.

Definition ParseDuration (s : string) : error + Duration :=
  let '(neg, l) := match chars s with
                   | c :: l => if Ascii.eqb c "-" then (true, l) else if Ascii.eqb c "+" then (false, l) else (false, c :: l)
                   | [] => (false, [])
                   end in
  if String.eqb (of_chars l) "0" then inr 0
  else if String.eqb (of_chars l) "" then inl (invalid_duration s)
  else
    match parse_terms (List.length l) s 0 l with
    | inl e => inl e
    | inr d => if neg : bool then inr (- d)
               else if 2 ^ 63 - 1 <? d then inl (invalid_duration s) else inr d
    end.

(** ** [flag.FlagSet] *)

Inductive flag_value := VString (s : string) | VBool (b : bool) | VDuration (d : Duration).
(** The flags of a set with their current values. *)
Abbreviation FlagSet := (list (string * flag_value)).

Definition ErrHelp : error := ErrText "flag: help requested".

Definition lookup_flag (name : string) (fs : FlagSet) : option flag_value :=
  snd <$> List.find (λ f, String.eqb (fst f) name) fs.
Definition store_flag (name : string) (v : flag_value) (fs : FlagSet) : FlagSet :=
  map (λ f, if String.eqb (fst f) name then (name, v) else f) fs.

(** [Value.Set] of a flag of the kind of [old]. *)
Definition set_value (old : flag_value) (s : string) : error + flag_value :=
  match old with
  | VString _ => inr (VString s)
  | VBool _ => match ParseBool s with Some b => inr (VBool b) | None => inl (ErrText "parse error") end
  | VDuration _ => match ParseDuration s with inr d => inr (VDuration d) | inl _ => inl (ErrText "parse error") end
  end.

(** The argument as a flag: its name and the value after [=]; [None] when it is not a flag,
    and [Some None] for the terminator [--]. *)
Definition flag_arg (s : string) : option (option (error + string * option string)) :=
  match chars s with
  | "-"%char :: c :: l =>
      if Ascii.eqb c "-" && (List.length l =? 0)%nat then Some None
      else
        let name := if Ascii.eqb c "-" then l else c :: l in
        if match name with
           | [] => true
           | d :: _ => Ascii.eqb d "-" || Ascii.eqb d "="
           end
        then Some (Some (inl (ErrText ("bad flag syntax: " +:+ s))))
        else
          let '(n, v, has) := Cut (of_chars name) "="%char in
          Some (Some (inr (n, if has : bool then Some v else None)))
  | _ => None
  end.

Section load.
Context `{UT : UnicodeTables}.

(** A value given to the flag [name]. *)
Definition set_flag (name : string) (old : flag_value) (s : string) (fs : FlagSet) : error + FlagSet :=
  match set_value old s with
  | inr v => inr (store_flag name v fs)
  | inl e => inl (ErrText ((match old with
                            | VBool _ => "invalid boolean value " +:+ quote s +:+ " for -"
                            | _ => "invalid value " +:+ quote s +:+ " for flag -"
                            end) +:+ name +:+ ": " +:+ err_Error e))
  end.

Definition undefined_flag (name : string) : error :=
  if String.eqb name "help" || String.eqb name "h" then ErrHelp
  else ErrText ("flag provided but not defined: -" +:+ name).

(** [FlagSet.Parse] with [ContinueOnError]: the first argument that is not a flag ends the flags. *)
Fixpoint Parse (args : list string) (fs : FlagSet) : error + FlagSet :=
  match args with
  | [] => inr fs
  | s :: rest =>
      match flag_arg s with
      | None | Some None => inr fs
      | Some (Some (inl e)) => inl e
      | Some (Some (inr (name, value))) =>
          match lookup_flag name fs, value, rest with
          | None, _, _ => inl (undefined_flag name)
          | Some (VBool b), _, _ =>
              match set_flag name (VBool b) (default "true" value) fs with
              | inl e => inl e | inr fs' => Parse rest fs' end
          | Some old, Some v, _ =>
              match set_flag name old v fs with inl e => inl e | inr fs' => Parse rest fs' end
          | Some _, None, [] => inl (ErrText ("flag needs an argument: -" +:+ name))
          | Some old, None, v :: rest' =>
              match set_flag name old v fs with inl e => inl e | inr fs' => Parse rest' fs' end
          end
      end
  end.

(** ** The flags of the server *)

(** cmd/tsctl/config.go:22-22, defaultEgressURL. *)
Definition defaultEgressURL : string := "http://captive.tailscale.com/generate_204".

(** cmd/tsctl/config.go:102-112, envDur. *)
Definition envDur (p : Process) (key : string) (def : Duration) : error + Duration :=
  match pr_LookupEnv p key with
  | None => inr def
  | Some v => match ParseDuration (TrimSpace v) with
              | inl e => inl (wrapf ("invalid " +:+ key +:+ " " +:+ quote v +:+ ": ") e)
              | inr d => inr d
              end
  end.

(** cmd/tsctl/config.go:155-189, loadConfig.  The flags and their defaults. *)
Definition flag_defaults (p : Process) (sshTimeoutDef pollIntervalDef : Duration)
    (egressCheckDef requireKeepDef : bool) : FlagSet :=
  [("hostname", VString (env p "TSCTL_HOSTNAME" "tsctl"));
   ("state-dir", VString (env p "TSCTL_STATE_DIR" (env p "STATE_DIRECTORY" "./tsnet-state")));
   ("listen", VString (env p "TSCTL_LISTEN" ":80"));
   ("healthz", VString (env p "TSCTL_HEALTH_ADDR" "127.0.0.1:8088"));
   ("ssh-user", VString (env p "TSCTL_SSH_USER" "root"));
   ("debug", VBool (negb (String.eqb (env p "TSCTL_DEBUG" "") "")));
   ("routers", VString (env p "TSCTL_ROUTERS" ""));
   ("ssh-timeout", VDuration sshTimeoutDef);
   ("owner", VString (env p "TSCTL_OWNER" ""));
   ("http-listen", VString (env p "TSCTL_HTTP_LISTEN" ""));
   ("ui-password", VString (env p "TSCTL_UI_PASSWORD" ""));
   ("allowed-hosts", VString (env p "TSCTL_ALLOWED_HOSTS" ""));
   ("poll-interval", VDuration pollIntervalDef);
   ("exit-node-lan-access", VString (env p "TSCTL_EXIT_NODE_LAN_ACCESS" "preserve"));
   ("egress-check", VBool egressCheckDef);
   ("egress-url", VString (env p "TSCTL_EGRESS_URL" defaultEgressURL));
   ("require-keep", VBool requireKeepDef);
   ("router-transport", VString (env p "TSCTL_ROUTER_TRANSPORT" "tailscale-ssh"));
   ("router-hostkey-mode", VString (env p "TSCTL_ROUTER_HOSTKEY_MODE" "tofu"));
   ("router-addrs", VString (env p "TSCTL_ROUTER_ADDRS" ""))].

Definition get_string (name : string) (fs : FlagSet) : string :=
  match lookup_flag name fs with Some (VString s) => s | _ => "" end.
Definition get_bool (name : string) (fs : FlagSet) : bool :=
  match lookup_flag name fs with Some (VBool b) => b | _ => false end.
Definition get_duration (name : string) (fs : FlagSet) : Duration :=
  match lookup_flag name fs with Some (VDuration d) => d | _ => 0 end.

(** The variables the flags are bound to. *)
Definition flags_of (fs : FlagSet) : Flags :=
  mkFlags (get_string "hostname" fs) (get_string "state-dir" fs) (get_string "listen" fs)
    (get_string "healthz" fs) (get_string "ssh-user" fs) (get_bool "debug" fs) (get_string "routers" fs)
    (get_duration "ssh-timeout" fs) (get_string "owner" fs) (get_string "http-listen" fs)
    (get_string "ui-password" fs) (get_string "allowed-hosts" fs) (get_duration "poll-interval" fs)
    (get_string "exit-node-lan-access" fs) (get_bool "egress-check" fs) (get_string "egress-url" fs)
    (get_bool "require-keep" fs) (get_string "router-transport" fs) (get_string "router-hostkey-mode" fs)
    (get_string "router-addrs" fs).

(** cmd/tsctl/config.go:131-189, loadConfig.  The flags, from the environment and the arguments. *)
Definition load_flags (p : Process) (args : list string) : error + Flags :=
  match envDur p "TSCTL_SSH_TIMEOUT" (15 * Second) with
  | inl e => inl e
  | inr sshTimeoutDef =>
  match envDur p "TSCTL_POLL_INTERVAL" (30 * Second) with
  | inl e => inl e
  | inr pollIntervalDef =>
  match envBool p "TSCTL_EGRESS_CHECK" true with
  | inl e => inl e
  | inr egressCheckDef =>
  match envBool p "TSCTL_REQUIRE_KEEP" false with
  | inl e => inl e
  | inr requireKeepDef =>
      match Parse args (flag_defaults p sshTimeoutDef pollIntervalDef egressCheckDef requireKeepDef) with
      | inl e => inl e
      | inr fs => inr (flags_of fs)
      end
  end end end end.

(** cmd/tsctl/config.go:131-272, loadConfig. *)
Definition loadConfig (p : Process) (args : list string) : error + Config :=
  match load_flags p args with
  | inl e => inl e
  | inr f => resolveConfig p f
  end.
End load.
