(* ===== verification/ConfigFacts.v ===== *)
(** The configuration that is accepted: what is guaranteed of it, and that the
    client it builds is the one that was asked for. *)

From S2P Require Import Prelude GoStd Errors Store Netip Ipnstate Authz Json Session Wire Api.
From S2P Require Import AtomicFile FileStore.
From S2P Require Import Poller Router HostKey Transport Config CommandLine.
Import Api.OnState.

(** ** Paths

    The path of a store's file ends in the file's name. *)
Lemma clean_segments_snoc rooted out segs f :
  f ≠ "" → f ≠ "." → f ≠ ".." →
  clean_segments rooted out (segs ++ [f]) = f :: clean_segments rooted out segs.
Proof.
  intros H1%String.eqb_neq H2%String.eqb_neq H3%String.eqb_neq. revert out.
  induction segs as [| s segs IH]; intros out; simpl; [by rewrite H1, H2, H3 |].
  destruct (_ || _); [done |]. destruct (String.eqb s ".."); [| done].
  destruct out as [| t out]; [done |]. by destruct (String.eqb t "..").
Qed.

Definition slashless (f : string) : bool := forallb (λ c, negb (Ascii.eqb c "/")) (chars f).

Lemma split_chars_plain acc f :
  forallb (λ c, negb (Ascii.eqb c "/")) f = true → split_chars "/" acc f = [rev acc ++ f].
Proof.
  revert acc. induction f as [| c f IH]; intros acc; simpl; [by rewrite app_nil_r |].
  intros [Hc%negb_true_iff Hf]%andb_true_iff. rewrite Hc, IH by done. simpl. by rewrite <- (assoc (++)).
Qed.

Lemma split_slash_snoc d f : slashless f = true → ∃ ls, split_slash (d +:+ "/" +:+ f) = ls ++ [f].
Proof.
  intros Hf. unfold split_slash. rewrite !chars_app. simpl (chars "/").
  assert (∀ acc, ∃ ls, split_chars "/" acc (chars d ++ ["/"%char] ++ chars f) = ls ++ [chars f]) as Hs.
  { generalize (chars d). intros l. induction l as [| c l IH]; intros acc.
    - exists [rev acc]. simpl. by rewrite split_chars_plain.
    - simpl. destruct (Ascii.eqb c "/"); [| apply IH]. destruct (IH []) as [ls E]. simpl in E. rewrite E.
      by exists (rev acc :: ls). }
  destruct (Hs []) as [ls E]. simpl in E |- *. rewrite E. exists (of_chars <$> ls).
  rewrite fmap_app. simpl. by rewrite of_chars_chars.
Qed.

Lemma last_chars f : f ≠ "" → is_Some (last (chars f)).
Proof. intros Hf. apply last_is_Some. by destruct f. Qed.

Lemma last_join l f : f ≠ "" → last (chars (join_with "/" (l ++ [f]))) = last (chars f).
Proof.
  intros Hf. destruct (last_chars f Hf) as [c Hc]. rewrite Hc.
  induction l as [| x l IH]; [done |].
  destruct l as [| y l]; simpl in *; rewrite !chars_app, !last_app; [by rewrite Hc | by rewrite IH].
Qed.

Lemma Join_last d f :
  f ≠ "" → f ≠ "." → f ≠ ".." → slashless f = true → last (chars (Join [d; f])) = last (chars f).
Proof.
  intros H1 H2 H3 Hs. destruct (last_chars f H1) as [ch Hch].
  assert (∀ p, (∃ ls, split_slash p = ls ++ [f]) → last (chars (Clean p)) = last (chars f)) as Hclean.
  { intros p [ls E]. unfold Clean. rewrite E, clean_segments_snoc by done. simpl rev.
    pose proof (λ b, last_join (rev (clean_segments b [] ls)) f H1) as Hl.
    destruct (HasPrefix p "/").
    - by rewrite chars_app, last_app, Hl, Hch.
    - specialize (Hl false). destruct (String.eqb_spec (join_with "/" (rev (clean_segments false [] ls) ++ [f])) "")
        as [E' |]; [| done]. rewrite E' in Hl. by rewrite Hch in Hl. }
  unfold Join. simpl. rewrite (proj2 (String.eqb_neq f "") H1). simpl.
  destruct (String.eqb d ""); simpl; apply Hclean.
  - exists []. unfold split_slash. rewrite split_chars_plain by done. simpl. by rewrite of_chars_chars.
  - by apply split_slash_snoc.
Qed.

(** So it is none of the temporary files. *)
Lemma Join_not_temp pkg d dir f :
  f ≠ "" → f ≠ "." → f ≠ ".." → slashless f = true → last (chars f) ≠ Some "p"%char →
  not_temp pkg (Join [d; f]) dir.
Proof.
  intros H1 H2 H3 Hs Hp r E. apply (f_equal (λ p, last (chars p))) in E. rewrite Join_last in E by done.
  apply Hp. rewrite E, !chars_app, !last_app. done.
Qed.

Section facts.
Context `{UT : UnicodeTables}.

Lemma mem_elem s l : mem s l = true ↔ s ∈ l.
Proof. unfold mem. rewrite existsb_elem. setoid_rewrite String.eqb_eq. naive_solver. Qed.

Lemma check_routers_None l : check_routers l = None ↔ ∀ r, r ∈ l → ∃ ip, ParseAddr r = inr ip.
Proof.
  induction l as [| r l IH]; simpl; [split; [by intros _ r ?%not_elem_of_nil | done] |].
  destruct (ParseAddr r) as [e | ip] eqn:Hp.
  - split; [done |]. intros H. destruct (H r) as [ip Hip]; [left | congruence].
  - rewrite IH. setoid_rewrite elem_of_cons. naive_solver.
Qed.

Lemma requireLoopback_None addr :
  requireLoopback addr = None ↔
  ∃ host port ip, SplitHostPort addr = inr (host, port) ∧ ParseAddr host = inr ip ∧ IsLoopback ip = true.
Proof.
  unfold requireLoopback. destruct (SplitHostPort addr) as [e | [h p]]; [naive_solver |]. split.
  - destruct (ParseAddr h) as [e | ip] eqn:Hp; [done |]. destruct (IsLoopback ip) eqn:Hl; [| done].
    intros _. by exists h, p, ip.
  - intros (h' & p' & ip & [= <- <-] & -> & ->). done.
Qed.

(** The conditions of [validate]. *)
Definition valid_config (c : Config) : Prop :=
  cfg_Hostname c ≠ "" ∧ cfg_StateDir c ≠ "" ∧ cfg_Listen c ≠ "" ∧ cfg_SSHUser c ≠ "" ∧
  (∃ host port ip, SplitHostPort (cfg_HealthAddr c) = inr (host, port) ∧ ParseAddr host = inr ip ∧
     IsLoopback ip = true) ∧
  (cfg_HTTPListen c = "" ∨ ∃ hp, SplitHostPort (cfg_HTTPListen c) = inr hp) ∧
  (∀ r, r ∈ cfg_Routers c → ∃ ip, ParseAddr r = inr ip) ∧
  ValidateEgressURL (cfg_EgressURL c) = None ∧
  cfg_RouterTransport c ∈ ["tailscale-ssh"; "ip-password"; "tailnet-password"] ∧
  cfg_RouterHostKeyMode c ∈ ["tofu"; "strict"; "pin"; "insecure"] ∧
  (cfg_RouterTransport c ≠ "tailscale-ssh" → cfg_SSHPassword c ≠ "") ∧
  (cfg_RouterTransport c = "ip-password" → cfg_RouterHostKeyMode c ≠ "insecure" → cfg_KnownHostsPath c ≠ "").

Lemma validate_None c : validate c = None ↔ valid_config c.
Proof.
  unfold validate, valid_config.
  destruct (String.eqb_spec (cfg_Hostname c) ""); [naive_solver |].
  destruct (String.eqb_spec (cfg_StateDir c) ""); [naive_solver |].
  destruct (String.eqb_spec (cfg_Listen c) ""); [naive_solver |].
  destruct (String.eqb_spec (cfg_SSHUser c) ""); [naive_solver |].
  rewrite <- requireLoopback_None. destruct (requireLoopback (cfg_HealthAddr c)); [naive_solver |].
  assert ((if String.eqb (cfg_HTTPListen c) "" then None
         else match SplitHostPort (cfg_HTTPListen c) with
              | inl e => Some (ErrWrap ("http-listen " +:+ quote (cfg_HTTPListen c) +:+ ": " +:+ err_Error e
                                        +:+ " (want host:port, e.g. :8080)") e)
              | inr _ => None
              end) = None ↔ (cfg_HTTPListen c = "" ∨ ∃ hp, SplitHostPort (cfg_HTTPListen c) = inr hp)) as Hhl.
  { destruct (String.eqb_spec (cfg_HTTPListen c) ""); [naive_solver |].
    destruct (SplitHostPort (cfg_HTTPListen c)); naive_solver. }
  rewrite <- Hhl. destruct (if String.eqb (cfg_HTTPListen c) "" then _ else _); [naive_solver |].
  rewrite <- check_routers_None. destruct (check_routers (cfg_Routers c)); [naive_solver |].
  destruct (ValidateEgressURL (cfg_EgressURL c)); [naive_solver |].
  rewrite <- (mem_elem (cfg_RouterTransport c)), <- (mem_elem (cfg_RouterHostKeyMode c)).
  destruct (mem (cfg_RouterTransport c) _) eqn:Ht; cbn [negb]; [| naive_solver].
  destruct (mem (cfg_RouterHostKeyMode c) _); cbn [negb]; [| naive_solver].
  apply mem_elem in Ht. rewrite !elem_of_cons, elem_of_nil in Ht.
  destruct Ht as [E | [E | [E | []]]]; rewrite E; simpl; [naive_solver | |].
  - destruct (String.eqb_spec (cfg_SSHPassword c) ""); simpl; [naive_solver |].
    destruct (String.eqb_spec (cfg_RouterHostKeyMode c) "insecure"); simpl; [naive_solver |].
    destruct (String.eqb_spec (cfg_KnownHostsPath c) ""); simpl; naive_solver.
  - destruct (String.eqb_spec (cfg_SSHPassword c) ""); simpl; naive_solver.
Qed.

Lemma comma_list_elem s r : r ∈ comma_list s → r ≠ "" ∧ TrimSpace r = r.
Proof.
  unfold comma_list. rewrite elem_of_filter_bool, list_elem_of_In, in_map_iff.
  intros [(x & <- & _) Hne%negb_true_iff%String.eqb_neq]. split; [done | apply TrimSpace_idem].
Qed.

Lemma parse_pairs_ok acc l m :
  parse_pairs acc l = inr m → map_Forall (λ k v, (∃ ip, ParseAddr k = inr ip) ∧ v ≠ "") acc →
  map_Forall (λ k v, (∃ ip, ParseAddr k = inr ip) ∧ v ≠ "") m.
Proof.
  revert acc. induction l as [| kv l IH]; intros acc; simpl; [by intros [= ->] |].
  destruct (parse_pair kv) as [e | [id ep]] eqn:Hp; [done |]. intros H Hacc. apply (IH _ H).
  apply map_Forall_insert_2; [| done]. revert Hp. unfold parse_pair.
  destruct (Cut kv "="%char) as [[a b] ok].
  destruct ok; simpl; [| done]. destruct (String.eqb_spec (TrimSpace a) ""); simpl; [done |].
  destruct (String.eqb_spec (TrimSpace b) ""); simpl; [done |].
  destruct (ParseAddr (TrimSpace a)) as [e | ip] eqn:Hip; [done |]. intros [= <- <-]. eauto.
Qed.

Lemma resolve_inv p f c :
  resolveConfig p f = inr c →
  valid_config c ∧ cfg_Hostname c ∈ cfg_AllowedHosts c ∧
  (∀ r, r ∈ cfg_Routers c → r ≠ "" ∧ TrimSpace r = r) ∧
  map_Forall (λ k v, (∃ ip, ParseAddr k = inr ip) ∧ v ≠ "") (cfg_RouterAddrs c).
Proof.
  unfold resolveConfig. destruct (parse_lan_access _) as [e | lan]; [done |].
  destruct (loadAuthKey p) as [e | key]; [done |].
  destruct (parse_pairs ∅ _) as [e | addrs] eqn:Hpairs; [done |].
  destruct (loadSSHPassword p) as [e | pw]; [done |]. cbv zeta.
  match goal with |- context [validate ?x] => set (c0 := x) end.
  destruct (validate c0) eqn:Hv; [done |]. intros [= <-]. apply validate_None in Hv.
  split; [done |]. split; [left |]. split; [apply comma_list_elem |].
  eapply parse_pairs_ok; [exact Hpairs | apply map_Forall_empty].
Qed.

Context {K : Type} `{KH : KnownHosts K} {H : Type} `{FS : HostFS H}.

End facts.

Section gated.
Context `{UT : UnicodeTables} `{JT : JSONText} `{UP : URLParser} {W : Type} `{WI : !WhoIser (M W)}
  `{CT : !Controller (M W)} `{GS : !GroupStore (M W)} `{GU : !GuestStore (M W)} `{AW : !ApiWorld (M W)}.

(** The event stream is behind the same two gates as the data: the request must
    authenticate and its Host must be allowed; and the hub then runs with the subject
    the request authenticated as and with a check that authenticates the request
    again.  Every other path under /api/ is the API's. *)
Theorem buildMux_gated (a : API) (hub files : Api.Handler (T := M W)) r ctx w :
  buildMux (T := M W) a hub files r ctx w =
  if bool_decide (r_Path r = ["api"; "events"]) then
    match resolveSubject a r w with
    | (None, w1) => (writeErr 401 "login required", w1)
    | (Some sub, w1) =>
        if hostAllowed a (r_Host r) then
          hub r (mkCtx (Some sub) (Some (s ← resolveSubject a r; mret (bool_decide (is_Some s))))) w1
        else (writeErr 403 "bad Host header", w1)
    end
  else if match r_Path r with x :: _ :: _ => String.eqb x "api" | _ => false end
  then Routes a r ctx w else files r ctx w.
Proof.
  unfold buildMux, Api.RequireAuth, RequireHost, mbind, M_bind.
  case_bool_decide.
  - destruct (resolveSubject a r w) as [[sub |] w1]; [| done]. by destruct (hostAllowed a (r_Host r)).
  - destruct (r_Path r) as [| x [| y l]]; [done | done |]. by destruct (String.eqb x "api").
Qed.
End gated.
