(* ===== verification/CommandLineFacts.v ===== *)
(** The command line can express every configuration, and wins over the environment. *)

From S2P Require Import Prelude GoStd Errors Store Netip NetipFacts Ipnstate Router Config CommandLine.

(** The table of the standard library's own tests of [time.ParseDuration]. *)
Example ParseDuration_table :
  Forall (λ '(s, d), ParseDuration s = inr d)
    [("0", 0); ("5s", 5 * Second); ("-5s", - (5 * Second)); ("+5s", 5 * Second); ("5.0s", 5 * Second);
     ("5.6s", 5600 * Millisecond); ("5.s", 5 * Second); (".5s", 500 * Millisecond);
     ("100.00100s", 100001 * Millisecond); ("12µs", 12000); ("12μs", 12000); ("3h30m", 12600 * Second);
     ("10.5s4m", 250500 * Millisecond); ("1h2m3s4ms5us6ns", 3723004005006);
     ("9223372036854775807ns", 2 ^ 63 - 1); ("9223372036s854ms775us807ns", 2 ^ 63 - 1);
     ("-9223372036854775808ns", - 2 ^ 63); ("0.3333333333333333333h", 1200 * Second);
     ("0.9223372036854775807ns", 0); ("0.830103483285477580700h", 2988372539827)] ∧
  Forall (λ s, ∃ e, ParseDuration s = inl e)
    [""; "3"; "-"; "s"; "."; "-."; ".s"; "+.s"; "1d"; "9223372036854775810ns"; "9223372036854775808ns";
     "3000000h"].
Proof. split; repeat constructor; vm_compute; eauto. Qed.

(** ** Durations *)

Lemma digit_val_nonneg c : is_digit c = true → 0 <= digit_val c.
Proof.
  unfold is_digit, in_range, digit_val. intros [H%Z.leb_le _]%andb_true_iff. lia.
Qed.

Lemma digits_val_ge x ds z :
  0 <= x → forallb is_digit ds = true → digits_val x ds = Some z → x <= z.
Proof.
  revert x. induction ds as [| c ds IH]; intros x Hx; simpl; [intros _ [= ->]; lia |].
  intros [Hc Hds]%andb_true_iff. rewrite Hc. intros H.
  pose proof (digit_val_nonneg c Hc) as Hv.
  apply IH in H; [lia | lia | done].
Qed.

Lemma leadingInt_digits x ds rest z :
  0 <= x → forallb is_digit ds = true → digits_val x ds = Some z → z <= 2 ^ 63 →
  match rest with c :: _ => is_digit c = false | [] => True end →
  leadingInt x (ds ++ rest) = Some (z, rest).
Proof.
  revert x. induction ds as [| c ds IH]; intros x Hx; simpl.
  - intros _ [= ->] _ Hr. destruct rest as [| c rest]; [done |]. simpl. by rewrite Hr.
  - intros [Hc Hds]%andb_true_iff. rewrite Hc. intros H Hz Hr.
    pose proof (digit_val_nonneg c Hc) as Hv.
    pose proof (digits_val_ge (x * 10 + digit_val c) ds z ltac:(lia) Hds H) as Hge.
    rewrite (proj2 (Z.ltb_ge _ _)) by (apply Z.div_le_lower_bound; lia).
    rewrite (proj2 (Z.ltb_ge _ _)) by lia. by apply IH; [lia | ..].
Qed.

Definition ns : list ascii := ["n"%char; "s"%char].

Lemma parse_term_ns orig ds z :
  forallb is_digit ds = true → ds ≠ [] → digits_val 0 ds = Some z → z <= 2 ^ 63 →
  parse_term orig (ds ++ ns) = inr (z, []).
Proof.
  intros Hd Hne Hv Hz. pose proof (leadingInt_digits 0 ds ns z ltac:(done) Hd Hv Hz eq_refl) as Hl.
  destruct ds as [| c ds]; [done |]. pose proof Hd as [Hc _]%andb_true_iff.
  change ((c :: ds) ++ ns) with (c :: ds ++ ns) in *. unfold parse_term. rewrite Hc, orb_true_r. cbn [negb].
  rewrite Hl.
  assert ((List.length ns =? List.length (c :: ds ++ ns))%nat = false) as ->.
  { apply Nat.eqb_neq. simpl. rewrite length_app. simpl. lia. }
  cbv beta iota delta [ns negb andb]. change (span in_unit ["n"%char; "s"%char]) with (ns, @nil ascii).
  cbv beta iota delta [ns]. change (unitMap (of_chars ["n"%char; "s"%char])) with (Some 1).
  change (0 <? 0) with false. cbv beta iota.
  by rewrite Z.div_1_r, Z.mul_1_r, Z.add_0_r, (proj2 (Z.ltb_ge (2 ^ 63) z) Hz).
Qed.

Lemma parse_terms_ns n orig ds z :
  forallb is_digit ds = true → ds ≠ [] → digits_val 0 ds = Some z → z <= 2 ^ 63 →
  (0 < n)%nat → parse_terms n orig 0 (ds ++ ns) = inr z.
Proof.
  intros Hd Hne Hv Hz Hn. destruct n as [| n]; [lia |].
  pose proof (parse_term_ns orig ds z Hd Hne Hv Hz) as Ht.
  destruct ds as [| c ds]; [done |]. cbn [app parse_terms] in *. rewrite Ht, Z.add_0_l.
  rewrite (proj2 (Z.ltb_ge _ _)) by lia. by destruct n.
Qed.

(** The text of a number and a unit is neither empty nor "0". *)
Lemma ns_text ds :
  ds ≠ [] → String.eqb (of_chars (ds ++ ns)) "0" = false ∧ String.eqb (of_chars (ds ++ ns)) "" = false.
Proof. destruct ds as [| c [| c' ds]]; [done | |]; intros _; split; simpl; try done; by destruct (Ascii.eqb c "0"). Qed.

(** *** The fuel of [parse_terms] *)

Lemma leadingInt_shorter x l v r : leadingInt x l = Some (v, r) → (List.length r <= List.length l)%nat.
Proof.
  revert x. induction l as [| c l IH]; intros x; simpl; [by intros [= _ <-] |].
  repeat case_match; try done; try (intros H'%IH; lia). by intros [= _ <-].
Qed.

Lemma leadingFraction_shorter x sc o l v sc' r :
  leadingFraction x sc o l = (v, sc', r) → (List.length r <= List.length l)%nat.
Proof.
  revert x sc o. induction l as [| c l IH]; intros x sc o; simpl; [by intros [= _ _ <-] |].
  repeat case_match; try (intros H'%IH; lia). by intros [= _ _ <-].
Qed.

Lemma span_length p l : (List.length (fst (span p l)) + List.length (snd (span p l)) = List.length l)%nat.
Proof.
  induction l as [| c l IH]; simpl; [done |]. destruct (p c); [| done].
  destruct (span p l) as [a b]. simpl in *. lia.
Qed.

(** A term takes at least one character. *)
Lemma parse_term_shorter orig l v rest :
  parse_term orig l = inr (v, rest) → (List.length rest < List.length l)%nat.
Proof.
  unfold parse_term. destruct l as [| c l]; [done |]. destruct (negb _); [done |].
  destruct (leadingInt 0 (c :: l)) as [[x l1] |] eqn:Hl; [| done]. apply leadingInt_shorter in Hl.
  assert (Hsp : ∀ l2, (List.length l2 <= List.length l1)%nat → ∀ a u,
    span in_unit l2 = (a :: u, rest) → (List.length rest < List.length (c :: l))%nat).
  { intros l2 H2 a u Hs. pose proof (span_length in_unit l2) as H. rewrite Hs in H. simpl in *. lia. }
  destruct (match l1 with "."%char :: _ => _ | _ => _ end) as [[[f sc] l2] post] eqn:E.
  assert (H2 : (List.length l2 <= List.length l1)%nat).
  { destruct l1 as [| c1 l1']; [by injection E as _ _ <- _ |].
    destruct (Ascii.eqb_spec c1 "."%char) as [-> | Hc].
    - destruct (leadingFraction 0 (f64_of 1) false l1') as [[f' sc'] l2'] eqn:Ef.
      apply leadingFraction_shorter in Ef. injection E as _ _ <- _. simpl. lia.
    - assert ((0, f64_of 1, c1 :: l1', false) = (f, sc, l2, post)) as [= _ _ <- _]; [| done].
      rewrite <- E. destruct c1 as [[] [] [] [] [] [] [] []]; done. }
  cbv zeta. destruct (negb _ && negb post); [done |].
  destruct (span in_unit l2) as [[| a u] r] eqn:Hs; [done |]. repeat case_match; try done;
    intros [= _ ->]; by eapply Hsp.
Qed.

(** More fuel than the length of the text changes nothing: the fuel never runs out. *)
Lemma parse_terms_enough n orig d l :
  (List.length l <= n)%nat → parse_terms n orig d l = parse_terms (List.length l) orig d l.
Proof.
  cut (∀ n m d l, (List.length l <= n)%nat → (List.length l <= m)%nat →
         parse_terms n orig d l = parse_terms m orig d l).
  { intros H Hn. by apply H. }
  clear. intros n. induction n as [| n IH]; intros m d [| c l] Hn Hm; simpl in Hn; try lia.
  - by destruct m.
  - by destruct m.
  - destruct m as [| m]; [simpl in Hm; lia |]. cbn [parse_terms].
    destruct (parse_term orig (c :: l)) as [e | [v rest]] eqn:Ht; [done |].
    apply parse_term_shorter in Ht. simpl in *. destruct (2 ^ 63 <? d + v); [done |]. apply IH; lia.
Qed.

(** Printing a duration in nanoseconds and parsing it. *)
Lemma ParseDuration_itoa d :
  - 2 ^ 63 <= d < 2 ^ 63 → ParseDuration (itoa d +:+ "ns") = inr d.
Proof.
  intros Hd. unfold ParseDuration. rewrite chars_app. change (chars "ns") with ns.
  destruct (Z.le_gt_cases 0 d) as [Hp | Hp].
  - destruct (itoa_digits d Hp) as (Hds & Hne & Hv). destruct (ns_text _ Hne) as [H0 H1].
    pose proof (parse_terms_ns (List.length (chars (itoa d) ++ ns)) (itoa d +:+ "ns") _ _ Hds Hne Hv ltac:(lia)) as Ht.
    destruct (chars (itoa d)) as [| c ds] eqn:E; [done |]. cbn [app] in *.
    pose proof Hds as [Hc _]%andb_true_iff.
    destruct (Ascii.eqb_spec c "-") as [-> |]; [done |]. destruct (Ascii.eqb_spec c "+") as [-> |]; [done |].
    rewrite H0, H1, Ht by (simpl; lia). by rewrite (proj2 (Z.ltb_ge _ _)) by lia.
  - assert (chars (itoa d) = "-"%char :: chars (itoa (- d))) as ->.
    { unfold itoa, pretty, pretty_Z. by destruct d. }
    destruct (itoa_digits (- d) ltac:(lia)) as (Hds & Hne & Hv). destruct (ns_text _ Hne) as [H0 H1].
    cbn [app]. rewrite Ascii.eqb_refl, H0, H1, (parse_terms_ns _ _ _ _ Hds Hne Hv); [by rewrite Z.opp_involutive | lia |].
    rewrite length_app. simpl. lia.
Qed.

(** ** Flags *)

(** The argument that gives a flag a value, and the text of a value. *)
Definition flag_text (name v : string) : string := "-" +:+ name +:+ "=" +:+ v.
Definition value_text (v : flag_value) : string :=
  match v with
  | VString s => s
  | VBool b => if b then "true" else "false"
  | VDuration d => itoa d +:+ "ns"
  end.

Definition name_ok (name : string) : bool :=
  match chars name with
  | c :: _ => negb (Ascii.eqb c "-") && negb (existsb (Ascii.eqb "=") (chars name))
  | [] => false
  end.
Definition value_ok (v : flag_value) : Prop :=
  match v with VDuration d => - 2 ^ 63 <= d < 2 ^ 63 | _ => True end.
Definition same_kind (v v' : flag_value) : Prop :=
  match v, v' with
  | VString _, VString _ | VBool _, VBool _ | VDuration _, VDuration _ => True
  | _, _ => False
  end.

Lemma Cut_text name sep v :
  lacks sep (chars name) →
  Cut (of_chars (chars name ++ sep :: chars v)) sep = (name, v, true).
Proof.
  intros H. unfold Cut, IndexByte, str_take, str_drop. rewrite chars_of_chars, (index_byte_app _ _ _ H).
  rewrite take_app_length. change (S (List.length (chars name))) with (1 + List.length (chars name))%nat.
  rewrite Nat.add_comm, <- drop_drop, drop_app_length. simpl.
  by rewrite drop_0, !of_chars_chars.
Qed.

Lemma flag_arg_text name v :
  name_ok name = true → flag_arg (flag_text name v) = Some (Some (inr (name, Some v))).
Proof.
  unfold name_ok, flag_arg, flag_text. intros H. rewrite chars_app. change (chars "-") with ["-"%char].
  rewrite chars_app, chars_app. change (chars "=") with ["="%char]. cbn [app].
  pose proof (Cut_text name "=" v) as Hcut.
  destruct (chars name) as [| c l]; [done |]. apply andb_true_iff in H as [Hc Hl].
  apply negb_true_iff in Hl.
  specialize (Hcut Hl). apply negb_true_iff in Hc. cbn [existsb] in Hl.
  apply orb_false_iff in Hl as [He _]. rewrite Ascii.eqb_sym in He.
  cbn [app] in *. cbv zeta. by rewrite Hc, He, Hc, Hcut.
Qed.

Example flag_arg_table :
  map flag_arg ["serve"; "-"; "--"; "-x"; "--x=1=2"; "-x="] =
    [None; None; Some None; Some (Some (inr ("x", None))); Some (Some (inr ("x", Some "1=2")));
     Some (Some (inr ("x", Some "")))] ∧
  Forall (λ s, ∃ e, flag_arg s = Some (Some (inl e))) ["---x"; "-=1"; "--=1"].
Proof. split; [reflexivity | repeat constructor; eexists; reflexivity]. Qed.

Lemma lookup_store m n v fs :
  lookup_flag m (store_flag n v fs) =
    if String.eqb n m then (λ _, v) <$> lookup_flag m fs else lookup_flag m fs.
Proof.
  unfold lookup_flag, store_flag. induction fs as [| [k u] fs IH]; simpl; [by case_match |].
  destruct (String.eqb_spec k n) as [-> | Hk]; simpl; [by destruct (String.eqb_spec n m) |].
  destruct (String.eqb_spec k m) as [-> | Hm]; [| done].
  destruct (String.eqb_spec n m) as [-> |]; done.
Qed.

(** A setting of a flag of the set. *)
Definition setting_ok (fs : FlagSet) (s : string * flag_value) : Prop :=
  name_ok (fst s) = true ∧ value_ok (snd s) ∧
  ∃ old, lookup_flag (fst s) fs = Some old ∧ same_kind old (snd s).

Lemma setting_ok_store fs n v s :
  (∃ old, lookup_flag n fs = Some old ∧ same_kind old v) → setting_ok fs s →
  setting_ok (store_flag n v fs) s.
Proof.
  intros (o & Ho & Hk) (Hn & Hv & o' & Ho' & Hk'). split_and!; [done | done |].
  rewrite lookup_store. destruct (String.eqb_spec n (fst s)) as [-> | _]; [| eauto].
  assert (o = o') as -> by congruence.
  rewrite Ho'. exists v. split; [done |]. by destruct o', v, (snd s).
Qed.

Definition apply_settings (settings : list (string * flag_value)) (fs : FlagSet) : FlagSet :=
  fold_left (λ fs s, store_flag (fst s) (snd s) fs) settings fs.
Definition setting_args (settings : list (string * flag_value)) : list string :=
  map (λ s, flag_text (fst s) (value_text (snd s))) settings.

Section load.
Context `{UT : UnicodeTables}.

Lemma set_flag_text n old v fs :
  value_ok v → same_kind old v → set_flag n old (value_text v) fs = inr (store_flag n v fs).
Proof.
  intros Hv Hk. unfold set_flag. assert (set_value old (value_text v) = inr v) as ->; [| done].
  destruct old, v as [s' | b' | d']; try done; simpl; [by destruct b' |]. by rewrite ParseDuration_itoa.
Qed.

#[local] Arguments set_flag : simpl never.

(** Settings given as arguments are all stored, before whatever follows them. *)
Lemma Parse_settings settings rest fs :
  Forall (setting_ok fs) settings →
  Parse (setting_args settings ++ rest) fs = Parse rest (apply_settings settings fs).
Proof.
  revert fs. induction settings as [| [n v] l IH]; intros fs; [done |].
  intros [(Hn & Hv & old & Ho & Hk) Hl]%Forall_cons. simpl in *. rewrite (flag_arg_text _ _ Hn), Ho.
  assert (Hs : Parse (setting_args l ++ rest) (store_flag n v fs)
               = Parse rest (apply_settings l (store_flag n v fs))).
  { apply IH. eapply Forall_impl; [exact Hl |]. intros s. apply setting_ok_store. eauto. }
  pose proof (set_flag_text n old v fs Hv Hk) as Hf.
  destruct old, v; try done; simpl in *; by rewrite Hf.
Qed.


(** The settings that write a configuration as arguments. *)
Definition settings_of (f : Flags) : list (string * flag_value) :=
  [("hostname", VString (fl_Hostname f)); ("state-dir", VString (fl_StateDir f));
   ("listen", VString (fl_Listen f)); ("healthz", VString (fl_HealthAddr f));
   ("ssh-user", VString (fl_SSHUser f)); ("debug", VBool (fl_Debug f));
   ("routers", VString (fl_routers f)); ("ssh-timeout", VDuration (fl_SSHTimeout f));
   ("owner", VString (fl_Owner f)); ("http-listen", VString (fl_HTTPListen f));
   ("ui-password", VString (fl_UIPassword f)); ("allowed-hosts", VString (fl_allowed f));
   ("poll-interval", VDuration (fl_PollInterval f)); ("exit-node-lan-access", VString (fl_lanAccess f));
   ("egress-check", VBool (fl_EgressCheck f)); ("egress-url", VString (fl_EgressURL f));
   ("require-keep", VBool (fl_RequireKeep f)); ("router-transport", VString (fl_RouterTransport f));
   ("router-hostkey-mode", VString (fl_RouterHostKeyMode f)); ("router-addrs", VString (fl_routerAddrs f))].

Lemma settings_of_ok p d1 d2 b1 b2 f :
  - 2 ^ 63 <= fl_SSHTimeout f < 2 ^ 63 → - 2 ^ 63 <= fl_PollInterval f < 2 ^ 63 →
  Forall (setting_ok (flag_defaults p d1 d2 b1 b2)) (settings_of f).
Proof.
  intros H1 H2. repeat constructor; simpl; try lia; eexists; (split; [reflexivity | exact I]).
Qed.

Lemma flags_of_settings p d1 d2 b1 b2 f :
  flags_of (apply_settings (settings_of f) (flag_defaults p d1 d2 b1 b2)) = f.
Proof. by destruct f. Qed.

(** The variables of the environment that are not texts. *)
Definition env_parses (p : Process) : Prop :=
  (∃ d, envDur p "TSCTL_SSH_TIMEOUT" (15 * Second) = inr d) ∧
  (∃ d, envDur p "TSCTL_POLL_INTERVAL" (30 * Second) = inr d) ∧
  (∃ b, envBool p "TSCTL_EGRESS_CHECK" true = inr b) ∧ (∃ b, envBool p "TSCTL_REQUIRE_KEEP" false = inr b).

(** C40: The command line can express every configuration, and it wins over the environment: the
    arguments that write the flags [f] make [loadConfig] resolve exactly [f], whatever valid
    environment the process has; and a broken variable of the environment stops the server even when
    the arguments set its flag. *)
Theorem command_line_roundtrip p f rest :
  - 2 ^ 63 <= fl_SSHTimeout f < 2 ^ 63 → - 2 ^ 63 <= fl_PollInterval f < 2 ^ 63 →
  match rest with s :: _ => flag_arg s = None | [] => True end →
  (env_parses p → loadConfig p (setting_args (settings_of f) ++ rest) = resolveConfig p f) ∧
  (¬ env_parses p → ∃ e, loadConfig p (setting_args (settings_of f) ++ rest) = inl e).
Proof.
  intros H1 H2 Hr. unfold loadConfig, load_flags, env_parses. split.
  - intros ([d1 ->] & [d2 ->] & [b1 ->] & [b2 ->]).
    rewrite Parse_settings by (by apply settings_of_ok).
    assert (∀ fs, Parse rest fs = inr fs) as -> by (intros fs; destruct rest; simpl; [| rewrite Hr]; done).
    by rewrite flags_of_settings.
  - intros Hn. destruct (envDur p "TSCTL_SSH_TIMEOUT" _) eqn:?; [by eexists |].
    destruct (envDur p "TSCTL_POLL_INTERVAL" _) eqn:?; [by eexists |].
    destruct (envBool p "TSCTL_EGRESS_CHECK" _) eqn:?; [by eexists |].
    destruct (envBool p "TSCTL_REQUIRE_KEEP" _) eqn:?; [by eexists |].
    destruct Hn. split_and!; by eexists.
Qed.
End load.
