(* ===== verification/System.v ===== *)
(** [cmd/tsctl serve]: the parts put together.  The state of a server is the
    poller, the two stores and the outside world; the interfaces that the API and
    the poller are written against are implemented here by the components, and what
    is left of the world is the process ([Host]), the tailnet ([LocalClient]) and
    the SSH library ([SSHLib]). *)

From S2P Require Import Prelude GoStd Errors Store Netip Ipnstate Netmap Authz Json Session Wire Api ApiFacts.
From S2P Require Import Conc Poller PollerConc AtomicFile FileStore Router RouterProto HostKey Transport Ssh Config CommandLine.
From S2P Require Groups Guests.

(** What the process takes from the operating system: the clock, the random sources
    and a wait. *)
Class Host (N : Type) := {
  host_Now : M N Time;
  host_Rand : nat → M N (error + list Z);
  host_Uint32 : M N Z;
  host_Salt : M N Z;
  host_Sleep : Duration → M N unit;
}.

(** What [runServe] fixes before it starts: the router client, the files of the two
    stores, and the dummy hash of the guest store. *)
Class Deployment := mkDeployment {
  dp_client : Client;
  dp_gpath : string;
  dp_upath : string;
  dp_dummyHash : string;
}.

(** What the start is answered by the outside: the tailscale node and its local client, the
    file system of the known_hosts file, the random secret of the sessions and the salt of the
    dummy hash, the clock, the process, the files of the two stores with the ids to come, and
    the three listeners. *)
Record Outside (N HF : Type) := mkOutside {
  ou_up : TSNet → option error;
  ou_client : option error;
  ou_hosts : HF;
  ou_status : option Status * option error;
  ou_secret : error + list Z;
  ou_salt : Z;
  ou_now : Time;
  ou_host : N;
  ou_zone_files : FSState;
  ou_guest_files : FSState;
  ou_zone_ids : list (error + Z);
  ou_guest_ids : list (error + Z);
  ou_listen : option error;
  ou_http : option error;
  ou_health : option error;
}.

Arguments mkOutside {N HF}.
Arguments ou_up {N HF}.
Arguments ou_client {N HF}.
Arguments ou_hosts {N HF}.
Arguments ou_status {N HF}.
Arguments ou_secret {N HF}.
Arguments ou_salt {N HF}.
Arguments ou_now {N HF}.
Arguments ou_host {N HF}.
Arguments ou_zone_files {N HF}.
Arguments ou_guest_files {N HF}.
Arguments ou_zone_ids {N HF}.
Arguments ou_guest_ids {N HF}.
Arguments ou_listen {N HF}.
Arguments ou_http {N HF}.
Arguments ou_health {N HF}.

Section system.
Context `{UT : UnicodeTables} `{JT : JSONText} `{UP : URLParser} `{BC : Guests.Bcrypt} `{SC : StatusCodec}.
Context {N : Type} `{HN : Host N} `{LC : LocalClient N} `{Lib : SSHLib N}.

(** internal/router/router.go:178-178, New.  The seams of a client: its commands go over SSH, its
    markers carry the time and a random number. *)
#[export] Instance ssh_runner (c : Client) : RouterRunner N := {|
  runner_run := runSSH c;
  newMarker := now ← host_Now; r ← host_Uint32; mret (defaultMarker now r);
|}.

(** ** State *)

(** The world of the poller: the process and the zones it reads. *)
Record Net := mkNet { net_host : N; net_groups : World Group }.

(** internal/guests/guests.go:165-171, Store.  The server: the poller with its world, the guest
    store, and the password comparisons that were made. *)
Record Server := mkServer {
  sv_poller : Poller;
  sv_net : Net;
  sv_guests : World Guests.guest;
  sv_compared : list (string * string);
}.

Definition on_host {A} (m : M N A) : M Net A :=
  λ n, let '(x, h) := m (net_host n) in (x, mkNet h (net_groups n)).
Definition sv_groups (s : Server) : World Group := net_groups (sv_net s).
Definition on_net {A} (m : M Net A) : M Server A :=
  λ s, let '(x, n) := m (sv_net s) in (x, mkServer (sv_poller s) n (sv_guests s) (sv_compared s)).
Definition on_groups {A} (m : M (World Group) A) : M Server A :=
  on_net (λ n, let '(x, g) := m (net_groups n) in (x, mkNet (net_host n) g)).
Definition on_guests {A} (m : M (World Guests.guest) A) : M Server A :=
  λ s, let '(x, g) := m (sv_guests s) in (x, mkServer (sv_poller s) (sv_net s) g (sv_compared s)).
Definition on_compared {A} (m : M (list (string * string)) A) : M Server A :=
  λ s, let '(x, l) := m (sv_compared s) in (x, mkServer (sv_poller s) (sv_net s) (sv_guests s) l).

Section server.
Context `{DP : Deployment}.
Abbreviation gdir := (Dir dp_gpath).
Abbreviation udir := (Dir dp_upath).

(** ** The interfaces, implemented *)

(** cmd/tsctl/main.go:203-227, runServe.  The poller over the mapper, the router client and the
    zone store. *)
#[export] Instance net_env : PollerEnv Net :=
  let RR := ssh_runner dp_client in {|
  env_Now := on_host host_Now;
  env_Inventory := on_host Inventory;
  env_Status addr := on_host (ClientStatus (RR := RR) addr);
  env_ApplyExitNode addr target prev autoKeep :=
    on_host (ApplyExitNode (RR := RR) (c_lanAccess dp_client) addr target prev autoKeep);
  env_KeepExitNode addr marker := on_host (KeepExitNode (RR := RR) addr marker);
  env_Probe addr := on_host (ClientProbe (RR := RR) addr);
  env_EgressProbe addr url := on_host (EgressProbe (RR := RR) addr url);
  env_Groups n := Some (Groups.List_ (net_groups n));
|}.

(** The poller relies on the contract of the router client, which holds. *)
#[export] Instance net_contract : @RouterContract Net net_env.
Proof.
  intros addr target prev autoKeep [h g]. simpl. unfold on_host. simpl.
  pose proof (ApplyExitNode_marker (RR := ssh_runner dp_client) (c_lanAccess dp_client) addr target prev autoKeep h) as H.
  destruct (ApplyExitNode _ _ _ _ _ h) as [[[rt m] e] h']. exact H.
Qed.

(** An operation of the poller, alone. *)
Definition on_poller {A} (p : prog (Poller * Net) A) : M Server A := λ s,
  let '(x, (p', n')) := run p (sv_poller s, sv_net s) in
  (x, mkServer p' n' (sv_guests s) (sv_compared s)).

(** cmd/tsctl/main.go:228-234, runServe.  The API over the mapper, the poller and the stores. *)
#[export] Instance server_who : WhoIser (M Server) := {| who_WhoIs addr := on_net (on_host (WhoIs addr)) |}.
#[export] Instance server_controller : Controller (M Server) := {|
  ctl_SetExitNode routerID target := on_poller (SetExitNode (Env := net_env) routerID target);
  ctl_Keep routerID := on_poller (Keep (Env := net_env) routerID);
  ctl_Probe routerID := on_poller (Probe (Env := net_env) routerID);
  ctl_RefreshGroups := on_poller (RefreshGroups (Env := net_env));
|}.
(** A source of ids with no more results is a random source that fails. *)
Definition no_more {A} (r : option (error + A)) : error + A :=
  default (inl (ErrText "generating id: no more random bytes")) r.
#[export] Instance server_groups : GroupStore (M Server) := {|
  gs_List := on_groups (gets Groups.List_);
  gs_Get id := on_groups (gets (Groups.Get id));
  gs_Create g := on_groups (r ← Groups.Create dp_gpath gdir g; mret (no_more r));
  gs_Update id g := on_groups (Groups.Update dp_gpath gdir id g);
  gs_Delete id := on_groups (Groups.Delete dp_gpath gdir id);
|}.
#[export] Instance server_guests : GuestStore (M Server) := {|
  gu_List := on_guests (gets Guests.List_);
  gu_Get id := on_guests (gets (Guests.Get id));
  gu_Create label zone pw :=
    salt ← on_net (on_host host_Salt);
    now ← on_net (on_host host_Now);
    on_guests (r ← Guests.Create dp_upath udir salt now label zone pw; mret (no_more r));
  gu_SetDisabled id d := on_guests (Guests.SetDisabled dp_upath udir id d);
  gu_Delete id := on_guests (Guests.Delete dp_upath udir id);
  gu_Authenticate label pw :=
    items ← gets (λ s, w_items (sv_guests s));
    on_compared (Guests.Authenticate dp_dummyHash items label pw);
|}.
#[export] Instance server_world : ApiWorld (M Server) := {|
  aw_Load := gets (λ s, p_snap (sv_poller s));
  aw_Now := on_net (on_host host_Now);
  aw_Rand n := on_net (on_host (host_Rand n));
  aw_Sleep d := on_net (on_host (host_Sleep d));
|}.

(** ** Runs *)

(** What happens to a server: a request is served, the poller polls.  (The
    interleavings inside an operation of the poller are the subject of
    PollerConc.v.) *)
Inductive server_event := Serve (r : Request) | Poll.
Definition server_step (a : API) (e : server_event) : M Server unit :=
  match e with
  | Serve r => _ ← Routes (T := M Server) a r emptyCtx; mret tt
  | Poll => _ ← on_poller (refreshOnce (Env := net_env)); mret tt
  end.
Fixpoint server_run (a : API) (es : list server_event) : M Server unit :=
  match es with
  | [] => mret tt
  | e :: es' => _ ← server_step a e; server_run a es'
  end.
End server.

(** ** Starting *)

(** Where the process serves: the program on the tailnet and on a host socket, its health on
    another. *)
Inductive Surface := OnTailnet (addr : string) | OnHost (addr : string) | Healthz (addr : string).

(** cmd/tsctl/main.go:262-332, runServe.  The listeners, in their order; the first that fails
    stops the process. *)
Definition serve_listen {HF} (cfg : Config) (o : Outside N HF) : error + list Surface :=
  match ou_listen o with
  | Some e => inl (wrapf "tsnet listen: " e)
  | None =>
  match (if String.eqb (cfg_HTTPListen cfg) "" then inr []
         else match ou_http o with
              | Some e => inl (wrapf ("http-listen " +:+ quote (cfg_HTTPListen cfg) +:+ ": ") e)
              | None => inr [OnHost (cfg_HTTPListen cfg)]
              end) with
  | inl e => inl e
  | inr hosted =>
  match ou_health o with
  | Some e => inl (wrapf "healthz listen: " e)
  | None => inr (OnTailnet (cfg_Listen cfg) :: hosted ++ [Healthz (cfg_HealthAddr cfg)])
  end end end.

(** What starts: the client and the paths the handlers use, the API, the first state, and where it
    is served. *)
Record Started := mkStarted {
  sd_deployment : Deployment;
  sd_api : API;
  sd_server : Server;
  sd_surfaces : list Surface;
}.
(** cmd/tsctl/main.go:168-260, runServe.  What starts, or the error that stops it; [None]: a panic
    of bcrypt or of the random source. *)
Definition runServe {K : Type} `{KH : KnownHosts K} {HF : Type} `{FS : HostFS HF}
    (p : Process) (args : list string) (o : Outside N HF) : error + option Started :=
  match Guests.mustDummyHash (ou_salt o) with
  | None => inr None
  | Some dummy =>
  match loadConfig p args with
  | inl e => inl (wrapf "config: " e)
  | inr cfg =>
  match serve_checks cfg with
  | Some e => inl e
  | None =>
  match ou_up o (newTSNet cfg) with
  | Some e => inl (wrapf "tsnet up: " e)
  | None =>
  match ou_client o with
  | Some e => inl (wrapf "tsnet local client: " e)
  | None =>
  match Transport.New (routerOptions cfg true) (ou_hosts o) with
  | inl e => inl (wrapf "router client: " e)
  | inr rc =>
  let gpath := Join [cfg_StateDir cfg; "groups.json"] in
  match Groups.New gpath (ou_zone_files o) with
  | inl e => inl (wrapf "groups store: " e)
  | inr gs =>
  let upath := Join [cfg_StateDir cfg; "guests.json"] in
  match Guests.New upath (ou_guest_files o) with
  | inl e => inl (wrapf "guests store: " e)
  | inr us =>
  let pol := NewPoller (NewStore (ou_now o)) (cfg_Routers cfg) (cfg_PollInterval cfg)
               |> ConfigureEgress (cfg_EgressCheck cfg) (cfg_EgressURL cfg)
               |> ConfigureKeep (cfg_RequireKeep cfg) in
  match Api.New (cfg_Owner cfg) (cfg_UIPassword cfg) (allowedHosts cfg (ou_status o)) true true
          (ou_secret o) with
  | None => inr None
  | Some api =>
  match serve_listen cfg o with
  | inl e => inl e
  | inr surfaces =>
      inr (Some (mkStarted (mkDeployment rc gpath upath dummy) api
                   (mkServer pol
                      (mkNet (ou_host o) (mkWorld (ou_zone_files o) (ou_zone_ids o) gs))
                      (mkWorld (ou_guest_files o) (ou_guest_ids o) us) []) surfaces))
  end end end end end end end end end end.
End system.
