(* ===== verification/SystemFacts.v ===== *)
(** The server as a whole: which requests can change what, for every sequence of
    requests and polls. *)

From S2P Require Import Prelude GoStd Errors Store Netip Ipnstate Netmap Authz Json Session Wire Api ApiFacts.
From S2P Require Import Conc PollerFacts Poller PollerFrame PollerConc AtomicFile FileStore Router HostKey.
From S2P Require Import Transport Ssh Config CommandLine ConfigFacts System.
From S2P Require Groups GroupsFacts Guests GuestsFacts.
Import Api.OnState.
From stdpp Require Import relations.

#[local] Existing Instance Guests.guest_item.
#[local] Existing Instance Groups.group_item.

Section facts.
Context `{UT : UnicodeTables} `{JT : JSONText} `{UP : URLParser} `{BC : Guests.Bcrypt} `{SC : StatusCodec}.
Context {N : Type} `{HN : Host N} `{LC : LocalClient N} `{Lib : SSHLib N} `{DP : Deployment}.
Variable a : API.
Abbreviation Server := (Server (N := N)).

Abbreviation zones s := (w_items (sv_groups s)).
Abbreviation guests s := (w_items (sv_guests s)).

(** ** Operations of the poller leave the stores alone *)

Definition same_zones (n n' : Net (N := N)) : Prop := net_groups n' = net_groups n.
#[local] Instance same_zones_preorder : PreOrder same_zones.
Proof. split; [done |]. unfold same_zones. intros ???. congruence. Qed.

Lemma on_host_zones {A} (m : M N A) n : same_zones n (snd (on_host m n)).
Proof. unfold on_host. by destruct (m (net_host n)). Qed.

#[local] Instance net_frames : EnvFrames same_zones.
Proof. split; intros; apply on_host_zones. Qed.

Lemma on_poller_stores {A} (p : prog (Poller * Net) A) (s : Server) :
  pframes same_zones p →
  sv_groups (snd (on_poller p s)) = sv_groups s ∧ sv_guests (snd (on_poller p s)) = sv_guests s.
Proof.
  intros Hp. destruct (pframes_run same_zones p Hp (sv_poller s, sv_net s)) as [_ H]. unfold on_poller.
  destruct (run p _) as [x [p' n']]. by split.
Qed.

(** ** What a caller can change *)

(** The same stores and the same poller. *)
Definition quiet (s s' : Server) : Prop :=
  sv_groups s' = sv_groups s ∧ sv_guests s' = sv_guests s ∧ sv_poller s' = sv_poller s.
#[local] Instance quiet_preorder : PreOrder quiet.
Proof. split; [done |]. unfold quiet. intros ???. intuition congruence. Qed.

Lemma on_net_quiet {A} (m : M N A) (s : Server) : quiet s (snd (on_net (on_host m) s)).
Proof. unfold on_net, on_host. destruct (m (net_host (sv_net s))). by repeat split. Qed.

Lemma on_groups_gets {A} (f : World Group → A) (s : Server) :
  snd (on_groups (gets f) s) = s ∧ fst (on_groups (gets f) s) = f (sv_groups s).
Proof. destruct s as [p [h g] u l]. done. Qed.
Lemma on_guests_gets {A} (f : World Guests.guest → A) (s : Server) :
  snd (on_guests (gets f) s) = s ∧ fst (on_guests (gets f) s) = f (sv_guests s).
Proof. destruct s as [p n u l]. done. Qed.

#[local] Instance quiet_reads : Reads quiet.
Proof.
  split; [apply _ | intros; apply on_net_quiet | intros; apply on_net_quiet | intros; apply on_net_quiet
         | intros; apply on_net_quiet | done | | |].
  - intros x w. destruct (on_groups_gets (Groups.Get x) w) as [E _].
    change (quiet w (snd (on_groups (gets (Groups.Get x)) w))). by rewrite E.
  - intros x w. destruct (on_guests_gets (Guests.Get x) w) as [E _].
    change (quiet w (snd (on_guests (gets (Guests.Get x)) w))). by rewrite E.
  - intros l p w. simpl. unfold mbind, M_bind, gets, on_compared.
    destruct (Guests.Authenticate _ _ _ _ _). by repeat split.
Qed.

(** Who the request is, at this moment. *)
Definition caller (r : Request) (s : Server) : option Subject := fst (resolveSubject a r s).
Definition is_admin (r : Request) (s : Server) : bool :=
  match caller r s with Some sub => sub_Admin sub | None => false end.

(** One of the router operations, on the router [id]. *)
Definition router_operation (r : Request) (z : Group) (id : string) (p : prog (Poller * Net (N := N)) unit) : Prop :=
  (∃ target, r_Path r = ["api"; "routers"; id; "exit-node"] ∧ (target = "" ∨ target ∈ g_AllowedExitNodes z) ∧
     p = run_op (OpSet id target)) ∨
  (r_Path r = ["api"; "routers"; id; "keep"] ∧ p = run_op (OpKeep id)) ∨
  (r_Path r = ["api"; "routers"; id; "probe"] ∧ p = run_op (OpProbe id)).

Lemma run_forget {A} (p : prog (Poller * Net (N := N)) A) x :
  snd (run (_ ← p; mret tt) x) = snd (run p x).
Proof. rewrite run_mbind. by destruct (run p x). Qed.

(** A request of a guest, or of nobody, changes no zone and no guest; and it leaves
    the poller alone, unless it is a guest's request for an operation on a router of
    its zone. *)
Lemma caller_confined r ctx s :
  is_admin r s = false →
  let s' := snd (Routes a r ctx s) in
  sv_groups s' = sv_groups s ∧ sv_guests s' = sv_guests s ∧
  (sv_poller s' = sv_poller s ∨
   ∃ sub z id p n, caller r s = Some sub ∧ Groups.Get (sub_ZoneID sub) (sv_groups s) = Some z ∧
     id ∈ g_Consumers z ∧ router_operation r z id p ∧ sv_poller s' = fst (snd (run p (sv_poller s, n)))).
Proof.
  unfold is_admin, caller. intros Hadm. pose proof (guest_confined a quiet r ctx s) as H.
  destruct (fst (resolveSubject a r s)) as [sub |]; [| destruct H as (? & ? & ?); auto].
  destruct H as [H | [(? & ? & ?) | (id & z & s1 & s2 & Hq & _ & Hg & Hc & Hop)]]; [congruence | by auto |].
  change (on_groups (gets (Groups.Get (sub_ZoneID sub))) s1 = (Some z, s2)) in Hg.
  destruct (on_groups_gets (Groups.Get (sub_ZoneID sub)) s1) as [E1 E2]. rewrite Hg in E1, E2.
  simpl in E1, E2. subst s2. destruct Hq as (Q1 & Q2 & Q3). rewrite Q1 in E2.
  assert (∀ {A} (p : prog (Poller * Net (N := N)) A), pframes same_zones p →
    snd (Routes a r ctx s) = snd (on_poller p s1) →
    sv_groups (snd (Routes a r ctx s)) = sv_groups s ∧ sv_guests (snd (Routes a r ctx s)) = sv_guests s ∧
    sv_poller (snd (Routes a r ctx s)) = fst (snd (run (_ ← p; mret tt) (sv_poller s, sv_net s1)))) as Hrun.
  { intros A p Hp ->. destruct (on_poller_stores p s1 Hp) as [-> ->]. split; [done |]. split; [done |].
    rewrite run_forget, <- Q3. unfold on_poller. by destruct (run p _) as [x [p' n']]. }
  destruct Hop as [(target & Hpath & Hbody & Ht & Hs) | [[Hpath Hs] | [Hpath Hs]]];
    apply Hrun in Hs as (H1 & H2 & H3);
    try first [apply pframes_SetExitNode; apply _ | apply pframes_Keep; apply _ | apply pframes_Probe; apply _].
  all: split; [done |]; split; [done |]; right; exists sub, z, id; do 2 eexists.
  all: split; [done |]; split; [done |]; split; [done |]; split; [| exact H3].
  - left. by exists target.
  - by right; left.
  - by right; right.
Qed.

(** The requests of a run that are an admin's, each at its moment. *)
Fixpoint no_admin (es : list server_event) (s : Server) : Prop :=
  match es with
  | [] => True
  | e :: es' =>
      match e with Serve r => is_admin r s = false | Poll => True end ∧
      no_admin es' (snd (server_step a e s))
  end.

Lemma server_run_cons e es (s : Server) :
  snd (server_run a (e :: es) s) = snd (server_run a es (snd (server_step a e s))).
Proof. simpl. unfold mbind, M_bind. by destruct (server_step a e s). Qed.

Lemma server_step_serve r (s : Server) : snd (server_step a (Serve r) s) = snd (Routes a r emptyCtx s).
Proof. simpl. unfold mbind, M_bind. by destruct (Routes a r emptyCtx s). Qed.
Lemma server_step_poll (s : Server) : snd (server_step a Poll s) = snd (on_poller refreshOnce s).
Proof. simpl. unfold mbind, M_bind. by destruct (on_poller refreshOnce s). Qed.

(** The operations of the poller that such a run is made of: a poll, or an operation on
    a router of a zone that a guest of the store is assigned to. *)
Definition guest_operation (s : Server) (p : prog (Poller * Net (N := N)) unit) : Prop :=
  p = run_op OpRefresh ∨
  ∃ g z id r, g ∈ guests s ∧ Groups.Get (Guests.gr_zoneID g) (sv_groups s) = Some z ∧
    id ∈ g_Consumers z ∧ router_operation r z id p.

(** The subject of a guest is a guest of the store and its current zone. *)
Lemma caller_guest r s sub :
  caller r s = Some sub → sub_Admin sub = false →
  ∃ now csub g, parseSession (api_sessionSecret a) (Cookie r "tsctl_session") now = Some csub ∧
    sub_Admin csub = false ∧ Guests.Get (sub_GuestID csub) (sv_guests s) = Some (Guests.public g) ∧
    g ∈ guests s ∧ Guests.gr_id g = sub_GuestID csub ∧ Guests.gr_disabled g = false ∧
    sub = mkSubject false (Guests.gr_id g) (Guests.gr_zoneID g).
Proof.
  unfold caller. intros Hc Hadm. destruct (resolveSubject a r s) as [sub' s'] eqn:E. simpl in Hc. subst sub'.
  destruct (resolveSubject_sound _ _ _ _ _ E)
    as [[? _] | (_ & now & csub & g & w1 & w2 & w3 & Hnow & Hp & Hca & _ & _ & Hg & Hd & _ & _ & ->)]; [congruence |].
  assert (sv_guests w1 = sv_guests s) as Hw1.
  { destruct (frames_is_owner a quiet r s) as (_ & H1 & _). rewrite <- H1.
    destruct (on_net_quiet host_Now (snd (is_owner a r s))) as (_ & H2 & _). rewrite <- H2.
    change (on_net (on_host host_Now)) with (Api.aw_Now (T := M Server)). by rewrite Hnow. }
  change (on_guests (gets (Guests.Get (sub_GuestID csub))) w1 = (Some g, w2)) in Hg.
  destruct (on_guests_gets (Guests.Get (sub_GuestID csub)) w1) as [_ E2]. rewrite Hg in E2. simpl in E2.
  rewrite Hw1 in E2. pose proof E2 as E3. symmetry in E3. unfold Guests.Get in E3.
  apply bind_Some in E3 as (i & Hi & (gr & Hgr & ->)%fmap_Some).
  apply indexOf_Some in Hi as (gr' & Hgr' & Hid). simplify_eq.
  exists now, csub, gr'. repeat (split; [by done |]). split; [by eapply list_elem_of_lookup_2 |]. by repeat split.
Qed.

Definition poller_moves (ok : prog (Poller * Net (N := N)) unit → Prop) : relation Poller :=
  rtc (λ p p', ∃ o n, ok o ∧ p' = fst (snd (run o (p, n)))).

Lemma step_no_admin e (s : Server) :
  match e with Serve r => is_admin r s = false | Poll => True end →
  let s' := snd (server_step a e s) in
  sv_groups s' = sv_groups s ∧ sv_guests s' = sv_guests s ∧
  poller_moves (guest_operation s) (sv_poller s) (sv_poller s').
Proof.
  destruct e as [r |]; intros Hadm; cbv zeta.
  - rewrite server_step_serve. destruct (caller_confined r emptyCtx s Hadm) as (H1 & H2 & H3).
    split; [done |]. split; [done |].
    destruct H3 as [-> | (sub & z & id & p & n & Hc & Hz & Hid & Hop & ->)]; [reflexivity |].
    apply rtc_once. exists p, n. split; [| done]. right.
    unfold is_admin in Hadm. rewrite Hc in Hadm.
    destruct (caller_guest r s sub Hc Hadm) as (now & csub & g & _ & _ & _ & Hg & _ & _ & ->).
    by exists g, z, id, r.
  - rewrite server_step_poll.
    destruct (on_poller_stores refreshOnce s (pframes_refreshOnce same_zones)) as [H1 H2].
    split; [done |]. split; [done |]. apply rtc_once. exists (run_op OpRefresh), (sv_net s). split; [by left |].
    unfold run_op. rewrite run_forget. unfold on_poller. by destruct (run refreshOnce _) as [x [p' n']].
Qed.

Lemma run_no_admin es (s : Server) :
  no_admin es s →
  sv_guests (snd (server_run a es s)) = sv_guests s.
Proof.
  revert s. induction es as [| e es IH]; intros s; [done |]. intros [He Hes]. rewrite server_run_cons.
  destruct (step_no_admin e s He) as (_ & H2 & _). rewrite <- H2. by apply IH.
Qed.

(** C8: those who are not an admin administer nothing.  In a run none of whose
    requests is an admin's at its moment, whatever the requests are: the zones, the
    guests and their files stay as they are; and the poller only goes through polls
    and operations on routers that the zone of a guest of the store consumes, the
    exit node, if one is asked for, being one that zone allows. *)
Theorem only_admins_administer es (s : Server) :
  no_admin es s →
  let s' := snd (server_run a es s) in
  sv_groups s' = sv_groups s ∧ sv_guests s' = sv_guests s ∧
  poller_moves (guest_operation s) (sv_poller s) (sv_poller s').
Proof.
  revert s. induction es as [| e es IH]; intros s; [intros _; by repeat split; constructor |].
  intros [He Hes]. cbv zeta. rewrite server_run_cons.
  destruct (step_no_admin e s He) as (H1 & H2 & H3). destruct (IH _ Hes) as (H4 & H5 & H6).
  split; [congruence |]. split; [congruence |]. etransitivity; [exact H3 |].
  revert H6. unfold poller_moves, guest_operation. by rewrite H1, H2.
Qed.

(** ** Revocation *)

(** The request that disables the guest [id]. *)
Record disables (r : Request) (id : string) : Prop := {
  dis_path : r_Path r = ["api"; "guests"; id; "disabled"];
  dis_method : r_Method r = "POST";
  dis_body : decode_body guestReqLimit decode_disabled false r = inr true;
}.

Lemma disables_found r id :
  disables r id → api_guests a = true → id ≠ "" →
  List.find (pattern_matches r) (data_patterns a) =
    Some (mkPattern "POST" [Lit "api"; Lit "guests"; Wild; Lit "disabled"]
      (λ ids, RequireAdmin (id_of handleSetGuestDisabled ids))).
Proof.
  intros [Hp Hm _] Hg Hid. unfold Api.data_patterns, pattern_matches, path_matches.
  rewrite Hp, Hm, Hg. destruct id as [| ch id]; [done |]. by destruct (api_groups a).
Qed.

Lemma disables_mux r id ctx (s : Server) dto :
  disables r id → fst (mux (data_patterns a) r ctx s) = writeJSON 200 dto →
  mux (data_patterns a) r ctx s = RequireAdmin (handleSetGuestDisabled id) r ctx s.
Proof.
  intros Hd. unfold Api.mux. destruct (List.find _ _) as [p |] eqn:Hf; [| by destruct (existsb _ _)].
  intros _. pose proof Hd as [Hp Hm _].
  assert (api_guests a = true ∧ id ≠ "") as [Hg Hid].
  { unfold Api.data_patterns, pattern_matches, path_matches in Hf. rewrite Hp, Hm in Hf.
    destruct id as [| ch id], (api_groups a), (api_guests a); done. }
  rewrite (disables_found r id Hd Hg Hid) in Hf. injection Hf as <-. unfold Api.run_pattern. rewrite Hp.
  by destruct id as [| ch id].
Qed.

(** When that request is answered 200, it was an admin's, and it ran [SetDisabled]. *)
Lemma disables_done r id (s : Server) g :
  disables r id → fst (Routes a r emptyCtx s) = writeJSON 200 (guest_json (guestDTO g)) →
  ∃ s1 g', quiet s s1 ∧
    Guests.SetDisabled dp_upath (Dir dp_upath) id true (sv_guests s1)
      = (inr g', sv_guests (snd (Routes a r emptyCtx s))).
Proof.
  intros Hd Hresp. pose proof Hd as [Hp Hm Hb].
  assert (api_mux a r emptyCtx s = RequireAuth a (mux (data_patterns a)) r emptyCtx s) as Emux.
  { unfold Api.api_mux.
    replace (List.find (pattern_matches r) (bootstrap_patterns a)) with (@None (Api.Pattern (T := M Server)))
      by (unfold Api.bootstrap_patterns, pattern_matches, path_matches; by rewrite Hp, Hm).
    by rewrite Hp. }
  assert (Routes a r emptyCtx s = RequireAuth a (mux (data_patterns a)) r emptyCtx s) as ER.
  { revert Hresp. unfold Api.Routes, RequireHost. destruct (hostAllowed a (r_Host r)); [simpl | done].
    unfold RequireCSRF. rewrite Hm. simpl. by destruct (csrf_error r). }
  rewrite ER in *. clear ER Emux. rewrite RequireAuth_run in *.
  pose proof (frames_resolveSubject a quiet r s) as Hq.
  destruct (resolveSubject a r s) as [[sub |] s1]; [simpl in Hq | done].
  pose proof (disables_mux r id _ s1 _ Hd Hresp) as E. rewrite E in Hresp. rewrite E. clear E.
  unfold Api.RequireAdmin, SubjectFromContext in *. simpl in Hresp |- *.
  destruct (sub_Admin sub); [simpl in * | done].
  unfold Api.handleSetGuestDisabled, mbind, M_bind in *. rewrite Hb in *.
  exists s1. simpl in *. unfold on_guests in *.
  destruct (Guests.SetDisabled _ _ id true (sv_guests s1)) as [[e | g'] w'] eqn:E; [done |].
  by exists g'.
Qed.

(** C10: revocation.  Once a request to disable a guest was answered 200, and whatever
    requests and polls follow that are not an admin's, nothing authenticates as that
    guest: not the cookies it holds, nor a new login. *)
Theorem disabled_guest_locked_out r id (s : Server) g es q sub :
  not_temp "guests" dp_upath (Dir dp_upath) → wf_store GuestsFacts.tidy_guest (guests s) →
  disables r id → fst (Routes a r emptyCtx s) = writeJSON 200 (guest_json (guestDTO g)) →
  no_admin es (snd (Routes a r emptyCtx s)) →
  caller q (snd (server_run a es (snd (Routes a r emptyCtx s)))) = Some sub →
  sub_Admin sub = true ∨ sub_GuestID sub ≠ id.
Proof.
  intros Hnt Hwf Hd Hresp Hes Hc. destruct (sub_Admin sub) eqn:Hadm; [by left | right].
  destruct (disables_done r id s g Hd Hresp) as (s1 & g' & (_ & Hq & _) & Hset). rewrite Hq in Hset.
  destruct (caller_guest _ _ _ Hc Hadm) as (_ & csub & rec & _ & _ & _ & Hrec & _ & Hdis & ->).
  intros Hid. simpl in Hid.
  assert (sv_guests (snd (server_run a es (snd (Routes a r emptyCtx s)))) =
          sv_guests (snd (Routes a r emptyCtx s))) as Esame by (by apply run_no_admin).
  rewrite Esame in Hrec.
  apply GuestsFacts.guest_SetDisabled_transaction in Hset; [| done]. destruct Hset as [[Hres _] _].
  pose proof (GuestsFacts.guest_result_wf _ _ _ Hwf Hres) as Hwf'.
  destruct Hres as (i & old & Hold & Eid & Hnew).
  assert (Guests.set_gr_disabled true old ∈ guests (snd (Routes a r emptyCtx s))) as Hin.
  { rewrite Hnew. apply list_elem_of_lookup. exists i.
    rewrite list_lookup_insert. by rewrite decide_True by (split; [done | by eapply lookup_lt_Some]). }
  assert (rec = Guests.set_gr_disabled true old) as ->; [| done].
  apply (NoDup_key_inj Guests.gr_id _ _ _ (wf_ids _ _ Hwf') Hrec Hin). simpl. congruence.
Qed.
(** ** The invariant of the stores *)

(** Zones and guests are well formed, and every guest is assigned to a zone that
    exists. *)
Record server_ok (s : Server) : Prop := {
  ok_zones : wf_store GroupsFacts.tidy_group (zones s);
  ok_guests : wf_store GuestsFacts.tidy_guest (guests s);
  ok_refs : ∀ g, g ∈ guests s → Guests.gr_zoneID g ∈ (g_ID <$> zones s);
}.
Definition keeps (s s' : Server) : Prop := server_ok s → server_ok s'.
#[local] Instance keeps_preorder : PreOrder keeps.
Proof. split; unfold keeps; auto. Qed.

Lemma stores_keep (s s' : Server) : sv_groups s' = sv_groups s → sv_guests s' = sv_guests s → keeps s s'.
Proof. intros E1 E2 [H1 H2 H3]. by split; rewrite ?E1, ?E2. Qed.
Lemma quiet_keeps (s s' : Server) : quiet s s' → keeps s s'.
Proof. intros (H1 & H2 & _). by apply stores_keep. Qed.
#[local] Instance keeps_reads : Reads keeps.
Proof.
  split; [apply _ | intros; apply quiet_keeps..];
    first [apply reads_WhoIs | apply reads_Now | apply reads_Rand | apply reads_Sleep | apply reads_Load
          | apply reads_GroupGet | apply reads_GuestGet | apply reads_Authenticate].
Qed.

(** A change of the zones, or of the guests, that its package's operation makes. *)
Lemma zones_keep (o : GroupsFacts.store_op) (s s' : Server) :
  sv_guests s' = sv_guests s →
  zones s' = zones s ∨ GroupsFacts.op_result o (zones s) (zones s') →
  (∀ id g, o = GroupsFacts.OpDelete id → g ∈ guests s → Guests.gr_zoneID g ≠ id) → keeps s s'.
Proof.
  intros Eg Hz Hdel [H1 H2 H3]. destruct Hz as [Ez | Hz].
  { by split; rewrite ?Ez, ?Eg. }
  split; [by eapply GroupsFacts.op_result_wf | by rewrite Eg |].
  rewrite Eg. intros g Hg. specialize (H3 g Hg). destruct o as [z | id z | id]; simpl in Hz.
  - destruct Hz as (norm & id & _ & _ & _ & _ & ->). rewrite fmap_app. apply elem_of_app. by left.
  - destruct Hz as (norm & i & h & _ & Hh & <- & _ & ->). rewrite list_fmap_insert. simpl.
    rewrite list_insert_id; [done |]. by rewrite list_lookup_fmap, Hh.
  - destruct Hz as (i & h & Hh & <- & ->). specialize (Hdel _ g eq_refl Hg).
    rewrite <- (take_drop_middle _ _ _ Hh) in H3. rewrite fmap_app in H3 |- *.
    rewrite elem_of_app in H3 |- *. rewrite fmap_cons, elem_of_cons in H3. naive_solver.
Qed.

Lemma guests_keep (o : GuestsFacts.guest_op) (s s' : Server) :
  sv_groups s' = sv_groups s →
  guests s' = guests s ∨ GuestsFacts.guest_result o (guests s) (guests s') →
  (∀ salt now l z pw, o = GuestsFacts.GCreate salt now l z pw → TrimSpace z ∈ (g_ID <$> zones s)) →
  keeps s s'.
Proof.
  intros Eg Hu Hnew [H1 H2 H3]. destruct Hu as [Eu | Hu].
  { by split; rewrite ?Eu, ?Eg. }
  split; [by rewrite Eg | by eapply GuestsFacts.guest_result_wf |].
  rewrite Eg. intros g Hg. destruct o as [salt now l z pw | id d | id]; simpl in Hu.
  - destruct Hu as (id & h & _ & _ & _ & _ & _ & E). rewrite E in Hg.
    apply elem_of_app in Hg as [Hg | ->%list_elem_of_singleton]; [by apply H3 | by eapply Hnew].
  - destruct Hu as (i & old & Hold & _ & E). rewrite E in Hg.
    apply list_elem_of_lookup in Hg as [j Hj]. rewrite list_lookup_insert in Hj.
    case_decide as Hc; [| by eapply H3, list_elem_of_lookup_2].
    injection Hj as <-. simpl. by eapply H3, list_elem_of_lookup_2.
  - destruct Hu as (i & old & Hold & _ & E). rewrite E in Hg. apply H3.
    rewrite <- (take_drop_middle _ _ _ Hold). apply elem_of_app. apply elem_of_app in Hg as [? | ?]; [by left | right; by right].
Qed.
Section operations.
Hypothesis Hgt : not_temp "groups" dp_gpath (Dir dp_gpath).
Hypothesis Hut : not_temp "guests" dp_upath (Dir dp_upath).
Hypothesis Hflag : api_guests a = true.

Lemma transaction_items {I} `{Item I} {A} path (w : World I) P (r : option (error + A)) w' :
  transaction path w P r w' → w_items w' = w_items w ∨ P (w_items w').
Proof. intros [Hr _]. destruct r as [[e | x] |]; [left | right | left]; apply Hr. Qed.

Lemma on_groups_state {A} (m : M (World Group) A) (s : Server) :
  sv_guests (snd (on_groups m s)) = sv_guests s ∧ sv_groups (snd (on_groups m s)) = snd (m (sv_groups s)).
Proof.
  destruct s as [p [h g] u l]. unfold on_groups, on_net, sv_groups. cbn.
  destruct (m g) as [x g']. done.
Qed.
Lemma on_guests_state {A} (m : M (World Guests.guest) A) (s : Server) :
  sv_groups (snd (on_guests m s)) = sv_groups s ∧ sv_guests (snd (on_guests m s)) = snd (m (sv_guests s)).
Proof. destruct s as [p n u l]. unfold on_guests. simpl. by destruct (m u). Qed.

Lemma gs_op_keep {A} o (m : M (World Group) A) (s : Server) :
  (∀ w, w_items (snd (m w)) = w_items w ∨ GroupsFacts.op_result o (w_items w) (w_items (snd (m w)))) →
  (∀ id g, o = GroupsFacts.OpDelete id → g ∈ guests s → Guests.gr_zoneID g ≠ id) →
  keeps s (snd (on_groups m s)).
Proof.
  intros Hm Hd. destruct (on_groups_state m s) as [E1 E2].
  apply (zones_keep o); [done | rewrite E2; apply Hm | done].
Qed.
Lemma gu_op_keep {A} o (m : M (World Guests.guest) A) (s : Server) :
  (∀ w, w_items (snd (m w)) = w_items w ∨ GuestsFacts.guest_result o (w_items w) (w_items (snd (m w)))) →
  (∀ salt now l z pw, o = GuestsFacts.GCreate salt now l z pw → TrimSpace z ∈ (g_ID <$> zones s)) →
  keeps s (snd (on_guests m s)).
Proof.
  intros Hm Hd. destruct (on_guests_state m s) as [E1 E2].
  apply (guests_keep o); [done | rewrite E2; apply Hm | done].
Qed.

Lemma keeps_gs_Create g : frames keeps (gs_Create g).
Proof.
  intros s. apply (gs_op_keep (GroupsFacts.OpCreate g)); [| done]. intros w. unfold mbind, M_bind.
  destruct (Groups.Create _ _ g w) as [r w'] eqn:E.
  apply GroupsFacts.Create_transaction in E as [E _]; [| exact Hgt]. by apply transaction_items in E.
Qed.
Lemma keeps_gs_Update id g : frames keeps (gs_Update id g).
Proof.
  intros s. apply (gs_op_keep (GroupsFacts.OpUpdate id g)); [| done]. intros w.
  destruct (Groups.Update _ _ id g w) as [r w'] eqn:E.
  apply GroupsFacts.Update_transaction in E; [| exact Hgt]. by apply transaction_items in E.
Qed.
Lemma keeps_gs_Delete id (s : Server) :
  (∀ g, g ∈ guests s → Guests.gr_zoneID g ≠ id) → keeps s (snd (gs_Delete id s)).
Proof.
  intros Hs. apply (gs_op_keep (GroupsFacts.OpDelete id)); [| intros ? g [= <-]; apply Hs]. intros w.
  destruct (Groups.Delete _ _ id w) as [r w'] eqn:E.
  apply GroupsFacts.Delete_transaction in E; [| exact Hgt]. by apply transaction_items in E.
Qed.
Lemma keeps_gu_Create label zone pw (s : Server) :
  TrimSpace zone ∈ (g_ID <$> zones s) → keeps s (snd (gu_Create label zone pw s)).
Proof.
  intros Hz. simpl. unfold mbind at 1, M_bind.
  pose proof (on_net_quiet host_Salt s) as Q1. destruct (on_net _ s) as [salt s1]. simpl in Q1.
  unfold mbind at 1, M_bind.
  pose proof (on_net_quiet host_Now s1) as Q2. destruct (on_net _ s1) as [now s2]. simpl in Q2.
  pose proof (transitivity Q1 Q2) as Q. etransitivity; [by apply quiet_keeps |].
  apply (gu_op_keep (GuestsFacts.GCreate salt now label zone pw)).
  - intros w. unfold mbind, M_bind. destruct (Guests.Create _ _ _ _ _ _ _ w) as [r w'] eqn:E.
    apply GuestsFacts.guest_Create_transaction in E as [E _]; [| exact Hut]. by apply transaction_items in E.
  - intros ? ? ? ? ? [= <- <- <- <- <-]. by destruct Q as (-> & _).
Qed.
Lemma keeps_gu_SetDisabled id d : frames keeps (gu_SetDisabled id d).
Proof.
  intros s. apply (gu_op_keep (GuestsFacts.GSetDisabled id d)); [| done]. intros w.
  destruct (Guests.SetDisabled _ _ id d w) as [r w'] eqn:E.
  apply GuestsFacts.guest_SetDisabled_transaction in E; [| exact Hut]. by apply transaction_items in E.
Qed.
Lemma keeps_gu_Delete id : frames keeps (gu_Delete id).
Proof.
  intros s. apply (gu_op_keep (GuestsFacts.GDelete id)); [| done]. intros w.
  destruct (Guests.Delete _ _ id w) as [r w'] eqn:E.
  apply GuestsFacts.guest_Delete_transaction in E; [| exact Hut]. by apply transaction_items in E.
Qed.
Lemma keeps_on_poller {A} (p : prog (Poller * Net) A) : pframes same_zones p → frames keeps (on_poller p).
Proof. intros Hp s. destruct (on_poller_stores p s Hp). by apply stores_keep. Qed.
(** *** Every handler keeps the invariant *)

Lemma keeps_gets {A} (f : Server → A) : frames keeps (gets f).
Proof. intros s. reflexivity. Qed.

Ltac keep_step :=
  first
    [ apply (frames_ret keeps)
    | apply keeps_gs_Create | apply keeps_gs_Update | apply keeps_gu_SetDisabled | apply keeps_gu_Delete
    | apply keeps_on_poller;
      first [apply (pframes_SetExitNode same_zones) | apply (pframes_Keep same_zones)
            | apply (pframes_Probe same_zones) | apply (pframes_RefreshGroups same_zones)]
    | apply (frames_groups_Get a keeps)
    | (intros ?; first [apply reads_Load | apply reads_GroupGet | apply reads_GuestGet])
    | apply (frames_bind keeps); [| intros ?]
    | case_match ].

Lemma keeps_respond {A} (dto : A → json) (res : A * option error) : frames keeps (respond dto res).
Proof. intros s. by rewrite respond_state. Qed.

Lemma keeps_RequireAdmin (h : Handler) r ctx : frames keeps (h r ctx) → frames keeps (RequireAdmin h r ctx).
Proof. unfold Api.RequireAdmin. intros Hh. repeat first [exact Hh | keep_step]. Qed.

Lemma keeps_authorized ctx id t (op : M Server Response) :
  frames keeps op → frames keeps (authorized a ctx id t op).
Proof.
  intros Hop. unfold Api.authorized, authorizeRouterWrite. repeat first [exact Hop | keep_step].
Qed.

Lemma keeps_gs_List : frames keeps gs_List.
Proof. intros s. apply quiet_keeps. destruct (on_groups_gets Groups.List_ s) as [E _]. unfold Api.gs_List. cbn [server_groups]. by rewrite E. Qed.
Lemma keeps_gu_List : frames keeps gu_List.
Proof. intros s. apply quiet_keeps. destruct (on_guests_gets Guests.List_ s) as [E _]. unfold Api.gu_List. cbn [server_guests]. by rewrite E. Qed.

(** A zone is deleted only when no guest is assigned to it. *)
Lemma keeps_handleDeleteGroup id r ctx : frames keeps (handleDeleteGroup a id r ctx).
Proof.
  intros s. unfold Api.handleDeleteGroup. rewrite Hflag. unfold mbind at 1, M_bind.
  destruct (on_guests_gets Guests.List_ s) as [E1 E2].
  change (gu_List s) with (on_guests (gets Guests.List_) s). rewrite (surjective_pairing (on_guests _ s)), E1, E2.
  destruct (existsb _ _) eqn:Hex; [reflexivity |]. unfold mbind at 1, M_bind.
  pose proof (keeps_gs_Delete id s) as Hk. destruct (gs_Delete id s) as [res s1]. simpl in Hk.
  etransitivity; [apply Hk |].
  - intros g Hg E. apply not_true_iff_false in Hex. apply Hex, existsb_elem.
    exists (Guests.public g). split; [by apply list_elem_of_fmap_2 | by apply String.eqb_eq].
  - match goal with |- keeps _ (snd (?m s1)) => enough (frames keeps m) as H by apply H end.
    repeat keep_step.
Qed.

(** A guest is created only in a zone that exists. *)
Lemma keeps_handleCreateGuest r ctx : frames keeps (handleCreateGuest a r ctx).
Proof.
  unfold Api.handleCreateGuest. destruct (decode_body _ _ _ r) as [e | body]; [apply (frames_ret keeps) |].
  destruct (negb (api_groups a)); [apply (frames_ret keeps) |]. intros s. unfold mbind at 1, M_bind.
  destruct (on_groups_gets (Groups.Get (TrimSpace (gb_ZoneID body))) s) as [E1 E2].
  change (gs_Get (TrimSpace (gb_ZoneID body)) s)
    with (on_groups (gets (Groups.Get (TrimSpace (gb_ZoneID body)))) s).
  rewrite (surjective_pairing (on_groups _ s)), E1, E2.
  destruct (Groups.Get _ _) as [z |] eqn:Hz; [| reflexivity]. unfold mbind at 1, M_bind.
  pose proof (keeps_gu_Create (gb_Label body) (TrimSpace (gb_ZoneID body)) (gb_Password body) s) as Hk.
  destruct (gu_Create _ _ _ s) as [res s1]. etransitivity; [apply Hk | destruct res; reflexivity].
  rewrite TrimSpace_idem. unfold Groups.Get in Hz.
  apply bind_Some in Hz as (i & (g & Hg & <-)%indexOf_Some & _).
  apply list_elem_of_fmap. exists g. split; [done | by eapply list_elem_of_lookup_2].
Qed.

Lemma keeps_data_pattern p ids r ctx : p ∈ data_patterns a → frames keeps (pt_handler p ids r ctx).
Proof.
  unfold Api.data_patterns, when. rewrite Hflag. rewrite !elem_of_app, !elem_of_cons, !elem_of_nil.
  intros [[-> | [-> | [-> | [-> | [-> | [-> | []]]]]]] | [Hp | [-> | [-> | [-> | [-> | []]]]]]]; simpl.
  - apply frames_handleNodes, _.
  - apply frames_handleRouter, _.
  - unfold id_of, handleSetExitNode. case_match; [apply (frames_ret keeps) |]. apply keeps_authorized.
    apply (frames_bind keeps); [keep_step | intros; apply keeps_respond].
  - apply keeps_authorized. apply (frames_bind keeps); [keep_step | intros; apply keeps_respond].
  - apply keeps_authorized. apply (frames_bind keeps); [keep_step | intros; apply keeps_respond].
  - apply frames_handleMe, _.
  - destruct (api_groups a); [| by apply elem_of_nil in Hp].
    rewrite !elem_of_cons, elem_of_nil in Hp.
    destruct Hp as [-> | [-> | [-> | [-> | []]]]]; simpl; apply keeps_RequireAdmin.
    + apply (frames_bind keeps); [apply keeps_gs_List | intros; apply (frames_ret keeps)].
    + unfold handleCreateGroup. repeat keep_step.
    + unfold id_of, handleUpdateGroup. repeat keep_step.
    + apply keeps_handleDeleteGroup.
  - apply keeps_RequireAdmin.
    apply (frames_bind keeps); [apply keeps_gu_List | intros; apply (frames_ret keeps)].
  - apply keeps_RequireAdmin, keeps_handleCreateGuest.
  - apply keeps_RequireAdmin. unfold id_of, Api.handleSetGuestDisabled. repeat keep_step.
  - apply keeps_RequireAdmin. unfold id_of, handleDeleteGuest. repeat keep_step.
Qed.

Lemma keeps_run es (s : Server) : keeps s (snd (server_run a es s)).
Proof.
  revert s. induction es as [| e es IH]; intros s; [reflexivity |]. rewrite server_run_cons.
  etransitivity; [| apply IH]. destruct e as [r |].
  - rewrite server_step_serve. apply (frames_Routes a keeps). apply keeps_data_pattern.
  - rewrite server_step_poll. apply keeps_on_poller, (pframes_refreshOnce same_zones).
Qed.
End operations.
End facts.

(** ** Starting *)

Section start.
Context `{UT : UnicodeTables} `{JT : JSONText} `{UP : URLParser} `{BC : Guests.Bcrypt} `{SC : StatusCodec}.
Context {N : Type} `{HN : Host N} `{LC : LocalClient N} `{Lib : SSHLib N}.
Context {K : Type} `{KH : KnownHosts K} {HF : Type} `{FS : HostFS HF}.

(** What a start went through. *)
Lemma runServe_inv p args (o : Outside N HF) sd :
  runServe p args o = inr (Some sd) →
  ∃ dummy cfg rc gs us api surfaces,
    let gpath := Config.Join [cfg_StateDir cfg; "groups.json"] in
    let upath := Config.Join [cfg_StateDir cfg; "guests.json"] in
    loadConfig p args = inr cfg ∧ serve_checks cfg = None ∧ ou_up o (newTSNet cfg) = None ∧ ou_client o = None ∧
    Groups.New gpath (ou_zone_files o) = inr gs ∧ Guests.New upath (ou_guest_files o) = inr us ∧
    Api.New (cfg_Owner cfg) (cfg_UIPassword cfg) (allowedHosts cfg (ou_status o)) true true (ou_secret o) =
      Some api ∧
    serve_listen cfg o = inr surfaces ∧
    sd = mkStarted (mkDeployment rc gpath upath dummy) api
           (mkServer (NewPoller (NewStore (ou_now o)) (cfg_Routers cfg) (cfg_PollInterval cfg)
                        |> ConfigureEgress (cfg_EgressCheck cfg) (cfg_EgressURL cfg)
                        |> ConfigureKeep (cfg_RequireKeep cfg))
              (mkNet (ou_host o) (mkWorld (ou_zone_files o) (ou_zone_ids o) gs))
              (mkWorld (ou_guest_files o) (ou_guest_ids o) us) []) surfaces.
Proof.
  unfold runServe. destruct (Guests.mustDummyHash _) as [dummy |]; [| done].
  destruct (loadConfig p args) as [e | cfg] eqn:Hcfg; [done |]. destruct (serve_checks cfg) eqn:Hchecks; [done |].
  destruct (ou_up o (newTSNet cfg)) eqn:Hup; [done |]. destruct (ou_client o) eqn:Hcl; [done |].
  destruct (Transport.New _ _) as [e | rc]; [done |].
  destruct (Groups.New _ _) as [e | gs] eqn:Hgs; [done |]. destruct (Guests.New _ _) as [e | us] eqn:Hus; [done |].
  destruct (Api.New _ _ _ true true _) as [api |] eqn:Hapi; [| done].
  destruct (serve_listen cfg o) as [e | surfaces] eqn:Hl; [done |]. intros [= <-].
  by exists dummy, cfg, rc, gs, us, api, surfaces.
Qed.

(** What it gives: the paths, a poller that has published nothing, and stores that hold what their
    files hold. *)
Lemma runServe_starts p args (o : Outside N HF) sd :
  runServe p args o = inr (Some sd) →
  let DP := sd_deployment sd in let s := sd_server sd in
  not_temp "groups" dp_gpath (Dir dp_gpath) ∧ not_temp "guests" dp_upath (Dir dp_upath) ∧
  api_guests (sd_api sd) = true ∧ initial (p_routers (sv_poller s)) (sv_poller s) ∧
  in_sync dp_gpath Groups.fromPersisted (sv_groups s) ∧ in_sync dp_upath Guests.fromPersisted (sv_guests s) ∧
  w_fs (sv_groups s) = ou_zone_files o ∧ w_fs (sv_guests s) = ou_guest_files o.
Proof.
  intros (dummy & cfg & rc & gs & us & api & surfaces & _ & _ & _ & _ & Hgs & Hus & Hapi & _ & ->)%runServe_inv.
  simpl. split; [by apply Join_not_temp |]. split; [by apply Join_not_temp |].
  split; [unfold Api.New in Hapi; destruct (ou_secret o); [done |]; by injection Hapi as <- |]. by repeat split.
Qed.

(** Where a started server is reached: it can be logged in to; it is on a host socket only when the
    configuration names one, and then a password is set; its health is on a loopback address; and
    the node, its local client and every listener had come up. *)
Theorem started_surfaces p args (o : Outside N HF) sd :
  runServe p args o = inr (Some sd) →
  ∃ cfg, loadConfig p args = inr cfg ∧
    sd_surfaces sd = OnTailnet (cfg_Listen cfg)
      :: (if String.eqb (cfg_HTTPListen cfg) "" then [] else [OnHost (cfg_HTTPListen cfg)])
      ++ [Healthz (cfg_HealthAddr cfg)] ∧
    api_owner (sd_api sd) = cfg_Owner cfg ∧ api_uiPassword (sd_api sd) = cfg_UIPassword cfg ∧
    (cfg_Owner cfg ≠ "" ∨ cfg_UIPassword cfg ≠ "") ∧
    (cfg_HTTPListen cfg ≠ "" → cfg_UIPassword cfg ≠ "" ∧ ou_http o = None) ∧
    (∃ h port ip, SplitHostPort (cfg_HealthAddr cfg) = inr (h, port) ∧ ParseAddr h = inr ip ∧ IsLoopback ip = true) ∧
    ou_up o (newTSNet cfg) = None ∧ ou_client o = None ∧ ou_listen o = None ∧ ou_health o = None.
Proof.
  intros (dummy & cfg & rc & gs & us & api & surfaces & Hcfg & Hchecks & Hup & Hcl & _ & _ & Hapi & Hl & ->)%runServe_inv.
  exists cfg. simpl. split; [done |].
  assert (valid_config cfg) as (_ & _ & _ & _ & Hloop & _).
  { unfold loadConfig in Hcfg. destruct (load_flags p args); [done |]. by apply resolve_inv in Hcfg as [? _]. }
  unfold Api.New in Hapi. destruct (ou_secret o); [done |]. injection Hapi as <-. simpl.
  unfold serve_checks in Hchecks. unfold serve_listen in Hl.
  destruct (ou_listen o); [done |]. destruct (ou_health o), (String.eqb_spec (cfg_HTTPListen cfg) "");
    simpl in *; try (destruct (ou_http o); try done); injection Hl as <-;
    destruct (String.eqb_spec (cfg_Owner cfg) ""), (String.eqb_spec (cfg_UIPassword cfg) ""); simpl in *; try done;
    naive_solver.
Qed.

End start.
