(* ===== verification/Requests.v ===== *)
(** Requests under concurrency.  [net/http] serves every request in a goroutine of
    its own, so between two operations of a handler anything may happen.  A handler is
    read here at the effect [request]: a tree that names each operation of the
    interfaces it is written against and continues with the answer, whatever that
    is.  The tree is the same code as the state transformer of System.v (Api.v is over
    an effect); it can be run alone, or as a program of atomic sections interleaved
    with the other goroutines of the server. *)

From S2P Require Import Prelude GoStd Errors Store Netip Ipnstate Netmap Authz Json Session Wire Api.
From S2P Require Import Conc Poller AtomicFile FileStore Router HostKey Transport Ssh Config CommandLine System.
From S2P Require Groups Guests.

(** ** Operations *)

(** internal/api/api.go:48-101, GroupStore.  The operations of the interfaces of the API (WhoIser,
    Controller, GroupStore, GuestStore), the snapshot cell, the clock, the random source and the
    delay. *)
Inductive iop :=
| IWhoIs (addr : string)
| ISet (routerID target : string)
| IKeep (routerID : string)
| IProbe (routerID : string)
| IRefreshGroups
| IGroups
| IGroup (id : string)
| ICreateGroup (g : Group)
| IUpdateGroup (id : string) (g : Group)
| IDeleteGroup (id : string)
| IGuests
| IGuest (id : string)
| ICreateGuest (label zoneID pw : string)
| ISetDisabled (id : string) (disabled : bool)
| IDeleteGuest (id : string)
| IAuthenticate (label pw : string)
| ILoad
| INow
| IRand (n : nat)
| ISleep (d : Duration).

Definition answer (o : iop) : Type :=
  match o with
  | IWhoIs _ => string * bool * option error
  | ISet _ _ | IKeep _ => RouterView * option error
  | IProbe _ => ProbeResult * option error
  | IRefreshGroups => unit
  | IGroups => list Group
  | IGroup _ => option Group
  | ICreateGroup _ | IUpdateGroup _ _ => error + Group
  | IDeleteGroup _ => error + unit
  | IGuests => list Guest
  | IGuest _ => option Guest
  | ICreateGuest _ _ _ | ISetDisabled _ _ => error + Guest
  | IDeleteGuest _ => error + unit
  | IAuthenticate _ _ => option Guest
  | ILoad => Snapshot
  | INow => Time
  | IRand _ => error + list Z
  | ISleep _ => unit
  end%type.

(** A request: it is answered, or it asks for an operation and goes on with its answer. *)
Inductive request (A : Type) : Type :=
| Answer (x : A)
| Ask (o : iop) (k : answer o → request A).
Arguments Answer {A} x.
Arguments Ask {A} o k.

Fixpoint request_then {A B} (t : request A) (f : A → request B) : request B :=
  match t with
  | Answer x => f x
  | Ask o k => Ask o (λ y, request_then (k y) f)
  end.
#[export] Instance request_ret : MRet request := @Answer.
#[export] Instance request_bind : MBind request := λ A B f t, request_then t f.
Definition ask (o : iop) : request (answer o) := Ask o Answer.

#[export] Instance request_who : WhoIser request := {| who_WhoIs addr := ask (IWhoIs addr) |}.
#[export] Instance request_controller : Controller request := {|
  ctl_SetExitNode routerID target := ask (ISet routerID target);
  ctl_Keep routerID := ask (IKeep routerID);
  ctl_Probe routerID := ask (IProbe routerID);
  ctl_RefreshGroups := ask IRefreshGroups;
|}.
#[export] Instance request_groups : GroupStore request := {|
  gs_List := ask IGroups;
  gs_Get id := ask (IGroup id);
  gs_Create g := ask (ICreateGroup g);
  gs_Update id g := ask (IUpdateGroup id g);
  gs_Delete id := ask (IDeleteGroup id);
|}.
#[export] Instance request_guests : GuestStore request := {|
  gu_List := ask IGuests;
  gu_Get id := ask (IGuest id);
  gu_Create label zone pw := ask (ICreateGuest label zone pw);
  gu_SetDisabled id d := ask (ISetDisabled id d);
  gu_Delete id := ask (IDeleteGuest id);
  gu_Authenticate label pw := ask (IAuthenticate label pw);
|}.
#[export] Instance request_world : ApiWorld request := {|
  aw_Load := ask ILoad;
  aw_Now := ask INow;
  aw_Rand n := ask (IRand n);
  aw_Sleep d := ask (ISleep d);
|}.

(** ** Running a request at another effect *)

Section interp.
Context {T : Type → Type} `{MR : MRet T} `{MB : MBind T} `{WI : !WhoIser T} `{CT : !Controller T}
  `{GS : !GroupStore T} `{GU : !GuestStore T} `{AW : !ApiWorld T}.

Definition perform (o : iop) : T (answer o) :=
  match o with
  | IWhoIs addr => who_WhoIs addr
  | ISet routerID target => ctl_SetExitNode routerID target
  | IKeep routerID => ctl_Keep routerID
  | IProbe routerID => ctl_Probe routerID
  | IRefreshGroups => ctl_RefreshGroups
  | IGroups => gs_List
  | IGroup id => gs_Get id
  | ICreateGroup g => gs_Create g
  | IUpdateGroup id g => gs_Update id g
  | IDeleteGroup id => gs_Delete id
  | IGuests => gu_List
  | IGuest id => gu_Get id
  | ICreateGuest label zone pw => gu_Create label zone pw
  | ISetDisabled id d => gu_SetDisabled id d
  | IDeleteGuest id => gu_Delete id
  | IAuthenticate label pw => gu_Authenticate label pw
  | ILoad => aw_Load
  | INow => aw_Now
  | IRand n => aw_Rand n
  | ISleep d => aw_Sleep d
  end.

Fixpoint interp {A} (t : request A) : T A :=
  match t with
  | Answer x => mret x
  | Ask o k => x ← perform o; interp (k x)
  end.
End interp.

(** ** The goroutines of the server *)

Section server.
Context `{UT : UnicodeTables} `{JT : JSONText} `{UP : URLParser} `{BC : Guests.Bcrypt} `{SC : StatusCodec}.
Context {N : Type} `{HN : Host N} `{LC : LocalClient N} `{Lib : SSHLib N} `{DP : Deployment}.
Abbreviation Server := (Server (N := N)).

(** The poller and its world inside the server. *)
Definition net_of (s : Server) : Poller * Net (N := N) := (sv_poller s, sv_net s).
Definition put_net (x : Poller * Net (N := N)) (s : Server) : Server :=
  mkServer (fst x) (snd x) (sv_guests s) (sv_compared s).
Definition in_poller {A} (p : prog (Poller * Net) A) : prog Server A := lift net_of put_net p.

#[export] Instance section_who : WhoIser (prog Server) :=
  {| who_WhoIs addr := atomic (who_WhoIs (T := M Server) addr) |}.
(** internal/poller/poller.go:107-122, Poller.  The operations of the controller, section by
    section. *)
#[export] Instance section_controller : Controller (prog Server) := {|
  ctl_SetExitNode routerID target := in_poller (SetExitNode (Env := net_env) routerID target);
  ctl_Keep routerID := in_poller (Keep (Env := net_env) routerID);
  ctl_Probe routerID := in_poller (Poller.Probe (Env := net_env) routerID);
  ctl_RefreshGroups := in_poller (RefreshGroups (Env := net_env));
|}.
(** internal/groups/groups.go:134-227, Store.  Every operation holds the mutex from its first read
    to its return, so it is one section. *)
#[export] Instance section_groups : GroupStore (prog Server) := {|
  gs_List := atomic (gs_List (T := M Server));
  gs_Get id := atomic (gs_Get (T := M Server) id);
  gs_Create g := atomic (gs_Create (T := M Server) g);
  gs_Update id g := atomic (gs_Update (T := M Server) id g);
  gs_Delete id := atomic (gs_Delete (T := M Server) id);
|}.
(** internal/guests/guests.go:203-359, Store.  As for the zones, but a password is hashed before the
    mutex is taken, and compared after it was released. *)
#[export] Instance section_guests : GuestStore (prog Server) := {|
  gu_List := atomic (gu_List (T := M Server));
  gu_Get id := atomic (gu_Get (T := M Server) id);
  gu_Create label zone pw :=
    salt ← atomic (on_net (on_host host_Salt));
    atomic (now ← on_net (on_host host_Now);
            on_guests (r ← Guests.Create dp_upath (Dir dp_upath) salt now label zone pw; mret (no_more r)));
  gu_SetDisabled id d := atomic (gu_SetDisabled (T := M Server) id d);
  gu_Delete id := atomic (gu_Delete (T := M Server) id);
  gu_Authenticate label pw :=
    items ← atomic (gets (λ s, w_items (sv_guests s)));
    atomic (on_compared (Guests.Authenticate dp_dummyHash items label pw));
|}.
#[export] Instance section_world : ApiWorld (prog Server) := {|
  aw_Load := atomic (aw_Load (T := M Server));
  aw_Now := atomic (aw_Now (T := M Server));
  aw_Rand n := atomic (aw_Rand (T := M Server) n);
  aw_Sleep d := atomic (aw_Sleep (T := M Server) d);
|}.

(** internal/api/api.go:177-229, API.Routes.  A request, served in its goroutine. *)
Definition serve (a : API) (r : Request) : prog Server Response :=
  interp (Routes (T := request) a r emptyCtx).

(** What a goroutine of the server does, one event after the other: the requests of a
    connection; the polls of the run loop. *)
Definition goroutine_event (a : API) (e : server_event) : thread Server :=
  match e with
  | Serve r => _ ← serve a r; mret tt
  | Poll => _ ← in_poller (refreshOnce (Env := net_env)); mret tt
  end.
Definition goroutine (a : API) (es : list server_event) : thread Server :=
  pforeach es (goroutine_event a).
End server.
