(* ===== verification/RequestsFacts.v ===== *)
(** Requests under concurrency: a request that nothing interrupts is the request of
    System.v; whatever the others do meanwhile, a request touches nothing before it has
    shown who it is; and in every interleaving of requests and polls the invariants of
    the poller and of the two stores hold. *)

From S2P Require Import Prelude GoStd Errors Store Netip Ipnstate Netmap Authz Json Session Wire Api.
From S2P Require Import Conc PollerBase Poller PollerFrame PollerConc AtomicFile FileStore Router HostKey Transport Ssh.
From S2P Require Import Config CommandLine System ApiFacts SystemFacts Requests.
From S2P Require Groups GroupsFacts Guests GuestsFacts.
From stdpp Require Import relations.

#[local] Existing Instance Guests.guest_item.
#[local] Existing Instance Groups.group_item.

(** ** A request alone *)

Section alone.
Context `{UT : UnicodeTables} `{JT : JSONText} `{UP : URLParser}.
Context {W : Type} `{WI : !WhoIser (M W)} `{CT : !Controller (M W)} `{GS : !GroupStore (M W)}
  `{GU : !GuestStore (M W)} `{AW : !ApiWorld (M W)}.
Variable a : API.

(** A tree and a state transformer do the same. *)
Definition sim {A} (t : request A) (m : M W A) : Prop := ∀ w, interp (T := M W) t w = m w.

Lemma sim_ret {A} (x : A) : sim (mret x) (mret x).
Proof. done. Qed.

Lemma interp_bind {A B} (t : request A) (f : A → request B) w :
  interp (T := M W) (t ≫= f) w = let '(x, w') := interp (T := M W) t w in interp (T := M W) (f x) w'.
Proof.
  revert w. induction t as [x | o k IH]; intros w; [done |].
  unfold mbind at 1, request_bind. simpl. unfold mbind, M_bind.
  destruct (perform (T := M W) o w) as [y w']. apply IH.
Qed.

Lemma sim_bind {A B} (t : request A) (m : M W A) f g :
  sim t m → (∀ x : A, sim (f x : request B) (g x)) → sim (t ≫= f) (m ≫= g).
Proof.
  intros Ht Hf w. rewrite interp_bind, (Ht w). unfold mbind, M_bind. destruct (m w). apply Hf.
Qed.

Lemma sim_ask o : sim (ask o) (perform (T := M W) o).
Proof. intros w. simpl. unfold mbind, M_bind, mret, M_ret. by destruct (perform (T := M W) o w). Qed.

(** Follow the two readings of the same code. *)
Ltac sim_op :=
  match goal with
  | |- sim (mret _) (mret _) => apply sim_ret
  | |- sim (mbind _ _) (mbind _ _) => apply sim_bind; [| intros ?]
  | |- sim (who_WhoIs ?x) _ => exact (sim_ask (IWhoIs x))
  | |- sim (ctl_SetExitNode ?x ?y) _ => exact (sim_ask (ISet x y))
  | |- sim (ctl_Keep ?x) _ => exact (sim_ask (IKeep x))
  | |- sim (ctl_Probe ?x) _ => exact (sim_ask (IProbe x))
  | |- sim ctl_RefreshGroups _ => exact (sim_ask IRefreshGroups)
  | |- sim gs_List _ => exact (sim_ask IGroups)
  | |- sim (gs_Get ?x) _ => exact (sim_ask (IGroup x))
  | |- sim (gs_Create ?x) _ => exact (sim_ask (ICreateGroup x))
  | |- sim (gs_Update ?x ?y) _ => exact (sim_ask (IUpdateGroup x y))
  | |- sim (gs_Delete ?x) _ => exact (sim_ask (IDeleteGroup x))
  | |- sim gu_List _ => exact (sim_ask IGuests)
  | |- sim (gu_Get ?x) _ => exact (sim_ask (IGuest x))
  | |- sim (gu_Create ?x ?y ?z) _ => exact (sim_ask (ICreateGuest x y z))
  | |- sim (gu_SetDisabled ?x ?y) _ => exact (sim_ask (ISetDisabled x y))
  | |- sim (gu_Delete ?x) _ => exact (sim_ask (IDeleteGuest x))
  | |- sim (gu_Authenticate ?x ?y) _ => exact (sim_ask (IAuthenticate x y))
  | |- sim aw_Load _ => exact (sim_ask ILoad)
  | |- sim aw_Now _ => exact (sim_ask INow)
  | |- sim (aw_Rand ?x) _ => exact (sim_ask (IRand x))
  | |- sim (aw_Sleep ?x) _ => exact (sim_ask (ISleep x))
  end.
Ltac sims := repeat first [sim_op | done | case_match].

Definition same_subject (c : Ctx (request bool)) (c' : Ctx (M W bool)) : Prop :=
  SubjectFromContext c = SubjectFromContext c'.
Definition sim_handler (h : Handler (T := request)) (h' : Handler (T := M W)) : Prop :=
  ∀ r c c', same_subject c c' → sim (h r c) (h' r c').

Lemma sim_resolveSubject r : sim (resolveSubject a r) (resolveSubject a r).
Proof. unfold resolveSubject, is_owner, guests_Get, groups_Get. sims. Qed.

Lemma sim_authorized c c' id t k k' :
  same_subject c c' → sim k k' → sim (authorized a c id t k) (authorized a c' id t k').
Proof.
  intros Hc Hk. unfold authorized, authorizeRouterWrite, groups_Get. rewrite Hc.
  repeat first [exact Hk | sim_op | done | case_match].
Qed.

Lemma sim_RequireAdmin h h' : sim_handler h h' → sim_handler (RequireAdmin h) (RequireAdmin h').
Proof.
  intros Hh r c c' Hc. unfold RequireAdmin. rewrite Hc. destruct (SubjectFromContext c') as [sub ok].
  destruct (_ || _); [apply sim_ret | by apply Hh].
Qed.

(** The patterns of the two muxes, one by one. *)
Record sim_pattern (p : Pattern (T := request)) (p' : Pattern (T := M W)) : Prop := {
  sim_method : pt_method p = pt_method p';
  sim_path : pt_path p = pt_path p';
  sim_run : ∀ ids, sim_handler (pt_handler p ids) (pt_handler p' ids);
}.

Lemma sim_find r ps ps' :
  Forall2 sim_pattern ps ps' →
  match List.find (pattern_matches r) ps, List.find (pattern_matches r) ps' with
  | Some p, Some p' => sim_pattern p p'
  | None, None => existsb (path_matches r) ps = existsb (path_matches r) ps'
  | _, _ => False
  end.
Proof.
  induction 1 as [| p p' ps ps' Hp _ IH]; [done |]. simpl. destruct Hp as [Hm Hpath Hrun].
  assert (pattern_matches r p = pattern_matches r p' ∧ path_matches r p = path_matches r p') as [-> ->].
  { unfold pattern_matches, path_matches. by rewrite Hm, Hpath. }
  destruct (pattern_matches r p'); [by split |].
  destruct (List.find _ ps), (List.find _ ps'); try done. by rewrite IH.
Qed.

Lemma sim_run_pattern p p' : sim_pattern p p' → sim_handler (run_pattern p) (run_pattern p').
Proof. intros [_ Hpath Hrun] r c c' Hc. unfold run_pattern. rewrite Hpath. by apply Hrun. Qed.

Lemma sim_mux ps ps' : Forall2 sim_pattern ps ps' → sim_handler (mux ps) (mux ps').
Proof.
  intros Hps r c c' Hc. unfold mux. pose proof (sim_find r ps ps' Hps) as H.
  destruct (List.find _ ps), (List.find _ ps'); try done; [by apply sim_run_pattern |].
  rewrite H. apply sim_ret.
Qed.

Lemma sim_when b ps ps' : Forall2 sim_pattern ps ps' → Forall2 sim_pattern (when b ps) (when b ps').
Proof. by destruct b; [| constructor]. Qed.

Lemma sim_data_patterns : Forall2 sim_pattern (data_patterns a) (data_patterns a).
Proof.
  unfold data_patterns. repeat apply Forall2_app; [| apply sim_when | apply sim_when].
  all: repeat (apply Forall2_cons; split; [split; [done | done | intros ids; cbn [pt_handler]] |]);
    try apply Forall2_nil_2; try apply sim_RequireAdmin; intros r c c' Hc; unfold id_of.
  all: unfold handleNodes, handleRouter, routerInZone, groups_Get, handleMe, handleSetExitNode, handleKeep,
    handleProbe, respond, handleListGroups, handleCreateGroup, handleUpdateGroup, handleDeleteGroup,
    handleListGuests, handleCreateGuest, handleSetGuestDisabled, handleDeleteGuest; rewrite ?Hc.
  all: repeat first [apply sim_authorized; [exact Hc |] | sim_op | done | case_match | unfold groups_Get].
Qed.

Lemma sim_bootstrap_patterns : Forall2 sim_pattern (bootstrap_patterns a) (bootstrap_patterns a).
Proof.
  unfold bootstrap_patterns.
  repeat (apply Forall2_cons; split; [split; [done | done | intros ids r c c' Hc; cbn [pt_handler]] |]);
    try apply Forall2_nil_2;
    unfold handleCSRF, randomToken, handleLogin, login_subject, login_failed, handleLogout; sims.
Qed.

Lemma sim_Routes : sim_handler (Routes a) (Routes a).
Proof.
  intros r c c' Hc. unfold Routes, RequireHost, RequireCSRF, api_mux.
  pose proof (sim_find r _ _ sim_bootstrap_patterns) as Hb.
  assert (sim (RequireAuth a (mux (data_patterns a)) r c) (RequireAuth a (mux (data_patterns a)) r c')) as Hd.
  { unfold RequireAuth. apply sim_bind; [apply sim_resolveSubject | intros [sub |]; [| apply sim_ret]].
    by apply (sim_mux _ _ sim_data_patterns). }
  destruct (List.find _ (bootstrap_patterns a)), (List.find _ (bootstrap_patterns a)); try done;
    repeat first [by apply sim_run_pattern | exact Hd | apply sim_ret | case_match].
Qed.
End alone.

Section served.
Context `{UT : UnicodeTables} `{JT : JSONText} `{UP : URLParser} `{BC : Guests.Bcrypt} `{SC : StatusCodec}.
Context {N : Type} `{HN : Host N} `{LC : LocalClient N} `{Lib : SSHLib N} `{DP : Deployment}.
Variable a : API.
Abbreviation Server := (Server (N := N)).

Lemma on_poller_lift {A} (p : prog (Poller * Net) A) (s : Server) : run (in_poller p) s = on_poller p s.
Proof.
  unfold in_poller. rewrite run_lift; try done.
  - unfold through, on_poller, net_of. by destruct (run p _) as [x [p' n']].
  - by intros [].
  - by intros [].
Qed.

Lemma run_perform o (s : Server) : run (perform (T := prog Server) o) s = perform (T := M Server) o s.
Proof.
  destruct o; try exact (run_atomic _ s); try exact (on_poller_lift _ s).
  cbn. unfold mbind, M_bind. destruct (on_net (on_host host_Salt) s) as [salt s1]. cbn.
  destruct (on_net (on_host host_Now) s1) as [now s2]. by destruct (on_guests _ s2).
Qed.

Lemma run_interp {A} (t : request A) (s : Server) :
  run (interp (T := prog Server) t) s = interp (T := M Server) t s.
Proof.
  revert s. induction t as [x | o k IH]; intros s; [done |].
  simpl. rewrite run_mbind, run_perform. unfold mbind, M_bind.
  destruct (perform (T := M Server) o s) as [y s']. apply IH.
Qed.

End served.

(** ** Every interleaving *)

#[local] Existing Instance same_zones_preorder.
#[local] Existing Instance net_frames.

Section pool.
Context `{UT : UnicodeTables} `{JT : JSONText} `{UP : URLParser} `{BC : Guests.Bcrypt} `{SC : StatusCodec}.
Context {N : Type} `{HN : Host N} `{LC : LocalClient N} `{Lib : SSHLib N} `{DP : Deployment}.
Variable a : API.
Abbreviation Server := (Server (N := N)).
Abbreviation zones s := (w_items (sv_groups s)).
Abbreviation guests s := (w_items (sv_guests s)).

(** The addressing assumption of PollerConc.v, of the inventory of the local client; and
    the files of the stores are not named like a temporary one. *)
Context (rs : list string).
Hypothesis Hrs : rs ≠ [].
Hypothesis Hinventory : ∀ h : N, Forall (wf_node rs) (fst (fst (Inventory h))).
Hypothesis Hgt : not_temp "groups" dp_gpath (Dir dp_gpath).
Hypothesis Hut : not_temp "guests" dp_upath (Dir dp_upath).
Variable s0 : Server.

(** The two stores: well formed, and since the start either written to their file or
    untouched. *)
Record stores_ok (s : Server) : Prop := {
  so_zones : wf_store GroupsFacts.tidy_group (zones s);
  so_zones_file : tracks dp_gpath (sv_groups s0) (sv_groups s);
  so_guests : wf_store GuestsFacts.tidy_guest (guests s);
  so_guests_file : tracks dp_upath (sv_guests s0) (sv_guests s);
}.

Lemma stores_ok_same s s' :
  sv_groups s' = sv_groups s → sv_guests s' = sv_guests s → stores_ok s → stores_ok s'.
Proof. intros E1 E2 [H1 H2 H3 H4]. by split; rewrite ?E1, ?E2. Qed.

Definition ok (x : Server * gmap (string * Z) nat) : Prop :=
  PollerConc.Inv rs (net_of (fst x), snd x) ∧ stores_ok (fst x).
Definition rely (i : nat) (x y : Server * gmap (string * Z) nat) : Prop :=
  PollerConc.R i (net_of (fst x), snd x) (net_of (fst y), snd y).
Definition guarantee (i : nat) (x y : Server * gmap (string * Z) nat) : Prop :=
  PollerConc.G i (net_of (fst x), snd x) (net_of (fst y), snd y).
Abbreviation safe i p := (sat ok (rely i) (guarantee i) (λ _, True) p (λ _ _, True)).

Lemma guarantee_compat i j x y : i ≠ j → guarantee i x y → rely j x y.
Proof. apply G_compat. Qed.

(** A section that leaves the poller alone and keeps the stores. *)
Definition keeps_stores {A} (m : M Server A) : Prop :=
  ∀ s, sv_poller (snd (m s)) = sv_poller s ∧ (stores_ok s → stores_ok (snd (m s))).

Lemma safe_section {A} i (m : M Server A) : keeps_stores m → safe i (atomic m).
Proof.
  intros Hm. apply sat_atomic; [| done]. intros s g [[HG Hc] Hs] _. exists g.
  destruct (Hm s) as [Hp Hs']. unfold ok, guarantee, PollerConc.Inv, PollerConc.G, net_of. simpl.
  rewrite Hp. split; [split; [by split | by apply Hs'] |]. split; [apply guar_refl | done].
Qed.

(** A program of the poller. *)
Lemma safe_poller {A} i (p : prog (Poller * Net) A) :
  pframes same_zones p →
  sat (PollerConc.Inv rs) (PollerConc.R i) (PollerConc.G i) (λ _, True) p (λ _ _, True) →
  safe i (in_poller p).
Proof.
  intros Hf Hp. apply (sat_lift net_of put_net _ stores_ok (keeps_world same_zones)) in Hp; try done.
  - by intros [].
  - intros s [p' n] Hs [_ Hz]. apply (stores_ok_same s); [exact Hz | done | done].
Qed.

Lemma safe_bind {A B} i (p : prog Server A) (f : A → prog Server B) :
  safe i p → (∀ x, safe i (f x)) → safe i (p ≫= f).
Proof. intros Hp Hf. by apply (sat_bind _ _ _ _ _ _ (λ _ _, True)). Qed.

Lemma keeps_stores_quiet {A} (m : M Server A) : (∀ s, quiet s (snd (m s))) → keeps_stores m.
Proof. intros Hm s. destruct (Hm s) as (H1 & H2 & H3). split; [done |]. by apply stores_ok_same. Qed.

Lemma quiet_groups_gets {A} (f : World Group → A) (s : Server) : quiet s (snd (on_groups (gets f) s)).
Proof. by destruct (on_groups_gets f s) as [-> _]. Qed.
Lemma quiet_guests_gets {A} (f : World Guests.guest → A) (s : Server) : quiet s (snd (on_guests (gets f) s)).
Proof. by destruct (on_guests_gets f s) as [-> _]. Qed.

Lemma keeps_stores_groups {A} (m : M (World Group) A) :
  (∀ w w' r, m w = (r, w') → ∃ B (r' : option (error + B)) o,
     transaction dp_gpath w (GroupsFacts.op_result o (w_items w)) r' w') →
  keeps_stores (on_groups m).
Proof.
  intros Hm s. split; [by destruct s as [p [h g] u l]; unfold on_groups, on_net; simpl; destruct (m g) |].
  intros [H1 H2 H3 H4]. destruct (on_groups_state m s) as [E1 E2].
  destruct (m (sv_groups s)) as [r w'] eqn:E. simpl in E2.
  destruct (Hm _ _ _ E) as (B & r' & o & Ht). split; rewrite ?E1, ?E2; try done.
  - destruct (transaction_items _ _ _ _ _ Ht) as [-> | Hop]; [done | by eapply GroupsFacts.op_result_wf].
  - by eapply transaction_tracks.
Qed.

Lemma keeps_stores_guests {A} (m : M (World Guests.guest) A) :
  (∀ w w' r, m w = (r, w') → ∃ B (r' : option (error + B)) o,
     transaction dp_upath w (GuestsFacts.guest_result o (w_items w)) r' w') →
  keeps_stores (on_guests m).
Proof.
  intros Hm s. split; [by unfold on_guests; destruct (m (sv_guests s)) |].
  intros [H1 H2 H3 H4]. destruct (on_guests_state m s) as [E1 E2].
  destruct (m (sv_guests s)) as [r w'] eqn:E. simpl in E2.
  destruct (Hm _ _ _ E) as (B & r' & o & Ht). split; rewrite ?E1, ?E2; try done.
  - destruct (transaction_items _ _ _ _ _ Ht) as [-> | Hop]; [done | by eapply GuestsFacts.guest_result_wf].
  - by eapply transaction_tracks.
Qed.

Lemma keeps_stores_bind {A B} (m : M Server A) (f : A → M Server B) :
  keeps_stores m → (∀ x, keeps_stores (f x)) → keeps_stores (m ≫= f).
Proof.
  intros Hm Hf s. unfold mbind, M_bind. destruct (Hm s) as [H1 H2]. destruct (m s) as [x s1].
  destruct (Hf x s1) as [H3 H4]. simpl in *. split; [congruence | auto].
Qed.

(** Every operation of a request. *)
Lemma safe_perform i o : safe i (perform (T := prog Server) o).
Proof.
  destruct o; cbn [perform].
  - apply safe_section, keeps_stores_quiet. intros s. apply on_net_quiet.
  - by apply safe_poller; [apply (pframes_SetExitNode same_zones) | apply SetExitNode_sat].
  - by apply safe_poller; [apply (pframes_Keep same_zones) | apply Keep_sat].
  - by apply safe_poller; [apply (pframes_Probe same_zones) | apply Probe_sat].
  - by apply safe_poller; [apply (pframes_RefreshGroups same_zones) | apply RefreshGroups_sat].
  - apply safe_section, keeps_stores_quiet. apply quiet_groups_gets.
  - apply safe_section, keeps_stores_quiet. apply quiet_groups_gets.
  - apply safe_section, keeps_stores_groups. intros w w' r. unfold mbind, M_bind.
    destruct (Groups.Create _ _ g w) as [r0 w0] eqn:E. intros [= _ <-].
    apply GroupsFacts.Create_transaction in E as [E _]; [eauto | done].
  - apply safe_section, keeps_stores_groups. intros w w' r E.
    apply GroupsFacts.Update_transaction in E; [eauto | done].
  - apply safe_section, keeps_stores_groups. intros w w' r E.
    apply GroupsFacts.Delete_transaction in E; [eauto | done].
  - apply safe_section, keeps_stores_quiet. apply quiet_guests_gets.
  - apply safe_section, keeps_stores_quiet. apply quiet_guests_gets.
  - apply safe_bind; [apply safe_section, keeps_stores_quiet; intros s; apply on_net_quiet | intros salt].
    apply safe_section, keeps_stores_bind;
      [apply keeps_stores_quiet; intros s; apply on_net_quiet | intros now].
    apply keeps_stores_guests. intros w w' r. unfold mbind, M_bind.
    destruct (Guests.Create _ _ _ _ _ _ _ w) as [r0 w0] eqn:E. intros [= _ <-].
    apply GuestsFacts.guest_Create_transaction in E as [E _]; [eauto | done].
  - apply safe_section, keeps_stores_guests. intros w w' r E.
    apply GuestsFacts.guest_SetDisabled_transaction in E; [eauto | done].
  - apply safe_section, keeps_stores_guests. intros w w' r E.
    apply GuestsFacts.guest_Delete_transaction in E; [eauto | done].
  - apply safe_bind; [apply safe_section, keeps_stores_quiet; done | intros items].
    apply safe_section, keeps_stores_quiet. intros s. unfold on_compared.
    destruct (Guests.Authenticate _ _ _ _ _). by repeat split.
  - by apply safe_section, keeps_stores_quiet.
  - apply safe_section, keeps_stores_quiet. intros s. apply on_net_quiet.
  - apply safe_section, keeps_stores_quiet. intros s. apply on_net_quiet.
  - apply safe_section, keeps_stores_quiet. intros s. apply on_net_quiet.
Qed.

Lemma safe_interp {A} i (t : request A) : safe i (interp (T := prog Server) t).
Proof.
  induction t as [x | o k IH]; [by intros y | apply safe_bind; [apply safe_perform | apply IH]].
Qed.

Lemma safe_goroutine i es : safe i (goroutine a es).
Proof.
  apply (sat_foreach _ _ _ _ _ (λ _, True)). intros [r |].
  - apply safe_bind; [apply safe_interp | by intros resp x].
  - apply safe_bind; [| by intros e x].
    apply safe_poller; [apply (pframes_refreshOnce same_zones) | apply refreshOnce_sat; [done |]].
    intros [h gr]. simpl. unfold on_host. simpl. specialize (Hinventory h). by destruct (Inventory h).
Qed.

Lemma reachable_ok events s' ts :
  initial rs (sv_poller s0) → stores_ok s0 →
  rtc pool_step (s0, goroutine a <$> events) (s', ts) → ∃ g, ok (s', g).
Proof.
  intros Hinit Hs Hsteps.
  destruct (pool_sound ok rely guarantee guarantee_compat (s0, ∅) (goroutine a <$> events) s' ts)
    as [g [Hok _]]; [| exact Hsteps | by exists g].
  split; [split; [by apply initial_Inv | done] |]. intros i t Ht.
  apply list_lookup_fmap_Some in Ht as (es & -> & _).
  exists (λ _, True). split; [done |]. split; [done |]. apply safe_goroutine.
Qed.
End pool.

Section started.
Context `{UT : UnicodeTables} `{JT : JSONText} `{UP : URLParser} `{BC : Guests.Bcrypt} `{SC : StatusCodec}.
Context {N : Type} `{HN : Host N} `{LC : LocalClient N} `{Lib : SSHLib N}.
Context {K : Type} `{KH : KnownHosts K} {HF : Type} `{FS : HostFS HF}.

End started.
