(* ===== verification/RequestsAuth.v ===== *)
(** Complete mediation: what a request may ask for, after what it has been answered.
    The answers are arbitrary, so the theorem covers every interleaving: whatever the
    other goroutines do between two operations of a request shows in its answers
    only. *)

From S2P Require Import Prelude GoStd Errors Store Netip Authz Json Session Wire Api ApiFacts Requests.

(** An operation with its answer. *)
Definition event : Type := {o : iop & answer o}.
Definition did (o : iop) (x : answer o) : event := existT o x.

Section mediation.
Context `{UT : UnicodeTables} `{JT : JSONText} `{UP : URLParser}.
Variable a : API.
Variable r : Request.
Implicit Types (past : list event) (sub : Subject).

(** ** Evidence *)

Definition session_at (now : Time) : option Subject :=
  parseSession (api_sessionSecret a) (Cookie r "tsctl_session") now.

(** The request is an admin's: its peer is the untagged owner, or it carries an unexpired admin
    session. *)
Definition shown_admin past : Prop :=
  (api_owner a ≠ "" ∧ did (IWhoIs (r_RemoteAddr r)) (api_owner a, false, None) ∈ past) ∨
  ∃ now sub, did INow now ∈ past ∧ session_at now = Some sub ∧ sub_Admin sub = true.

(** It is a guest's of the zone [z]: it carries an unexpired session of a guest that was read, not
    disabled and assigned to that zone, and the zone was read too. *)
Definition shown_guest past (z : string) : Prop :=
  ∃ now sub g zone, did INow now ∈ past ∧ session_at now = Some sub ∧ sub_Admin sub = false ∧
    did (IGuest (sub_GuestID sub)) (Some g) ∈ past ∧ gst_Disabled g = false ∧ gst_ZoneID g = z ∧
    did (IGroup z) (Some zone) ∈ past.

Definition authenticated past sub : Prop :=
  if sub_Admin sub then shown_admin past else shown_guest past (sub_ZoneID sub).

(** A guest's operation on the router [id]: the operation before it read the guest's zone, the
    router was one of its consumers, and the exit node, if any, one it allows. *)
Definition shown_zone past (id target : string) : Prop :=
  ∃ z g, shown_guest past z ∧ last past = Some (did (IGroup z) (Some g)) ∧ id ∈ g_Consumers g ∧
    (target = "" ∨ target ∈ g_AllowedExitNodes g).

(** ** The policy *)

Definition gate_passed : Prop :=
  hostAllowed a (r_Host r) = true ∧ (reading r = true ∨ csrf_error r = None).

Definition allowed past (o : iop) : Prop :=
  gate_passed ∧
  match o with
  | IWhoIs _ | INow | IGuest _ | IGroup _ | IRand _ | ISleep _ => True
  | IAuthenticate _ _ => r_Path r = ["api"; "login"]
  | ILoad => shown_admin past ∨ ∃ z, shown_guest past z
  | ISet id target => shown_admin past ∨ shown_zone past id target
  | IKeep id | IProbe id => shown_admin past ∨ shown_zone past id ""
  | IGroups | ICreateGroup _ | IUpdateGroup _ _ | IDeleteGroup _ | IRefreshGroups
  | IGuests | ICreateGuest _ _ _ | ISetDisabled _ _ | IDeleteGuest _ => shown_admin past
  end.

(** Every operation on every path of [t] is allowed by what the request was answered before, and
    [Q] holds of the answer it ends with. *)
Fixpoint mediated {A} past (t : request A) (Q : list event → A → Prop) : Prop :=
  match t with
  | Answer x => Q past x
  | Ask o k => allowed past o ∧ ∀ x, mediated (past ++ [did o x]) (k x) Q
  end.

Lemma mediated_ret {A} past (x : A) Q : Q past x → mediated past (mret x) Q.
Proof. done. Qed.

Lemma mediated_bind {A B} past (t : request A) (f : A → request B) Q :
  mediated past t (λ past' x, mediated past' (f x) Q) → mediated past (t ≫= f) Q.
Proof.
  unfold mbind, request_bind. revert past. induction t as [x | o k IH]; intros past; simpl; [done |].
  intros [Ho Hk]. split; [done |]. intros x. by apply IH.
Qed.

Lemma mediated_ask past o Q :
  allowed past o → (∀ x, Q (past ++ [did o x]) x) → mediated past (ask o) Q.
Proof. by split. Qed.

Lemma mediated_mono {A} past (t : request A) (Q Q' : list event → A → Prop) :
  mediated past t Q → (∀ past' x, Q past' x → Q' past' x) → mediated past t Q'.
Proof.
  intros Ht HQ. revert past Ht. induction t as [x | o k IH]; simpl; intros past; [apply HQ |].
  intros [Ho Hk]. split; [done |]. intros x. by apply IH.
Qed.

(** Evidence is not lost. *)
Lemma shown_admin_app past l : shown_admin past → shown_admin (past ++ l).
Proof.
  intros [[? ?] | (now & sub & ? & ?)]; [left | right; exists now, sub];
    (split; [try done | try done]); rewrite elem_of_app; by left.
Qed.
Lemma shown_guest_app past l z : shown_guest past z → shown_guest (past ++ l) z.
Proof.
  intros (now & sub & g & zone & ? & ? & ? & ? & ? & ? & ?). exists now, sub, g, zone.
  rewrite !elem_of_app. by repeat (split; [by eauto |]); eauto.
Qed.
Lemma authenticated_app past l sub : authenticated past sub → authenticated (past ++ l) sub.
Proof.
  unfold authenticated. destruct (sub_Admin sub); [apply shown_admin_app | apply shown_guest_app].
Qed.
Lemma elem_of_last past e : e ∈ past ++ [e].
Proof. rewrite elem_of_app, list_elem_of_singleton. by right. Qed.

#[local] Arguments mediated : simpl never.

(** ** The handlers *)

(** Turn the interfaces into operations and follow the tree. *)
Ltac mediate_step :=
  match goal with
  | |- mediated _ (mret _) _ => apply mediated_ret
  | |- mediated _ (mbind _ _) _ => apply mediated_bind
  | |- mediated _ (ask _) _ => apply mediated_ask; [| intros ?]
  | |- mediated _ (match ?x with _ => _ end) _ => destruct x eqn:?
  end.
Ltac operations :=
  cbn [who_WhoIs request_who ctl_SetExitNode ctl_Keep ctl_Probe ctl_RefreshGroups request_controller
       gs_List gs_Get gs_Create gs_Update gs_Delete request_groups gu_List gu_Get gu_Create gu_SetDisabled
       gu_Delete gu_Authenticate request_guests aw_Load aw_Now aw_Rand aw_Sleep request_world].
Ltac mediate :=
  operations; repeat mediate_step; try done;
  try (split; [assumption |]; repeat first [exact I | assumption | apply shown_admin_app]).

#[local] Arguments ask : simpl never.
#[local] Arguments mbind : simpl never.

Section gate.
Hypothesis Hgate : gate_passed.

Lemma mediated_is_owner past :
  mediated past (is_owner a r) (λ past' owner, owner = true → shown_admin past').
Proof.
  unfold is_owner. destruct (String.eqb_spec (api_owner a) "") as [Ho | Ho]; [by mediate |].
  operations. apply mediated_bind, mediated_ask; [by split |]. intros [[login tagged] err].
  apply mediated_ret. destruct err as [e |]; [done |]. rewrite !andb_true_iff, negb_true_iff, String.eqb_eq.
  intros [[-> _] ->]. left. split; [done | apply elem_of_last].
Qed.

Lemma mediated_resolveSubject past :
  mediated past (resolveSubject a r) (λ past' s, ∀ sub, s = Some sub → authenticated past' sub).
Proof.
  unfold resolveSubject. apply mediated_bind. eapply mediated_mono; [apply mediated_is_owner |].
  intros past1 owner Hown. destruct owner; [apply mediated_ret; intros sub [= <-]; by apply Hown |].
  clear Hown. operations. apply mediated_bind, mediated_ask; [by split |]. intros now.
  destruct (parseSession _ _ now) as [csub |] eqn:Hp; [| by mediate].
  destruct (sub_Admin csub) eqn:Ha.
  { apply mediated_ret. intros sub [= <-]. unfold authenticated. rewrite Ha. right.
    exists now, csub. split; [apply elem_of_last | done]. }
  unfold guests_Get, groups_Get. destruct (api_guests a); [| by mediate]. operations.
  apply mediated_bind, mediated_ask; [by split |]. intros [g |]; [| by mediate].
  destruct (gst_Disabled g) eqn:Hd; [by mediate |]. destruct (api_groups a); [| by mediate].
  operations. apply mediated_bind, mediated_ask; [by split |]. intros [z |]; [| by mediate].
  apply mediated_ret. intros sub [= <-]. exists now, csub, g, z.
  split_and!; try done; rewrite <- ?(assoc_L (++)); rewrite !elem_of_app, ?list_elem_of_singleton; auto.
Qed.

(** Behind the authentication. *)
Section authenticated.
Context (past : list event) (ctx : Ctx (request bool)) (sub : Subject).
Hypothesis Hsub : SubjectFromContext ctx = (sub, true).
Hypothesis Hauth : authenticated past sub.
Abbreviation fine t := (mediated past t (λ _ _, True)).

Lemma fine_RequireAdmin (h : Handler (T := request)) :
  (shown_admin past → fine (h r ctx)) → fine (RequireAdmin h r ctx).
Proof.
  intros Hh. unfold RequireAdmin. rewrite Hsub. simpl. unfold authenticated in Hauth.
  destruct (sub_Admin sub); [by apply Hh | by mediate].
Qed.

Lemma fine_authorized id target (k : request Response) :
  (∀ past', shown_admin past' ∨ shown_zone past' id target → mediated past' k (λ _ _, True)) →
  fine (authorized a ctx id target k).
Proof.
  intros Hk. unfold authorized, authorizeRouterWrite. rewrite Hsub. simpl.
  apply mediated_bind. unfold authenticated in Hauth.
  destruct (sub_Admin sub); [apply mediated_ret, Hk; by left |].
  unfold groups_Get. destruct (api_groups a); [| by mediate]. operations.
  apply mediated_bind, mediated_ask; [by split |]. intros [g |]; [| by mediate].
  destruct (containsStr (g_Consumers g) id) eqn:Hc; [| by mediate]. simpl.
  destruct (negb (String.eqb target "") && _) eqn:Ht; [by mediate |]. apply mediated_ret, Hk. right.
  exists (sub_ZoneID sub), g. split; [by apply shown_guest_app |]. split; [by rewrite last_snoc |].
  split; [by apply existsb_eqb_elem |]. destruct (String.eqb_spec target ""); [by left | right].
  apply negb_false_iff in Ht. by apply existsb_eqb_elem.
Qed.

Lemma fine_load id :
  fine (handleNodes r ctx) ∧ fine (handleRouter a id r ctx).
Proof.
  assert (∀ past', authenticated past' sub → allowed past' ILoad) as Hload.
  { intros past'. split; [done |]. unfold authenticated in *. destruct (sub_Admin sub); eauto. }
  unfold handleNodes, handleRouter, routerInZone, groups_Get. rewrite Hsub. simpl. split.
  - operations. apply mediated_bind, mediated_ask; [by apply Hload | intros]. by mediate.
  - destruct (sub_Admin sub) eqn:Ha.
    + operations. simpl. apply mediated_bind, mediated_ret, mediated_bind, mediated_ask; [by apply Hload |].
      intros snap. by mediate.
    + destruct (api_groups a); [| by mediate]. operations.
      apply mediated_bind, mediated_bind, mediated_ask; [by split | intros g]. apply mediated_ret.
      destruct g as [g |]; [| by mediate]. destruct (containsStr _ id); [simpl | by mediate].
      apply mediated_bind, mediated_ask; [by apply Hload, authenticated_app |]. intros snap. by mediate.
Qed.

Lemma fine_data_pattern p ids : p ∈ data_patterns a → fine (pt_handler p ids r ctx).
Proof.
  unfold data_patterns, when. rewrite !elem_of_app, !elem_of_cons, !elem_of_nil.
  intros [[-> | [-> | [-> | [-> | [-> | [-> | []]]]]]] | [Hp | Hp]]; cbn [pt_handler]; unfold id_of.
  - apply (fine_load "").
  - apply fine_load.
  - unfold handleSetExitNode. destruct (decode_body _ _ _ r) as [e | t]; [by mediate |].
    apply fine_authorized. intros past' H. unfold respond. by mediate.
  - apply fine_authorized. intros past' H. unfold respond. by mediate.
  - apply fine_authorized. intros past' H. unfold respond. by mediate.
  - unfold handleMe, groups_Get. rewrite Hsub. simpl. by mediate.
  - destruct (api_groups a); [| by apply elem_of_nil in Hp]. rewrite !elem_of_cons, elem_of_nil in Hp.
    destruct Hp as [-> | [-> | [-> | [-> | []]]]]; cbn [pt_handler]; apply fine_RequireAdmin; intros Ha;
      unfold handleListGroups, handleCreateGroup, id_of, handleUpdateGroup, handleDeleteGroup; by mediate.
  - destruct (api_guests a); [| by apply elem_of_nil in Hp]. rewrite !elem_of_cons, elem_of_nil in Hp.
    destruct Hp as [-> | [-> | [-> | [-> | []]]]]; cbn [pt_handler]; apply fine_RequireAdmin; intros Ha;
      unfold handleListGuests, handleCreateGuest, id_of, handleSetGuestDisabled, handleDeleteGuest; by mediate.
Qed.
End authenticated.

Lemma mediated_bootstrap p ids ctx past :
  p ∈ bootstrap_patterns a → pattern_matches r p = true →
  mediated past (pt_handler p ids r ctx) (λ _ _, True).
Proof.
  unfold bootstrap_patterns. rewrite !elem_of_cons, elem_of_nil.
  intros [-> | [-> | [-> | []]]] Hm; cbn [pt_handler].
  - unfold handleCSRF, randomToken. by mediate.
  - assert (r_Path r = ["api"; "login"]) as Hlogin.
    { apply andb_true_iff in Hm as [_ [ids' Hm]%bool_decide_eq_true]. revert Hm. simpl.
      destruct (r_Path r) as [| x [| y [| z l]]]; simpl; repeat case_match; try done.
      intros _. by repeat match goal with H : String.eqb _ _ = true |- _ => apply String.eqb_eq in H as -> end. }
    unfold handleLogin, login_subject, login_failed. by mediate.
  - unfold handleLogout. by mediate.
Qed.
End gate.

(** Evidence is there at the end as well. *)
Lemma mediated_keeps {A} past (t : request A) (P : list event → Prop) :
  (∀ past' l, P past' → P (past' ++ l)) → P past →
  mediated past t (λ _ _, True) → mediated past t (λ past' _, P past').
Proof.
  intros Happ. revert past. induction t as [x | o k IH]; intros past HP; [done |].
  intros [Ho Hk]. split; [done |]. intros x. apply IH; [by apply Happ | apply Hk].
Qed.

(** A success is an answer to somebody. *)
Definition vouched past (resp : Response) : Prop :=
  rs_Status resp < 400 → ∃ sub, authenticated past sub.

Lemma mediated_data ctx past :
  gate_passed → mediated past (RequireAuth a (mux (data_patterns a)) r ctx) vouched.
Proof.
  intros Hg. unfold RequireAuth. apply mediated_bind.
  eapply mediated_mono; [by apply mediated_resolveSubject |]. intros past' [sub |] Hsub; [| by intros H].
  specialize (Hsub sub eq_refl).
  eapply mediated_mono; [| intros past'' resp Hp _; exists sub; exact Hp].
  apply (mediated_keeps _ _ (λ past, authenticated past sub)); [intros; by apply authenticated_app | done |].
  unfold mux. destruct (List.find _ _) as [p |] eqn:Hf; [| done].
  apply find_some_elem in Hf as [Hp _]. by apply (fine_data_pattern Hg past' _ sub).
Qed.

(** A path of the API that is none of the bootstrap endpoints. *)
Definition data_request : Prop :=
  ∃ x l, r_Path r = "api" :: x :: l ∧
    ∀ p, p ∈ bootstrap_patterns (T := request) a → pattern_matches r p = false.

Lemma mediated_Routes ctx :
  mediated [] (Routes a r ctx) (λ past resp, data_request → vouched past resp).
Proof.
  unfold Routes, RequireHost. destruct (hostAllowed a (r_Host r)) eqn:Hh; [simpl | by intros _ H].
  unfold RequireCSRF. fold (reading r).
  assert (gate_passed → mediated [] (api_mux a r ctx) (λ past resp, data_request → vouched past resp)) as Hmux.
  { intros Hg. unfold api_mux. destruct (List.find _ _) as [p |] eqn:Hf.
    - apply find_some_elem in Hf as [Hp Hm].
      eapply mediated_mono; [by apply mediated_bootstrap |]. intros past resp _ (x & l & _ & Hno).
      by rewrite (Hno p Hp) in Hm.
    - destruct (r_Path r) as [| x [| y l]] eqn:Hr.
      + intros (? & ? & E & _). congruence.
      + destruct (String.eqb x "api"); intros (? & ? & E & _); congruence.
      + destruct (String.eqb_spec x "api") as [-> | Hx]; simpl; [| by intros _ H].
        eapply mediated_mono; [by apply mediated_data | by auto]. }
  destruct (reading r) eqn:Hread; [apply Hmux; split; [done | by left] |].
  destruct (csrf_error r) as [msg |] eqn:Hc; [by intros _ H |]. apply Hmux. split; [done | by right].
Qed.
End mediation.

(** ** Every path *)

(** [t], having been answered [past], asks for [o]; and is answered [x]. *)
Inductive asks {A} : request A → list event → iop → Prop :=
| asks_now o k : asks (Ask o k) [] o
| asks_later o k x past o' : asks (k x) past o' → asks (Ask o k) (did o x :: past) o'.
Inductive ends {A} : request A → list event → A → Prop :=
| ends_now x : ends (Answer x) [] x
| ends_later o k y past x : ends (k y) past x → ends (Ask o k) (did o y :: past) x.

Section paths.
Context `{UT : UnicodeTables} `{JT : JSONText} `{UP : URLParser}.
Variable a : API.

Lemma mediated_asks {A} r past0 (t : request A) Q past o :
  mediated a r past0 t Q → asks t past o → allowed a r (past0 ++ past) o.
Proof.
  intros Ht Ha. revert past0 Ht. induction Ha as [o k | o k x past o' _ IH]; intros past0 [Ho Hk].
  - by rewrite app_nil_r.
  - specialize (IH _ (Hk x)). by rewrite <- (assoc_L (++)) in IH.
Qed.
Lemma mediated_ends {A} r past0 (t : request A) Q past x :
  mediated a r past0 t Q → ends t past x → Q (past0 ++ past) x.
Proof.
  intros Ht He. revert past0 Ht. induction He as [x | o k y past x _ IH]; intros past0 Ht.
  - by rewrite app_nil_r.
  - destruct Ht as [Ho Hk]. specialize (IH _ (Hk y)). by rewrite <- (assoc_L (++)) in IH.
Qed.

(** C3: complete mediation.  Whatever the operations of a request are answered, and so
    whatever the other goroutines do in between: it asks for nothing unless its Host is
    allowed and, when it can change state, its CSRF token is right; it changes a store,
    or lists one, only after it was shown to be an admin's (the local client named its
    peer as the untagged owner, or it carries an admin session that had not expired);
    it reads the snapshot only as an admin's or a guest's; it operates a router only as
    an admin's, or as a guest's right after reading that guest's zone, of which the
    router is a consumer and the exit node, if any, an allowed one; and a request for data
    is answered with a success only when it was shown to be somebody's. *)
Theorem complete_mediation r past :
  (∀ o, asks (Routes a r emptyCtx) past o → allowed a r past o) ∧
  (∀ resp, ends (Routes a r emptyCtx) past resp → data_request a r → rs_Status resp < 400 →
     ∃ sub, authenticated a r past sub).
Proof.
  pose proof (mediated_Routes a r emptyCtx) as H. split.
  - intros o Ho. exact (mediated_asks r [] _ _ past o H Ho).
  - intros resp He. exact (mediated_ends r [] _ _ past resp H He).
Qed.
End paths.
