(* ===== verification/RequestsConfined.v ===== *)
(** Those who are not an admin administer nothing, under concurrency: complete mediation
    (RequestsAuth.v) put to work in the interleavings of the server. *)

From stdpp Require Import relations.
From S2P Require Import Prelude GoStd Errors Store Netip Ipnstate Netmap Authz Json Session Wire Api.
From S2P Require Import Conc PollerBase Poller PollerFrame PollerConc AtomicFile FileStore Router HostKey.
From S2P Require Import Transport Ssh Config CommandLine System SystemFacts Requests RequestsFacts RequestsAuth.
From S2P Require Groups Guests.

#[local] Existing Instance same_zones_preorder.
#[local] Existing Instance net_frames.

Section confined.
Context `{UT : UnicodeTables} `{JT : JSONText} `{UP : URLParser} `{BC : Guests.Bcrypt} `{SC : StatusCodec}.
Context {N : Type} `{HN : Host N} `{LC : LocalClient N} `{Lib : SSHLib N} `{DP : Deployment}.
Variable a : API.
Abbreviation Server := (Server (N := N)).

(** A request that can never show that it is an admin's: its address is not the owner's, whenever
    the local client is asked, and its session, if it is one, is a guest's. *)
Record never_admin (r : Request) : Prop := {
  na_peer : ∀ h : N, fst (WhoIs (r_RemoteAddr r) h) ≠ (api_owner a, false, None);
  na_session : ∀ now sub, session_at a r now = Some sub → sub_Admin sub = false;
}.

(** The operations only an admin may ask for. *)
Definition admin_only (o : iop) : bool :=
  match o with
  | IGroups | ICreateGroup _ | IUpdateGroup _ _ | IDeleteGroup _ | IRefreshGroups
  | IGuests | ICreateGuest _ _ _ | ISetDisabled _ _ | IDeleteGuest _ => true
  | _ => false
  end.

(** The operations of a router. *)
Definition controls (o : iop) : bool :=
  match o with ISet _ _ | IKeep _ | IProbe _ => true | _ => false end.

Variable s0 : Server.

(** An answer of a server whose stores are those of [s0]. *)
Definition answered (o : iop) : answer o → Prop :=
  match o with
  | IWhoIs addr => λ x, ∃ h : N, fst (WhoIs addr h) = x
  | IGuest id => λ x, x = Guests.Get id (sv_guests s0)
  | _ => λ _, True
  end.
Definition possible (past : list event) : Prop := ∀ e, e ∈ past → answered (projT1 e) (projT2 e).

(** A request whose session is nobody's: the guest it names is disabled, or is not in the store. *)
Definition locked_out (r : Request) : Prop :=
  ∀ now sub g, session_at a r now = Some sub →
    Guests.Get (sub_GuestID sub) (sv_guests s0) = Some g → gst_Disabled g = true.

Lemma never_admin_shown r past : never_admin r → possible past → ¬ shown_admin a r past.
Proof.
  intros [Hpeer Hsession] Hpast [[_ Hin] | (now & sub & _ & Hs & Ha)].
  - destruct (Hpast _ Hin) as [h Hh]. by apply (Hpeer h).
  - by rewrite (Hsession now sub Hs) in Ha.
Qed.

Lemma locked_out_shown r past z : locked_out r → possible past → ¬ shown_guest a r past z.
Proof.
  intros Hout Hpast (now & sub & g & zone & _ & Hs & _ & Hg & Hd & _).
  apply Hpast in Hg. simpl in Hg. symmetry in Hg. by rewrite (Hout now sub g Hs Hg) in Hd.
Qed.

Lemma possible_snoc past o x : possible past → answered o x → possible (past ++ [did o x]).
Proof. intros Hp Hx e [He | ->%list_elem_of_singleton]%elem_of_app; [by apply Hp | exact Hx]. Qed.

(** ** What the operations leave alone *)

Definition same_stores (s s' : Server) : Prop := sv_groups s' = sv_groups s ∧ sv_guests s' = sv_guests s.
#[local] Instance same_stores_preorder : PreOrder same_stores.
Proof. split; [done |]. unfold same_stores. intros ???. intuition congruence. Qed.
#[local] Existing Instance quiet_preorder.

Lemma quiet_same_stores s s' : quiet s s' → same_stores s s'.
Proof. by intros (H1 & H2 & _). Qed.

Lemma same_stores_poller {A} (p : prog (Poller * Net) A) :
  pframes same_zones p → every_section same_stores (in_poller p).
Proof. apply every_section_lift. intros s [p' n] [_ Hz]. split; [exact Hz | done]. Qed.

Lemma perform_quiet o :
  admin_only o = false → controls o = false → every_section quiet (perform (T := prog Server) o).
Proof.
  destruct o; try done; intros _ _; cbn [perform].
  - split; [intros s; apply on_net_quiet | done].
  - apply every_section_bind; [done | intros items]. split; [| done]. intros s. unfold on_compared.
    by destruct (Guests.Authenticate _ _ _ _ _).
  - split; [intros s; apply on_net_quiet | done].
  - split; [intros s; apply on_net_quiet | done].
  - split; [intros s; apply on_net_quiet | done].
Qed.

Lemma perform_same_stores o : admin_only o = false → every_section same_stores (perform (T := prog Server) o).
Proof.
  intros Ho. destruct (controls o) eqn:Hc.
  - destruct o; try done; cbn [perform]; apply same_stores_poller;
      [apply (pframes_SetExitNode same_zones) | apply (pframes_Keep same_zones) | apply (pframes_Probe same_zones)].
  - eapply every_section_mono; [apply quiet_same_stores | by apply perform_quiet].
Qed.

(** ** Requests that may not *)

Section harmless.
Context (T : relation Server) `{!PreOrder T}.
Hypothesis HT : ∀ s s', T s s' → same_stores s s'.
Abbreviation anything := (λ _ _ : Server * unit, True).
Abbreviation harmless p Q := (sat (λ x, T s0 (fst x)) anything anything (λ _, True) p Q).

Lemma harmless_sections {A} (p : prog Server A) : every_section T p → harmless p (λ _ _, True).
Proof.
  induction p as [x | X m k IH]; [done |]. intros [Hm Hk]. exists (λ _ _, True).
  split; [| split; [done | intros b; by apply IH]]. intros s [] Hs _. exists tt.
  split; [| done]. etransitivity; [exact Hs | apply Hm].
Qed.

Lemma harmless_perform o :
  every_section T (perform (T := prog Server) o) → harmless (perform (T := prog Server) o) (λ x _, answered o x).
Proof.
  intros Hs. destruct o; try (eapply sat_weaken; [by apply harmless_sections | done | done]);
    (apply sat_atomic; [| by intros x y z _ _ ? _]; intros s [] Hs0 _; exists tt; destruct Hs as [Hs _];
     split; [etransitivity; [exact Hs0 | apply Hs] | split; [done |]]; simpl).
  - unfold on_net, on_host. exists (net_host (sv_net s)).
    by destruct (WhoIs addr (net_host (sv_net s))).
  - destruct (HT _ _ Hs0) as [_ <-]. exact (proj2 (on_guests_gets (Guests.Get id) s)).
Qed.

Lemma harmless_request {A} r past (t : request A) Q :
  (∀ past' o, possible past' → allowed a r past' o → every_section T (perform (T := prog Server) o)) →
  mediated a r past t Q → possible past → harmless (interp (T := prog Server) t) (λ _ _, True).
Proof.
  intros Hr. revert past. induction t as [x | o k IH]; intros past Ht Hpast; [done |].
  destruct Ht as [Ho Hk]. apply (sat_bind _ _ _ _ _ _ (λ x _, answered o x ∧ True)).
  - eapply sat_weaken; [apply harmless_perform, (Hr past o Hpast Ho) | done | done].
  - intros x. apply sat_pure. intros Hx. by eapply IH; [apply Hk | apply possible_snoc].
Qed.

(** Goroutines that only do what leaves things alone leave them alone. *)
Lemma harmless_pool events s' ts :
  (∀ es e, es ∈ events → e ∈ es → harmless (goroutine_event a e) (λ _ _, True)) →
  rtc pool_step (s0, goroutine a <$> events) (s', ts) → T s0 s'.
Proof.
  intros He Hsteps.
  destruct (pool_sound (λ x, T s0 (fst x)) (λ _, anything) (λ _, anything) (λ _ _ _ _ _ _, I) (s0, tt)
    (goroutine a <$> events) s' ts) as [[] [H _]]; [| exact Hsteps | exact H].
  split; [reflexivity |]. intros i t Ht. apply list_lookup_fmap_Some in Ht as (es & -> & Hes).
  exists (λ _, True). split; [done |]. split; [done |]. apply list_elem_of_lookup_2 in Hes.
  apply (sat_foreach_in _ _ _ _ _ (λ _, True)). intros e. by apply He.
Qed.
End harmless.

Lemma harmless_serve (T : relation Server) `{!PreOrder T} r :
  (∀ s s', T s s' → same_stores s s') →
  (∀ past o, possible past → allowed a r past o → every_section T (perform (T := prog Server) o)) →
  sat (λ x, T s0 (fst x)) (λ _ _ : Server * unit, True) (λ _ _, True) (λ _, True)
    (goroutine_event a (Serve r)) (λ _ _, True).
Proof.
  intros HT Hr. apply (sat_bind _ _ _ _ _ _ (λ _ _, True)); [| by intros resp x].
  eapply (harmless_request T HT r []); [exact Hr | apply mediated_Routes | by intros e ?%not_elem_of_nil].
Qed.

Lemma never_admin_same_stores r past o :
  never_admin r → possible past → allowed a r past o → every_section same_stores (perform (T := prog Server) o).
Proof.
  intros Hr Hpast [_ Ho]. apply perform_same_stores.
  pose proof (never_admin_shown r past Hr Hpast). by destruct o.
Qed.

Lemma locked_out_quiet r past o :
  never_admin r → locked_out r → possible past → allowed a r past o →
  every_section quiet (perform (T := prog Server) o).
Proof.
  intros Hr Hout Hpast [_ Ho]. pose proof (never_admin_shown r past Hr Hpast) as Hna.
  pose proof (locked_out_shown r past) as Hng.
  apply perform_quiet; destruct o; try done; destruct Ho as [? | (z & g & Hz & _)]; try done;
    by destruct (Hng z Hout Hpast).
Qed.

(** C9: those who are not an admin administer nothing, under concurrency.  In every
    interleaving of polls and of requests that are never an admin's (their peer is never
    the untagged owner, and their session, if any, is a guest's), whatever they ask for, the
    zones, the guests and their files stay as they are.  And revocation holds under
    concurrency: when moreover the guest each session names is disabled or gone at the
    start, no interleaving of those requests moves the poller either. *)
Theorem powerless_requests events s' ts :
  rtc pool_step (s0, goroutine a <$> events) (s', ts) →
  ((∀ es r, es ∈ events → Serve r ∈ es → never_admin r) →
   sv_groups s' = sv_groups s0 ∧ sv_guests s' = sv_guests s0) ∧
  ((∀ es e, es ∈ events → e ∈ es → ∃ r, e = Serve r ∧ never_admin r ∧ locked_out r) →
   sv_groups s' = sv_groups s0 ∧ sv_guests s' = sv_guests s0 ∧ sv_poller s' = sv_poller s0).
Proof.
  intros Hsteps. split; intros He.
  - apply (harmless_pool same_stores events s' ts); [| exact Hsteps]. intros es [r |] Hes Hin.
    + apply (harmless_serve same_stores); [done |]. intros past o. by apply never_admin_same_stores, (He es r).
    + eapply sat_weaken; [apply (harmless_sections same_stores) | done | done].
      apply every_section_bind; [| done]. apply same_stores_poller, (pframes_refreshOnce same_zones).
  - apply (harmless_pool quiet events s' ts); [| exact Hsteps]. intros es e Hes Hin.
    destruct (He es e Hes Hin) as (r & -> & Hr & Hout). apply (harmless_serve quiet); [apply quiet_same_stores |].
    intros past o. by apply locked_out_quiet.
Qed.
End confined.
