(* ===== verification/Main.v ===== *)
(** [cmd/tsctl]: the dispatch of the command line, the spike's report, the messages to
    systemd, the health endpoint, and how a serving process shuts down. *)

From S2P Require Import Prelude GoStd Errors Store Authz Sse SseFacts Conc Poller PollerRun PollerRunFacts.
From S2P Require Import Netip Ipnstate Router HostKey Transport Ssh Json Session Wire Api Config CommandLine.

(** ** Dispatch *)

Inductive command :=
| CmdHelp
| CmdVersion
| CmdServe (args : list string)
| CmdSpike (addr : option string)
| CmdDemo
| CmdUnknown (cmd : string).

Definition is_word (words : list string) (s : string) : bool := existsb (String.eqb s) words.

(** cmd/tsctl/main.go:73-125, main.  [None] of a spike: the usage error; an unknown command exits
    with status 2. *)
Definition main (args : list string) : command :=
  match args with
  | a :: rest =>
      if is_word ["help"; "-h"; "-help"; "--help"] a then CmdHelp
      else if is_word ["version"; "-v"; "-version"; "--version"] a then CmdVersion
      else if HasPrefix a "-" then CmdServe args
      else if String.eqb a "serve" then CmdServe rest
      else if String.eqb a "spike" then CmdSpike (head rest)
      else if String.eqb a "demo" then CmdDemo
      else CmdUnknown a
  | [] => CmdServe []
  end.

(** ** The spike *)

Definition bool_text (b : bool) : string := if b then "true" else "false".

(** cmd/tsctl/main.go:517-531, runSpike.  The lines printed for a status. *)
Definition spike_report (addr transport : string) (rt : RouterRuntime) : string :=
  let current := match rt_Current rt with
                 | None => "(none)"
                 | Some c => if String.eqb (ref_Name c) "" then ref_IP c
                             else ref_IP c +:+ " (" +:+ ref_Name c +:+ ")"
                 end in
  "=== tailscale status --json @ " +:+ addr +:+ " via " +:+ transport +:+ " transport ===" +:+ Sse.lf
  +:+ "online:            " +:+ bool_text (rt_Online rt) +:+ Sse.lf
  +:+ "current exit node: " +:+ current +:+ Sse.lf
  +:+ "exit-node options: " +:+ itoa (Z.of_nat (List.length (rt_Options rt))) +:+ Sse.lf
  +:+ foldr String.append "" (map (λ o, "  - " +:+ ref_IP o +:+ " " +:+ ref_Name o +:+ Sse.lf) (rt_Options rt)).

Section spike.
Context `{UT : UnicodeTables} `{SC : StatusCodec} {W : Type} `{Lib : SSHLib W}.
Context {K : Type} `{KH : KnownHosts K} {HF : Type} `{FS : HostFS HF}.
(** cmd/tsctl/main.go:476-532, runSpike.  What it prints, or its error.  [up] is the error of
    bringing that tailscale node up, which the host transport does not need. *)
Definition runSpike (p : Process) (h : HF) (up : TSNet → option error) (marker : M W string)
    (addr : string) : M W (error + string) :=
  match loadConfig p [] with
  | inl e => mret (inl (wrapf "config: " e))
  | inr cfg =>
  let hosted := String.eqb (cfg_RouterTransport cfg) "ip-password" in
  match (if hosted then None else up (newTSNet cfg)) with
  | Some e => mret (inl (wrapf "tsnet up: " e))
  | None =>
  match Transport.New (routerOptions cfg (negb hosted)) h with
  | inl e => mret (inl (wrapf "router client: " e))
  | inr rc =>
  '(rt, err) ← ClientStatus (RR := {| runner_run := runSSH rc; newMarker := marker |}) addr;
  mret (match err with
        | Some e => inl e
        | None => inr (spike_report addr (cfg_RouterTransport cfg) rt)
        end)
  end end end.
End spike.

(** ** systemd *)

(** The datagram socket of the service manager. *)
Class Notifier (W : Type) := {
  nt_dial : string → M W (option error);
  nt_write : string → M W (option error);
  nt_close : M W unit;
}.

Section notify.
Context {W : Type} `{NT : Notifier W}.

(** cmd/tsctl/sdnotify.go:21-37, sdNotify. *)
Definition sdNotify (NOTIFY_SOCKET state : string) : M W (option error) :=
  if String.eqb NOTIFY_SOCKET "" then mret None
  else
    let socket := if HasPrefix NOTIFY_SOCKET "@" then of_chars [chr 0] +:+ str_drop 1 NOTIFY_SOCKET
                  else NOTIFY_SOCKET in
    e ← nt_dial socket;
    match e with
    | Some e => mret (Some e)
    | None => e ← nt_write state; _ ← nt_close; mret e
    end.
End notify.

Inductive watchdog := WatchdogOff | WatchdogBad | WatchdogEvery (interval : Duration).

(** cmd/tsctl/sdnotify.go:42-52, startWatchdog.  The interval of the pings. *)
Definition startWatchdog (WATCHDOG_USEC : string) : watchdog :=
  if String.eqb WATCHDOG_USEC "" then WatchdogOff
  else match Atoi WATCHDOG_USEC with
       | None => WatchdogBad
       | Some usec =>
           if usec <=? 0 then WatchdogBad
           else WatchdogEvery (Z.quot (to_int64 ((usec * 1000) mod 2 ^ 64)) 2)
       end.

(** ** Health *)

(** cmd/tsctl/main.go:310-321, runServe.  The status and the body of /healthz. *)
Definition healthz (healthy : bool) (netmapErr : string) : Z * string :=
  if negb healthy then (503, "shutting down" +:+ Sse.lf)
  else if negb (String.eqb netmapErr "") then (200, "ok (netmap error: " +:+ netmapErr +:+ ")" +:+ Sse.lf)
  else (200, "ok" +:+ Sse.lf).

(** ** Shutting down *)

(** Where [runServe] is: serving until the signal, waiting for the hub and the poller,
    draining each of the three HTTP servers, closing the node, returned. *)
Inductive stage := Serving | Waiting | DrainTailnet | DrainHost | DrainHealth | CloseNode
                 | Returned (err : option error).

Section shutdown.
Context `{UT : UnicodeTables} {W : Type} `{Env : PollerEnv W}.

Record process := mkServing {
  pc_stage : stage;
  pc_healthy : bool;
  pc_cancelled : bool;     (* the context of the workers and the requests *)
  pc_site : hub * (loop * (Poller * W));
}.
Definition process0 (snap : Snapshot) (t0 : Time) (s : Poller * W) : process :=
  mkServing Serving true false (Sse.New snap, (loop0 t0, s)).

Inductive proc_event :=
| PSite (e : site_event)          (* the hub, the poller or a request moves *)
| PSignal                         (* the signal to stop *)
| PWaited                         (* wg.Wait returns *)
| PShutdown (timeout : bool)      (* the Shutdown of a server returns *)
| PClose (err : option error).    (* the close of the node returns *)

(** [host]: there is a host-socket server; [on_host c]: connection [c] came through it. *)
Variable host : bool.
Variable on_host : nat → bool.

(** The connections of a server have ended. *)
Definition drained (srv : bool) (h : hub) : bool :=
  bool_decide (map_Forall (λ c k, on_host c = srv → cn_pc k = HEnd) (h_conns h)).
(** A server takes connections until its [Shutdown] begins. *)
Definition accepts (c : nat) (s : stage) : bool :=
  match s with
  | Serving | Waiting => true
  | DrainTailnet => on_host c
  | _ => false
  end.
(** What a worker may do: it only ends on a cancelled context. *)
Definition allowed (p : process) (e : site_event) : bool :=
  match e with
  | SHub ECancel | SLoop LDone => pc_cancelled p
  | SHub (EConnect c _) => accepts c (pc_stage p)
  | _ => true
  end.

(** cmd/tsctl/main.go:341-371, runServe. *)
Definition proc_step (e : proc_event) (p : process) : option process :=
  let go s := Some (mkServing s (pc_healthy p) (pc_cancelled p) (pc_site p)) in
  let '(h, (l, _)) := pc_site p in
  match e, pc_stage p with
  | PSite e, s =>
      if allowed p e then
        st ← site_step e (pc_site p); Some (mkServing s (pc_healthy p) (pc_cancelled p) st)
      else None
  | PSignal, Serving => Some (mkServing Waiting false true (pc_site p))
  | PWaited, Waiting =>
      match h_run h with None => if lp_done l then go DrainTailnet else None | Some _ => None end
  | PShutdown timeout, DrainTailnet =>
      if timeout || drained false h then go (if host then DrainHost else DrainHealth) else None
  | PShutdown timeout, DrainHost => if timeout || drained true h then go DrainHealth else None
  | PShutdown _, DrainHealth => go CloseNode
  | PClose err, CloseNode => go (Returned (wrapf "tsnet close: " <$> err))
  | _, _ => None
  end.
Fixpoint proc_run (es : list proc_event) (p : process) : option process :=
  match es with
  | [] => Some p
  | e :: es' => p' ← proc_step e p; proc_run es' p'
  end.
End shutdown.
