(* ===== verification/MainFacts.v ===== *)
(** The shutdown of a serving process is ordered, and completes. *)

From S2P Require Import Prelude GoStd Errors Store Authz Sse SseFacts Conc Poller PollerRun PollerRunFacts Session Main.

Section shutdown.
Context `{UT : UnicodeTables} {W : Type} `{Env : PollerEnv W}.
Abbreviation Site := (hub * (loop * (Poller * W)))%type.

(** ** Stopped workers stay stopped *)

Lemma hub_stopped e h h' : h_run h = None → hub_event e h = Some h' → h_run h' = None.
Proof.
  intros Hr. assert (idle h = false) as Hi by (unfold idle; by rewrite Hr).
  destruct e; simpl; rewrite ?Hi, ?Hr; simpl; try done.
  - destruct (h_conns h !! c); [done |]. by intros [= <-].
  - destruct (guard_conn c HServe h) as [k |]; simpl; [| done]. destruct (cn_ch k); simpl; [| done]. by intros [= <-].
  - destruct (h_conns h !! c) as [k |]; simpl; [| done]. destruct (cn_pc k); try done; by intros [= <-].
  - destruct (h_conns h !! c) as [k |]; simpl; [| done]. destruct (cn_pc k); try done; by intros [= <-].
  - by intros [= <-].
  - destruct (h_calls h !! i); simpl; [| done]. destruct (broadcast_step _ _). by intros [= <-].
  - destruct (h_tr h); simpl; [| done]. by intros [= <-].
  - by intros [= <-].
Qed.

Lemma loop_stopped e l (s : Poller * W) l' s' :
  lp_done l = true → loop_step e (l, s) = Some (l', s') → lp_done l' = true ∧ s' = s.
Proof.
  intros Hd. destruct e; simpl; rewrite ?Hd; try done.
  destruct (0 <=? d); [| done]. by intros [= <- <-].
Qed.

Definition stopped (st : Site) : Prop := h_run (fst st) = None ∧ lp_done (fst (snd st)) = true.

(** A step of the site, as a step of the hub, of the loop, or of both. *)
Lemma site_step_parts e (st st' : Site) :
  site_step e st = Some st' →
  (snd st' = snd st ∨ ∃ le, loop_step le (snd st) = Some (snd st') ∧
     (le = LDone → e = SLoop LDone)) ∧
  (fst st' = fst st ∨ ∃ he, hub_event he (fst st) = Some (fst st') ∧
     (he ≠ EPoll → e = SHub he)).
Proof.
  destruct st as [h [l s]]. destruct e as [e | | e]; simpl.
  - intros H. assert (∃ h', hub_event e h = Some h' ∧ st' = (h', (l, s))) as (h' & E & ->).
    { destruct e; try done; destruct (hub_event _ h) as [h' |]; try done; injection H as <-; by exists h'. }
    split; [by left |]. right. by exists e.
  - intros H. destruct (h_tr h) as [n |] eqn:Htr; simpl in H; [| done].
    destruct (loop_step (LTransition n) (l, s)) as [ls |] eqn:E; [| by simpl in E; rewrite E in H].
    assert (st' = (set_tr None n h, ls)) as -> by (simpl in E; rewrite E in H; by injection H).
    split; [right; by exists (LTransition n) |]. right. exists EPoll. simpl. by rewrite Htr.
  - intros H. assert (∃ ls, loop_step e (l, s) = Some ls ∧ st' = (h, ls)) as (ls & E & ->).
    { destruct e; try done; destruct (loop_step _ (l, s)) as [ls |] eqn:E; simpl in E, H; rewrite E in H;
        try done; injection H as <-; by exists ls. }
    split; [right; exists e; by split; [| intros ->] | by left].
Qed.

Lemma site_stopped e (st st' : Site) :
  stopped st → site_step e st = Some st' → stopped st' ∧ snd (snd st') = snd (snd st).
Proof.
  intros [Hr Hd] H. apply site_step_parts in H as [Hl Hh].
  assert (h_run (fst st') = None) as Hr'.
  { destruct Hh as [-> | (he & E & _)]; [done | by eapply hub_stopped]. }
  destruct st as [h [l s]], st' as [h' [l' s']]. simpl in *.
  destruct Hl as [[= -> ->] | (le & E & _)]; [done |].
  destruct (loop_stopped _ _ _ _ _ Hd E) as [Hd' ->]. done.
Qed.

(** ** Running workers stop only by their context *)

Lemma hub_running e h h' :
  e ≠ ECancel → is_Some (h_run h) → hub_event e h = Some h' → is_Some (h_run h').
Proof.
  intros Hne [r Hr]. destruct e; simpl; try done.
  - destruct (idle h), (guard_conn c HReg h); simpl; try done. by intros [= <-].
  - destruct (idle h), (guard_conn c HLeave h); simpl; try done. by intros [= <-].
  - destruct (idle h), (h_bc h); simpl; try done. destruct (_ && _); simpl; [| done]. by intros [= <-].
  - rewrite Hr. destruct r as [| o rest]; [done |]. destruct o as [c | c p | p]; simpl.
    + destruct (h_conns h !! c); simpl; [| done]. by intros [= <-].
    + destruct (h_conns h !! c); simpl; [| done]. destruct (push_step _ _). by intros [= <-].
    + destruct (emit_step _ _). by intros [= <-].
  - destruct (h_conns h !! c); [done |]. intros [= <-]. by exists r.
  - destruct (guard_conn c HServe h) as [k |]; simpl; [| done]. destruct (cn_ch k); simpl; [| done].
    intros [= <-]. by exists r.
  - destruct (h_conns h !! c) as [k |]; simpl; [| done]. destruct (cn_pc k); try done; intros [= <-]; by exists r.
  - destruct (h_conns h !! c) as [k |]; simpl; [| done]. rewrite Hr. destruct (cn_pc k); done.
  - intros [= <-]. by exists r.
  - destruct (h_calls h !! i); simpl; [| done]. destruct (broadcast_step _ _). intros [= <-]. by exists r.
  - destruct (h_tr h); simpl; [| done]. intros [= <-]. by exists r.
  - intros [= <-]. by exists r.
Qed.

Lemma loop_running e l (s : Poller * W) l' s' :
  e ≠ LDone → lp_done l = false → loop_step e (l, s) = Some (l', s') → lp_done l' = false.
Proof.
  intros Hne Hd. destruct e; simpl; rewrite ?Hd; try done.
  - destruct (0 <=? d); [| done]. by intros [= <- <-].
  - destruct (0 <? n), (lp_active l); simpl; try (intros [= <- <-]; done).
    + unfold startTicker. simpl. destruct (lp_ticker l); intros [= <- <-]; done.
    + unfold armLinger. destruct (lp_linger l); intros [= <- <-]; done.
  - destruct (lp_linger l) as [dl |]; [| done]. destruct (dl <=? lp_now l); [| done]. by intros [= <- <-].
  - destruct (lp_ticker l) as [[next []] |]; [| done | done]. by intros [= <- <-].
Qed.

Definition running (st : Site) : Prop := is_Some (h_run (fst st)) ∧ lp_done (fst (snd st)) = false.

Lemma site_running e (st st' : Site) :
  e ≠ SHub ECancel → e ≠ SLoop LDone → running st → site_step e st = Some st' → running st'.
Proof.
  intros Hc Hl [Hr Hd] H. apply site_step_parts in H as [HL HH]. split.
  - destruct HH as [-> | (he & E & He)]; [done |]. eapply hub_running; [| exact Hr | exact E].
    intros ->. by rewrite He in Hc.
  - destruct st as [h [l s]], st' as [h' [l' s']]. simpl in *.
    destruct HL as [[= -> ->] | (le & E & He)]; [done |]. eapply loop_running; [| exact Hd | exact E].
    intros ->. by rewrite He in Hl.
Qed.

(** ** Connections *)

(** Once the hub has stopped, a connection that has ended stays ended, and new ones only
    come by a request. *)
Lemma hub_ended e h h' c k' :
  h_run h = None → hub_event e h = Some h' → h_conns h' !! c = Some k' → (∀ z, e ≠ EConnect c z) →
  ∃ k, h_conns h !! c = Some k ∧ (cn_pc k = HEnd → cn_pc k' = HEnd).
Proof.
  intros Hr E Hk' Hne. assert (idle h = false) as Hi by (unfold idle; by rewrite Hr).
  assert (∀ c0 k0 k1, h_conns h !! c0 = Some k0 → cn_pc k0 ≠ HEnd → h' = set_conn c0 k1 h →
    ∃ k, h_conns h !! c = Some k ∧ (cn_pc k = HEnd → cn_pc k' = HEnd)) as Hset.
  { intros c0 k0 k1 Hk0 Hpc ->. simpl in Hk'.
    apply lookup_insert_Some in Hk' as [[-> <-] | [_ Hk]]; [by exists k0 | by exists k']. }
  assert (h_conns h' = h_conns h → ∃ k, h_conns h !! c = Some k ∧ (cn_pc k = HEnd → cn_pc k' = HEnd)) as Hsame.
  { intros Ec. exists k'. by rewrite <- Ec. }
  destruct e as [c0 | c0 | order | | | c0 z | c0 ok | c0 | c0 | s | i | | s]; simpl in E;
    rewrite ?Hi, ?Hr in E; simpl in E; try done.
  - destruct (h_conns h !! c0) eqn:Hc0; [done |]. injection E as <-. simpl in Hk'.
    apply lookup_insert_Some in Hk' as [[-> _] | [_ Hk]]; [by destruct (Hne z) | by exists k'].
  - destruct (guard_conn c0 HServe h) as [k |] eqn:Hg; simpl in E; [| done].
    destruct (cn_ch k); simpl in E; [| done]. injection E as <-.
    apply guard_conn_Some in Hg as [Hk Hpc]. eapply Hset; [exact Hk | by rewrite Hpc | done].
  - destruct (h_conns h !! c0) as [k |] eqn:Hk; simpl in E; [| done].
    destruct (cn_pc k) eqn:Hpc; try done; injection E as <-; (eapply Hset; [exact Hk | by rewrite Hpc | done]).
  - destruct (h_conns h !! c0) as [k |] eqn:Hk; simpl in E; [| done].
    destruct (cn_pc k) eqn:Hpc; try done; injection E as <-; (eapply Hset; [exact Hk | by rewrite Hpc | done]).
  - injection E as <-. by apply Hsame.
  - destruct (h_calls h !! i); simpl in E; [| done]. destruct (broadcast_step _ _). injection E as <-. by apply Hsame.
  - destruct (h_tr h); simpl in E; [| done]. injection E as <-. by apply Hsame.
  - injection E as <-. by apply Hsame.
Qed.

(** The connections of a listener have ended. *)
Definition ended (on_host : nat → bool) (srv : bool) (h : hub) : Prop :=
  map_Forall (λ c k, on_host c = srv → cn_pc k = HEnd) (h_conns h).

Lemma site_ended on_host srv e (st st' : Site) :
  stopped st → site_step e st = Some st' → (∀ c z, e = SHub (EConnect c z) → on_host c ≠ srv) →
  ended on_host srv (fst st) → ended on_host srv (fst st').
Proof.
  intros [Hr _] H Hne He. apply site_step_parts in H as [_ [-> | (he & E & Hhe)]]; [done |].
  intros c k' Hk' Hc. eapply hub_ended in E as (k & Hk & Hend); [| done | exact Hk' |].
  - by eapply Hend, He.
  - intros z ->. by apply (Hne c z); [apply Hhe |].
Qed.

(** ** The hub, told to stop *)

(** What a connection still has to do on its own once the hub is gone. *)
Definition exits (c : nat) (k : conn) : list event :=
  match cn_pc k with HReg | HLeave => [EGone c] | HServe => [EGone c; EGone c] | HEnd => [] end.

Lemma hub_run_app es es' h h1 h2 :
  hub_run es h = Some h1 → hub_run es' h1 = Some h2 → hub_run (es ++ es') h = Some h2.
Proof.
  revert h. induction es as [| e es IH]; intros h; simpl; [by intros [= ->] |].
  destruct (hub_event e h) as [h' |]; simpl; [apply IH | done].
Qed.

Lemma gone_event c k pc h :
  h_run h = None → h_conns h !! c = Some k →
  match cn_pc k with HServe => pc = HLeave | HEnd => False | _ => pc = HEnd end →
  hub_event (EGone c) h = Some (set_conn c (set_pc pc k) h).
Proof. intros Hr Hk Hpc. simpl. rewrite Hk. simpl. rewrite Hr. by destruct (cn_pc k); subst. Qed.

Lemma lookup_set_conn c k h : h_conns (set_conn c k h) !! c = Some k.
Proof. simpl. by rewrite lookup_insert, decide_True. Qed.

Lemma exits_end c k h :
  h_run h = None → h_conns h !! c = Some k →
  ∃ h', hub_run (exits c k) h = Some h' ∧ h_run h' = None ∧
    (∃ k', h_conns h' !! c = Some k' ∧ cn_pc k' = HEnd) ∧
    ∀ c', c' ≠ c → h_conns h' !! c' = h_conns h !! c'.
Proof.
  intros Hr Hk.
  assert (∀ h1 k1, h_run h1 = None → h_conns h1 !! c = Some k1 → cn_pc k1 = HReg ∨ cn_pc k1 = HLeave →
    (∀ c', c' ≠ c → h_conns h1 !! c' = h_conns h !! c') →
    ∃ h', hub_run [EGone c] h1 = Some h' ∧ h_run h' = None ∧
      (∃ k', h_conns h' !! c = Some k' ∧ cn_pc k' = HEnd) ∧
      ∀ c', c' ≠ c → h_conns h' !! c' = h_conns h !! c') as Hlast.
  { intros h1 k1 Hr1 Hk1 Hp Ho. exists (set_conn c (set_pc HEnd k1) h1).
    cbn [hub_run]. rewrite (gone_event c k1 HEnd h1 Hr1 Hk1) by (by destruct Hp as [-> | ->]).
    split; [done |]. split; [done |]. split; [eexists; split; [apply lookup_set_conn | done] |].
    intros c' Hne. rewrite <- Ho by done. simpl. by rewrite lookup_insert_ne. }
  unfold exits. destruct (cn_pc k) eqn:Hpc; [by apply (Hlast h k); auto | | by apply (Hlast h k); auto |
    exists h; split; [done |]; split; [done |]; split; [by exists k | done]].
  cbn [hub_run]. rewrite (gone_event c k HLeave h Hr Hk) by (by rewrite Hpc). simpl mbind.
  apply (Hlast (set_conn c (set_pc HLeave k) h) (set_pc HLeave k)); [done | apply lookup_set_conn | by right |].
  intros c' Hne. simpl. by rewrite lookup_insert_ne.
Qed.

Lemma conns_end (cs : list nat) h :
  h_run h = None → NoDup cs → (∀ c, c ∈ cs → is_Some (h_conns h !! c)) →
  ∃ es h', hub_run es h = Some h' ∧ h_run h' = None ∧ (List.length es <= 2 * List.length cs)%nat ∧
    Forall (λ e, ∃ c, e = EGone c) es ∧
    (∀ c, c ∈ cs → ∃ k, h_conns h' !! c = Some k ∧ cn_pc k = HEnd) ∧
    (∀ c, c ∉ cs → h_conns h' !! c = h_conns h !! c).
Proof.
  revert h. induction cs as [| c cs IH]; intros h Hr Hnd Hin.
  { exists [], h. repeat split; try done; simpl; try lia. intros c Hc. by apply not_elem_of_nil in Hc. }
  apply NoDup_cons in Hnd as [Hc Hnd]. destruct (Hin c) as [k Hk]; [left |].
  destruct (exits_end c k h Hr Hk) as (h1 & E1 & Hr1 & (k1 & Hk1 & Hp1) & Ho1).
  destruct (IH h1 Hr1 Hnd) as (es & h' & E & Hr' & Hlen & Hfor & Hend & Hother).
  { intros c' Hc'. rewrite Ho1 by (by intros ->). apply Hin. by right. }
  exists (exits c k ++ es), h'. split; [by eapply hub_run_app |]. split; [done |]. split; [| split; [| split]].
  - rewrite length_app. unfold exits. simpl. destruct (cn_pc k); simpl; lia.
  - apply Forall_app. split; [| done]. unfold exits. destruct (cn_pc k); repeat constructor; eauto.
  - intros c' [-> | Hc']%elem_of_cons; [| by apply Hend]. exists k1. split; [| done]. by rewrite Hother.
  - intros c' Hn. rewrite elem_of_cons in Hn. rewrite Hother by tauto. apply Ho1. tauto.
Qed.

(** The hub's own steps are steps of a process that has been told to stop. *)
Definition hub_own (e : event) : Prop := match e with ERun | ECancel | EGone _ => True | _ => False end.

Lemma runs_dom m h h' : hub_run (repeat ERun m) h = Some h' → dom (h_conns h') = dom (h_conns h).
Proof.
  revert h. induction m as [| m IH]; intros h; simpl; [by intros [= <-] |].
  destruct (h_run h) as [[| o rest] |] eqn:Hr; simpl; try done.
  destruct (run_rop o rest h) as [h1 |] eqn:E; simpl; [| done]. intros H. rewrite (IH h1 H). clear H IH.
  destruct o as [c | c q | q]; simpl in E.
  - destruct (h_conns h !! c) eqn:Hc; simpl in E; [| done]. injection E as <-. simpl.
    rewrite dom_insert_L. apply elem_of_dom_2 in Hc. set_solver.
  - destruct (h_conns h !! c) eqn:Hc; simpl in E; [| done]. destruct (push_step _ _). injection E as <-. simpl.
    rewrite dom_insert_L. apply elem_of_dom_2 in Hc. set_solver.
  - destruct (emit_step _ _). by injection E as <-.
Qed.

(** The hub, told to stop, stops by itself. *)
Lemma hub_stops h :
  hub_ok h → ∃ es h', hub_run es h = Some h' ∧ h_run h' = None ∧ Forall hub_own es ∧
    (List.length es <= 4 * List.length (pend h) + 1)%nat ∧ dom (h_conns h') = dom (h_conns h).
Proof.
  intros Hok. destruct (h_run h) as [l |] eqn:Hr.
  2: { exists [], h. repeat split; try done; simpl; lia. }
  destruct (run_finishes _ h Hok (mk_is_Some _ _ Hr) (run_cost_le (pend h))) as (m & h1 & Hm & Hrun & Hi & _).
  exists (repeat ERun m ++ [ECancel]), (set_run None h1). split; [| split; [done | split; [| split]]].
  - eapply hub_run_app; [exact Hrun |]. simpl. by rewrite Hi.
  - apply Forall_app. split; [| by repeat constructor]. clear. induction m; simpl; by constructor.
  - rewrite length_app, repeat_length. simpl. lia.
  - simpl. by eapply runs_dom.
Qed.

(** Told to stop, the hub stops and every stream ends, by the steps of their own goroutines. *)
Lemma hub_winds_down h :
  hub_ok h → ∃ es h', hub_run es h = Some h' ∧ h_run h' = None ∧ Forall hub_own es ∧
    (∀ c k, h_conns h' !! c = Some k → cn_pc k = HEnd) ∧
    (List.length es <= 4 * List.length (pend h) + 1 + 2 * size (h_conns h))%nat.
Proof.
  intros Hok. destruct (hub_stops h Hok) as (es1 & h1 & E1 & Hr1 & Hf1 & Hl1 & Hd1).
  destruct (conns_end (elements (dom (h_conns h1))) h1 Hr1 (NoDup_elements _)) as (es2 & h2 & E2 & Hr2 & Hl2 & Hf2 & He2 & Ho2).
  { intros c Hc. by apply elem_of_dom, elem_of_elements. }
  exists (es1 ++ es2), h2. split; [by eapply hub_run_app |]. split; [done |]. split; [| split].
  - apply Forall_app. split; [done |]. eapply Forall_impl; [exact Hf2 |]. by intros e [c ->].
  - intros c k Hk. destruct (decide (c ∈ elements (dom (h_conns h1)))) as [Hin | Hn].
    + destruct (He2 c Hin) as (k' & Hk' & Hp). congruence.
    + rewrite Ho2 in Hk by done. destruct Hn. apply elem_of_elements, elem_of_dom. by exists k.
  - assert (List.length (elements (dom (h_conns h1))) = size (h_conns h)) as Hsz by (rewrite Hd1; apply size_dom).
    rewrite length_app. lia.
Qed.

(** ** The order of a shutdown *)

Variable host : bool.
Variable on_host : nat → bool.

Definition rank (s : stage) : nat :=
  match s with
  | Serving => 0 | Waiting => 1 | DrainTailnet => 2 | DrainHost => 3 | DrainHealth => 4
  | CloseNode => 5 | Returned _ => 6
  end.
Definition on_time (e : proc_event) : Prop := match e with PShutdown t => t = false | _ => True end.

(** What holds of a process, [timely] when no [Shutdown] has timed out. *)
Record orderly (timely : Prop) (p : process) : Prop := {
  or_serving : rank (pc_stage p) = 0%nat → pc_healthy p = true ∧ pc_cancelled p = false ∧ running (pc_site p);
  or_stopping : (1 <= rank (pc_stage p))%nat → pc_healthy p = false ∧ pc_cancelled p = true;
  or_stopped : (2 <= rank (pc_stage p))%nat → stopped (pc_site p);
  or_tailnet : timely → (3 <= rank (pc_stage p))%nat → ended on_host false (fst (pc_site p));
  or_host : timely → host = true → (4 <= rank (pc_stage p))%nat → ended on_host true (fst (pc_site p));
}.

Lemma drained_ended srv h : drained on_host srv h = true ↔ ended on_host srv h.
Proof. apply bool_decide_eq_true. Qed.

Lemma orderly_site timely e p p' :
  orderly timely p → proc_step host on_host (PSite e) p = Some p' → orderly timely p' ∧
  ((2 <= rank (pc_stage p))%nat → snd (snd (pc_site p')) = snd (snd (pc_site p))) ∧ pc_stage p' = pc_stage p.
Proof.
  intros [H1 H2 H3 H4 H5] H. unfold proc_step in H. destruct (pc_site p) as [h [l s]] eqn:Est.
  destruct (allowed on_host p e) eqn:Ha; [| by destruct (pc_stage p)].
  destruct (site_step e (h, (l, s))) as [st' |] eqn:E; [| by destruct (pc_stage p)].
  assert (p' = mkServing (pc_stage p) (pc_healthy p) (pc_cancelled p) st') as ->.
  { destruct (pc_stage p); simpl in H; by injection H. }
  simpl. split; [split; simpl | split; [| done]].
  - intros Hs. destruct (H1 Hs) as (Hh & Hc & Hr). split; [done |]. split; [done |].
    eapply site_running; [| | exact Hr | exact E]; intros ->; simpl in Ha; congruence.
  - exact H2.
  - intros Hs. by eapply site_stopped; [apply H3 |].
  - intros Ht Hs. eapply site_ended; [apply H3; lia | exact E | | by apply H4].
    intros c z ->. simpl in Ha. destruct (pc_stage p); simpl in *; try lia; congruence.
  - intros Ht Hh Hs. eapply site_ended; [apply H3; lia | exact E | | by apply H5].
    intros c z ->. simpl in Ha. destruct (pc_stage p); simpl in *; try lia; congruence.
  - intros Hs. eapply site_stopped in E; [| by apply H3]. apply E.
Qed.

Lemma orderly_step timely e p p' :
  (timely → on_time e) → orderly timely p → proc_step host on_host e p = Some p' → orderly timely p' ∧
  ((2 <= rank (pc_stage p))%nat →
   (2 <= rank (pc_stage p'))%nat ∧ snd (snd (pc_site p')) = snd (snd (pc_site p))).
Proof.
  intros Ht Hok. destruct e as [e | | | timeout | err].
  - intros H. destruct (orderly_site _ _ _ _ Hok H) as (H1 & H2 & H3). rewrite H3. auto.
  - unfold proc_step. destruct Hok as [H1 H2 H3 H4 H5]. destruct (pc_site p) as [h [l s]] eqn:Est.
    destruct (pc_stage p); try done. intros [= <-]. split; [| simpl; lia].
    split; simpl; rewrite ?Est; try done; simpl; lia.
  - unfold proc_step. destruct Hok as [H1 H2 H3 H4 H5]. destruct (pc_site p) as [h [l s]] eqn:Est.
    destruct (pc_stage p); try done. destruct (h_run h) eqn:Hr; [done |]. destruct (lp_done l) eqn:Hd; [| done].
    intros [= <-]. split; [| simpl; lia].
    split; simpl; rewrite ?Est; try done; simpl in *; try lia. intros _. apply H2. lia.
  - unfold proc_step. destruct Hok as [H1 H2 H3 H4 H5]. destruct (pc_site p) as [h [l s]] eqn:Est.
    assert (timely → timeout = false) as Hto by exact Ht.
    destruct (pc_stage p) eqn:Hs; try done; simpl in *.
    + destruct (timeout || drained on_host false h) eqn:Hdr; [| done]. intros [= <-]. simpl.
      split; [| intros _; split; [destruct host; simpl; lia | done]].
      split; simpl; rewrite ?Est; simpl; try (destruct host; simpl; lia).
      * intros _. apply H2. lia.
      * intros _. apply H3. lia.
      * intros Htm _. rewrite (Hto Htm) in Hdr. by apply drained_ended.
    + destruct (timeout || drained on_host true h) eqn:Hdr; [| done]. intros [= <-]. simpl.
      split; [| intros _; split; [lia | done]].
      split; simpl; rewrite ?Est; simpl; try lia.
      * intros _. apply H2. lia.
      * intros _. apply H3. lia.
      * intros Htm _. apply H4; [done | lia].
      * intros Htm _ _. rewrite (Hto Htm) in Hdr. by apply drained_ended.
    + intros [= <-]. simpl. split; [| intros _; split; [lia | done]].
      split; simpl; rewrite ?Est; simpl; try lia; intros; auto with lia.
  - unfold proc_step. destruct Hok as [H1 H2 H3 H4 H5]. destruct (pc_site p) as [h [l s]] eqn:Est.
    destruct (pc_stage p) eqn:Hs; try done; simpl in *. intros [= <-]. simpl.
    split; [| intros _; split; [lia | done]]. split; simpl; rewrite ?Est; simpl; try lia; intros; auto with lia.
Qed.

Lemma orderly_run timely es p p' :
  (timely → Forall on_time es) → orderly timely p → proc_run host on_host es p = Some p' → orderly timely p' ∧
  ((2 <= rank (pc_stage p))%nat → snd (snd (pc_site p')) = snd (snd (pc_site p))).
Proof.
  revert p. induction es as [| e es IH]; intros p Ht Hok; simpl; [by intros [= <-] |].
  destruct (proc_step host on_host e p) as [p1 |] eqn:E; simpl; [| done]. intros Hr.
  destruct (orderly_step timely e p p1) as [Hok1 Hs]; [| done | done |].
  { intros Htm. by apply Ht, Forall_cons in Htm as [? _]. }
  destruct (IH p1) as [Hok' Hs']; [| done | done |].
  { intros Htm. by apply Ht, Forall_cons in Htm as [_ ?]. }
  split; [done |]. intros Hk. destruct (Hs Hk) as [Hk1 E1]. rewrite <- E1. by apply Hs'.
Qed.

Lemma orderly_start timely snap t0 s : orderly timely (process0 snap t0 s).
Proof. split; simpl; try lia. intros _. split; [done |]. split; [done |]. split; [by eexists | done]. Qed.


(** ** The shutdown completes *)

Lemma proc_hub_run es h h' p :
  pc_cancelled p = true → Forall hub_own es → fst (pc_site p) = h → hub_run es h = Some h' →
  proc_run host on_host (map (λ e, PSite (SHub e)) es) p =
    Some (mkServing (pc_stage p) (pc_healthy p) true (h', snd (pc_site p))).
Proof.
  revert h p. induction es as [| e es IH]; intros h p Hc Hf Hh; simpl.
  - intros [= <-]. subst h. destruct p as [s hl c [h ls]]. simpl in *. by subst c.
  - apply Forall_cons in Hf as [He Hf]. destruct (hub_event e h) as [h1 |] eqn:E; simpl; [| done]. intros Hr.
    assert (proc_step host on_host (PSite (SHub e)) p =
      Some (mkServing (pc_stage p) (pc_healthy p) true (h1, snd (pc_site p)))) as ->.
    { destruct p as [s hl c [h0 [l sy]]]. simpl in Hh, Hc. subst h0 c. unfold proc_step. simpl.
      destruct e; try done; rewrite E; by destruct s. }
    simpl. rewrite (IH h1); done.
Qed.

Definition own (e : proc_event) : Prop :=
  match e with
  | PSite (SHub e) => hub_own e
  | PSite (SLoop LDone) | PWaited => True
  | PShutdown t => t = false
  | PClose err => err = None
  | _ => False
  end.

Lemma proc_run_app es es' p p1 p2 :
  proc_run host on_host es p = Some p1 → proc_run host on_host es' p1 = Some p2 →
  proc_run host on_host (es ++ es') p = Some p2.
Proof.
  revert p. induction es as [| e es IH]; intros p; simpl; [by intros [= ->] |].
  destruct (proc_step host on_host e p) as [p' |]; simpl; [apply IH | done].
Qed.

Lemma proc_hub_ok es p p' :
  hub_ok (fst (pc_site p)) → proc_run host on_host es p = Some p' → hub_ok (fst (pc_site p')).
Proof.
  revert p. induction es as [| e es IH]; intros p Hok; simpl; [by intros [= <-] |].
  destruct (proc_step host on_host e p) as [p1 |] eqn:E; simpl; [| done]. apply IH.
  unfold proc_step in E. destruct (pc_site p) as [h [l s]] eqn:Est.
  destruct e as [e | | | timeout | err].
  - destruct (allowed on_host p e); [| by destruct (pc_stage p)].
    destruct (site_step e (h, (l, s))) as [st' |] eqn:Es; [| by destruct (pc_stage p)].
    assert (p1 = mkServing (pc_stage p) (pc_healthy p) (pc_cancelled p) st') as ->
      by (destruct (pc_stage p); simpl in E; by injection E).
    apply site_step_parts in Es as [_ [Ef | (he & He & _)]]; simpl; [by rewrite Ef | by eapply hub_event_ok].
  - destruct (pc_stage p); try done. by injection E as <-.
  - destruct (pc_stage p); try done. destruct (h_run h), (lp_done l); try done. by injection E as <-.
  - destruct (pc_stage p); try done; [destruct (timeout || _) | destruct (timeout || _) |]; try done; by injection E as <-.
  - destruct (pc_stage p); try done. by injection E as <-.
Qed.

(** What is left once the hub and the connections have ended. *)
Definition wind_up (done : bool) : list proc_event :=
  (if done then [] else [PSite (SLoop LDone)]) ++ [PWaited; PShutdown false] ++
  (if host then [PShutdown false] else []) ++ [PShutdown false; PClose None].

Lemma wind_up_run h l (sy : Poller * W) :
  h_run h = None → (∀ srv, drained on_host srv h = true) →
  ∃ l', proc_run host on_host (wind_up (lp_done l)) (mkServing Waiting false true (h, (l, sy))) =
    Some (mkServing (Returned None) false true (h, (l', sy))).
Proof.
  intros Hr Hd.
  assert (∀ l, lp_done l = true → proc_run host on_host
    ([PWaited; PShutdown false] ++ (if host then [PShutdown false] else []) ++ [PShutdown false; PClose None])
    (mkServing Waiting false true (h, (l, sy))) = Some (mkServing (Returned None) false true (h, (l, sy)))) as Hend.
  { intros l0 Hl0. destruct host; simpl; unfold proc_step; simpl; rewrite Hr, Hl0; simpl; rewrite ?Hd; simpl;
      rewrite ?Hd; done. }
  unfold wind_up. destruct (lp_done l) eqn:Hl; [exists l; by apply Hend |].
  exists (mkLoop (lp_now l) (lp_active l) None None true (lp_first l) (lp_ticks l)).
  eapply proc_run_app; [| by apply Hend]. simpl. unfold proc_step. simpl. by rewrite Hl.
Qed.

End shutdown.

(** The watchdog is fed twice in each of its periods, as long as the period fits into an
    int64 of nanoseconds. *)
Lemma startWatchdog_twice s interval :
  startWatchdog s = WatchdogEvery interval →
  ∃ usec, Atoi s = Some usec ∧ 0 < usec ∧
    (usec * 1000 < 2 ^ 63 → 2 * interval <= usec * 1000 < 2 * interval + 2).
Proof.
  unfold startWatchdog. destruct (String.eqb s ""); [done |]. destruct (Atoi s) as [usec |]; [| done].
  destruct (Z.leb_spec usec 0); [done |]. intros [= <-]. exists usec. split; [done |]. split; [done |]. intros Hb.
  rewrite Z.mod_small by lia. unfold Session.to_int64. rewrite (proj2 (Z.ltb_lt _ _) Hb).
  pose proof (Z.quot_rem' (usec * 1000) 2) as Hq. pose proof (Z.rem_bound_pos (usec * 1000) 2 ltac:(lia) ltac:(lia)). lia.
Qed.
