(* ===== verification/Fixtures.v ===== *)
(** A scripted environment and a small tailnet, for evaluating the model on
    concrete runs: the witnesses of the poller's theorems are runs of these. *)

From S2P Require Import Prelude GoStd Store Errors Conc PollerBase Poller.

#[export] Instance fixture_tables : UnicodeTables := ascii_tables.

(** What the router client, the netmap and the group store answer; the clock
    advances by [w_tick] at every reading, and router calls are recorded. *)
Inductive router_call :=
| CallStatus (addr : string)
| CallApply (addr : string) (target prev : option ExitNodeRef) (autoKeep : bool)
| CallKeep (addr marker : string)
| CallProbe (addr : string)
| CallEgress (addr url : string).

Record World := mkWorld {
  w_clock : Time;
  w_tick : Duration;
  w_invErr : option error;
  w_status : RouterRuntime * option error;
  w_apply : RouterRuntime * string * option error;
  w_keep : option error;
  w_probe : string * option error;
  w_egress : bool * string * option error;
  w_groups : option (list Group);
  w_calls : list router_call;
}.

Definition tell (c : router_call) (w : World) : World :=
  mkWorld (w_clock w) (w_tick w) (w_invErr w) (w_status w) (w_apply w) (w_keep w)
    (w_probe w) (w_egress w) (w_groups w) (w_calls w ++ [c]).
Definition advance (w : World) : World :=
  mkWorld (w_clock w + w_tick w) (w_tick w) (w_invErr w) (w_status w) (w_apply w) (w_keep w)
    (w_probe w) (w_egress w) (w_groups w) (w_calls w).

Definition scripted (nodes : list NodeView) : PollerEnv World := {|
  env_Now := λ w, (w_clock w, advance w);
  env_Inventory := λ w, (nodes, w_invErr w, w);
  env_Status := λ a w, (w_status w, tell (CallStatus a) w);
  env_ApplyExitNode := λ a t p k w, (w_apply w, tell (CallApply a t p k) w);
  env_KeepExitNode := λ a m w, (w_keep w, tell (CallKeep a m) w);
  env_Probe := λ a w, (w_probe w, tell (CallProbe a) w);
  env_EgressProbe := λ a u w, (w_egress w, tell (CallEgress a u) w);
  env_Groups := w_groups;
|}.

(** A tailnet of one router and one approved exit node. *)
Definition router_node : NodeView :=
  mkNodeView "r1" "router-one" "r1" ["100.64.0.1"] "linux" true zeroTime false ["tag:router"]
    NodeRouter false.
Definition exit_node : NodeView :=
  mkNodeView "e1" "exit-one" "e1" ["100.64.0.9"] "linux" true zeroTime true [] NodeExitNode false.
Definition tailnet : list NodeView := [router_node; exit_node].
#[export] Instance fixture_env : PollerEnv World := scripted tailnet.

Definition exit_ref : ExitNodeRef := mkExitNodeRef "e1" "exit-one" "100.64.0.9".
Definition fixture_routers : list string := ["100.64.0.1"].

(** The router runs through no exit node; a set is confirmed with [marker]. *)
Definition idle_runtime : RouterRuntime := mkRouterRuntime None [] zeroStats true.
Definition exit_runtime : RouterRuntime := mkRouterRuntime (Some exit_ref) [] zeroStats true.

Definition world_of (apply : RouterRuntime * string * option error) (gs : option (list Group)) : World :=
  mkWorld (1000000 * Second) Millisecond None (idle_runtime, None)
    apply None ("ok", None) (true, "", None) gs [].
Definition world0 : World := world_of (exit_runtime, "/run/keep.1", None) None.

(** A managed poller that requires an explicit Keep. *)
Definition poller0 : Poller :=
  NewPoller (NewStore zeroTime) fixture_routers 0 |> ConfigureKeep true.
