(* ===== verification/PollerWitness.v ===== *)
(** The poller's theorems at work on the scripted tailnet of [Fixtures]. *)

From S2P Require Import Prelude GoStd Store Errors Conc PollerBase Poller PollerSet.
From S2P Require Import PollerKeep PollerSeq PollerConc PollerRun PollerRunFacts Sse SseFacts Netip Ipnstate Router RouterProto Fixtures.

(** ** Interleavings *)

Lemma fixture_wf (n : NodeView) :
  nv_TailscaleIPs n = ["100.64.0.1"] ∨ nv_TailscaleIPs n = ["100.64.0.9"] →
  wf_node fixture_routers n.
Proof.
  intros Hn a Ha Hip. apply list_elem_of_singleton in Ha as ->. revert Hip.
  unfold has_ip, primaryIP. by destruct Hn as [-> | ->].
Qed.

(** A poll and a set run to completion while another poll is dialing. *)
Definition overlap_schedule : list nat :=
  repeat 0%nat 12 ++ repeat 1%nat 6 ++ repeat 0%nat 40 ++ repeat 1%nat 20.
Definition overlap_progs : list (list op) := [[OpRefresh; OpSet "r1" "e1"]; [OpRefresh]].
Definition overlap_end : (Poller * World) * list (thread (Poller * World)) :=
  pool_run overlap_schedule ((poller0, world0), run_ops <$> overlap_progs).

Definition overlap_poller : Poller := fst (fst overlap_end).

Lemma overlap_steps :
  rtc pool_step ((poller0, world0), run_ops <$> overlap_progs)
    ((overlap_poller, snd (fst overlap_end)), snd overlap_end).
Proof.
  unfold overlap_poller. rewrite <- !surjective_pairing. apply pool_run_steps.
Qed.

Lemma tailnet_wf (w : World) : Forall (wf_node fixture_routers) (fst (fst (env_Inventory w))).
Proof. repeat constructor; apply fixture_wf; auto. Qed.


(** ** Single operations *)

(** The poller after its first poll: one router, shown as ok. *)
Definition started : Poller * World := snd (run refreshOnce (poller0, world0)).

(** The view of the router after that poll. *)
Definition started_view : RouterView :=
  default zeroRouterView (findRouterViewByStableID (p_snap (fst started)) "r1").

(** The gate of the router after a confirmed set. *)
Definition gated : Poller * World := snd (run (SetExitNode "r1" "e1") started).
Definition gated_view : RouterView :=
  default zeroRouterView (findRouterViewByStableID (p_snap (fst gated)) "r1").

(** What the router answers to the second of two overlapping sets. *)
Definition late_outcome : outcome :=
  mkOutcome (1000001 * Second) exit_runtime "/run/keep.2" None (1000002 * Second) None None.

Lemma set_commit_superseded_witness :
  cm_superseded (fst (set_commit "100.64.0.1" 0 (Some exit_ref) false late_outcome gated)) = true ∧
  cm_disarm (fst (set_commit "100.64.0.1" 0 (Some exit_ref) false late_outcome gated)) = ["/run/keep.2"].
Proof.
  destruct gated as [p w] eqn:Hg.
  destruct (set_commit "100.64.0.1" 0 (Some exit_ref) false late_outcome (p, w)) as [c [p' w']] eqn:Hc.
  destruct (set_commit_superseded _ _ _ _ _ _ _ _ _ _ Hc) as (H1 & _ & _ & _ & _ & H6).
  - replace p with (fst gated) by (by rewrite Hg). vm_compute. discriminate.
  - split; [exact H1 |]. apply H6. vm_compute. discriminate.
Defined.

(** The Keep of the gate that set left. *)
Definition gate1 : keepEntry := mkKeepEntry "/run/keep.1" 1000060004000000 1.


(** The request to leave through [e1], alone. *)
Lemma SetExitNode_alone_witness :
  let '((res, err), (p', w')) := run (SetExitNode "r1" "e1") started in
  ∃ o, ctr (p_setSeq p') "100.64.0.1" = 1 ∧
    p_pendingKeep p' = commit_gate (fst started) "100.64.0.1" 1 false o ∧
    res ∈ snap_Routers (p_snap p').
Proof.
  pose proof (SetExitNode_alone "r1" "e1" (fst started) (snd started) started_view (Some exit_ref)
    ltac:(vm_compute; reflexivity) ltac:(vm_compute; discriminate) ltac:(vm_compute; reflexivity)) as H.
  rewrite <- surjective_pairing in H.
  change (primaryIP (rv_Node started_view)) with "100.64.0.1" in H.
  change (ctr (p_setSeq (fst started)) "100.64.0.1") with 0 in H.
  change (negb (p_requireKeep (fst started)) || bool_decide (Some exit_ref = None)) with false in H.
  destruct (run (SetExitNode "r1" "e1") started) as [[res err] [p' w']].
  destruct H as (o & pd & lg & w1 & _ & _ & _ & H1 & H2 & _ & [H3 _] & _).
  exists o. auto.
Defined.

(** ** A simulated router behind the client

    Its world is the list of commands it has received; its selection is [e1]
    once it was told to use it. *)
Definition applied : string := applyCmd "100.64.0.9" true None.
Definition sim_run (addr cmd : string) : M (list string) (string * string * Z * option error) :=
  λ w, ((if existsb (String.eqb applied) w then "through e1" else "direct", "", 0, None), w ++ [cmd]).
#[export] Instance sim_runner : RouterRunner (list string) := {|
  runner_run := sim_run;
  newMarker := λ w, (defaultMarker (Z.of_nat (List.length w)) 7, w);
|}.
Definition sim_peer : PeerStatus :=
  mkPeerStatus "e1" "exit-one." "exit-one" "linux" [Addr4 [100; 64; 0; 9]] [] true zeroTime true true 0 0
    zeroTime.
#[export] Instance sim_codec : StatusCodec := {|
  unmarshal_status raw :=
    inr (mkStatus None (if String.eqb raw "through e1" then [Some sim_peer] else []) None);
|}.
Definition sim_env : PollerEnv (list string) :=
  router_env None (λ w, (1000000 * Second, w)) (λ w, ((tailnet, None), w)) (λ _, None).


(** ** The loop *)

(** A client comes at time 0, the poller hears of it, and polls on one tick; the client
    leaves. *)
Definition visit : list site_event :=
  [SHub (EConnect 0 None); SHub (ERegister 0); SHub ERun; SHub ERun; SHub ERun; SEdge;
   SLoop (LPass (30 * Second)); SLoop LTick].
Definition departure : list site_event := [SHub (ELeave 0); SHub (EUnregister 0); SHub ERun; SEdge].
Definition site0 : hub * (loop * (Poller * World)) := (New (snap_at 0), (loop0 0, (poller0, world0))).
Definition site_after (es : list site_event) : hub * (loop * (Poller * World)) := default site0 (site_run es site0).

Lemma polls_follow_clients_witness :
  let st := site_after (visit ++ departure) in
  lp_linger (fst (snd st)) = Some (75 * Second) ∧
  ∃ l', loop_run [LPass (45 * Second); LLinger] (fst (snd st), snd (snd st)) = Some (l', snd (snd st)) ∧
    lp_active l' = false.
Proof.
  intros st.
  pose proof (polls_follow_clients 0 (snap_at 0) (poller0, world0) (visit ++ departure)
    (fst st) (fst (snd st)) (snd (snd st)) ltac:(vm_compute; reflexivity) ltac:(vm_compute; reflexivity)
    ltac:(vm_compute; reflexivity) ltac:(vm_compute; reflexivity)) as H.
  replace (bool_decide (h_clients (fst st) = ∅)) with true in H by (vm_compute; reflexivity).
  assert (lp_linger (fst (snd st)) = Some (75 * Second)) as Hl by (vm_compute; reflexivity).
  split; [exact Hl |]. destruct (H ltac:(vm_compute; reflexivity)) as [(_ & _ & Hn) | (dl & Hdl & _ & Hd)]; [congruence |].
  destruct (Hd (45 * Second)) as (l' & Hr & Ha & _);
    [vm_compute; discriminate | rewrite Hl in Hdl; injection Hdl as <-; vm_compute; discriminate |].
  by exists l'.
Defined.

Lemma polling_rate_bounded_witness :
  let l := fst (snd (site_after visit)) in
  Z.of_nat (List.length (lp_ticks l)) <= lp_now l / (30 * Second) ∧ lp_ticks l = [30 * Second].
Proof.
  intros l. split; [| vm_compute; reflexivity].
  pose proof (polling_rate_bounded 0 (snap_at 0) (poller0, world0) visit
    (fst (site_after visit)) l (snd (snd (site_after visit)))
    ltac:(vm_compute; reflexivity) ltac:(vm_compute; reflexivity)) as H.
  rewrite Z.sub_0_r in H. exact H.
Defined.
