(* ===== verification/RouterWitness.v ===== *)
(** The theorems of the router layer, of the host-key file and of the zone filter
    at concrete inputs. *)

From stdpp Require Import relations functions.
From S2P Require Import Prelude GoStd Errors Store Netip Ipnstate Authz Router RouterFacts.
From S2P Require Import Poller Conc RouterProto RouterLocks DeadMan HostKey Fixtures PollerWitness.

(** ** Markers, statuses, probes *)

Lemma defaultMarker_safe_unique_witness :
  forallb shell_plain (chars (defaultMarker 1700000000 7)) = true ∧
  (defaultMarker 1700000000 7 = defaultMarker 1700000000 8 → 7 = 8).
Proof.
  destruct (defaultMarker_safe_unique 1700000000 7 1700000000 8) as [H1 H2];
    [lia | lia | lia | lia |].
  split; [exact H1 |]. intros E. destruct (H2 E) as [_ H]. exact H.
Defined.

Lemma parseEgressExit_roundtrip_witness :
  parseEgressExit ("connection refused" +:+ egressMarker +:+ itoa 4 +:+ newline)
  = Some (4, TrimSpace "connection refused").
Proof. apply parseEgressExit_roundtrip. lia. Defined.

(** Two peers, the second selected, in both orders. *)
Definition peer_a : PeerStatus :=
  mkPeerStatus "a" "a." "a" "linux" [Addr4 [100; 64; 0; 2]] [] true zeroTime false true 1 2 zeroTime.
Definition status_of (ps : list PeerStatus) : Status :=
  mkStatus (Some peer_a) (Some <$> ps) None.

Lemma runtime_of_status_order_witness :
  runtime_of_status (status_of [peer_a; sim_peer]) = runtime_of_status (status_of [sim_peer; peer_a]).
Proof.
  apply runtime_of_status_order; [done | done | constructor | | simpl; lia].
  apply (bool_decide_unpack _). vm_compute. exact I.
Defined.

(** ** Two calls to one router

    A router that records its commands; the probe waits while the keep holds the lock. *)
Definition recording (addr cmd : string) : M (list string) (string * string * Z * option error) :=
  λ w, (("up 2 days" +:+ newline, "", 0, None), w ++ [cmd]).
Definition no_status : StatusCodec := {| unmarshal_status _ := inl (ErrText "unexpected end of JSON input") |}.
Definition two_calls : list call := [CKeep "100.64.0.1" "/tmp/m"; CProbe "100.64.0.1"].
Abbreviation two_site := (calls0 two_calls (λ _, [])).
Abbreviation two_step := (lock_step (SC := no_status) recording None).

(** The keep runs and returns, then the probe. *)
Lemma two_calls_run :
  ∃ s s', rtc two_step two_site s ∧ rtc two_step s s' ∧
    si_worlds s' "100.64.0.1" = [keepCmd "/tmp/m"; probeCmd] ∧
    map is_done (si_callers s) = [true; false] ∧ map is_done (si_callers s') = [true; true].
Proof.
  do 2 eexists. split_and!.
  - eapply rtc_l; [by eapply (step_lock _ _ 0%nat) |].
    eapply rtc_l; [by eapply (step_command _ _ 0%nat) |].
    eapply rtc_l; [by eapply (step_unlock _ _ 0%nat) | apply rtc_refl].
  - eapply rtc_l; [eapply (step_lock _ _ 1%nat); [reflexivity | reflexivity | set_solver] |].
    eapply rtc_l; [by eapply (step_command _ _ 1%nat) |].
    eapply rtc_l; [by eapply (step_unlock _ _ 1%nat) | apply rtc_refl].
  - reflexivity.
  - reflexivity.
  - reflexivity.
Qed.
Lemma client_calls_atomic_witness :
  ∃ s s', rtc two_step two_site s ∧ rtc two_step s s' ∧ map is_done (si_callers s') = [true; true] ∧
  ∃ order more, explains (SC := no_status) recording None two_calls (λ _, []) s order ∧
    explains (SC := no_status) recording None two_calls (λ _, []) s' (order ++ more).
Proof.
  destruct two_calls_run as (s & s' & H1 & H2 & _ & _ & H3). exists s, s'. split_and!; [done.. |].
  by destruct (client_calls_atomic (SC := no_status) recording None two_calls (λ _, []) s s' H1 H2) as [H _].
Defined.

(** ** A known_hosts file *)

(** Keys are two, and the file's content names the key it pins. *)
Definition pinned (want : bool) (_ : string) (_ : option string) (k : bool) : verdict bool :=
  if Bool.eqb k want then Accepted else KeyMismatch [want] "mismatch".
Definition line_of (_ : list string) (k : bool) : string := if k then "T" else "F".
#[export] Instance small_hosts : KnownHosts bool := {|
  kh_parse s :=
    inr (match String.index 0 "T" s, String.index 0 "F" s with
         | Some _, _ => pinned true
         | _, Some _ => pinned false
         | _, _ => λ _ _ _, KeyMismatch [] "unknown"
         end);
  kh_Line := line_of;
  kh_Normalize := λ s, s;
|}.
(** A world that is the file, or its absence. *)
#[export] Instance file_world : HostFS (option string) := {|
  fs_read w := match w with Some c => inr c | None => inl (ErrNotExist "open known_hosts") end;
  fs_mkdir := λ w, (None, w);
  fs_open := λ w, (None, Some (default "" w));
  fs_append l := λ w, (None, Some (default "" w +:+ l));
|}.
#[export] Instance file_world_laws : HostFSLaws (option string).
Proof.
  split; [done | by intros [w |] |].
  intros l [w |] c _; unfold file_content; simpl; by intros [= <-].
Qed.


(** ** Zones *)

(** A snapshot with one zone of the router and the exit node, and one more node. *)
Definition zone_z : GroupView :=
  mkGroupView "z" "Zone" [mkGroupMember "r1" "router-one" "100.64.0.1" true true]
    [mkGroupMember "e1" "exit-one" "100.64.0.9" true true].
Definition zoned (extra : list NodeView) : Snapshot :=
  mkSnapshot (tailnet ++ extra) [] [zone_z] zeroTime "" zeroTime.
Definition stranger : NodeView :=
  mkNodeView "x" "stranger" "x" ["100.64.0.77"] "linux" true zeroTime false [] NodeGeneric false.

Lemma FilterSnapshotToZone_noninterference_witness :
  FilterSnapshotToZone (zoned []) "z" = FilterSnapshotToZone (zoned [stranger]) "z".
Proof.
  apply (FilterSnapshotToZone_noninterference _ _ "z" zone_z); reflexivity.
Defined.

(** ** A shell that runs the commands of a change *)

Fixpoint strip (pre l : list ascii) : option (list ascii) :=
  match pre, l with
  | [], _ => Some l
  | c :: pre', d :: l' => if Ascii.eqb c d then strip pre' l' else None
  | _, [] => None
  end.
(** A word of plain characters, and the rest. *)
Fixpoint word (l : list ascii) : list ascii * list ascii :=
  match l with
  | c :: l' => if shell_plain c then let '(w, rest) := word l' in (c :: w, rest) else ([], l)
  | [] => ([], [])
  end.

Lemma strip_app pre l : strip pre (pre ++ l) = Some l.
Proof. induction pre as [| c pre IH]; simpl; [done |]. by rewrite Ascii.eqb_refl. Qed.

Lemma word_app w rest :
  forallb shell_plain w = true → match rest with c :: _ => shell_plain c = false | [] => True end →
  word (w ++ rest) = (w, rest).
Proof.
  induction w as [| c w IH]; simpl.
  - intros _. destruct rest as [| c rest]; [done |]. simpl. by intros ->.
  - intros [Hc Hw]%andb_true_iff Hrest. by rewrite Hc, IH.
Qed.

Definition arm_head : list ascii := chars ("nohup sh -c 'sleep " +:+ itoa revertWindowSeconds +:+ "; [ -f ").
Definition arm_middle : list ascii := chars " ] && exit 0; tailscale set --exit-node=".
Definition set_head : list ascii := chars "tailscale set --exit-node=".
Definition keep_head : list ascii := chars ": > ".

Definition busybox (now : Time) (cmd : string) (r : router) : router :=
  match strip arm_head (chars cmd) with
  | Some l =>
      let '(m, l) := word l in
      match strip arm_middle l with
      | Some l =>
          mkRouter (ro_sel r) (ro_files r)
            (ro_timers r ++ [mkTimer (of_chars m) (of_chars (fst (word l)))
                               (Add now (revertWindowSeconds * Second))])
      | None => r
      end
  | None =>
      match strip set_head (chars cmd) with
      | Some l => mkRouter (of_chars (fst (word l))) (ro_files r) (ro_timers r)
      | None =>
          match strip keep_head (chars cmd) with
          | Some l => mkRouter (ro_sel r) ({[of_chars (fst (word l))]} ∪ ro_files r) (ro_timers r)
          | None => r
          end
      end
  end.
#[export] Instance busybox_shell : RouterShell := {| sh := busybox |}.

#[export] Instance busybox_laws : RouterShellLaws.
Proof.
  split; intros now.
  - intros m p r Hm Hp. change (sh now (armCmd m p) r) with (busybox now (armCmd m p) r). unfold busybox.
    assert (chars (armCmd m p) = arm_head ++ chars m ++ arm_middle ++ chars p ++ chars "' >/dev/null 2>&1 &") as ->.
    { unfold armCmd, arm_head, arm_middle. by rewrite !chars_app, <- !(assoc (++)). }
    rewrite strip_app, word_app, strip_app, word_app by done. simpl. by rewrite !of_chars_chars.
  - intros t lan r Ht. set (setting := negb _).
    change (sh now (applyCmd t setting lan) r) with (busybox now (applyCmd t setting lan) r). unfold busybox.
    assert (∃ rest, chars (applyCmd t setting lan) = set_head ++ chars t ++ rest ∧
      match rest with c :: _ => shell_plain c = false | [] => True end) as (rest & -> & Hrest).
    { unfold applyCmd, set_head. rewrite !chars_app. eexists. split; [done |].
      by destruct setting, lan as [[] |]. }
    change (strip arm_head (set_head ++ chars t ++ rest)) with (@None (list ascii)).
    rewrite strip_app, word_app by done. simpl. by rewrite of_chars_chars.
  - intros r. vm_compute. reflexivity.
  - intros m r Hm. change (sh now (keepCmd m) r) with (busybox now (keepCmd m) r). unfold busybox.
    assert (chars (keepCmd m) = keep_head ++ chars m ++ []) as -> by (unfold keepCmd; by rewrite chars_app, app_nil_r).
    change (strip arm_head (keep_head ++ chars m ++ [])) with (@None (list ascii)).
    change (strip set_head (keep_head ++ chars m ++ [])) with (@None (list ascii)).
    rewrite strip_app, word_app by done. simpl. by rewrite of_chars_chars.
Qed.

(** A change that is not kept: the timer fires after its window. *)
Definition start0 : Time := 1000 * Second.
Definition lan_router : router := mkRouter "" ∅ [].
Definition change1 : list sent := snd (snd (ApplyExitNode (RR := watched sim_runner) None "100.64.0.1" (Some exit_ref) None false ([], []))).
Definition marker1 : string := defaultMarker 0 7.

Definition armed_router : router :=
  mkRouter "100.64.0.9" ∅ [mkTimer marker1 "" (start0 + 60 * Second)].

Lemma change1_begins : lived start0 (take 2 change1) lan_router (start0 + Second) armed_router.
Proof.
  change (take 2 change1) with [(armCmd marker1 "", true); (applyCmd "100.64.0.9" true None, true)].
  apply lived_run, (lived_wait _ Second); [by vm_compute |]. apply lived_run.
  replace (sh _ _ _) with armed_router by (vm_compute; reflexivity). apply lived_end.
Qed.

Lemma change1_ends :
  lived (start0 + Second) (drop 2 change1) armed_router (start0 + 100 * Second) (mkRouter "" ∅ []).
Proof.
  change (drop 2 change1) with [(statusCmd, true)]. apply lived_run.
  apply (lived_wait _ (99 * Second)); [by vm_compute |].
  apply (lived_fire _ _ _ _ _ (mkTimer marker1 "" (start0 + 60 * Second)) [] []); [reflexivity | by vm_compute |].
  replace (fire _ _ _) with (mkRouter "" ∅ []) by (vm_compute; reflexivity).
  replace (start0 + Second + 99 * Second) with (start0 + 100 * Second) by (vm_compute; reflexivity).
  apply lived_end.
Qed.

Lemma unkept_change_reverts_witness :
  ∃ r2, lived (start0 + Second) (drop 2 change1) armed_router (start0 + 100 * Second) r2 ∧
    (ro_sel r2 = "" ∨ marker1 ∈ ro_files r2).
Proof.
  exists (mkRouter "" ∅ []). split; [apply change1_ends |].
  pose proof (unkept_change_reverts (RR := sim_runner) None "100.64.0.1" (Some exit_ref) None false []
    "100.64.0.9" "" ltac:(vm_compute; reflexivity) eq_refl ltac:(vm_compute; reflexivity)) as H.
  cbv zeta in H.
  destruct (ApplyExitNode _ _ _ _ _ _) as [[[rt marker] err] [w' log]] eqn:E.
  assert (log = change1) as -> by (unfold change1; by rewrite E).
  destruct (H [] start0 lan_router (start0 + Second) armed_router (start0 + 100 * Second) (mkRouter "" ∅ []))
    as (H1 & _); [reflexivity | reflexivity | set_solver | by intros c ?%elem_of_nil | apply change1_begins
    | by vm_compute | rewrite app_nil_r; apply change1_ends | reflexivity | exact H1].
Defined.

(** The same change, kept within the window: the timer finds the marker. *)
Definition kept_router : router := mkRouter "100.64.0.9" {[marker1]} [].

