(* ===== verification/SseWitness.v ===== *)
(** The hub's theorems at work: an admin and a guest connect, a snapshot is
    broadcast, and both are given it. *)

From S2P Require Import Prelude GoStd Errors Store Authz Sse SseFacts.

(** One admin's and one guest's connection; the second is being greeted. *)
Definition greeting : list event :=
  [EConnect 0 None; ERegister 0; ERun; ERun; ERun; EPoll; EConnect 1 (Some "z"); ERegister 1].
Definition settle : list event := [ERun; ERun; EFrame 0 true; EFrame 1 true].
Definition calling : list event := [ECall (snap_at 5); ECaller 0].

Definition hub_after (es : list event) : hub := default (New (snap_at 0)) (hub_run es (New (snap_at 0))).

Lemma Run_never_blocks_witness :
  ∃ n h', (n <= 4)%nat ∧ hub_run (repeat ERun n) (hub_after greeting) = Some h' ∧ idle h' = true.
Proof.
  destruct (Run_never_blocks (snap_at 0) greeting (hub_after greeting)) as (n & h' & Hn & Hr & Hi & _);
    [vm_compute; reflexivity | vm_compute; by eexists |].
  exists n, h'. split; [| by split]. etrans; [exact Hn |]. vm_compute. lia.
Defined.

Lemma hub_current_witness :
  told (hub_after (greeting ++ settle)) = 1 ∧
  ∃ k, h_conns (hub_after (greeting ++ settle)) !! 1%nat = Some k ∧ latest k = cn_sent k.
Proof.
  destruct (hub_current (snap_at 0) (greeting ++ settle) (hub_after (greeting ++ settle)))
    as [H1 H2]; [vm_compute; reflexivity | vm_compute; reflexivity |].
  rewrite bool_decide_eq_false_2 in H1.
  - split; [exact H1 |]. destruct (H2 1%nat) as (k & Hk & Hl & _).
    + apply (bool_decide_unpack _). vm_compute. exact I.
    + by exists k.
  - intros E. apply (f_equal (λ s : gset nat, bool_decide (1%nat ∈ s))) in E. vm_compute in E. discriminate.
Defined.

Definition delivery : list event := repeat ERun 2 ++ [EFrame 0 true].

Lemma fanout_reaches_all_witness :
  let before := greeting ++ settle ++ calling in
  ∃ k, h_conns (hub_after (before ++ [EFanout [0%nat; 1%nat]] ++ delivery)) !! 1%nat = Some k ∧
    latest k = Some (snap_at 5).
Proof.
  intros before.
  apply (fanout_reaches_all (snap_at 0) before (hub_after before) (snap_at 5) [0%nat; 1%nat]
           (hub_after (before ++ [EFanout [0%nat; 1%nat]])) delivery).
  1-3, 5-6: vm_compute; reflexivity.
  - repeat constructor.
  - apply (bool_decide_unpack _). vm_compute. exact I.
Defined.

(** A writer that records, and an encoding by the time of the snapshot. *)
#[local] Instance quiet_writer : ResponseWriter unit := {|
  rw_deadline := λ w, (None, w);
  rw_write _ := λ w, (None, w);
  rw_flush := λ w, (None, w);
|}.

