(* ===== verification/StoreFixtures.v ===== *)
(** A concrete text layer, for evaluating the stores: a JSON value is written as the
    bits of its stdpp encoding.  Every value decodes to itself, which is all that
    the stores rely on. *)

From S2P Require Import Prelude GoStd Errors AtomicFile Json.
From stdpp Require Import countable.

Fixpoint to_tree (v : json) : gen_tree string :=
  match v with
  | JNull => GenNode 0 []
  | JBool b => GenNode (if b then 1 else 2) []
  | JNum s => GenNode 3 [GenLeaf s]
  | JStr s => GenLeaf s
  | JArr l => GenNode 4 (List.map to_tree l)
  | JObj l => GenNode 5 (List.map (λ '(k, v), GenNode 6 [GenLeaf k; to_tree v]) l)
  end.

Fixpoint of_tree (t : gen_tree string) : json :=
  match t with
  | GenLeaf s => JStr s
  | GenNode 1 _ => JBool true
  | GenNode 2 _ => JBool false
  | GenNode 3 [GenLeaf s] => JNum s
  | GenNode 4 l => JArr (List.map of_tree l)
  | GenNode 5 l => JObj (List.map (λ t, match t with
                                        | GenNode _ [GenLeaf k; v] => (k, of_tree v)
                                        | _ => ("", JNull)
                                        end) l)
  | _ => JNull
  end.

Fixpoint of_to_tree (v : json) : of_tree (to_tree v) = v.
Proof.
  destruct v as [| [] | s | s | l | l]; simpl; try done; f_equal.
  - induction l as [| v l IH]; simpl; [done |]. by rewrite of_to_tree, IH.
  - induction l as [| [k v] l IH]; simpl; [done |]. by rewrite of_to_tree, IH.
Qed.

Fixpoint bits (p : positive) : string :=
  match p with
  | xH => ""
  | xO p => String "0" (bits p)
  | xI p => String "1" (bits p)
  end.
Fixpoint of_bits (s : string) : positive :=
  match s with
  | "" => xH
  | String "0" s => xO (of_bits s)
  | String _ s => xI (of_bits s)
  end%string.

Lemma of_bits_bits p : of_bits (bits p) = p.
Proof. induction p as [p IH | p IH |]; simpl; [by rewrite IH.. | done]. Qed.

Definition tree_text (v : json) : string := bits (encode (to_tree v)).
Definition tree_parse (s : string) : error + json :=
  match decode (of_bits s) with
  | Some t => inr (of_tree t)
  | None => inl (ErrText "json: invalid text")
  end.

#[export] Instance tree_json : JSONText := {|
  json_print := tree_text;
  json_compact := tree_text;
  json_parse := tree_parse;
  json_first s := if String.eqb s "" then None else Some (tree_parse s);
  time_format t := bits (encode t);
  time_parse s := decode (of_bits s);
|}.

Lemma tree_faithful (v : json) : text_faithful v.
Proof.
  unfold text_faithful. simpl. unfold tree_parse, tree_text.
  by rewrite of_bits_bits, decode_encode, of_to_tree.
Qed.

Lemma tree_time_faithful (t : Time) : time_faithful t.
Proof. unfold time_faithful. simpl. by rewrite of_bits_bits, decode_encode. Qed.
