(* ===== verification/StoreWitness.v ===== *)
(** The stores' theorems at concrete files and operations. *)

From S2P Require Import Prelude GoStd Errors Store AtomicFile Json Wire WireFacts FileStore StoreFixtures.
From S2P Require Groups GroupsFacts Guests GuestsFacts.

#[local] Instance store_tables : UnicodeTables := ascii_tables.

(** ** Zones *)
Section zones.
Import Groups GroupsFacts.

Definition gpath : string := "/state/groups.json".
Definition gdir : string := "/state".

Lemma gpath_not_temp : not_temp "groups" gpath gdir.
Proof. intros r. discriminate. Qed.

(** An empty store, on a file system where the second write will fail. *)
Definition empty_zones : World Group :=
  mkWorld (mkFSState ∅ (repeat None 20 ++ [Some (mkFault (ErrText "disk full") 3)])
             ["1"; "2"; "3"; "4"] [])
    (inr <$> [1; 1; 2; 3]) [].
Definition home : Group := mkGroup "" " Home " ["r1"; " r1"] ["e1"].
Definition zone_ops : list store_op := [OpCreate home; OpCreate (set_g_Name "Work" home); OpDelete "absent"].

Lemma empty_wf : wf_store tidy_group (w_items empty_zones).
Proof. apply wf_nil. Qed.

Lemma groups_durable_witness :
  wf_store tidy_group (w_items (run_ops gpath gdir zone_ops empty_zones)) ∧
  List.length (w_items (run_ops gpath gdir zone_ops empty_zones)) = 2%nat.
Proof.
  split; [| vm_compute; reflexivity].
  apply (groups_durable gpath gdir zone_ops empty_zones gpath_not_temp empty_wf eq_refl (tree_faithful _)).
Defined.


Lemma groups_refine_map_witness :
  let '(r, w') := run_op gpath gdir (OpCreate home) empty_zones in
  r = Some (inr tt) ∧ ∃ norm id, Normalize home = inr norm ∧
    as_map (w_items w') = {[id := set_g_ID id norm]}.
Proof.
  destruct (groups_refine_map gpath gdir (OpCreate home) empty_zones gpath_not_temp empty_wf) as [_ H].
  destruct (run_op gpath gdir (OpCreate home) empty_zones) as [r w'] eqn:Hr.
  apply (f_equal fst) in Hr. vm_compute in Hr. simpl in Hr. subst r. split; [reflexivity |].
  destruct H as (norm & id & Hn & _ & Hm). by exists norm, id.
Defined.

(** The first draws repeat an id that is taken. *)
Lemma groups_Create_terminates_witness :
  let w := snd (run_op gpath gdir (OpCreate home) empty_zones) in
  ∃ r w', Create gpath gdir (set_g_Name "Work" home) w = (Some r, w').
Proof.
  intros w.
  destruct (groups_Create_terminates gpath gdir (set_g_Name "Work" home) [1; 2; 3] w gpath_not_temp)
    as (r & w' & E & _).
  - vm_compute. reflexivity.
  - apply (bool_decide_unpack _). vm_compute. exact I.
  - vm_compute. lia.
  - by exists r, w'.
Defined.
End zones.

(** ** Guests *)
Section guests.
Import Guests GuestsFacts.

Definition upath : string := "/state/guests.json".
Definition udir : string := "/state".

Lemma upath_not_temp : not_temp "guests" upath udir.
Proof. intros r. discriminate. Qed.

(** A hash that is the password behind a mark. *)
#[local] Instance plain_hash : Bcrypt := {|
  bcrypt_generate _ pw _ := inr ("hash:" +:+ pw);
  bcrypt_compare h pw := String.eqb h ("hash:" +:+ pw);
|}.
#[local] Instance plain_hash_laws : BcryptLaws.
Proof. split. intros salt pw cost h [= <-]. apply String.eqb_refl. Qed.

Definition no_guests : World guest :=
  mkWorld (mkFSState ∅ [] ["1"; "2"; "3"; "4"] []) (inr <$> [1; 2; 3; 4]) [].
Definition ann : guest_op := GCreate 0 1000 " Ann " "z1" "correct horse".
Definition bob : guest_op := GCreate 0 2000 "Bob" "z1" "battery staple".
Definition ann_id : string := of_chars (hex_fixed 16 1).

Lemma no_guests_wf : wf_store tidy_guest (w_items no_guests).
Proof. apply wf_nil. Qed.

Definition two_guests : World guest := run_guest_ops upath udir [ann; bob] no_guests.

Lemma guests_durable_witness :
  wf_store tidy_guest (w_items two_guests) ∧ List.length (w_items two_guests) = 2%nat.
Proof.
  split; [| vm_compute; reflexivity].
  apply (guests_durable upath udir [ann; bob] no_guests upath_not_temp no_guests_wf eq_refl (tree_faithful _)).
  apply Forall_forall. intros g _. apply tree_time_faithful.
Defined.

Lemma Authenticate_exact_witness :
  fst (Authenticate "dummy" (w_items two_guests) "ANN" "correct horse" []) = Some (mkGuest ann_id "Ann" "z1" false 1000).
Proof.
  assert (wf_store tidy_guest (w_items two_guests)) as Hwf by exact (run_guest_ops_wf _ _ _ _ upath_not_temp no_guests_wf).
  pose proof (Authenticate_exact "dummy" (w_items two_guests) "ANN" "correct horse" [] Hwf) as H.
  destruct (Authenticate _ _ _ _ _) as [r log]. apply H.
  exists (mkGuestRec ann_id "Ann" "z1" "hash:correct horse" false 1000).
  split; [apply (list_elem_of_lookup_2 _ 0); vm_compute; reflexivity |].
  repeat split; vm_compute; reflexivity.
Defined.

Lemma guest_login_works_witness :
  fst (Authenticate "dummy" (w_items (run_guest_ops upath udir [bob]
         (snd (Create upath udir 0 1000 " Ann " "z1" "correct horse" no_guests)))) "ann" "correct horse" [])
  = Some (mkGuest ann_id "Ann" "z1" false 1000).
Proof.
  apply (guest_login_works upath udir "dummy" 0 1000 " Ann " "z1" "correct horse" no_guests
           (mkGuest ann_id "Ann" "z1" false 1000)); [exact upath_not_temp | exact no_guests_wf | | | ].
  - vm_compute. reflexivity.
  - repeat constructor.
  - vm_compute. reflexivity.
Defined.

Definition revoked : World guest := snd (SetDisabled upath udir ann_id true two_guests).

Lemma guest_revocation_witness :
  ∀ g', fst (Authenticate "dummy" (w_items (run_guest_ops upath udir [bob] revoked))
          "Ann" "correct horse" []) = Some g' → gst_ID g' ≠ ann_id.
Proof.
  intros g'.
  assert (wf_store tidy_guest (w_items two_guests)) as Hwf by exact (run_guest_ops_wf _ _ _ _ upath_not_temp no_guests_wf).
  destruct (guest_revocation upath udir "dummy" ann_id two_guests "Ann" "correct horse" [] upath_not_temp Hwf) as [H _].
  assert (SetDisabled upath udir ann_id true two_guests = (inr (mkGuest ann_id "Ann" "z1" true 1000), revoked)) as E
    by (vm_compute; reflexivity).
  apply (H _ revoked [bob] g' E). repeat constructor.
Defined.
End guests.

(** ** The wire *)

(** A router without a selection whose egress check failed, in a zone with a member that is gone. *)
Definition wire_node : NodeView :=
  mkNodeView "r1" "home" "home" ["100.64.0.1"] "linux" true (63900000000 * Second + 5) false [] NodeRouter true.
Definition wire_snapshot : Snapshot :=
  mkSnapshot [wire_node]
    [mkRouterView wire_node None (Some (mkExitNodeRef "e1" "tokyo" "100.64.0.2")) RouterAwaitingKeep
       (mkRouterStats 10 (-1) zeroTime) true "" (63900000001 * Second) (63900000002 * Second)
       (63900000092 * Second) (Some false) "timeout" zeroTime]
    [mkGroupView "z" "Home" [mkGroupMember "r1" "home" "100.64.0.1" true true]
       [mkGroupMember "e9" "" "" false false]]
    (63900000003 * Second) "" (63900000003 * Second).
Lemma snapshot_wire_roundtrip_witness :
  ∃ text, EncodeSnapshot wire_snapshot = inr text ∧
    match json_parse text with inr v => read_snapshot v | inl _ => None end
    = Some (sent wire_snapshot) ∧
    rv_EgressOK <$> snap_Routers (sent wire_snapshot) = [Some false].
Proof.
  destruct (snapshot_wire_roundtrip wire_snapshot) as (text & H1 & H2).
  - unfold snapshot_ok, router_ok, node_ok, time_ok, int64. simpl. repeat constructor; simpl; unfold Second, zeroTime; lia.
  - apply tree_faithful.
  - exists text. split; [exact H1 | split; [exact H2 | reflexivity]].
Defined.
