(* ===== verification/SystemWitness.v ===== *)
(** A small deployment, run: the configuration resolves, the server starts, the owner
    makes zones and guests, a guest is revoked. *)

From S2P Require Import Prelude GoStd Errors Store Netip Ipnstate Netmap Authz Json Session Wire Api.
From S2P Require Import Conc Poller AtomicFile FileStore Router HostKey Transport Ssh Config CommandLine ConfigFacts CommandLineFacts System.
From S2P Require Import SystemFacts StoreFixtures RouterWitness.
From S2P Require Groups GroupsFacts Guests GuestsFacts.
Import Api.OnState.

#[local] Instance site_tables : UnicodeTables := ascii_tables.
#[local] Existing Instance Guests.guest_item.
#[local] Existing Instance Groups.group_item.

(** ** The process, the tailnet and the routers

    The host is a clock; no router answers; the owner browses from [100.64.0.50]. *)
#[local] Instance site_host : Host Z := {|
  host_Now t := (t, t + Second);
  host_Rand n t := (inr (repeat 9 n), t);
  host_Uint32 t := (7, t);
  host_Salt t := (0, t);
  host_Sleep d t := (tt, t + d);
|}.
#[local] Instance site_ssh : SSHLib Z := {|
  ssh_dial _ _ t := (Some (ErrText "no route to host"), t);
  ssh_SetDeadline _ t := (None, t);
  ssh_closeConn t := (tt, t);
  ssh_NewClientConn _ _ _ _ t := (None, t);
  ssh_closeClient t := (tt, t);
  ssh_NewSession t := (None, t);
  ssh_run _ t := ([], [], RunOk, t);
  ssh_closeSession t := (tt, t);
  ssh_ctxErr _ := None;
|}.
Definition site_router : PeerStatus :=
  mkPeerStatus "r1" "router-one." "router-one" "linux" [Addr4 [100; 64; 0; 1]] ["tag:router"] true zeroTime
    false false 0 0 zeroTime.
Definition site_self : PeerStatus :=
  mkPeerStatus "s1" "tsctl.tail.ts.net." "tsctl" "linux" [Addr4 [100; 64; 0; 2]] ["tag:tsctl"] true zeroTime
    false false 0 0 zeroTime.
Definition site_status : Ipnstate.Status := mkStatus (Some site_self) [Some site_router] None.
#[local] Instance site_client : LocalClient Z := {|
  lc_Status t := ((Some site_status, None), t);
  lc_WhoIs addr t :=
    (if String.eqb addr "100.64.0.50" then (Some (mkWhoIs (Some false) (Some "owner@example.com")), None)
     else (None, Some (ErrText "no peer")), t);
|}.
#[local] Instance site_codec : StatusCodec := {| unmarshal_status _ := inr site_status |}.
#[local] Instance site_urls : URLParser := {| url_Parse_Host _ := None |}.
#[local] Instance site_hash : Guests.Bcrypt := {|
  Guests.bcrypt_generate _ pw _ := inr ("hash:" +:+ pw);
  Guests.bcrypt_compare h pw := String.eqb h ("hash:" +:+ pw);
|}.

(** ** The configuration *)

Definition bare : Process := mkProcess (λ _, None) (λ _, inl (ErrNotExist "open")).
Definition site_args : list string :=
  ["-state-dir=/var/lib/tsctl"; "--routers"; "100.64.0.1"; "-owner=owner@example.com";
   "-allowed-hosts"; "tsctl.tail.ts.net"; "-exit-node-lan-access="; "-egress-check=false"; "-require-keep"].
Definition site_config : Config :=
  match loadConfig bare site_args with
  | inr c => c
  | inl _ => mkConfig "" "" "" "" [] "" "" false 0 "" [] 0 "" "" None false "" false "" "" "" ∅ ""
  end.


(** An environment that asks for something else, and arguments with a stray word at the end. *)
Definition crowded : Process :=
  mkProcess (λ k, if String.eqb k "TSCTL_OWNER" then Some "other@example.com"
                  else if String.eqb k "TSCTL_POLL_INTERVAL" then Some " 1h30m " else None)
    (λ _, inl (ErrNotExist "open")).
Definition site_flags : Flags :=
  mkFlags "tsctl" "/var/lib/tsctl" ":80" "127.0.0.1:8090" "root" false "100.64.0.1" (10 * Second)
    "owner@example.com" "" "" "tsctl.tail.ts.net" (30 * Second) "" false "https://example.com/" true
    "tailscale-ssh" "tofu" "".
Lemma command_line_roundtrip_witness :
  envDur crowded "TSCTL_POLL_INTERVAL" (30 * Second) = inr (5400 * Second) ∧
  match loadConfig crowded (setting_args (settings_of site_flags) ++ ["now"; "-debug"]) with
  | inr c => (cfg_Owner c, cfg_PollInterval c, cfg_Debug c) = ("owner@example.com", 30 * Second, false)
  | inl _ => False
  end.
Proof.
  split; [vm_compute; reflexivity |].
  destruct (command_line_roundtrip crowded site_flags ["now"; "-debug"]) as [H _]; [done | done | reflexivity |].
  rewrite H; [vm_compute; reflexivity |]. unfold env_parses. split_and!; eexists; vm_compute; reflexivity.
Defined.

(** ** The server *)

Definition drawn : list (error + Z) := inr <$> [1; 2; 3; 4].
Definition fresh_disk : FSState := mkFSState ∅ [] ["a"; "b"; "c"; "d"] [].
Definition outside : Outside Z (option string) :=
  mkOutside (λ _, None) None None (Some site_status, None) (inr (repeat 5 32)) 0 (1000000 * Second)
    (63900000000 * Second) fresh_disk fresh_disk drawn drawn None None None.
Definition boot : error + option Started :=
  runServe (KH := small_hosts) (FS := file_world) bare site_args outside.
Definition site : Started :=
  match boot with
  | inr (Some sd) => sd
  | _ => mkStarted (mkDeployment (mkClient DialTailnet "" 0 inr [] InsecureIgnoreHostKey None) "" "" "")
           (mkAPI false false "" "" [] ∅)
           (mkServer (NewPoller (NewStore 0) [] 0) (mkNet 0 (mkWorld fresh_disk [] []))
              (mkWorld fresh_disk [] []) []) []
  end.
#[local] Instance site_deployment : Deployment := sd_deployment site.

Definition owner_request (method : string) (path : list string) (body : json) : Request :=
  mkRequest method "tsctl" "100.64.0.50" [("X-Tsctl-Csrf", "t")] [("tsctl_csrf", "t")] path (tree_text body).
Definition guest_request (cookie method : string) (path : list string) : Request :=
  mkRequest method "tsctl" "100.64.0.60" [("X-Tsctl-Csrf", "t")]
    [("tsctl_csrf", "t"); ("tsctl_session", cookie)] path "".

Definition make_zone : Request :=
  owner_request "POST" ["api"; "groups"]
    (JObj [("name", JStr "Home"); ("consumers", JArr [JStr "r1"]); ("allowedExitNodes", JNull)]).
Definition zone_id : string := of_chars (hex_fixed 16 1).
Definition make_guest (label : string) : Request :=
  owner_request "POST" ["api"; "guests"]
    (JObj [("label", JStr label); ("zoneId", JStr zone_id); ("password", JStr "correct horse")]).
Definition ann : string := of_chars (hex_fixed 16 1).
Definition bob : string := of_chars (hex_fixed 16 2).
Definition disable_ann : Request :=
  owner_request "POST" ["api"; "guests"; ann; "disabled"] (JObj [("disabled", JBool true)]).

Definition setup : list server_event := [Poll; Serve make_zone; Serve (make_guest "Ann"); Serve (make_guest "Bob")].
Definition populated : Server := snd (server_run (sd_api site) setup (sd_server site)).

Definition cookie_of (id : string) : string :=
  match newSessionValue (api_sessionSecret (sd_api site)) (mkSubject false id "") (63900000000 * Second)
          (inr (repeat 9 16)) with
  | inr v => v | inl _ => ""
  end.

Example populated_stores :
  g_Name <$> w_items (sv_groups populated) = ["Home"] ∧
  Guests.gr_label <$> w_items (sv_guests populated) = ["Ann"; "Bob"].
Proof. vm_compute. by split. Qed.

Lemma populated_ok : server_ok populated.
Proof.
  apply (keeps_run (sd_api site)); [by apply Join_not_temp | by apply Join_not_temp | vm_compute; reflexivity |].
  split; [apply wf_nil | apply wf_nil | by intros g ?%not_elem_of_nil].
Qed.


(** Ann asks for a Keep on the router, then tries to delete the zone. *)
Definition ann_tries : list server_event :=
  [Serve (guest_request (cookie_of ann) "POST" ["api"; "routers"; "r1"; "keep"]);
   Serve (guest_request (cookie_of ann) "DELETE" ["api"; "groups"; zone_id]); Poll].

Lemma only_admins_administer_witness :
  sv_groups (snd (server_run (sd_api site) ann_tries populated)) = sv_groups populated.
Proof.
  apply (only_admins_administer (sd_api site) ann_tries populated). vm_compute. repeat split.
Defined.

Lemma disabled_guest_locked_out_witness :
  let s := snd (Routes (sd_api site) disable_ann emptyCtx populated) in
  let q := guest_request (cookie_of bob) "GET" ["api"; "me"] in
  ∃ sub, caller (sd_api site) q (snd (server_run (sd_api site) ann_tries s)) = Some sub ∧
    (sub_Admin sub = true ∨ sub_GuestID sub ≠ ann).
Proof.
  intros s q. exists (mkSubject false bob zone_id).
  assert (caller (sd_api site) q (snd (server_run (sd_api site) ann_tries s)) = Some (mkSubject false bob zone_id)) as E
    by (vm_compute; reflexivity).
  split; [exact E |].
  apply (disabled_guest_locked_out (sd_api site) disable_ann ann populated
    (mkGuest ann "Ann" zone_id true (63900000002 * Second)) ann_tries q).
  - by apply Join_not_temp.
  - apply (ok_guests _ populated_ok).
  - split; vm_compute; reflexivity.
  - vm_compute. reflexivity.
  - vm_compute. repeat split.
  - exact E.
Defined.

(** ** Sessions *)

Lemma session_roundtrip_witness :
  ∃ v, newSessionValue (repeat 5 32) (mkSubject false "g1" "") (63900000000 * Second) (inr (repeat 9 16)) = inr v ∧
    parseSession (repeat 5 32) (Some v) (63900000060 * Second) = Some (mkSubject false "g1" "").
Proof.
  destruct (session_roundtrip (repeat 5 32) (mkSubject false "g1" "") (63900000000 * Second) (repeat 9 16)
    (63900000060 * Second)) as (v & E1 & E2).
  - split; [reflexivity | right; simpl; lia].
  - reflexivity.
  - repeat constructor; (by vm_compute) || discriminate.
  - split; [apply Z.leb_le | apply Z.ltb_lt]; vm_compute; reflexivity.
  - exists v. split; [exact E1 |]. rewrite E2. vm_compute. reflexivity.
Defined.
