(* ===== verification/RequestsWitness.v ===== *)
(** Requests under concurrency, run: the deployment of SystemWitness.v with its
    goroutines interleaved. *)

From stdpp Require Import relations.
From S2P Require Import Prelude GoStd Errors Store Netip Ipnstate Netmap Authz Json Crypto Session Wire Api.
From S2P Require Import Conc PollerBase Poller PollerConc AtomicFile FileStore Router HostKey Transport Ssh.
From S2P Require Import Config CommandLine ConfigFacts System SystemFacts StoreFixtures RouterWitness SystemWitness.
From S2P Require Import Requests RequestsFacts RequestsAuth RequestsConfined.
From S2P Require Groups GroupsFacts Guests GuestsFacts.

#[local] Existing Instance site_tables.
#[local] Existing Instance site_host.
#[local] Existing Instance site_ssh.
#[local] Existing Instance site_client.
#[local] Existing Instance site_codec.
#[local] Existing Instance site_urls.
#[local] Existing Instance site_hash.
#[local] Existing Instance site_deployment.
#[local] Existing Instance Guests.guest_item.
#[local] Existing Instance Groups.group_item.

(** ** The path of a request *)

(** What a request asks for, and is answered, when it is served alone. *)
Fixpoint asked {A} (t : request A) (s : Server) : list event :=
  match t with
  | Answer _ => []
  | Ask o k => let '(x, s') := perform (T := M Server) o s in did o x :: asked (k x) s'
  end.

Definition asked_ops {A} (t : request A) (s : Server) : list iop := map (@projT1 _ _) (asked t s).

Lemma asked_asks {A} (t : request A) s n o : asked_ops t s !! n = Some o → asks t (take n (asked t s)) o.
Proof.
  unfold asked_ops. revert s n. induction t as [y | o' k IH]; intros s n; simpl; [done |].
  destruct (perform (T := M Server) o' s) as [y s']. destruct n as [| n]; simpl.
  - intros [= <-]. constructor.
  - intros E. constructor. by apply IH.
Qed.

(** Ann's Keep: the owner is looked for, her session, herself and her zone are checked, and the zone
    is read again before the router is operated. *)
Definition ann_keeps : Request := guest_request (cookie_of ann) "POST" ["api"; "routers"; "r1"; "keep"].
Abbreviation ann_tree := (Routes (T := request) (sd_api site) ann_keeps emptyCtx).

Example ann_asks :
  asked_ops ann_tree populated =
    [IWhoIs "100.64.0.60"; INow; IGuest ann; IGroup zone_id; IGroup zone_id; IKeep "r1"].
Proof. vm_compute. reflexivity. Qed.

Lemma complete_mediation_witness : allowed (sd_api site) ann_keeps (take 5 (asked ann_tree populated)) (IKeep "r1").
Proof.
  apply (proj1 (complete_mediation (sd_api site) ann_keeps (take 5 (asked ann_tree populated)))).
  apply (asked_asks ann_tree populated 5). rewrite ann_asks. reflexivity.
Defined.

(** ** Interleavings *)

(** Three goroutines: one makes a zone and two guests, one polls, one asks for a Keep. *)
Definition crowd : list (list server_event) :=
  [[Serve make_zone; Serve (make_guest "Ann"); Serve (make_guest "Bob")]; [Poll; Poll]; [Serve ann_keeps; Poll]].
Definition turns : list nat := List.concat (repeat [0; 1; 2; 1; 2]%nat 40).
Definition crowded_server : Server * list (thread Server) :=
  pool_run turns (sd_server site, goroutine (sd_api site) <$> crowd).

Example crowd_done :
  g_Name <$> w_items (sv_groups (fst crowded_server)) = ["Home"] ∧
  Guests.gr_label <$> w_items (sv_guests (fst crowded_server)) = ["Ann"; "Bob"].
Proof. vm_compute. by split. Qed.

(** The addressing assumption holds of the tailnet, whose router has one address. *)
Lemma site_addressed (t : Z) : Forall (wf_node (p_routers (sv_poller (sd_server site)))) (fst (fst (Inventory t))).
Proof.
  assert (p_routers (sv_poller (sd_server site)) = ["100.64.0.1"]) as -> by (vm_compute; reflexivity).
  apply Forall_forall. intros n Hn addr ->%list_elem_of_singleton. revert n Hn.
  apply (proj1 (Forall_forall (λ n, has_ip "100.64.0.1" n = true → primaryIP n = "100.64.0.1") _)).
  vm_compute. repeat (apply List.Forall_cons; [done |]). apply List.Forall_nil.
Qed.


(** Ann is disabled; her session is good for nothing from then on, however her requests interleave. *)
Definition without_ann : Server := snd (run (serve (sd_api site) disable_ann) populated).
Definition ann_deletes : Request := guest_request (cookie_of ann) "DELETE" ["api"; "groups"; zone_id].
Definition ann_alone : list (list server_event) := [[Serve ann_keeps; Serve ann_deletes]; [Serve ann_keeps]].
Definition ann_turns : list nat := [0; 1; 0; 1; 0; 1; 0; 0; 0; 0]%nat.

(** Her cookie is hers until it expires, and nobody's then. *)
Lemma ann_session now sub :
  parseSession (api_sessionSecret (sd_api site)) (Some (cookie_of ann)) now = Some sub →
  sub = mkSubject false ann "".
Proof.
  assert (∃ v, cookie_of ann = v ∧ v ≠ "" ∧
    let r := region_of (mkSubject false ann "") (Unix (Add (63900000000 * Second) sessionTTL)) (repeat 9 16) in
    b64_decode v = Some (r ++ sessionMAC (repeat 5 32) r)) as (v & -> & Hv & Hd).
  { eexists. split; [vm_compute; reflexivity |]. split; [done |]. vm_compute. reflexivity. }
  assert (api_sessionSecret (sd_api site) = repeat 5 32) as -> by (vm_compute; reflexivity).
  erewrite parse_region_of; [| | | exact Hv | exact Hd].
  - destruct (_ <=? _); congruence.
  - split; [vm_compute; reflexivity | right]. split; apply Nat.leb_le; vm_compute; reflexivity.
  - done.
Qed.

Lemma ann_powerless r : r = ann_keeps ∨ r = ann_deletes →
  never_admin (sd_api site) r ∧ locked_out (sd_api site) without_ann r.
Proof.
  intros Hr.
  assert (r_RemoteAddr r = "100.64.0.60" ∧ Cookie r "tsctl_session" = Some (cookie_of ann)) as [Ha Hc].
  { destruct Hr as [-> | ->]; split; vm_compute; reflexivity. }
  split; [split; rewrite ?Ha |].
  - intros h. vm_compute. discriminate.
  - intros now sub. unfold session_at. rewrite Hc. by intros ->%ann_session.
  - intros now sub g. unfold session_at. rewrite Hc. intros ->%ann_session. cbn [sub_GuestID].
    assert (gst_Disabled <$> Guests.Get ann (sv_guests without_ann) = Some true) as E by (vm_compute; reflexivity).
    intros Hg. rewrite Hg in E. simpl in E. congruence.
Qed.

Lemma powerless_requests_witness :
  let s' := fst (pool_run ann_turns (without_ann, goroutine (sd_api site) <$> ann_alone)) in
  sv_groups s' = sv_groups without_ann ∧ sv_guests s' = sv_guests without_ann ∧
  sv_poller s' = sv_poller without_ann.
Proof.
  intros s'.
  destruct (powerless_requests (sd_api site) without_ann ann_alone s'
    (snd (pool_run ann_turns (without_ann, goroutine (sd_api site) <$> ann_alone)))) as [_ H].
  - unfold s'. rewrite <- surjective_pairing. apply pool_run_steps.
  - apply H. unfold ann_alone. intros es e. rewrite !elem_of_cons, elem_of_nil.
    intros [-> | [-> | []]]; rewrite !elem_of_cons, elem_of_nil;
      [intros [-> | [-> | []]] | intros [-> | []]]; eexists; (split; [reflexivity | apply ann_powerless; auto]).
Defined.

(** ** A race

    The check of [handleCreateGuest] that the zone exists and the check of
    [handleDeleteGroup] that no guest is in it precede, each in its own section, the
    change they guard.  When the deletion runs between the check and the creation, both
    requests succeed and the guest is left without a zone: that every guest has a zone
    is not an invariant of the interleavings.  (The guest cannot log in to anything:
    [resolveSubject] refuses it.) *)
Definition with_zone : Server := snd (server_run (sd_api site) [Serve make_zone] (sd_server site)).
Definition delete_zone : Request := owner_request "DELETE" ["api"; "groups"; zone_id] JNull.
Definition racing : list (list server_event) := [[Serve (make_guest "Ann")]; [Serve delete_zone]].
Definition race : list nat := [0; 0; 1; 1; 1; 1; 0; 0]%nat.

Definition raced : Server * list (thread Server) :=
  pool_run race (with_zone, goroutine (sd_api site) <$> racing).

Theorem guest_left_without_zone :
  server_ok with_zone ∧ rtc pool_step (with_zone, goroutine (sd_api site) <$> racing) raced ∧
  snd raced = [Ret tt; Ret tt] ∧ ¬ server_ok (fst raced).
Proof.
  split; [| split; [apply pool_run_steps | split; [vm_compute; reflexivity |]]].
  - apply (keeps_run (sd_api site)); [by apply Join_not_temp | by apply Join_not_temp | vm_compute; reflexivity |].
    split; [apply wf_nil | apply wf_nil | by intros g ?%not_elem_of_nil].
  - intros [_ _ Hrefs].
    assert (w_items (sv_groups (fst raced)) = []) as Ez by (vm_compute; reflexivity).
    assert (Guests.gr_zoneID <$> w_items (sv_guests (fst raced)) = [zone_id]) as Eg by (vm_compute; reflexivity).
    assert (Forall (λ z, z ∈ g_ID <$> w_items (sv_groups (fst raced)))
      (Guests.gr_zoneID <$> w_items (sv_guests (fst raced)))) as H.
    { apply Forall_fmap, Forall_forall. exact Hrefs. }
    rewrite Eg, Ez in H. apply Forall_cons in H as [H _]. by apply elem_of_nil in H.
Qed.
