(* ===== verification/Demo.v ===== *)
(** [internal/demo]: the scripted backend of [tsctl demo]: a world that is both the
    netmap and the router client of the poller, and an in-memory zone store.  Every
    method runs under the world's mutex, so it is one transition of the world. *)

From S2P Require Import Prelude GoStd Errors Store FileStore Groups Router Conc Poller.

(** internal/demo/demo.go:35-35, Owner. *)
Definition Owner : string := "demo-owner@example.com".
(** internal/demo/demo.go:39-39, ApplyLatency. *)
Definition ApplyLatency : Duration := 1500 * Millisecond.
(** internal/demo/demo.go:42-42, TickInterval. *)
Definition TickInterval : Duration := 3 * Second.

Definition r1IP := "100.64.0.10".
Definition r2IP := "100.64.0.11".
Definition r3IP := "100.64.0.12".
Definition r4IP := "100.64.0.13".
Definition tokyoIP := "100.64.0.20".
Definition frankfurtIP := "100.64.0.21".
Definition londonIP := "100.64.0.22".
Definition comboIP := "100.64.0.23".
Definition flakyIP := "100.64.0.24".
Definition brokenIP := "100.64.0.25".
Definition aliceIP := "100.64.0.30".
Definition bobIP := "100.64.0.31".
Definition kioskIP := "100.64.0.32".
Definition flipID := "n-bob-iphone".

(** internal/demo/demo.go:71-82, demoNode. *)
Record demoNode := mkDemoNode {
  dn_stableID : string;
  dn_name : string;
  dn_hostname : string;
  dn_ips : list string;
  dn_os : string;
  dn_online : bool;
  dn_lastSeen : Time;
  dn_exitOpt : bool;
  dn_tags : list string;
  dn_typ : NodeType;
}.

(** internal/demo/demo.go:86-90, routerRuntime. *)
Record routerRuntime := mkRouterRuntime_ {
  rr_currentExitIP : string;
  rr_rx : Z;
  rr_tx : Z;
  rr_lastHandshake : Time;
}.

(** What the world does not decide: the clock, the random numbers to come, and for each
    wait to come whether the request's context ends during it, and with which error. *)
Record Chance := mkChance {
  ch_now : Time;
  ch_rand : nat → Z;
  ch_done : nat → option error;
}.

(** internal/demo/demo.go:94-104, World.  The locks of the routers only order the calls. *)
Record World := mkWorld {
  dw_nodes : list demoNode;
  dw_routers : gmap string routerRuntime;
  dw_chance : Chance;
}.

Definition set_nodes x w := mkWorld x (dw_routers w) (dw_chance w).
Definition set_routers x w := mkWorld (dw_nodes w) x (dw_chance w).
Definition set_chance x w := mkWorld (dw_nodes w) (dw_routers w) x.

(** [time.Now], [mrand.Uint32], [mrand.Int64N], and a wait that the context may end. *)
Definition Now : M World Time := gets (λ w, ch_now (dw_chance w)).
Definition draw : M World Z := λ w,
  let c := dw_chance w in
  (ch_rand c 0, set_chance (mkChance (ch_now c) (λ n, ch_rand c (S n)) (ch_done c)) w).
Definition Uint32 : M World Z := z ← draw; mret (z mod 2 ^ 32).
Definition Int64N (n : Z) : M World Z := z ← draw; mret (z mod n).
Definition wait (d : Duration) : M World (option error) := λ w,
  let c := dw_chance w in
  (ch_done c 0, set_chance (mkChance (Add (ch_now c) d) (ch_rand c) (λ n, ch_done c (S n))) w).
Definition UnixNano (t : Time) : Z := t - unixToInternal * Second.

(** internal/demo/demo.go:107-162, New. *)
Definition New (chance : Chance) : World :=
  let now := ch_now chance in
  let node id name hostname ip os online lastSeen exitOpt tags typ :=
    mkDemoNode id name hostname [ip] os online lastSeen exitOpt tags typ in
  let minute := 60 * Second in
  mkWorld
    [node "n-home-router" "home-router.tail-demo.ts.net" "home-router" r1IP "linux" true zeroTime false
       ["tag:router"] NodeRouter;
     node "n-office-router" "office-router.tail-demo.ts.net" "office-router" r2IP "linux" true zeroTime false
       ["tag:router"] NodeRouter;
     node "n-cabin-router" "cabin-router.tail-demo.ts.net" "cabin-router" r3IP "linux" false
       (Add now (- (37 * minute))) false ["tag:router"] NodeRouter;
     node "n-warehouse-router"
       "warehouse-router-with-an-intentionally-very-long-hostname-for-truncation.tail-demo.ts.net"
       "warehouse-router-with-an-intentionally-very-long-hostname-for-truncation" r4IP "linux" true zeroTime
       false ["tag:router"] NodeRouter;
     node "n-exit-tokyo" "exit-tokyo.tail-demo.ts.net" "exit-tokyo" tokyoIP "linux" true zeroTime true []
       NodeExitNode;
     node "n-exit-frankfurt" "exit-frankfurt.tail-demo.ts.net" "exit-frankfurt" frankfurtIP "linux" true
       zeroTime true [] NodeExitNode;
     node "n-exit-london" "exit-london.tail-demo.ts.net" "exit-london" londonIP "linux" false
       (Add now (- (12 * minute))) true [] NodeExitNode;
     node "n-exit-combo" "edge-combo.tail-demo.ts.net" "edge-combo" comboIP "linux" true zeroTime true
       ["tag:router"] NodeRouter;
     node "n-exit-flaky" "exit-flaky.tail-demo.ts.net" "exit-flaky" flakyIP "linux" true zeroTime true []
       NodeExitNode;
     node "n-exit-broken" "exit-broken.tail-demo.ts.net" "exit-broken" brokenIP "linux" true zeroTime true []
       NodeExitNode;
     node "n-alice-mbp" "alices-macbook-pro.tail-demo.ts.net" "alices-macbook-pro" aliceIP "macOS" true
       zeroTime false [] NodeGeneric;
     node flipID "bobs-iphone.tail-demo.ts.net" "bobs-iphone" bobIP "iOS" false (Add now (- (3 * minute)))
       false [] NodeGeneric;
     node "n-kiosk" "front-lobby-conference-room-A-information-kiosk-display.tail-demo.ts.net"
       "front-lobby-conference-room-A-information-kiosk-display" kioskIP "linux" true zeroTime false []
       NodeGeneric]
    (list_to_map
      [(r1IP, mkRouterRuntime_ "" 0 0 zeroTime);
       (r2IP, mkRouterRuntime_ tokyoIP 18400000 4200000 (Add now (- (9 * Second))));
       (r3IP, mkRouterRuntime_ "" 0 0 zeroTime);
       (r4IP, mkRouterRuntime_ londonIP 940000 210000 (Add now (- (11 * minute))))])
    chance.

(** internal/demo/demo.go:166-166, World.RouterIPs. *)
Definition RouterIPs : list string := [r1IP; r2IP; r3IP; r4IP].
(** internal/demo/demo.go:169-171, World.AllowedHosts. *)
Definition AllowedHosts : list string := ["127.0.0.1:8089"; "localhost:8089"; "127.0.0.1"; "localhost"].

(** ** The netmap *)

Definition node_view (n : demoNode) : NodeView :=
  mkNodeView (dn_stableID n) (dn_name n) (dn_hostname n) (dn_ips n) (dn_os n) (dn_online n)
    (dn_lastSeen n) (dn_exitOpt n) (dn_tags n) (dn_typ n) false.

(** internal/demo/demo.go:176-195, World.Inventory. *)
Definition Inventory : M World (list NodeView * option error) :=
  gets (λ w, (map node_view (dw_nodes w), None)).

(** internal/demo/demo.go:199-201, World.WhoIs. *)
Definition WhoIs (remoteAddr : string) : M World (string * bool * option error) :=
  mret (Owner, false, None).

(** ** Helpers *)

(** internal/demo/demo.go:451-460, World.findByIPLocked. *)
Definition findByIPLocked (w : World) (ip : string) : option demoNode :=
  List.find (λ n, existsb (λ a, String.eqb a ip) (dn_ips n)) (dw_nodes w).

(** internal/demo/demo.go:462-469, World.findByIDLocked.  The position of the node, which the
    caller changes in place. *)
Definition findByIDLocked (w : World) (id : string) : option nat :=
  fst <$> list_find (λ n, dn_stableID n = id) (dw_nodes w).

(** internal/demo/demo.go:493-503, primaryIPv4. *)
Definition primaryIPv4 (ips : list string) : string :=
  match List.find (λ ip, ContainsByte ip "."%char) ips with
  | Some ip => ip
  | None => match ips with ip :: _ => ip | [] => "" end
  end.

Definition node_ref (n : demoNode) : ExitNodeRef :=
  mkExitNodeRef (dn_stableID n) (dn_name n) (primaryIPv4 (dn_ips n)).

(** internal/demo/demo.go:428-437, World.refByIPLocked. *)
Definition refByIPLocked (w : World) (ip : string) : option ExitNodeRef :=
  if String.eqb ip "" then None
  else match findByIPLocked w ip with
       | None => Some (mkExitNodeRef "" "" ip)
       | Some n => Some (node_ref n)
       end.

(** internal/demo/demo.go:441-449, World.exitOptionsLocked. *)
Definition exitOptionsLocked (w : World) : list ExitNodeRef :=
  map node_ref (List.filter dn_exitOpt (dw_nodes w)).

(** internal/demo/demo.go:416-424, World.runtimeLocked.  [None]: the address is not one of the
    routers, and the read of its state panics. *)
Definition runtimeLocked (w : World) (addr : string) : option RouterRuntime :=
  (λ rs, mkRouterRuntime (refByIPLocked w (rr_currentExitIP rs)) (exitOptionsLocked w)
           (mkRouterStats (rr_rx rs) (rr_tx rs) (rr_lastHandshake rs)) true) <$> dw_routers w !! addr.

(** internal/demo/demo.go:485-490, currentArg. *)
Definition currentArg (rs : routerRuntime) : string :=
  if String.eqb (rr_currentExitIP rs) "" then "(none)" else rr_currentExitIP rs.

(** ** The router client *)

Definition no_router (addr : string) : error := ErrText ("demo: no router configured at " +:+ addr).
Definition host_down (addr : string) : error :=
  ErrText ("dial " +:+ addr +:+ ":22: connect: host is down (demo: router offline)").

(** The checks every command starts with. *)
Definition dial (w : World) (addr : string) : error + demoNode :=
  match findByIPLocked w addr with
  | None => inl (no_router addr)
  | Some n => if dn_online n then inr n else inl (host_down addr)
  end.

(** internal/demo/demo.go:208-222, World.Status.  [None]: a panic. *)
Definition Status (addr : string) : M World (option (RouterRuntime * option error)) :=
  gets (λ w, match dial w addr with
             | inl e => Some (zeroRuntime, Some e)
             | inr _ => (λ rt, (rt, None)) <$> runtimeLocked w addr
             end).

Definition lf : string := of_chars [chr 10].

(** internal/demo/demo.go:228-250, World.Probe. *)
Definition Probe (addr : string) : M World (string * option error) :=
  ended ← wait (120 * Millisecond);
  match ended with
  | Some e => mret ("", Some e)
  | None =>
      w ← gets id;
      mret (match dial w addr with
            | inl e => ("", Some e)
            | inr rn => ("Linux " +:+ dn_hostname rn +:+ " 5.15.0" +:+ lf +:+ "123456.78 98765.43" +:+ lf
                         +:+ "0.08 0.12 0.09" +:+ lf +:+ "MemTotal: 131072 kB" +:+ lf
                         +:+ "MemAvailable: 65536 kB", None)
            end)
  end.

(** internal/demo/demo.go:258-274, World.EgressProbe. *)
Definition EgressProbe (addr url : string) : M World (bool * string * option error) :=
  gets (λ w, match findByIPLocked w addr with
             | None => (false, "", Some (no_router addr))
             | Some _ =>
                 if String.eqb addr r4IP
                 then (false, "uclient-fetch: download timed out (no route to host)", None)
                 else (true, "HTTP/1.1 204 No Content", None)
             end).

Definition set_router (addr : string) (rs : routerRuntime) : M World unit :=
  modify (λ w, set_routers (<[addr := rs]> (dw_routers w)) w).
Definition read_runtime (addr : string) : M World RouterRuntime :=
  gets (λ w, default zeroRuntime (runtimeLocked w addr)).

(** The change, once the wait is over. *)
(** internal/demo/demo.go:297-345, World.ApplyExitNode. *)
Definition apply_now (addr : string) (target : option ExitNodeRef) (autoKeep : bool)
    : M World (RouterRuntime * string * option error) :=
  w ← gets id;
  match findByIPLocked w addr, dw_routers w !! addr with
  | Some rn, Some rs =>
      if negb (dn_online rn) then mret (zeroRuntime, "", Some (host_down addr))
      else
      let ip := match target with Some t => ref_IP t | None => "" end in
      if String.eqb ip "" then
        _ ← set_router addr (mkRouterRuntime_ "" 0 0 zeroTime);
        rt ← read_runtime addr;
        mret (rt, "", None)
      else if String.eqb ip flakyIP then
        rt ← read_runtime addr;
        mret (rt, "", Some (ErrText ("router " +:+ addr
                +:+ ": exit-node not confirmed (revert will fire): want " +:+ ip
                +:+ ", got " +:+ currentArg rs)))
      else if String.eqb ip brokenIP then
        rt ← read_runtime addr;
        mret (rt, "", Some (ErrCommand (mkCommandError addr "apply exit-node" "permission denied" 1)))
      else
        t ← Now;
        _ ← set_router addr (mkRouterRuntime_ ip 96000 24000 t);
        marker ← (if autoKeep then mret "" else
                    t ← Now;
                    r ← Uint32;
                    mret ("/tmp/tsctl-keep-demo-" +:+ itoa (UnixNano t) +:+ "-" +:+ hex_uint32 r));
        rt ← read_runtime addr;
        mret (rt, marker, None)
  | _, _ => mret (zeroRuntime, "", Some (no_router addr))
  end.

(** internal/demo/demo.go:286-345, World.ApplyExitNode. *)
Definition ApplyExitNode (addr : string) (target prev : option ExitNodeRef) (autoKeep : bool)
    : M World (RouterRuntime * string * option error) :=
  ended ← wait ApplyLatency;
  match ended with
  | Some e => mret (zeroRuntime, "", Some e)
  | None => apply_now addr target autoKeep
  end.

(** internal/demo/demo.go:350-364, World.KeepExitNode. *)
Definition KeepExitNode (addr marker : string) : M World (option error) :=
  gets (λ w, match dial w addr with inl e => Some e | inr _ => None end).

(** ** The passing of time *)

(** The traffic of one router in a tick. *)
Definition tick_router (now : Time) (addr : string) : M World unit :=
  w ← gets id;
  match dw_routers w !! addr with
  | None => mret tt
  | Some rs =>
      if String.eqb (rr_currentExitIP rs) "" then mret tt
      else match findByIPLocked w (rr_currentExitIP rs) with
           | None => mret tt
           | Some ex =>
               if negb (dn_online ex) then mret tt
               else
                 drx ← Int64N 180000;
                 dtx ← Int64N 40000;
                 set_router addr (mkRouterRuntime_ (rr_currentExitIP rs) (rr_rx rs + (40000 + drx))
                                    (rr_tx rs + (8000 + dtx)) now)
           end
  end.

Fixpoint tick_routers (now : Time) (order : list string) : M World unit :=
  match order with
  | [] => mret tt
  | addr :: rest => _ ← tick_router now addr; tick_routers now rest
  end.

Definition flip (now : Time) (n : demoNode) : demoNode :=
  let online := negb (dn_online n) in
  mkDemoNode (dn_stableID n) (dn_name n) (dn_hostname n) (dn_ips n) (dn_os n) online
    (if online then dn_lastSeen n else now) (dn_exitOpt n) (dn_tags n) (dn_typ n).

(** internal/demo/demo.go:384-411, World.tick.  [order] is the order in which the map of routers
    is iterated. *)
Definition tick (order : list string) : M World unit :=
  now ← Now;
  _ ← tick_routers now order;
  modify (λ w, match findByIDLocked w flipID with
               | Some i => set_nodes (alter (flip now) i (dw_nodes w)) w
               | None => w
               end).

(** The world behind the interfaces of the poller.  A panic of [Status], which does not
    happen for the routers of the world, is an error here. *)
Definition demo_env (groups : World → option (list Group)) : PollerEnv World := {|
  env_Now := Now;
  env_Inventory := Inventory;
  env_Status a := λ w, let '(r, w') := Status a w in
    (default (zeroRuntime, Some (ErrText "runtime error: invalid memory address or nil pointer dereference")) r, w');
  env_ApplyExitNode := ApplyExitNode;
  env_KeepExitNode := KeepExitNode;
  env_Probe := Probe;
  env_EgressProbe := EgressProbe;
  env_Groups := groups;
|}.

(** ** The zone store

    The state is the zones and the source of randomness of [groups.NewID]: the state of
    FileStore.v, whose file system is not used. *)

Abbreviation Zones := (FileStore.World Group).

(** internal/demo/demo.go:529-544, NewGroups. *)
Definition NewGroups : list Group :=
  [mkGroup "zone-work" "Work" ["n-office-router"; "n-warehouse-router"] ["n-exit-tokyo"; "n-exit-frankfurt"];
   mkGroup "zone-lab" "Lab" ["n-home-router"]
     ["n-exit-tokyo"; "n-exit-frankfurt"; "n-exit-flaky"; "n-exit-broken"]].

(** internal/demo/demo.go:624-628, demoGroupNotFound. *)
Definition demoGroupNotFound (id : string) : error :=
  ErrStatus 404 "group not found" ("no group with id " +:+ id).

Section zones.
Context `{UT : UnicodeTables}.

(** internal/demo/demo.go:547-551, Groups.List. *)
Definition List_ (g : Zones) : list Group := FileStore.w_items g.

(** internal/demo/demo.go:554-561, Groups.Get. *)
Definition Get (id : string) (g : Zones) : option Group :=
  i ← FileStore.indexOf (FileStore.w_items g) id; FileStore.w_items g !! i.

(** internal/demo/demo.go:564-583, Groups.Create.  [None]: no unused id was drawn. *)
Definition Create (g : Group) : M Zones (option (error + Group)) :=
  match Groups.Normalize g with
  | inl e => mret (Some (inl e))
  | inr norm =>
      id ← FileStore.fresh_id;
      match id with
      | None => mret None
      | Some (inl e) => mret (Some (inl e))
      | Some (inr id) =>
          let norm := Groups.set_g_ID id norm in
          items ← gets FileStore.w_items;
          _ ← FileStore.set_items (items ++ [norm]);
          mret (Some (inr norm))
      end
  end.

(** internal/demo/demo.go:586-600, Groups.Update. *)
Definition Update (id : string) (g : Group) : M Zones (error + Group) :=
  match Groups.Normalize g with
  | inl e => mret (inl e)
  | inr norm =>
      items ← gets FileStore.w_items;
      match FileStore.indexOf items id with
      | None => mret (inl (demoGroupNotFound id))
      | Some idx =>
          let norm := Groups.set_g_ID id norm in
          _ ← FileStore.set_items (<[idx := norm]> items);
          mret (inr norm)
      end
  end.

(** internal/demo/demo.go:603-612, Groups.Delete. *)
Definition Delete (id : string) : M Zones (error + unit) :=
  items ← gets FileStore.w_items;
  match FileStore.indexOf items id with
  | None => mret (inl (demoGroupNotFound id))
  | Some idx =>
      _ ← FileStore.set_items (take idx items ++ drop (S idx) items);
      mret (inr tt)
  end.
End zones.
