(* ===== verification/DemoFacts.v ===== *)
(** The demo world keeps the poller's contract and never claims a change it has not made,
    and its zone store agrees with the real one. *)

From S2P Require Import Prelude GoStd Errors Store AtomicFile Json FileStore Groups GroupsFacts Router Conc Poller Demo.

(** ** The router client *)

Definition target_ip (target : option ExitNodeRef) : string :=
  match target with Some t => ref_IP t | None => "" end.

Lemma refByIP_nodes w w' ip : dw_nodes w' = dw_nodes w → refByIPLocked w' ip = refByIPLocked w ip.
Proof. intros E. unfold refByIPLocked, findByIPLocked. by rewrite E. Qed.

(** The runtime of a router that has just been given the state [rs]. *)
Lemma read_runtime_set addr rs w :
  dw_routers w !! addr = Some rs →
  read_runtime addr w =
    (mkRouterRuntime (refByIPLocked w (rr_currentExitIP rs)) (exitOptionsLocked w)
       (mkRouterStats (rr_rx rs) (rr_tx rs) (rr_lastHandshake rs)) true, w).
Proof. intros E. unfold read_runtime, gets, runtimeLocked. by rewrite E. Qed.

(** What a change does to the world, and what it may claim. *)
Record honest (addr ip : string) (autoKeep : bool) (w : World)
    (res : RouterRuntime * string * option error) (w' : World) : Prop := {
  ho_nodes : dw_nodes w' = dw_nodes w;
  ho_others : ∀ a, a ≠ addr → dw_routers w' !! a = dw_routers w !! a;
  ho_made : snd res = None → rt_Online (fst (fst res)) = true ∧
    rt_Current (fst (fst res)) = refByIPLocked w ip ∧ rr_currentExitIP <$> dw_routers w' !! addr = Some ip;
  ho_refused : snd res ≠ None → dw_routers w' = dw_routers w;
  ho_marker : snd (fst res) ≠ "" ↔ snd res = None ∧ autoKeep = false ∧ ip ≠ "";
}.

Lemma honest_refused addr ip autoKeep w rt e w' :
  dw_nodes w' = dw_nodes w → dw_routers w' = dw_routers w →
  honest addr ip autoKeep w (rt, "", Some e) w'.
Proof. intros En Er. split; simpl; try done; [by rewrite Er | naive_solver]. Qed.

Lemma honest_made addr autoKeep w rs marker w' :
  dw_nodes w' = dw_nodes w → dw_routers w' = <[addr := rs]> (dw_routers w) →
  (marker ≠ "" ↔ autoKeep = false ∧ rr_currentExitIP rs ≠ "") →
  honest addr (rr_currentExitIP rs) autoKeep w (fst (read_runtime addr w'), marker, None) w'.
Proof.
  intros En Er Hm. assert (dw_routers w' !! addr = Some rs) as Ha by (by rewrite Er, lookup_insert, decide_True).
  split; cbn [fst snd]; try done.
  - intros a Hne. by rewrite Er, lookup_insert_ne.
  - intros _. cbn [fst]. rewrite (read_runtime_set addr rs w' Ha). simpl. split; [done |].
    split; [by apply refByIP_nodes | by rewrite Ha].
  - naive_solver.
Qed.

Lemma apply_now_honest addr target autoKeep w :
  let ip := target_ip target in
  let '(res, w') := apply_now addr target autoKeep w in
  honest addr ip autoKeep w res w' ∧
  (ip = flakyIP ∨ ip = brokenIP → snd res ≠ None) ∧
  (ip = brokenIP → (∃ n, dial w addr = inr n) → is_Some (dw_routers w !! addr) →
   is_Some (e ← snd res; as_CommandError e)).
Proof.
  intros ip. unfold apply_now, mbind, M_bind, mret, M_ret, gets, id, dial.
  destruct (findByIPLocked w addr) as [rn |]; [| by split; [apply honest_refused | naive_solver]].
  destruct (dw_routers w !! addr) as [rs |] eqn:Hrs.
  2: { split; [by apply honest_refused | split; [done | intros _ _ [? [=]]]]. }
  destruct (dn_online rn); cbv beta iota delta [negb];
    [| by split; [apply honest_refused | naive_solver]].
  change (match target with Some t => ref_IP t | None => "" end) with ip.
  destruct (String.eqb_spec ip "") as [Hip | Hip]; [| destruct (String.eqb_spec ip flakyIP) as [Hf | Hf];
    [| destruct (String.eqb_spec ip brokenIP) as [Hb | Hb]]].
  - rewrite Hip. unfold set_router, modify. split; [| by split; [intros [|] | intros [=]]].
    apply (honest_made addr autoKeep w (mkRouterRuntime_ "" 0 0 zeroTime)); [done | done | naive_solver].
  - rewrite (read_runtime_set addr rs w Hrs).
    split; [by apply honest_refused | split; [done | intros E; by rewrite Hf in E]].
  - rewrite (read_runtime_set addr rs w Hrs). split; [by apply honest_refused | split; [done | by eexists]].
  - unfold Now, gets, set_router, modify. cbn [fst snd].
    destruct autoKeep.
    + split; [| naive_solver].
      apply (honest_made addr true w (mkRouterRuntime_ ip 96000 24000 (ch_now (dw_chance w)))); naive_solver.
    + unfold Uint32, draw, mbind, M_bind, mret, M_ret. split; [| naive_solver].
      apply (honest_made addr false w (mkRouterRuntime_ ip 96000 24000 (ch_now (dw_chance w)))); [done | done |].
      naive_solver.
Qed.

(** The demo is never optimistic.  A change that is reported without an error has
    been made: the router runs the target, and the answer shows it; one reported with an
    error has not: no router's state changed, and no marker is handed back; a marker is
    handed back exactly for a confirmed selection that was not kept; the two scripted
    targets fail, the broken one as a command error when the router is reached; and no
    call touches the nodes or another router. *)
Theorem demo_never_optimistic addr target prev autoKeep w :
  let ip := target_ip target in
  let '(res, w') := ApplyExitNode addr target prev autoKeep w in
  honest addr ip autoKeep w res w' ∧
  (ip = flakyIP ∨ ip = brokenIP → snd res ≠ None) ∧
  (ip = brokenIP → ch_done (dw_chance w) 0 = None → (∃ n, dial w addr = inr n) →
   is_Some (dw_routers w !! addr) → is_Some (e ← snd res; as_CommandError e)).
Proof.
  intros ip. unfold ApplyExitNode, wait, mbind, M_bind, mret, M_ret.
  destruct (ch_done (dw_chance w) 0) as [e |] eqn:Hdone.
  { split; [by apply honest_refused | naive_solver]. }
  set (w1 := set_chance _ w). pose proof (apply_now_honest addr target autoKeep w1) as H.
  destruct (apply_now addr target autoKeep w1) as [res w']. destruct H as (Hh & Hs & Hc).
  split; [by destruct Hh; split | by split; [| intros Hb _; apply Hc]].
Qed.

(** The demo keeps what the poller relies on, so the poller's theorems hold of it. *)
#[export] Instance demo_contract groups : @RouterContract World (demo_env groups).
Proof.
  intros addr target prev autoKeep w. simpl. unfold ApplyExitNode, wait, mbind, M_bind, mret, M_ret.
  destruct (ch_done (dw_chance w) 0); [done |]. set (w1 := set_chance _ w).
  pose proof (apply_now_honest addr target autoKeep w1) as H.
  destruct (apply_now addr target autoKeep w1) as [[[rt marker] err] w']. simpl.
  destruct H as ([_ _ _ _ Hm] & _ & _). simpl in Hm. intros Hc. destruct (decide (marker = "")); [done |].
  apply Hm in n as (-> & -> & _). by destruct Hc.
Qed.

(** ** The world over time *)

(** What no call and no tick changes: which routers there are, and which node has which
    address. *)
Definition stable (w w' : World) : Prop :=
  dom (dw_routers w') = dom (dw_routers w) ∧
  (λ n, (dn_stableID n, dn_name n, dn_ips n, dn_exitOpt n)) <$> dw_nodes w' =
    (λ n, (dn_stableID n, dn_name n, dn_ips n, dn_exitOpt n)) <$> dw_nodes w.

#[export] Instance stable_preorder : PreOrder stable.
Proof. split; [by intros w | intros w1 w2 w3 [H1 H2] [H3 H4]; split; congruence]. Qed.

Lemma stable_chance c w : stable w (set_chance c w).
Proof. done. Qed.

Lemma stable_set_router addr rs w :
  is_Some (dw_routers w !! addr) → stable w (snd (set_router addr rs w)).
Proof.
  intros [rs0 H]. split; [| done]. simpl. rewrite dom_insert_L.
  apply elem_of_dom_2 in H. set_solver.
Qed.

Lemma stable_apply_now addr target autoKeep w : stable w (snd (apply_now addr target autoKeep w)).
Proof.
  unfold apply_now, mbind, M_bind, mret, M_ret, gets, id.
  destruct (findByIPLocked w addr), (dw_routers w !! addr) as [rs |] eqn:Hrs; try done.
  destruct (negb _); [done |].
  repeat (destruct (String.eqb _ _); [first [done | by apply stable_set_router] |]).
  unfold Now, gets, Uint32, draw, mbind, M_bind, mret, M_ret.
  pose proof (λ rs', stable_set_router addr rs' w (mk_is_Some _ _ Hrs)) as Hset. by destruct autoKeep; apply Hset.
Qed.

Lemma stable_tick_router now addr w : stable w (snd (tick_router now addr w)).
Proof.
  unfold tick_router, mbind, M_bind, mret, M_ret, gets, id.
  destruct (dw_routers w !! addr) as [rs |] eqn:Hrs; [| done].
  destruct (String.eqb _ _); [done |]. destruct (findByIPLocked _ _) as [ex |]; [| done].
  destruct (negb _); [done |]. unfold Int64N, draw, mbind, M_bind, mret, M_ret.
  etrans; [apply stable_chance |]. etrans; [apply stable_chance |].
  apply stable_set_router. by exists rs.
Qed.

Lemma stable_tick order w : stable w (snd (tick order w)).
Proof.
  unfold tick, Now, gets, mbind, M_bind. generalize (ch_now (dw_chance w)) as now. intros now.
  assert (∀ w, stable w (snd (tick_routers now order w))) as Hr.
  { induction order as [| addr order IH]; intros w0; [done |]. simpl. unfold mbind, M_bind.
    pose proof (stable_tick_router now addr w0) as H. destruct (tick_router now addr w0) as [[] w1].
    etrans; [exact H | apply IH]. }
  specialize (Hr w). destruct (tick_routers now order w) as [[] w1]. etrans; [exact Hr |]. simpl.
  destruct (findByIDLocked w1 flipID) as [i |]; [| done]. split; [done |]. simpl.
  rewrite (list_fmap_alter _ _ id); [by apply list_alter_id | by apply Forall_true].
Qed.

Inductive demo_call :=
| DApply (addr : string) (target prev : option ExitNodeRef) (autoKeep : bool)
| DProbe (addr : string)
| DTick (order : list string).

Definition demo_step (c : demo_call) (w : World) : World :=
  match c with
  | DApply addr target prev autoKeep => snd (ApplyExitNode addr target prev autoKeep w)
  | DProbe addr => snd (Probe addr w)
  | DTick order => snd (tick order w)
  end.

Lemma stable_step c w : stable w (demo_step c w).
Proof.
  destruct c as [addr target prev autoKeep | addr | order]; simpl; [| | apply stable_tick].
  - unfold ApplyExitNode, wait, mbind, M_bind, mret, M_ret.
    destruct (ch_done _ _); [done |]. etrans; [| apply stable_apply_now]. apply stable_chance.
  - unfold Probe, wait, mbind, M_bind, mret, M_ret. by destruct (ch_done _ _).
Qed.

(** Whatever is called and however time passes, the read of a router of the demo never
    panics. *)
Lemma demo_Status_total chance cs addr :
  addr ∈ RouterIPs → is_Some (fst (Status addr (foldl (λ w c, demo_step c w) (New chance) cs))).
Proof.
  intros Ha. assert (stable (New chance) (foldl (λ w c, demo_step c w) (New chance) cs)) as [Hd _].
  { generalize (New chance) as w. induction cs as [| c cs IH]; intros w; [done |].
    etrans; [apply (stable_step c) | apply IH]. }
  unfold Status, gets. simpl. destruct (dial _ _); [by eexists |]. unfold runtimeLocked.
  rewrite !fmap_is_Some. apply elem_of_dom. rewrite Hd. apply elem_of_dom.
  unfold RouterIPs in Ha. set_unfold in Ha. destruct Ha as [-> | [-> | [-> | [-> | []]]]]; by eexists.
Qed.

(** ** The zone store *)

Section zones.
Context `{UT : UnicodeTables} `{JT : JSONText}.
Variables path dir : string.

Definition demo_op (o : store_op) : M Zones (option (error + unit)) :=
  match o with
  | OpCreate g => r ← Demo.Create g; mret (forget <$> r)
  | OpUpdate id g => r ← Demo.Update id g; mret (Some (forget r))
  | OpDelete id => r ← Demo.Delete id; mret (Some (forget r))
  end.

(** The name an operation would give a zone is another zone's. *)
Definition name_clash (o : store_op) (items : list Group) : Prop :=
  match o with
  | OpCreate g => ∃ norm, Normalize g = inr norm ∧ label_taken items (g_Name norm) "" = true
  | OpUpdate id g => ∃ norm, Normalize g = inr norm ∧ label_taken items (g_Name norm) id = true
  | OpDelete _ => False
  end.

(** Installing the items, with and without the file. *)
Lemma save_or_restore_agrees {A} (new : list Group) (a : A) w :
  let '(r, w0) := save_or_restore path dir (w_items w) new a w in
  w_rand w0 = w_rand w ∧
  ((r = inr a ∧ w_items w0 = new) ∨ (∃ e, r = inl e ∧ w_items w0 = w_items w)).
Proof.
  unfold save_or_restore, save, on_fs, set_items, gets, mbind, M_bind, mret, M_ret. simpl.
  destruct (persist _ _ _ _ _) as [[e |] fs]; simpl; eauto.
Qed.

(** How the outcome of the demo's store relates to that of the real one. *)
Definition agrees (o : store_op) (w : FileStore.World Group)
    (real demo : option (error + unit) * FileStore.World Group) : Prop :=
  (¬ name_clash o (w_items w) →
     (fst real = fst demo ∧ w_items (snd real) = w_items (snd demo) ∧ w_rand (snd real) = w_rand (snd demo)) ∨
     (fst demo = Some (inr tt) ∧ (∃ e, fst real = Some (inl e)) ∧ w_items (snd real) = w_items w)) ∧
  (name_clash o (w_items w) → (∃ e, fst real = Some (inl e)) ∧ w_items (snd real) = w_items w).

Lemma agrees_saved {A} o (new : list Group) (a : A) w w1 w2 :
  w_items w1 = w_items w → ¬ name_clash o (w_items w) → w_rand w2 = w_rand w1 → w_items w2 = new →
  agrees o w
    (let '(r, w') := save_or_restore path dir (w_items w1) new a w1 in (Some (forget r), w'))
    (Some (inr tt), w2).
Proof.
  intros Hi Hn Hr Hw. pose proof (save_or_restore_agrees new a w1) as H.
  destruct (save_or_restore _ _ _ _ _ w1) as [r w0]. destruct H as [Hr0 [[-> Hi0] | (e & -> & Hi0)]].
  - split; [intros _; left; simpl; repeat split; congruence | done].
  - split; [| done]. intros _. right. simpl. split; [done |]. split; [by exists e | congruence].
Qed.

Lemma agrees_same o w r w1 :
  w_items w1 = w_items w → ¬ name_clash o (w_items w) → agrees o w (r, w1) (r, w1).
Proof. intros _ Hn. split; [by left | done]. Qed.

(** The demo's zone store is the real one without the file.  From the same zones and
    random source, and unless the name is another zone's, both give the same answer (the
    same error included) and leave the same zones, the real one alone failing, without an
    effect, when its file cannot be written; with the name of another zone the real store
    refuses. *)
Theorem demo_zones_agree o w : agrees o w (run_op path dir o w) (demo_op o w).
Proof.
  destruct o as [g | id g | id]; unfold run_op, demo_op, mbind, M_bind, mret, M_ret.
  - unfold Groups.Create, Demo.Create. destruct (Normalize g) as [e | norm] eqn:Hn.
    { apply agrees_same; [done |]. intros (x & Hx & _). congruence. }
    unfold mbind, M_bind, gets. destruct (label_taken (w_items w) (g_Name norm) "") eqn:Ht.
    { split; [intros Hc; destruct Hc; by exists norm | intros _; simpl; eauto]. }
    assert (¬ name_clash (OpCreate g) (w_items w)) as Hc by (intros (x & Hx & Hx'); simplify_eq; congruence).
    destruct (fresh_id w) as [[[e | id] |] w1] eqn:Hf; apply fresh_id_frame in Hf as (Hi & _).
    1, 3: by apply agrees_same.
    rewrite <- Hi. pose proof (agrees_saved (OpCreate g) (w_items w1 ++ [set_g_ID id norm])
      (set_g_ID id norm) w w1 (snd (set_items (w_items w1 ++ [set_g_ID id norm]) w1)) Hi Hc eq_refl eq_refl) as H.
    by destruct (save_or_restore _ _ _ _ _ w1).
  - unfold Groups.Update, Demo.Update. destruct (Normalize g) as [e | norm] eqn:Hn.
    { apply agrees_same; [done |]. intros (x & Hx & _). congruence. }
    unfold mbind, M_bind, gets. destruct (indexOf (w_items w) id) as [i |] eqn:Hi.
    2: { split; [by left | simpl; eauto]. }
    destruct (label_taken (w_items w) (g_Name norm) id) eqn:Ht.
    { split; [intros Hc; destruct Hc; by exists norm | intros _; simpl; eauto]. }
    assert (¬ name_clash (OpUpdate id g) (w_items w)) as Hc by (intros (x & Hx & Hx'); simplify_eq; congruence).
    pose proof (agrees_saved (OpUpdate id g) (<[i := set_g_ID id norm]> (w_items w)) (set_g_ID id norm) w w
      (snd (set_items (<[i := set_g_ID id norm]> (w_items w)) w)) eq_refl Hc eq_refl eq_refl) as H.
    by destruct (save_or_restore _ _ _ _ _ w).
  - unfold Groups.Delete, Demo.Delete, mbind, M_bind, gets. destruct (indexOf (w_items w) id) as [i |].
    2: by apply agrees_same; [| intros []].
    pose proof (agrees_saved (OpDelete id) (take i (w_items w) ++ drop (S i) (w_items w)) tt w w
      (snd (set_items (take i (w_items w) ++ drop (S i) (w_items w)) w)) eq_refl (λ H, H) eq_refl eq_refl) as H.
    by destruct (save_or_restore _ _ _ _ _ w).
Qed.
End zones.
