(* ===== verification/Tickers.v ===== *)
(** The goroutines that do nothing but follow a ticker: the pings of the watchdog and the
    ticks of the demo world. *)

From S2P Require Import Prelude GoStd Errors CommandLine Config Main MainFacts Demo.

(** A [time.Ticker] and the goroutine that reads it: the channel holds at most one tick, with
    the time it was due; a tick that finds it full is dropped. *)
Record ticking := mkTicking {
  tg_now : Time;
  tg_next : Time;
  tg_chan : option Time;
  tg_done : bool;
  tg_ran : list Time;       (* when the body ran *)
}.
Definition NewTicker (now : Time) (interval : Duration) : ticking :=
  mkTicking now (Add now interval) None false [].

Inductive ticking_event (B : Type) :=
| TPass (d : Duration)      (* time passes *)
| TDone                     (* the context is done *)
| TTick (b : B).            (* the tick is received, and the body runs *)
Arguments TPass {B} d.
Arguments TDone {B}.
Arguments TTick {B} b.

Definition let_pass (interval d : Duration) (t : ticking) : ticking :=
  let now := tg_now t + d in
  if tg_next t <=? now then
    mkTicking now (tg_next t + interval * ((now - tg_next t) / interval + 1))
      (Some (default (tg_next t) (tg_chan t))) (tg_done t) (tg_ran t)
  else mkTicking now (tg_next t) (tg_chan t) (tg_done t) (tg_ran t).

Section ticking.
Context {W B : Type}.
Variable interval : Duration.
Variable body : B → M W unit.

(** [for { select { case <-ctx.Done(): return; case <-t.C: body } }] *)
Definition ticking_step (e : ticking_event B) (st : ticking * W) : option (ticking * W) :=
  let '(t, w) := st in
  match e with
  | TPass d => if 0 <=? d then Some (let_pass interval d t, w) else None
  | TDone => if tg_done t then None
             else Some (mkTicking (tg_now t) (tg_next t) (tg_chan t) true (tg_ran t), w)
  | TTick b =>
      match tg_chan t with
      | Some _ =>
          if tg_done t then None
          else Some (mkTicking (tg_now t) (tg_next t) None false (tg_ran t ++ [tg_now t]), snd (body b w))
      | None => None
      end
  end.
Fixpoint ticking_run (es : list (ticking_event B)) (st : ticking * W) : option (ticking * W) :=
  match es with
  | [] => Some st
  | e :: es' => st' ← ticking_step e st; ticking_run es' st'
  end.

(** The goroutine is prompt: it takes a tick within [δ] of its time, all along the run. *)
Definition on_time (δ : Duration) (t : ticking) : Prop :=
  ∀ due, tg_chan t = Some due → tg_now t <= due + δ.
Fixpoint prompt (δ : Duration) (es : list (ticking_event B)) (st : ticking * W) : Prop :=
  on_time δ (fst st) ∧
  match es with
  | [] => True
  | e :: es' => match ticking_step e st with Some st' => prompt δ es' st' | None => True end
  end.
End ticking.

(** cmd/tsctl/sdnotify.go:53-67, startWatchdog.  What the goroutine does for each tick; an error is
    logged. *)
Definition watchdog_ping {W} `{NT : Notifier W} (socket : string) (_ : unit) : M W unit :=
  _ ← sdNotify socket "WATCHDOG=1"; mret tt.

(** internal/demo/demo.go:371-382, World.Run.  A tick carries the order in which it goes through the
    map of routers. *)
Definition World_Run (es : list (ticking_event (list string))) (now : Time) (w : Demo.World)
    : option (ticking * Demo.World) :=
  ticking_run TickInterval tick es (NewTicker now TickInterval, w).

(** ** Facts *)

Section facts.
Context {W B : Type}.
Variable interval : Duration.
Variable body : B → M W unit.
Hypothesis Hi : 0 < interval.

(** The last time the body ran, or the start. *)
Definition last_ran (t0 : Time) (t : ticking) : Time := List.last (tg_ran t) t0.

(** What holds along a run: the next tick is due within an interval of the last time the body
    ran, and so was the one that waits. *)
Record steady (t0 : Time) (t : ticking) : Prop := {
  sd_next : tg_now t < tg_next t <= tg_now t + interval;
  sd_idle : tg_chan t = None → tg_next t <= last_ran t0 t + interval;
  sd_due : ∀ due, tg_chan t = Some due → due <= last_ran t0 t + interval;
  sd_count : t0 + interval * (Z.of_nat (List.length (tg_ran t)) + (if tg_chan t then 1 else 0) + 1) <= tg_next t;
}.

Lemma steady_pass t0 d t : 0 <= d → steady t0 t → steady t0 (let_pass interval d t).
Proof.
  intros Hd [H0 H1 H2 H3]. unfold let_pass. destruct (Z.leb_spec (tg_next t) (tg_now t + d)) as [Hle | Hlt];
    [| by split; simpl; [lia | ..]].
  set (k := (tg_now t + d - tg_next t) / interval).
  assert (interval * k <= tg_now t + d - tg_next t < interval * k + interval ∧ 0 <= k) as [Hk Hk0].
  { pose proof (Z.div_mod (tg_now t + d - tg_next t) interval ltac:(lia)).
    pose proof (Z.mod_pos_bound (tg_now t + d - tg_next t) interval Hi).
    split; [unfold k; lia | apply Z.div_pos; lia]. }
  split; simpl; [lia | done | |].
  - intros due [= <-]. change (last_ran t0 (mkTicking _ _ _ _ (tg_ran t))) with (last_ran t0 t).
    destruct (tg_chan t) as [due |]; simpl; auto.
  - destruct (tg_chan t); nia.
Qed.

Lemma steady_step t0 e t w t' w' :
  steady t0 t → ticking_step interval body e (t, w) = Some (t', w') → steady t0 t'.
Proof.
  intros Hs. destruct e as [d | | b]; simpl.
  - destruct (Z.leb_spec 0 d); [| done]. intros [= <- <-]. by apply steady_pass.
  - destruct (tg_done t); [done |]. intros [= <- <-]. destruct Hs as [H0 H1 H2 H3]. by split.
  - destruct (tg_chan t) as [due |] eqn:Hc; [| done]. destruct (tg_done t); [done |]. intros [= <- _].
    destruct Hs as [H0 H1 H2 H3]. rewrite Hc in H3. split; simpl; [done | | done |].
    + intros _. unfold last_ran. simpl. rewrite List.last_last. lia.
    + rewrite length_app. simpl. lia.
Qed.

Lemma steady_run t0 es t w t' w' :
  steady t0 t → ticking_run interval body es (t, w) = Some (t', w') → steady t0 t'.
Proof.
  revert t w. induction es as [| e es IH]; intros t w Hs; [by intros [= <- <-] |].
  cbn [ticking_run]. destruct (ticking_step interval body e (t, w)) as [[t1 w1] |] eqn:E; [| done].
  apply IH. by eapply steady_step.
Qed.

Lemma steady_new t0 : steady t0 (NewTicker t0 interval).
Proof. split; unfold NewTicker, last_ran, Add; simpl; try done; intros; lia. Qed.

Lemma prompt_end δ es st st' :
  prompt interval body δ es st → ticking_run interval body es st = Some st' → on_time δ (fst st').
Proof.
  revert st. induction es as [| e es IH]; intros st [Ho Hp]; [by intros [= <-] |]. cbn [ticking_run].
  destruct (ticking_step interval body e st) as [st1 |]; [by apply IH | done].
Qed.

(** The body runs at most once for each whole interval, and, when the goroutine is prompt, never
    leaves a gap of more than an interval and its delay. *)
Lemma ticking_rate t0 es w t' w' :
  ticking_run interval body es (NewTicker t0 interval, w) = Some (t', w') →
  Z.of_nat (List.length (tg_ran t')) <= (tg_now t' - t0) / interval.
Proof.
  intros Hr. destruct (steady_run t0 es _ w t' w' (steady_new t0) Hr) as [H0 H1 H2 H3].
  apply Z.div_le_lower_bound; [done |]. destruct (tg_chan t'); lia.
Qed.

Lemma ticking_gap δ t0 es w t' w' :
  0 <= δ → prompt interval body δ es (NewTicker t0 interval, w) →
  ticking_run interval body es (NewTicker t0 interval, w) = Some (t', w') →
  tg_now t' <= last_ran t0 t' + interval + δ.
Proof.
  intros Hδ Hp Hr. destruct (steady_run t0 es _ w t' w' (steady_new t0) Hr) as [H0 H1 H2 H3].
  pose proof (prompt_end _ _ _ _ Hp Hr) as Ho. destruct (tg_chan t') as [due |] eqn:Hc.
  - specialize (H2 due eq_refl). specialize (Ho due Hc). simpl in Ho. lia.
  - specialize (H1 eq_refl). lia.
Qed.
End facts.

(** The watchdog is fed: as long as the goroutine takes a tick less than half a period after its
    time, the service manager never waits a whole period for a ping (for a period that fits
    into an int64 of nanoseconds). *)
Theorem watchdog_fed {W} `{NT : Notifier W} socket s interval usec δ t0 es (w : W) t' w' :
  startWatchdog s = WatchdogEvery interval → Atoi s = Some usec → usec * 1000 < 2 ^ 63 →
  0 <= δ < interval →
  prompt interval (watchdog_ping socket) δ es (NewTicker t0 interval, w) →
  ticking_run interval (watchdog_ping socket) es (NewTicker t0 interval, w) = Some (t', w') →
  tg_now t' - last_ran t0 t' < usec * 1000.
Proof.
  intros Hs Hu Hmax Hδ Hp Hr. destruct (startWatchdog_twice s interval Hs) as (usec' & Hu' & Hpos & Hb).
  assert (usec' = usec) as -> by congruence. specialize (Hb Hmax).
  pose proof (ticking_gap interval _ ltac:(lia) δ t0 es w t' w' ltac:(lia) Hp Hr). lia.
Qed.

(** The demo world moves at most once for each whole [TickInterval]. *)
Theorem World_Run_rate es t0 (w : Demo.World) t' w' :
  World_Run es t0 w = Some (t', w') →
  Z.of_nat (List.length (tg_ran t')) <= (tg_now t' - t0) / TickInterval.
Proof. by apply ticking_rate. Qed.
