(* ===== verification/DemoServer.v ===== *)
(** [tsctl demo]: the real poller and the real API over the scripted world and its zones, and
    who is admitted to it. *)

From S2P Require Import Prelude GoStd Errors Store Netip Netmap Authz Json Session Wire Api ApiFacts.
From S2P Require Import Conc Poller PollerConc AtomicFile FileStore Config CommandLine Main Demo DemoFacts.
From S2P Require Groups Guests.

(** The randomness and the waits of the process. *)
Class DemoHost (H : Type) := {
  dh_Rand : nat → M H (error + list Z);
  dh_Sleep : Duration → M H unit;
}.

(** The world of the poller: the scripted nodes and the zones it reads. *)
Record DemoNet := mkDemoNet { dn_world : Demo.World; dn_zones : Zones }.

(** The demo: the poller over that world, and the process. *)
Record DemoSite (H : Type) := mkDemoSite { ds_poller : Poller; ds_net : DemoNet; ds_host : H }.
Arguments mkDemoSite {H}.
Arguments ds_poller {H}.
Arguments ds_net {H}.
Arguments ds_host {H}.

Definition on_world {A} (m : M Demo.World A) : M DemoNet A :=
  λ n, let '(x, w) := m (dn_world n) in (x, mkDemoNet w (dn_zones n)).

Section demo.
Context `{UT : UnicodeTables} `{JT : JSONText} `{UP : URLParser} {H : Type} `{DH : DemoHost H}.

(** cmd/tsctl/main.go:553-553, runDemo.  The poller over the world, as netmap and as router client,
    and over the zones. *)
#[export] Instance demo_net_env : PollerEnv DemoNet :=
  let E := demo_env (λ _, None) in {|
  env_Now := on_world (env_Now (PollerEnv := E));
  env_Inventory := on_world (env_Inventory (PollerEnv := E));
  env_Status addr := on_world (env_Status (PollerEnv := E) addr);
  env_ApplyExitNode addr target prev autoKeep :=
    on_world (env_ApplyExitNode (PollerEnv := E) addr target prev autoKeep);
  env_KeepExitNode addr marker := on_world (env_KeepExitNode (PollerEnv := E) addr marker);
  env_Probe addr := on_world (env_Probe (PollerEnv := E) addr);
  env_EgressProbe addr url := on_world (env_EgressProbe (PollerEnv := E) addr url);
  env_Groups n := Some (Demo.List_ (dn_zones n));
|}.

(** The theorems of the poller hold of the demo. *)
#[export] Instance demo_net_contract : @RouterContract DemoNet demo_net_env.
Proof.
  intros addr target prev autoKeep [w z]. simpl. unfold on_world. simpl.
  pose proof (demo_contract (λ _, None) addr target prev autoKeep w) as Hc. simpl in Hc.
  destruct (Demo.ApplyExitNode _ _ _ _ w) as [[[rt m] e] w']. exact Hc.
Qed.

Definition on_demo_net {A} (m : M DemoNet A) : M (DemoSite H) A :=
  λ s, let '(x, n) := m (ds_net s) in (x, mkDemoSite (ds_poller s) n (ds_host s)).
Definition on_demo_zones {A} (m : M Zones A) : M (DemoSite H) A :=
  on_demo_net (λ n, let '(x, z) := m (dn_zones n) in (x, mkDemoNet (dn_world n) z)).
Definition on_demo_host {A} (m : M H A) : M (DemoSite H) A :=
  λ s, let '(x, h) := m (ds_host s) in (x, mkDemoSite (ds_poller s) (ds_net s) h).
Definition on_demo_poller {A} (p : prog (Poller * DemoNet) A) : M (DemoSite H) A := λ s,
  let '(x, (p', n')) := run p (ds_poller s, ds_net s) in (x, mkDemoSite p' n' (ds_host s)).

(** cmd/tsctl/main.go:565-565, runDemo.  The API over the world, the poller and the zones. *)
#[export] Instance demo_who : WhoIser (M (DemoSite H)) :=
  {| who_WhoIs addr := on_demo_net (on_world (Demo.WhoIs addr)) |}.
#[export] Instance demo_controller : Controller (M (DemoSite H)) := {|
  ctl_SetExitNode routerID target := on_demo_poller (SetExitNode (Env := demo_net_env) routerID target);
  ctl_Keep routerID := on_demo_poller (Keep (Env := demo_net_env) routerID);
  ctl_Probe routerID := on_demo_poller (Poller.Probe (Env := demo_net_env) routerID);
  ctl_RefreshGroups := on_demo_poller (RefreshGroups (Env := demo_net_env));
|}.
#[export] Instance demo_groups : GroupStore (M (DemoSite H)) := {|
  gs_List := on_demo_zones (gets Demo.List_);
  gs_Get id := on_demo_zones (gets (Demo.Get id));
  gs_Create g := on_demo_zones (r ← Demo.Create g;
    mret (default (inl (ErrText "generating id: no more random bytes")) r));
  gs_Update id g := on_demo_zones (Demo.Update id g);
  gs_Delete id := on_demo_zones (Demo.Delete id);
|}.
#[export] Instance demo_api_world : ApiWorld (M (DemoSite H)) := {|
  aw_Load := gets (λ s, p_snap (ds_poller s));
  aw_Now := on_demo_net (on_world Demo.Now);
  aw_Rand n := on_demo_host (dh_Rand n);
  aw_Sleep d := on_demo_host (dh_Sleep d);
|}.

(** cmd/tsctl/main.go:539-596, runDemo.  What is wired, or the error of the listener: [ui] is
    TSCTL_UI_PASSWORD, [secret] the random session secret ([None]: a panic), [ids] the random numbers
    of the zones' ids. *)
Definition runDemo (ui : string) (now : Time) (chance : Chance) (secret : error + list Z)
    (ids : list (error + Z)) (h : H) (listen : option error) : option (error + API * DemoSite H) :=
  let world := Demo.New chance in
  let pol := NewPoller (NewStore now) RouterIPs TickInterval
               |> ConfigureEgress true defaultEgressURL
               |> ConfigureKeep true in
  let '(owner, password) := if String.eqb ui "" then (Owner, "") else ("", ui) in
  api ← Api.New owner password AllowedHosts true false secret;
  Some (match listen with
        | Some e => inl (wrapf "demo listen: " e)
        | None => inr (api, mkDemoSite pol
                    (mkDemoNet world (FileStore.mkWorld (mkFSState ∅ [] [] []) ids NewGroups)) h)
        end).
End demo.

Section admitted.
Import Api.OnState.
Context `{UT : UnicodeTables} `{JT : JSONText} `{UP : URLParser} {H : Type} `{DH : DemoHost H}.
Context `{GuestStore (M (DemoSite H))}.

(** Who is admitted to the demo: without TSCTL_UI_PASSWORD everybody is its admin; with it nobody
    is, but the holder of an unexpired admin session of this process; and there are no guests. *)
Theorem demo_admits ui now chance secret ids (h : H) listen api s0 :
  runDemo ui now chance secret ids h listen = Some (inr (api, s0)) →
  (∀ r s, fst (resolveSubject api r s) =
     if String.eqb ui "" then Some (mkSubject true "" "")
     else match parseSession (api_sessionSecret api) (Cookie r "tsctl_session")
                  (ch_now (dw_chance (dn_world (ds_net s)))) with
          | Some sub => if sub_Admin sub then Some sub else None
          | None => None
          end) ∧
  (∀ n, hostAllowed api n = true ↔
     normalizeHost n ≠ "" ∧ ∃ n', n' ∈ AllowedHosts ∧ normalizeHost n' = normalizeHost n).
Proof.
  unfold runDemo. destruct (String.eqb_spec ui "") as [-> | Hui];
    destruct (Api.New _ _ _ _ _ secret) as [a |] eqn:Ha; simpl; destruct listen; try done; intros [= -> <-];
    (split; [| intros n; exact (hostAllowed_exact _ _ _ _ _ _ _ n Ha)]);
    unfold Api.New in Ha; destruct secret as [| secret]; try done; injection Ha as <-; intros r s; [reflexivity |].
  unfold Api.resolveSubject, Api.is_owner, Api.guests_Get, mbind, M_bind, mret, M_ret. simpl.
  destruct (parseSession _ _ _) as [sub |]; [| done]. by destruct (sub_Admin sub).
Qed.
End admitted.
