(* ===== verification/DemoStop.v ===== *)
(** How [tsctl demo] stops: the hub, the poller and the goroutine of the world, then its one
    server. *)

From S2P Require Import Prelude GoStd Errors Store Authz Sse SseFacts Conc Poller PollerRun PollerRunFacts.
From S2P Require Import Main MainFacts Demo Tickers DemoServer.

(** Serving until the signal, waiting for the three workers, draining the server, returned. *)
Inductive demo_stage := DemoServing | DemoWaiting | DemoDraining | DemoReturned.

Record demo_process := mkDemoProcess {
  dm_stage : demo_stage;
  dm_cancelled : bool;       (* the context of the workers and the requests *)
  dm_ticker : ticking;       (* the goroutine of the world *)
  dm_site : hub * (loop * (Poller * DemoNet));
}.

Inductive demo_event :=
| DSite (e : site_event)                       (* the hub, the poller or a request moves *)
| DWorld (e : ticking_event (list string))     (* the goroutine of the world moves *)
| DSignal                                      (* the signal to stop *)
| DWaited                                      (* wg.Wait returns *)
| DShutdown (timeout : bool).                  (* the Shutdown of the server returns *)

Section demo_stop.
Context `{UT : UnicodeTables}.

(** A tick of the world that the poller and the API share. *)
Definition tick_site (order : list string) : M (hub * (loop * (Poller * DemoNet))) unit :=
  λ '(h, (l, (p, n))), let '(_, n') := on_world (tick order) n in (tt, (h, (l, (p, n')))).

(** A worker ends on a cancelled context only; the server takes connections until its [Shutdown]. *)
Definition demo_allowed (p : demo_process) (e : site_event) : bool :=
  match e with
  | SHub ECancel | SLoop LDone => dm_cancelled p
  | SHub (EConnect _ _) => match dm_stage p with DemoServing | DemoWaiting => true | _ => false end
  | _ => true
  end.

(** cmd/tsctl/main.go:566-618, runDemo. *)
Definition demo_step (e : demo_event) (p : demo_process) : option demo_process :=
  let go s c := Some (mkDemoProcess s c (dm_ticker p) (dm_site p)) in
  match e, dm_stage p with
  | DSite e, s =>
      if demo_allowed p e then
        st ← site_step (Env := demo_net_env) e (dm_site p);
        Some (mkDemoProcess s (dm_cancelled p) (dm_ticker p) st)
      else None
  | DWorld e, s =>
      if match e with TDone => dm_cancelled p | _ => true end then
        '(t, st) ← ticking_step TickInterval tick_site e (dm_ticker p, dm_site p);
        Some (mkDemoProcess s (dm_cancelled p) t st)
      else None
  | DSignal, DemoServing => go DemoWaiting true
  | DWaited, DemoWaiting =>
      match h_run (fst (dm_site p)) with
      | None => if lp_done (fst (snd (dm_site p))) && tg_done (dm_ticker p)
                then go DemoDraining (dm_cancelled p) else None
      | Some _ => None
      end
  | DShutdown timeout, DemoDraining =>
      if timeout || bool_decide (map_Forall (λ _ k, cn_pc k = HEnd) (h_conns (fst (dm_site p))))
      then go DemoReturned (dm_cancelled p) else None
  | _, _ => None
  end.
Fixpoint demo_steps (es : list demo_event) (p : demo_process) : option demo_process :=
  match es with
  | [] => Some p
  | e :: es' => p' ← demo_step e p; demo_steps es' p'
  end.
Definition demo_process0 (snap : Snapshot) (t0 : Time) (s : Poller * DemoNet) : demo_process :=
  mkDemoProcess DemoServing false (NewTicker t0 TickInterval) (Sse.New snap, (loop0 t0, s)).

(** ** Facts *)

#[local] Arguments ticking_step : simpl never.
#[local] Arguments site_step : simpl never.

Lemma demo_steps_app es es' p p1 :
  demo_steps es p = Some p1 → demo_steps (es ++ es') p = demo_steps es' p1.
Proof.
  revert p. induction es as [| e es IH]; intros p; [by intros [= ->] |]. cbn [demo_steps app].
  destruct (demo_step e p) as [p' |]; [apply IH | done].
Qed.

(** The hub stays well formed, and the context is cancelled from the signal on. *)
Definition demo_ok (p : demo_process) : Prop :=
  hub_ok (fst (dm_site p)) ∧ (dm_stage p ≠ DemoServing → dm_cancelled p = true).

Lemma demo_step_ok e p p' : demo_ok p → demo_step e p = Some p' → demo_ok p'.
Proof.
  intros [Hh Hc]. destruct e as [e | e | | | timeout]; simpl.
  - destruct (demo_allowed p e); [| by destruct (dm_stage p)].
    destruct (site_step e (dm_site p)) as [st |] eqn:E; [| by destruct (dm_stage p)].
    assert (hub_ok (fst st)) as Hst.
    { destruct (dm_site p) as [h ls]. apply site_step_parts in E as [_ [-> | (he & He & _)]]; [done |].
      by eapply hub_event_ok. }
    destruct (dm_stage p) eqn:Es; intros [= <-]; split; simpl; auto.
  - destruct (match e with TDone => _ | _ => true end); [| by destruct (dm_stage p)].
    destruct (ticking_step TickInterval tick_site e (dm_ticker p, dm_site p)) as [[t st] |] eqn:E; [| by destruct (dm_stage p)].
    assert (fst st = fst (dm_site p)) as Est.
    { unfold ticking_step in E. destruct e as [d | | b].
      - destruct (0 <=? d); [| done]. by injection E as _ <-.
      - destruct (tg_done (dm_ticker p)); [done |]. by injection E as _ <-.
      - destruct (tg_chan (dm_ticker p)), (tg_done (dm_ticker p)); try done. injection E as _ <-.
        destruct (dm_site p) as [h [l [q n]]]. simpl. by destruct (on_world (tick b) n). }
    destruct (dm_stage p) eqn:Es; intros [= <-]; (split; simpl; [by rewrite Est | auto]).
  - destruct (dm_stage p); intros [= <-]. by split.
  - destruct (dm_stage p) eqn:Es; try done. destruct (h_run (fst (dm_site p))); [done |]. case_match; [| done]. intros [= <-].
    split; [done | intros _; by apply Hc].
  - destruct (dm_stage p) eqn:Es; try done. destruct (timeout || _); intros [= <-].
    split; [done | intros _; by apply Hc].
Qed.

Lemma demo_steps_ok es p p' : demo_ok p → demo_steps es p = Some p' → demo_ok p'.
Proof.
  revert p. induction es as [| e es IH]; intros p Hp; [by intros [= <-] |]. cbn [demo_steps].
  destruct (demo_step e p) as [p1 |] eqn:E; [| done]. apply IH. by eapply demo_step_ok.
Qed.

(** On a cancelled context the goroutine of the world ends, and so does the loop. *)
Lemma demo_world_done sg t st :
  tg_done t = false →
  demo_step (DWorld TDone) (mkDemoProcess sg true t st) =
    Some (mkDemoProcess sg true (mkTicking (tg_now t) (tg_next t) (tg_chan t) true (tg_ran t)) st).
Proof. intros Ht. unfold demo_step, ticking_step. simpl. rewrite Ht. by destruct sg. Qed.
Lemma demo_loop_done sg t h l sy :
  lp_done l = false →
  demo_step (DSite (SLoop LDone)) (mkDemoProcess sg true t (h, (l, sy))) =
    Some (mkDemoProcess sg true t (h, (mkLoop (lp_now l) (lp_active l) None None true (lp_first l) (lp_ticks l), sy))).
Proof. intros Hl. unfold demo_step, site_step. simpl. rewrite Hl. by destruct sg. Qed.

#[local] Arguments demo_step : simpl never.

Lemma demo_hub_run es h h' p :
  dm_cancelled p = true → Forall hub_own es → fst (dm_site p) = h → hub_run es h = Some h' →
  demo_steps (map (λ e, DSite (SHub e)) es) p =
    Some (mkDemoProcess (dm_stage p) true (dm_ticker p) (h', snd (dm_site p))).
Proof.
  revert h p. induction es as [| e es IH]; intros h p Hc Hf Hh; simpl.
  - intros [= <-]. subst h. destruct p as [s c t [h ls]]. simpl in *. by subst c.
  - apply Forall_cons in Hf as [He Hf]. destruct (hub_event e h) as [h1 |] eqn:E; simpl; [| done]. intros Hr.
    assert (demo_step (DSite (SHub e)) p =
      Some (mkDemoProcess (dm_stage p) true (dm_ticker p) (h1, snd (dm_site p)))) as ->.
    { destruct p as [s c t [h0 [l sy]]]. simpl in Hh, Hc. subst h0 c. unfold demo_step, site_step. simpl.
      destruct e; try done; rewrite E; by destruct s. }
    simpl. rewrite (IH h1); done.
Qed.

(** The demo stops: from any point after the signal its own goroutines bring it to its end, within a
    number of steps bounded by the pending sends and the connections. *)
Theorem demo_completes snap t0 s es p :
  demo_steps es (demo_process0 snap t0 s) = Some p → dm_stage p = DemoWaiting →
  ∃ es' p', demo_steps es' p = Some p' ∧ dm_stage p' = DemoReturned ∧
    (List.length es' <=
       4 * List.length (pend (fst (dm_site p))) + 2 * size (h_conns (fst (dm_site p))) + 5)%nat.
Proof.
  intros Hr Hs. assert (demo_ok p) as [Hok Hc].
  { eapply demo_steps_ok; [| exact Hr]. split; [apply hub_ok_New | done]. }
  specialize (Hc ltac:(by rewrite Hs)). destruct p as [sg c t [h [l sy]]]. simpl in *. subst sg c.
  destruct (hub_winds_down h Hok) as (es1 & h1 & E1 & Hr1 & Hf & He1 & Hl1).
  pose proof (demo_hub_run es1 h h1 (mkDemoProcess DemoWaiting true t (h, (l, sy))) eq_refl Hf eq_refl E1) as Hhub.
  simpl in Hhub.
  assert (∀ l0 t1, lp_done l0 = true → tg_done t1 = true →
    demo_steps [DWaited; DShutdown false] (mkDemoProcess DemoWaiting true t1 (h1, (l0, sy))) =
      Some (mkDemoProcess DemoReturned true t1 (h1, (l0, sy)))) as Hend.
  { intros l0 t1 Hl Ht. cbn [demo_steps]. unfold demo_step. simpl. rewrite Hr1, Hl, Ht. simpl.
    by rewrite bool_decide_eq_true_2 by exact He1. }
  set (stop_loop := if lp_done l then [] else [DSite (SLoop LDone)]).
  set (stop_world := if tg_done t then [] else [DWorld TDone]).
  assert (∃ p', demo_steps (stop_loop ++ stop_world ++ [DWaited; DShutdown false])
    (mkDemoProcess DemoWaiting true t (h1, (l, sy))) = Some p' ∧ dm_stage p' = DemoReturned) as (p' & Hp & Hret).
  { unfold stop_loop, stop_world. destruct (lp_done l) eqn:Hl, (tg_done t) eqn:Ht; cbn [app demo_steps].
    - eexists. split; [by apply Hend | done].
    - rewrite demo_world_done by done. cbn [mbind option_bind]. eexists. split; [by apply Hend | done].
    - rewrite demo_loop_done by done. cbn [mbind option_bind]. eexists. split; [by apply Hend | done].
    - rewrite demo_loop_done by done. cbn [mbind option_bind]. rewrite demo_world_done by done.
      cbn [mbind option_bind]. eexists. split; [by apply Hend | done]. }
  exists (map (λ e, DSite (SHub e)) es1 ++ stop_loop ++ stop_world ++ [DWaited; DShutdown false]), p'.
  split; [| split].
  - by rewrite (demo_steps_app _ _ _ _ Hhub).
  - done.
  - rewrite !length_app, length_map. unfold stop_loop, stop_world. destruct (lp_done l), (tg_done t); simpl; lia.
Qed.
End demo_stop.
