(* ===== verification/MainWitness.v ===== *)
(** A process with one viewer is told to stop. *)

From S2P Require Import Prelude GoStd Errors Store Authz Sse SseFacts Conc Poller PollerRun PollerRunFacts.
From S2P Require Import Fixtures PollerWitness Main MainFacts.

Definition launched : process := process0 (snap_at 0) 0 (poller0, world0).
Definition until_signal : list proc_event := map PSite visit ++ [PSignal].
Definition after_events (es : list proc_event) : process := default launched (proc_run false (λ _, false) es launched).
(** The hub and the poller stop, while the viewer's stream is still open. *)
Definition workers_stop : list proc_event := [PSite (SHub ECancel); PSite (SLoop LDone); PWaited].
Definition streams_end : list proc_event :=
  [PSite (SHub (EGone 0)); PSite (SHub (EGone 0)); PShutdown false; PShutdown false; PClose None].



(** [wg.Wait] returns once the hub and the poller have stopped; the handler of a stream may
    still be running. *)
Example wait_returns_before_streams :
  let p := after_events (until_signal ++ workers_stop) in
  pc_stage p = DrainTailnet ∧ cn_pc <$> h_conns (fst (pc_site p)) !! 0%nat = Some HServe.
Proof. split; vm_compute; reflexivity. Qed.
