(* ===== verification/Divergences.v ===== *)
(** Concrete runs in which the code does something other than its comments say, or than
    it is meant to.  The race of a broadcast is in SseFacts.v ([broadcast_overtaken]) and
    that of a guest's zone in SystemWitness.v ([guest_left_without_zone]). *)

From S2P Require Import Main.
From S2P Require Import Prelude GoStd Errors Store AtomicFile FileStore Router Poller Demo.
From S2P Require Import Netip Conc PollerBase Poller PollerSeq PollerConc Fixtures.
From S2P Require Import PollerWitness Router Config SystemWitness.

(** ** A poll that starts before a keep and captures after it *)

(** A node without the router tag: it is listed, and contacted only on request. *)
Definition plain_node : NodeView :=
  mkNodeView "d1" "device-one" "d1" ["100.64.0.5"] "linux" true zeroTime false [] NodeGeneric false.
Definition listing : PollerEnv World := scripted [plain_node; exit_node].
Definition lister : Poller := NewPoller (NewStore zeroTime) [] 0 |> ConfigureKeep true.

(** One client polls, sets and keeps; a second poll reads the published snapshot before
    the keep and the generations after it. *)
Definition straddling : list nat :=
  repeat 0%nat 18 ++ repeat 1%nat 2 ++ repeat 0%nat 20 ++ repeat 1%nat 20.
Definition straddled : (Poller * World) * list (thread (Poller * World)) :=
  pool_run straddling
    ((lister, world0), run_ops (Env := listing) <$> [[OpRefresh; OpSet "d1" "e1"; OpKeep "d1"]; [OpRefresh]]).

(** The change was kept on the device, and is published as still waiting for its keep;
    there is no gate left, so a keep is refused; and the next poll carries the view on. *)
Example stale_awaiting_keep :
  let s := fst straddled in
  let s' := snd (run (refreshOnce (Env := listing)) s) in
  last (w_calls (snd s)) = Some (CallKeep "100.64.0.5" "/run/keep.1") ∧
  rv_State <$> snap_Routers (p_snap (fst s)) = [RouterAwaitingKeep] ∧
  p_pendingKeep (fst s) = ∅ ∧
  snd (fst (run (Keep (Env := listing) "d1") s)) ≠ None ∧
  rv_State <$> snap_Routers (p_snap (fst s')) = [RouterAwaitingKeep].
Proof.
  split; [vm_compute; reflexivity |]. split; [vm_compute; reflexivity |]. split; [vm_compute; reflexivity |].
  split; [vm_compute; discriminate | vm_compute; reflexivity].
Qed.

(** ** A pending view with a deadline *)

(** A second set of a router that awaits a keep is published as pending with the deadline
    of the first, which is zero in every state but awaiting-keep. *)
Example pending_with_deadline :
  let pending := map (mark_pending None) (snap_Routers (p_snap (fst gated))) in
  rv_State <$> pending = [RouterPending] ∧ rv_RevertAt <$> pending = [ke_revertAt gate1] ∧
  ke_revertAt gate1 ≠ zeroTime.
Proof. split; [vm_compute; reflexivity |]. split; [vm_compute; reflexivity | done]. Qed.

(** ** A failed set after one that awaits its keep *)

(** The command of the second set is refused by the router. *)
Definition refusing (s : Poller * World) : Poller * World :=
  (fst s, mkWorld (w_clock (snd s)) (w_tick (snd s)) None (exit_runtime, None)
            (zeroRuntime, "", Some (ErrCommand (mkCommandError "100.64.0.1" "apply exit-node" "no" 1)))
            None ("ok", None) (true, "", None) None []).
Definition failed_after : Poller * World := snd (run (SetExitNode "r1" "") (refusing gated)).

(** The gate of the first set stays, so polls show the router as waiting for a keep that
    is refused as superseded. *)
Example unkeepable_gate :
  let s := snd (run refreshOnce failed_after) in
  rv_State <$> snap_Routers (p_snap (fst s)) = [RouterAwaitingKeep] ∧
  snd (fst (run (Keep "r1") s)) = Some errSuperseded.
Proof. split; vm_compute; reflexivity. Qed.

(** ** Addresses *)

(** A bracketed IPv6 endpoint without a port is bracketed again. *)
Example ensurePort_brackets_twice :
  ensurePort "[fe80::1]" = "[[fe80::1]]:22" ∧ ∃ e, SplitHostPort (ensurePort "[fe80::1]") = inl e.
Proof. split; [vm_compute; reflexivity |]. vm_compute. by eexists. Qed.

(** An IPv6 router address is accepted, although every per-router table of the poller is
    looked up by the IPv4 address of the node. *)
Definition ipv6_flags : Flags :=
  mkFlags "tsctl" "/var/lib/tsctl" ":80" "127.0.0.1:8090" "root" false "fd7a:115c:a1e0::1" (10 * Second)
    "owner@example.com" "" "" "tsctl.tail.ts.net" (30 * Second) "" false "https://example.com/" true
    "tailscale-ssh" "tofu" "".
Example ipv6_router_accepted :
  ∃ c, resolveConfig bare ipv6_flags = inr c ∧ cfg_Routers c = ["fd7a:115c:a1e0::1"].
Proof.
  destruct (resolveConfig bare ipv6_flags) as [e | c] eqn:E.
  - apply (f_equal (λ r, match r with inl _ => true | inr _ => false end)) in E. vm_compute in E. discriminate.
  - exists c. split; [done |].
    apply (f_equal (λ r, match r with inl _ => [] | inr c => cfg_Routers c end)) in E. vm_compute in E. by symmetry.
Qed.

(** ** The demo's zones *)

(** A second zone of the same name is accepted by the demo's store. *)
Definition two_ids : FileStore.World Group := FileStore.mkWorld (mkFSState ∅ [] [] []) [inr 1; inr 2] [].
Definition lab : Group := mkGroup "" "Lab" [] [].
Example demo_accepts_duplicate_names :
  let w := snd (Demo.Create lab (snd (Demo.Create lab two_ids))) in
  g_Name <$> Demo.List_ w = ["Lab"; "Lab"] ∧ g_ID <$> Demo.List_ w = ["0000000000000001"; "0000000000000002"].
Proof. split; vm_compute; reflexivity. Qed.

(** ** The watchdog *)

(** An interval that wraps around is negative, and a ticker of a negative interval panics. *)
Example watchdog_interval_wraps :
  ∃ d, startWatchdog "9223372036854776" = WatchdogEvery d ∧ d < 0.
Proof. eexists. split; [vm_compute; reflexivity | done]. Qed.
